(* ===== verification/_CoqProject ===== *)
-Q . S2P
Prelude.v
Hex.v
Units.v
CrMath.v
Elements.v
Floats.v
Toy.v
Oracle.v
Simf.v
Domain.v
Encode.v
Artifacts.v
Jets.v
CovVault.v
CovReserve.v
CovIssuer.v
Plan.v
BuildOwner.v
BuildKeeper.v
Accept.v
CovLemmas.v
CovAccept.v
Sound.v
Quotes.v
SoundOwner.v
SoundKeeper.v
Testkit.v
Decide.v
Sockets.v
OracleFeed.v
Pset.v
Protocol.v
Effects.v
Node.v
Funding.v
FundingSpec.v
Ceremony.v
CeremonySpec.v
Index.v
IndexSpec.v
IndexSim.v
Sync.v
Snapshot.v
Config.v
Relay.v
Deploy.v
DeploySpec.v
OracleService.v
OracleRuns.v
Gate.v
Wallet.v
IndexTyped.v
Ops.v
WalletSpec.v
OpsSpec.v
OpsCases.v
Keeper.v
KeeperSpec.v
Patrol.v
Daemon.v
Lifecycle.v
LifecycleSpec.v
SpotChecks.v
Explorer.v
ExplorerSpec.v
Render.v
Api.v
Cli.v
Server.v
ApiSpec.v
Public.v
Samples.v
ToyHost.v
SamplesWatch.v
SamplesWallet.v
SamplesOracle.v
SamplesApp.v
SamplesDeploy.v
SamplesLife.v
SamplesDaemon.v
