(* ===== verification/Prelude.v ===== *)
(** * STYX v1: a verification development (root file)

    STYX is a collateralized-debt protocol on Liquid: a vault locks L-BTC and mints the
    OBOL asset under covenants, signed price ticks of five oracles drive liquidation and
    redemption, and a reserve of L-BTC absorbs bad debt.  The repository holds the five
    covenants ([covenants/*.simf]), the transaction builders and their data
    ([crates/styx-core], [crates/styx-pset]), the watchers that follow the chain and the
    quotes ([crates/styx-watch], [crates/styx-node]) and the programs on top of them
    ([styx-wallet], [styx-keeper], [styx-oracle], [styx-app], [styx-explorer]).  This
    library models them as they are written and proves that they fit together.

    ** How the parts interact

    A wallet or a keeper syncs its index over the blocks of its node, assembles a tick from
    the quotes it cached, asks a builder for a plan, has the plan signed and finalized
    (every covenant input runs its program on the way), and hands the transaction to its
    node.  When the chain confirms it, the index of every watcher moves to the coins the
    builder announced.  The development follows that circle:

    - the builder's plan is accepted by the covenants and announces coins it creates
      ([SoundOwner], [SoundKeeper], over the covenants of [CovVault], [CovReserve] and
      [CovIssuer]);
    - what any sequence of such transactions does to the protocol's coins ([Protocol]);
    - the index reads the same coins off the transactions ([IndexSpec], [IndexSim]) and off
      blocks ([Sync]);
    - what wallet and keeper hand to a node is nothing but the finalized transactions of such
      plans and of the wallet's own payments, on every path through retries and failures
      ([WalletSpec], [OpsSpec], [KeeperSpec], [Patrol]);
    - what an oracle signs is what the watchers' books take ([OracleRuns], [Quotes]), and
      what it published last is what they fetch ([Relay]);
    - the programs compose these from their configuration files to their exit: the wallet's
      commands ([Cli]), the watchtower ([Daemon]), the explorer, the application and the
      oracle ([Public]).

    ** Files

    Foundations: [Prelude] (results, machine integers, the [assert!] and [while] forms),
    [Hex], [Effects] (fallible computations over a world, Hoare triples on them).

    Core crate, [styx-core]: [Units] ([units.rs], [consts.rs]), [CrMath] ([math.rs]),
    [Oracle] ([oracle.rs]), [Simf] and [Encode] ([encode/]), [Domain] ([domain.rs],
    [params.rs], [leaves.rs], [net.rs]), [Artifacts] ([artifacts.rs]).

    Covenants: [Jets] (jets and the helpers the sources share), [CovVault] ([vault.simf]),
    [CovReserve] ([stability.simf], [pot_outflow.simf], [reserve_repay.simf]), [CovIssuer]
    ([issuer.simf]).  Each [main] is an option-valued function of the spending transaction:
    [None] is an abort.

    Builders, [styx-pset]: [Elements] (transactions, [layout.rs]), [Plan] ([plan.rs],
    [intent.rs], [finalize.rs], [sign.rs], [error.rs]), [BuildOwner] and [BuildKeeper]
    ([build/]), [Pset] ([pset.rs], [signing.rs]).  Their theorems: [Accept] (finalization
    succeeds when covenants accept), [CovLemmas] and [CovAccept] (when each arm accepts),
    [Sound], [SoundOwner], [SoundKeeper], [Protocol].  [Testkit] ([testkit/mod.rs],
    [scenarios.rs]) holds the canonical transaction of every operation.

    Watchers: [Quotes] ([quotes.rs]), [Index] ([index.rs]) with [IndexSpec], [IndexSim] and
    [IndexTyped], [Node] ([styx-node/src/client.rs], [scan.rs]), [Sync] ([sync.rs]),
    [Snapshot] ([snapshot.rs]), [Config] ([config.rs] of the watcher, wallet and keeper),
    [Relay] ([nostr.rs], [transport.rs]).

    Programs: [Wallet] ([wallet.rs]), [Ops] ([ops.rs]), [WalletSpec], [OpsSpec],
    [OpsCases]; [Decide] ([decide.rs]), [Keeper] ([keeper.rs]), [KeeperSpec], [Patrol];
    [Daemon] (the keeper's [main.rs]), [Cli] (the wallet's [main.rs]); [OracleFeed]
    ([feed.rs]), [OracleService] ([service.rs], [http.rs], [config.rs],
    [main.rs] of the oracle), [OracleRuns].
    Application and explorer: [Sockets] (socket addresses as text), [Gate] ([auth.rs],
    [config.rs], [ui.rs] of the application), [Api] ([api.rs]), [Server] (the keeper loop,
    the router and the tick loop of [api.rs] and [main.rs]), [ApiSpec]; [Explorer]
    ([state.rs], [config.rs] and the passes of [main.rs]), [ExplorerSpec], [Render]
    ([render.rs]); [Public] ([main.rs] of both and of the oracle: starts,
    subscriptions, generated identities).

    Deployment, [styx-node] and [styx-deploy]: [Floats] (binary64, the amounts in the node's
    JSON), [Funding] (the setup half of [client.rs]) with [FundingSpec], [Ceremony]
    ([ceremony.rs]) with [CeremonySpec], [Deploy] ([styx-deploy/src/main.rs]) with
    [DeploySpec], [Lifecycle] ([lifecycle.rs], [regtest.rs]) with [LifecycleSpec] and
    [SpotChecks].

    Instances: [Toy] and [ToyHost] instantiate the interfaces below with executable
    stand-ins; [Samples], [SamplesWatch], [SamplesWallet], [SamplesOracle],
    [SamplesApp], [SamplesDeploy], [SamplesLife] and [SamplesDaemon] apply the theorems to
    concrete inputs, evaluated: a deployment's whole life, a watchtower that acts and then
    loses its node, a command, a page.

    ** State and operations

    A Rust struct is a record with its fields in order, a newtype keeps its constructor
    ([Sats.new], [Obol.raw]), an enum is an inductive with its variants.  [Result] is
    [result], with [?] as bind; [&mut self] methods are computations [Eff W E A] over the
    world they change, which an error leaves as far as it got.  The state of each component:
    [Index.IndexState] for the watchers; [Wallet.Wallet.t] for a session (node, disk, index,
    key, and for the theorems the log [sent] of transactions handed to the node);
    [Keeper.Keeper.t] (a session, the quote book, the height last acted on), in
    [Daemon.Daemon.t] beside the subscription and the start of an outage;
    [Relay.NostrQuotes.t] for an endpoint, the relays beside it;
    [OracleService.OracleState]; [Protocol.Sys] for the live coins, with one
    constructor of [Protocol.step] per builder.

    ** What the theorems show

    Each property of the manifest names its theorem; the groups are
    - builders and covenants agree: every checked builder that succeeds on a well-formed
      intent gives a plan which finalizes, balances, and carries the coins it announces;
    - protocol safety over any run: the supply is conserved, no permissionless operation
      takes more than 115% of the debt it relieves, heights and anchors only advance;
    - the index refines the protocol, one transaction at a time and over blocks with
      arbitrary foreign transactions, but for a repayment of zero, which loses it a vault,
      and for vaults whose owner it cannot find; and it is sound on every layout;
    - the quorum: prices are bounded by what honest oracles signed, a tick is assembled as
      soon as three honest quotes agree, unsigned ticks are never assembled;
    - the keeper's ladder decides what the builders accept, and below 220,000 USD per BTC and
      above the mint anchor exactly that; its loops terminate on the optimal repayment, a step
      does its most severe duty, once per height;
    - sessions: retries are bounded, every outcome is classified, and a snapshot restarts the
      session it was taken from.  Nothing unsound is sent: [WalletSpec.sound_tx] holds of a
      transaction when it is the body of a checked builder's plan, or of an exact payment of
      the wallet's coins, the vault, issuer and reserve covenants of its inputs ran to
      acceptance on it, and each other input carries a verified signature of the wallet
      ([sound_tx_signed] shows what such a transaction carries);
    - oracles: what is signed is refused for its height at most, published at most once per
      height, and relays that keep NIP-01's promise serve the latest post of a height;
    - the watchtower as a whole, from file to exit: signed ticks, one action per block, sound
      transactions, three reasons to stop and one to panic; a wallet command likewise, on a
      tick at most eight blocks old;
    - the canonical scenarios are accepted whatever the primitives are;
    - deployment: a ceremony founds a well-formed protocol with the fixed supply, a payment
      balances and takes no coin too many, the wait for a confirmation ends, amounts survive
      the floats they travel in, and a deployment is recorded exactly or not at all;
    - the end-to-end driver: each of its steps is confirmed, its trace is tabulated, and what
      it tampers with is refused by the covenants, not only by the node it runs on;
    - application: over any interleaving of requests, jobs and keeper sections only sound
      transactions are sent, one keeper loop lives at a time, an exported plan comes back as signing
      in process would make it, and the perimeter lets only trusted pages in;
    - explorer: its feed replays the chain, the bands it shows determine the keeper's verdicts,
      given the ratchet, the mint anchor and the sizing the page leaves out, its ticks and
      prices are signed (its labels are not), and no text can inject markup into its page.

    ** Bounds and fuel

    Machine integers are [Z] with their Rust operation written out: [u64_checked_add],
    saturating and wrapping forms.  Unchecked sums wrap, as in the release profile.
    [Prelude.while] bounds a loop by a binary number: 64 iterations for the binary search
    over a [u32] interval (33 suffice, [Decide]) and 2^32 for the walk over [u32] debts;
    [plan_partial_optimal] shows both stop because their condition fails, below 220,000 USD
    per BTC.  The retry counts (3 attempts of an operation, 40 waits for a busy scan) are
    the program's own, as are 120 attempts to fund an address, 32 exported plans and 100
    notices.  The wait for a confirmation is given one sleep more than its timeout holds
    ([Funding.polls]), and [confirm_ends] shows the source's unbounded loop ends with the
    same result.  Block scans recurse over the heights up to the reported tip.  A drain of
    the relays reads once more than there are notifications, after which no quote is left
    ([drain_all]); a daemon's run is the list of its passes.

    ** Outside the repository

    Interfaces, each with its laws in the class named beside it: hashes, Schnorr signatures
    and taproot ([Lib], [LibSpec]); the SimplicityHL compiler ([Compiler]); the sig-all hash
    ([SigHash], [SigHashSpec]); pruning and serialization of a redeemed program ([Redeemer],
    [RedeemerSpec]); key-path digests and tweaks ([KeySpend], [KeySpendSpec]); the node's
    RPC ([Rpc], no law; [RpcTyped] for well-typed replies); text forms ([Display],
    [DisplaySpec]), [Json], [Toml], [Files], [Disk] with [JsonSpec] and [DiskSpec];
    [TxSize], [SecretKey], [JsonValue], [OutPointOrder]; parsers of keys, assets and
    outpoints ([XOnlyParse], [AssetParse], [AssetShow], [OutPointParse]); addresses and
    transaction encodings ([Addresses], [TxCodec]); the node's own wallet ([WalletRpc],
    [WalletAdmin], with [WalletTyped] and [wallet_reports] for what it says of its coins),
    asset ids ([IssuanceId]), the clock ([Clock], [ClockSpec]); the Nostr client and its
    relays ([Client], with NIP-01's promise in [RelaySpec]), a quote's JSON ([QuoteSerde]) and
    the broadcast channel ([Broadcast]).  Covenant sources are modelled by
    translation; that the compiler preserves their meaning is not claimed.

    ** Not modelled

    The launch of a regtest node and the fragmentation of its wallet ([regtest.rs]); the
    frozen program roots of [golden.rs], which are the compiler's output; argument parsing,
    the printed text and the entropy of the binaries, their listeners and task set-up; the
    embedded pages and style sheets, the event stream, the JSON forms and headers of the two
    servers ([serve.rs]), which are serde's and axum's.  The asynchronous
    client of [nostr.rs] is seen through what it returns: a receiver is the list of what has
    arrived.  Messages of errors are kept only where the code reads them back. *)

From stdpp Require Import base gmap strings list.
From Stdlib Require Import ZArith Lia.
#[global] Open Scope Z_scope.

(** ** Results

    Rust's [Result<T, E>]; the error type comes first so that [result E] is a monad
    for stdpp's [x ← e; k] notation, which stands for Rust's [?] operator. *)

Inductive result (E A : Type) : Type :=
| Ok (a : A)
| Err (e : E).
Arguments Ok {E A} _.
Arguments Err {E A} _.

#[export] Instance result_ret E : MRet (result E) := fun _ => Ok.
#[export] Instance result_bind E : MBind (result E) :=
  fun _ _ f r => match r with Ok a => f a | Err e => Err e end.
#[export] Instance result_fmap E : FMap (result E) :=
  fun _ _ f r => match r with Ok a => Ok (f a) | Err e => Err e end.

Definition is_ok {E A} (r : result E A) : bool :=
  match r with Ok _ => true | Err _ => false end.

(** [Result::map_err]. *)
Definition map_err {E F A} (f : E -> F) (r : result E A) : result F A :=
  match r with Ok a => Ok a | Err e => Err (f e) end.

(** [Option::ok_or]. *)
Definition ok_or {E A} (e : E) (o : option A) : result E A :=
  match o with Some a => Ok a | None => Err e end.

(** [Result::ok]. *)
Definition ok {E A} (r : result E A) : option A :=
  match r with Ok a => Some a | Err _ => None end.

Lemma bind_ok {E A B} (r : result E A) (f : A -> result E B) b :
  (r ≫= f) = Ok b <-> exists a, r = Ok a /\ f a = Ok b.
Proof. destruct r; cbn; split; [eauto|by intros (?&[= ->]&?)|done|by intros (?&?&?)]. Qed.

Lemma bind_err {E A B} (r : result E A) (f : A -> result E B) e :
  (r ≫= f) = Err e <-> r = Err e \/ exists a, r = Ok a /\ f a = Err e.
Proof. destruct r; cbn; naive_solver. Qed.

Lemma map_err_ok {E F A} (f : E -> F) (r : result E A) a :
  map_err f r = Ok a <-> r = Ok a.
Proof. destruct r; cbn; naive_solver. Qed.

Lemma ok_or_ok {E A} (e : E) (o : option A) a : ok_or e o = Ok a <-> o = Some a.
Proof. destruct o; cbn; naive_solver. Qed.

Lemma ok_some {E A} (r : result E A) a : ok r = Some a <-> r = Ok a.
Proof. destruct r; cbn; naive_solver. Qed.

(** ** Machine integers

    A [u32] or [u64] is a [Z]; the predicates below state the ranges their Rust types
    guarantee.  Sums the code leaves unchecked wrap (the release profile of the
    workspace sets no overflow checks); everything else is checked or saturating, as
    written at each call. *)

Definition U32_MAX : Z := 4294967295.
Definition U64_MAX : Z := 18446744073709551615.
Definition u8 (x : Z) : Prop := 0 <= x < 256.
Definition u32 (x : Z) : Prop := 0 <= x < 4294967296.
Definition u64 (x : Z) : Prop := 0 <= x < 18446744073709551616.

Definition u64_checked_add (a b : Z) : option Z :=
  if a + b <=? U64_MAX then Some (a + b) else None.
Definition u64_checked_sub (a b : Z) : option Z :=
  if b <=? a then Some (a - b) else None.
Definition u64_sat_add (a b : Z) : Z := Z.min (a + b) U64_MAX.
Definition u64_sat_sub (a b : Z) : Z := Z.max (a - b) 0.
Definition u64_sat_mul (a b : Z) : Z := Z.min (a * b) U64_MAX.
Definition u64_wadd (a b : Z) : Z := (a + b) mod 18446744073709551616.
Definition u64_wsub (a b : Z) : Z := (a - b) mod 18446744073709551616.
Definition u32_sat_add (a b : Z) : Z := Z.min (a + b) U32_MAX.
Definition u32_sat_sub (a b : Z) : Z := Z.max (a - b) 0.
Definition u32_wmul (a b : Z) : Z := (a * b) mod 4294967296.
Definition u32_wsub (a b : Z) : Z := (a - b) mod 4294967296.

#[export] Instance u32_dec x : Decision (u32 x).
Proof. unfold u32. apply _. Defined.
#[export] Instance u64_dec x : Decision (u64 x).
Proof. unfold u64. apply _. Defined.

Lemma u64_checked_add_Some a b c :
  u64_checked_add a b = Some c <-> a + b <= U64_MAX /\ c = a + b.
Proof. unfold u64_checked_add. destruct (Z.leb_spec (a + b) U64_MAX); naive_solver lia. Qed.

Lemma u64_checked_sub_Some a b c :
  u64_checked_sub a b = Some c <-> b <= a /\ c = a - b.
Proof. unfold u64_checked_sub. destruct (Z.leb_spec b a); naive_solver lia. Qed.

Lemma u64_sat_add_id a b : a + b < 18446744073709551616 -> u64_sat_add a b = a + b.
Proof. unfold u64_sat_add, U64_MAX. lia. Qed.

Lemma u64_sat_sub_id a b : b <= a -> u64_sat_sub a b = a - b.
Proof. unfold u64_sat_sub. lia. Qed.

Lemma u64_wadd_id a b :
  0 <= a -> 0 <= b -> a + b < 18446744073709551616 -> u64_wadd a b = a + b.
Proof. intros. unfold u64_wadd. apply Z.mod_small. lia. Qed.

Lemma u64_wsub_id a b : 0 <= b <= a -> a < 18446744073709551616 -> u64_wsub a b = a - b.
Proof. intros. unfold u64_wsub. apply Z.mod_small. lia. Qed.

(** ** Tactics

    [uint] unfolds the integer vocabulary and calls [lia]; [peel] walks a hypothesis
    that says a guarded computation succeeded, one guard at a time. *)

Lemma u64_sat_add_eq a b : u64_sat_add a b = Z.min (a + b) 18446744073709551615.
Proof. done. Qed.
Lemma u64_sat_sub_eq a b : u64_sat_sub a b = Z.max (a - b) 0.
Proof. done. Qed.
Lemma u64_sat_mul_eq a b : u64_sat_mul a b = Z.min (a * b) 18446744073709551615.
Proof. done. Qed.
Lemma u32_sat_add_eq a b : u32_sat_add a b = Z.min (a + b) 4294967295.
Proof. done. Qed.
Lemma u32_sat_sub_eq a b : u32_sat_sub a b = Z.max (a - b) 0.
Proof. done. Qed.

(** Saturating operations are rewritten, not unfolded: the kernel compares the unfolded
    forms by evaluation. *)
Ltac unsat :=
  repeat match goal with
  | H : context [u64_sat_add ?a ?b] |- _ => rewrite (u64_sat_add_eq a b) in H
  | H : context [u64_sat_sub ?a ?b] |- _ => rewrite (u64_sat_sub_eq a b) in H
  | H : context [u64_sat_mul ?a ?b] |- _ => rewrite (u64_sat_mul_eq a b) in H
  | H : context [u32_sat_add ?a ?b] |- _ => rewrite (u32_sat_add_eq a b) in H
  | H : context [u32_sat_sub ?a ?b] |- _ => rewrite (u32_sat_sub_eq a b) in H
  end;
  rewrite ?u64_sat_add_eq, ?u64_sat_sub_eq, ?u64_sat_mul_eq, ?u32_sat_add_eq, ?u32_sat_sub_eq.

Ltac uint := unfold u8, u32, u64 in *; unsat; unfold U32_MAX, U64_MAX in *; lia.

Ltac boolz :=
  repeat match goal with
  | H : (_ <=? _) = true |- _ => apply Z.leb_le in H
  | H : (_ <=? _) = false |- _ => apply Z.leb_gt in H
  | H : (_ <? _) = true |- _ => apply Z.ltb_lt in H
  | H : (_ <? _) = false |- _ => apply Z.ltb_ge in H
  | H : (_ =? _) = true |- _ => apply Z.eqb_eq in H
  | H : (_ =? _) = false |- _ => apply Z.eqb_neq in H
  | H : negb _ = false |- _ => apply negb_false_iff in H
  | H : (_ && _)%bool = true |- _ => apply andb_true_iff in H as [??]
  | H : (_ || _)%bool = false |- _ => apply orb_false_iff in H as [??]
  | H : bool_decide _ = true |- _ => apply bool_decide_eq_true_1 in H
  | H : negb _ = true |- _ => apply negb_true_iff in H
  | H : bool_decide _ = false |- _ => apply bool_decide_eq_false_1 in H
  end.

Ltac peel_step H :=
  match type of H with
  | Ok _ = Ok _ => injection H as H
  | Some _ = Some _ => injection H as H
  | Err _ = Ok _ => discriminate H
  | None = Some _ => discriminate H
  | (_ ≫= _) = Ok _ => apply bind_ok in H as (? & ? & H)
  | (_ ≫= _) = Some _ => apply bind_Some in H as (? & ? & H)
  | map_err _ _ = Ok _ => apply map_err_ok in H
  | ok_or _ _ = Ok _ => apply ok_or_ok in H
  | (if ?b then _ else _) = _ => let E := fresh "G" in destruct b eqn:E; cbn in H
  | (match ?x with _ => _ end) = _ =>
      let E := fresh "G" in destruct x eqn:E; cbn in H
  end.

Ltac peel H := cbn in H; repeat (peel_step H; try discriminate H); boolz.

(** Pass a guard that would have returned an error. *)
Ltac pass_guard H :=
  lazymatch type of H with
  | (if ?b then _ else _) = _ =>
      let G := fresh "G" in destruct b eqn:G; [discriminate H|]
  end.

Ltac destruct_unit := repeat match goal with x : unit |- _ => destruct x end.

Create HintDb styx discriminated.
#[export] Hint Resolve u64_sat_add_id u64_sat_sub_id u64_wadd_id : styx.

(** ** Assertions

    A covenant is a partial program: an [assert!] that fails aborts it.  [None] is an
    aborted run. *)

Declare Scope styx_scope.
Delimit Scope styx_scope with styx.
Notation "'assert!' b ; k" := (if (b : bool) then k else None)
  (at level 100, b at level 99, k at level 200, right associativity,
   format "'assert!'  b ; '//' k") : styx_scope.
#[global] Open Scope styx_scope.

(** ** Loops

    [while fuel cond body s] runs Rust's [while cond { body }] for at most [fuel]
    iterations.  A loop is shown to terminate by showing that its condition is false in
    the state it ends with. *)

Section While.
Context {S : Type} (cond : S -> bool) (body : S -> S).

Definition iteration (s : S) : S := if cond s then body s else s.

Fixpoint while (fuel : positive) (s : S) : S :=
  match fuel with
  | xH => iteration s
  | xO p => let s' := while p s in if cond s' then while p s' else s'
  | xI p =>
      let s1 := iteration s in
      if cond s1 then let s' := while p s1 in if cond s' then while p s' else s' else s1
  end.

Lemma iterations_done n s : cond s = false -> Nat.iter n iteration s = s.
Proof.
  intros Hs. induction n as [|n IH]; [done|].
  change (iteration (Nat.iter n iteration s) = s). rewrite IH. unfold iteration. by rewrite Hs.
Qed.

Lemma while_iter p s : while p s = Nat.iter (Pos.to_nat p) iteration s.
Proof.
  revert s. induction p as [p IH|p IH|]; intros s; cbn [while]; [| |done].
  - rewrite Pos2Nat.inj_xI, <- Nat.add_1_r, Nat.iter_add.
    change (Nat.iter 1 iteration s) with (iteration s).
    destruct (cond (iteration s)) eqn:H1; [|symmetry; by apply iterations_done].
    replace (2 * Pos.to_nat p)%nat with (Pos.to_nat p + Pos.to_nat p)%nat by lia.
    rewrite Nat.iter_add, <- !IH.
    destruct (cond (while p (iteration s))) eqn:H2; [done|].
    rewrite (IH (while p _)). symmetry. by apply iterations_done.
  - rewrite Pos2Nat.inj_xO. replace (2 * Pos.to_nat p)%nat with (Pos.to_nat p + Pos.to_nat p)%nat by lia.
    rewrite Nat.iter_add, <- !IH.
    destruct (cond (while p s)) eqn:H2; [done|].
    rewrite (IH (while p _)). symmetry. by apply iterations_done.
Qed.

Context (P : S -> Prop) (HP : forall s, P s -> cond s = true -> P (body s)).

Lemma iterations_inv n s : P s -> P (Nat.iter n iteration s).
Proof.
  intros Hs. induction n as [|n IH]; [done|].
  change (P (iteration (Nat.iter n iteration s))). unfold iteration at 1.
  destruct (cond _) eqn:E; auto.
Qed.

Lemma while_inv p s : P s -> P (while p s).
Proof. rewrite while_iter. apply iterations_inv. Qed.

Lemma iterations_succ n s : Nat.iter (Datatypes.S n) iteration s = Nat.iter n iteration (iteration s).
Proof. apply Nat.iter_succ_r. Qed.

(** A measure that every iteration lowers bounds the iterations. *)
Lemma while_done (m : S -> Z) p s :
  (forall s, P s -> cond s = true -> 0 <= m (body s) < m s) ->
  P s -> m s <= Zpos p -> cond (while p s) = false.
Proof.
  intros Hm Hs Hp. rewrite while_iter.
  assert (Hn : m s <= Z.of_nat (Pos.to_nat p)) by lia. clear Hp.
  revert s Hs Hn. induction (Pos.to_nat p) as [|n IH]; intros s Hs Hn.
  - destruct (cond s) eqn:E; [|done]. specialize (Hm s Hs E). lia.
  - rewrite iterations_succ. unfold iteration. destruct (cond s) eqn:E.
    + specialize (Hm s Hs E). apply IH; [by apply HP|lia].
    + by rewrite iterations_done.
Qed.

(** A width that every iteration halves: its binary length bounds the iterations. *)
Lemma while_halves (w : S -> Z) p s :
  (forall s, P s -> cond s = true -> 0 < w s /\ 0 <= 2 * w (body s) <= w s) ->
  P s -> 0 <= w s < 2 ^ Zpos p -> cond (while p s) = false.
Proof.
  intros Hw Hs Hp. rewrite while_iter. rewrite <- (positive_nat_Z p) in Hp.
  revert s Hs Hp. induction (Pos.to_nat p) as [|n IH]; intros s Hs Hn.
  - destruct (cond s) eqn:E; [|done]. specialize (Hw s Hs E). cbn in Hn. lia.
  - rewrite iterations_succ. unfold iteration. destruct (cond s) eqn:E.
    + specialize (Hw s Hs E). apply IH; [by apply HP|].
      rewrite Nat2Z.inj_succ, Z.pow_succ_r in Hn by lia. lia.
    + by rewrite iterations_done.
Qed.

End While.

(** ** Maxima

    [Iterator::max_by_key] under the order [le] of the keys: the later of two equal maxima
    is kept. *)

Definition max_step {A} (le : A -> A -> bool) (best : option A) (x : A) : option A :=
  match best with
  | Some y => if le y x then Some x else Some y
  | None => Some x
  end.
Definition max_by {A} (le : A -> A -> bool) (l : list A) : option A := foldl (max_step le) None l.

Lemma max_fold_elem {A} (le : A -> A -> bool) l o x :
  foldl (max_step le) o l = Some x -> o = Some x \/ x ∈ l.
Proof.
  revert o. induction l as [|y l IH]; intros o; cbn; [by left|].
  intros [E|?]%IH; [|by right; right]. unfold max_step in E.
  destruct o as [z|]; [destruct (le z y)|]; simplify_eq; eauto using list_elem_of_here.
Qed.

Lemma max_by_elem {A} (le : A -> A -> bool) l x : max_by le l = Some x -> x ∈ l.
Proof. by intros [?|?]%max_fold_elem. Qed.

Lemma max_by_some {A} (le : A -> A -> bool) l : l <> [] -> is_Some (max_by le l).
Proof.
  assert (G : forall l o, is_Some o -> is_Some (foldl (max_step le) o l)).
  { clear. induction l as [|y l IH]; intros o [z ->]; cbn; [eauto|]. apply IH.
    destruct (le z y); eauto. }
  destruct l as [|y l]; [done|]. intros _. apply (G l). eauto.
Qed.

(** Under a total preorder the maximum dominates every element. *)
Lemma max_by_ub {A} (le : A -> A -> bool) l x :
  (forall a b, le a b = true \/ le b a = true) ->
  (forall a b c, le a b = true -> le b c = true -> le a c = true) ->
  max_by le l = Some x -> forall y, y ∈ l -> le y x = true.
Proof.
  intros Htot Htr. assert (Hrefl : forall a, le a a = true) by (intros a; destruct (Htot a a); done).
  assert (G : forall l o, foldl (max_step le) o l = Some x ->
    (forall z, o = Some z -> le z x = true) /\ forall y, y ∈ l -> le y x = true).
  { clear l. induction l as [|y l IH]; intros o E; cbn in E.
    - subst o. split; [by intros ? [= ->]|by intros ? ?%not_elem_of_nil].
    - destruct (IH _ E) as [Ho Hl]. assert (Hy : le y x = true).
      { destruct o as [z|]; cbn in Ho; [|by apply Ho].
        destruct (le z y) eqn:Hzy; [by apply Ho|]. eapply Htr; [|by apply Ho].
        destruct (Htot z y); congruence. }
      split; [|intros ? [->|?]%elem_of_cons; auto]. intros z ->. cbn in Ho.
      destruct (le z y) eqn:Hzy; [by apply (Htr z y x)|by apply Ho]. }
  intros E. apply (G l None E).
Qed.

(** ** Bytes

    Byte strings are lists of [Init.Byte.byte]; [be_bytes n x] is the [n]-byte
    big-endian encoding ([to_be_bytes] of an unsigned integer of [8 * n] bits). *)

Abbreviation bytes := (list Byte.byte).

#[export] Instance byte_eq_dec : EqDecision Byte.byte := Byte.byte_eq_dec.

Definition byte_of_Z (z : Z) : Byte.byte :=
  default Byte.x00 (Byte.of_N (Z.to_N (z mod 256))).
Definition byte_to_Z (b : Byte.byte) : Z := Z.of_N (Byte.to_N b).

Lemma byte_to_Z_range b : 0 <= byte_to_Z b < 256.
Proof. unfold byte_to_Z. pose proof (Byte.to_N_bounded b). lia. Qed.

Lemma byte_to_of_Z z : byte_to_Z (byte_of_Z z) = z mod 256.
Proof.
  unfold byte_to_Z, byte_of_Z.
  assert (0 <= z mod 256 < 256) as Hz by (apply Z.mod_pos_bound; lia).
  destruct (Byte.of_N (Z.to_N (z mod 256))) as [b|] eqn:E; cbn.
  - apply Byte.to_of_N in E. rewrite E. lia.
  - apply Byte.of_N_None_iff in E. lia.
Qed.

Lemma byte_of_to_Z b : byte_of_Z (byte_to_Z b) = b.
Proof.
  unfold byte_of_Z. rewrite Z.mod_small by apply byte_to_Z_range.
  unfold byte_to_Z. by rewrite N2Z.id, Byte.of_to_N.
Qed.

Fixpoint be_bytes (n : nat) (x : Z) : bytes :=
  match n with
  | O => []
  | S n => byte_of_Z (Z.shiftr x (8 * Z.of_nat n)) :: be_bytes n x
  end.

Fixpoint be_value (l : bytes) : Z :=
  match l with
  | [] => 0
  | b :: l => byte_to_Z b * 256 ^ Z.of_nat (length l) + be_value l
  end.

Lemma length_be_bytes n x : length (be_bytes n x) = n.
Proof. induction n; cbn; congruence. Qed.

Lemma be_value_be_bytes n x :
  0 <= x -> be_value (be_bytes n x) = x mod 256 ^ Z.of_nat n.
Proof.
  intros Hx. induction n as [|n IH]; cbn [be_bytes be_value].
  - by rewrite Z.mod_1_r.
  - rewrite IH, byte_to_of_Z, length_be_bytes, Nat2Z.inj_succ, Z.pow_succ_r by lia.
    rewrite Z.shiftr_div_pow2, Z.pow_mul_r by lia. change (2 ^ 8) with 256.
    assert (0 < 256 ^ Z.of_nat n) by (apply Z.pow_pos_nonneg; lia).
    rewrite (Z.mul_comm 256), Z.rem_mul_r by lia. lia.
Qed.

Lemma be_bytes_inj n x y :
  0 <= x < 256 ^ Z.of_nat n -> 0 <= y < 256 ^ Z.of_nat n ->
  be_bytes n x = be_bytes n y -> x = y.
Proof.
  intros Hx Hy E. apply (f_equal be_value) in E.
  rewrite !be_value_be_bytes, !Z.mod_small in E by lia. done.
Qed.

(** ** Minima and sorting

    [Iterator::min_by_key] keeps the first of two equal minima; [sort_by_key] is stable. *)

Definition min_step {A} (le : A -> A -> bool) (best : option A) (x : A) : option A :=
  match best with
  | Some y => if le y x then Some y else Some x
  | None => Some x
  end.
Definition min_by {A} (le : A -> A -> bool) (l : list A) : option A := foldl (min_step le) None l.

Fixpoint insert_by {A} (le : A -> A -> bool) (x : A) (l : list A) : list A :=
  match l with
  | [] => [x]
  | y :: l => if le x y then x :: y :: l else y :: insert_by le x l
  end.
Definition sort_by {A} (le : A -> A -> bool) (l : list A) : list A := foldr (insert_by le) [] l.

(** The least element under a total preorder is an element and is below every other. *)
Lemma min_by_spec {A} (le : A -> A -> bool) l x :
  (forall a b, le a b = true \/ le b a = true) ->
  (forall a b c, le a b = true -> le b c = true -> le a c = true) ->
  min_by le l = Some x -> x ∈ l /\ forall y, y ∈ l -> le x y = true.
Proof.
  intros Htot Htr. assert (Hrefl : forall a, le a a = true) by (intros a; destruct (Htot a a); done).
  assert (G : forall l o, foldl (min_step le) o l = Some x ->
    (o = Some x \/ x ∈ l) /\ (forall z, o = Some z -> le x z = true) /\ forall y, y ∈ l -> le x y = true).
  { clear l. induction l as [|y l IH]; intros o E; cbn in E.
    - subst o. split_and!; [by left|by intros ? [= ->]|by intros ? ?%not_elem_of_nil].
    - destruct (IH _ E) as (Hin & Ho & Hl). destruct o as [z|]; cbn in *.
      + destruct (le z y) eqn:Hzy.
        * assert (le x z = true) by (by apply Ho). assert (le x y = true) by (by eapply Htr).
          split_and!; [destruct Hin; [by left|right; by right]|by intros ? [= ->]|].
          intros w [->|?]%elem_of_cons; auto.
        * assert (le x y = true) by (by apply Ho).
          assert (le y z = true) by (destruct (Htot z y); congruence).
          split_and!; [right; destruct Hin as [[= ->]|?]; [by left|by right]| |].
          -- intros ? [= <-]. by eapply Htr.
          -- intros w [->|?]%elem_of_cons; auto.
      + assert (le x y = true) by (by apply Ho).
        split_and!; [right; destruct Hin as [[= ->]|?]; [by left|by right]|done|].
        intros w [->|?]%elem_of_cons; auto. }
  intros E. destruct (G l None E) as ([?|?] & _ & ?); done.
Qed.

Lemma min_by_none {A} (le : A -> A -> bool) l : min_by le l = None -> l = [].
Proof.
  assert (G : forall l o, is_Some o -> is_Some (foldl (min_step le) o l)).
  { clear. induction l as [|y l IH]; intros o [z ->]; cbn; [eauto|]. apply IH.
    destruct (le z y); eauto. }
  destruct l as [|y l]; [done|]. intros E. destruct (G l (Some y)) as [z Hz]; [eauto|].
  unfold min_by in E. cbn in E. congruence.
Qed.

Lemma insert_by_perm {A} (le : A -> A -> bool) x l : insert_by le x l ≡ₚ x :: l.
Proof.
  induction l as [|y l IH]; cbn; [done|]. destruct (le x y); [done|]. rewrite IH. apply perm_swap.
Qed.

Lemma sort_by_perm {A} (le : A -> A -> bool) l : sort_by le l ≡ₚ l.
Proof. induction l as [|x l IH]; cbn; [done|]. by rewrite insert_by_perm, IH. Qed.

(** Every element of a sorted list is below the ones after it. *)
Lemma sort_by_sorted {A} (le : A -> A -> bool) l :
  (forall a b, le a b = true \/ le b a = true) ->
  (forall a b c, le a b = true -> le b c = true -> le a c = true) ->
  forall i j x y, (i < j)%nat -> sort_by le l !! i = Some x -> sort_by le l !! j = Some y ->
  le x y = true.
Proof.
  intros Htot Htr.
  assert (Hins : forall x l, (forall i j a b, (i < j)%nat -> l !! i = Some a -> l !! j = Some b -> le a b = true) ->
    forall i j a b, (i < j)%nat -> insert_by le x l !! i = Some a -> insert_by le x l !! j = Some b ->
    le a b = true).
  { clear l. intros x l. induction l as [|y l IH]; intros Hs i j a b Hij Ha Hb; cbn in *.
    { destruct i as [|i], j as [|j]; try done; lia. }
    destruct (le x y) eqn:Hxy.
    - destruct i as [|i], j as [|j]; try lia; cbn in *; [|by apply (Hs i j); [lia|..]].
      injection Ha as <-. destruct j as [|j]; cbn in Hb; [by injection Hb as <-|].
      eapply Htr; [exact Hxy|]. by apply (Hs 0%nat (S j)); [lia|..].
    - assert (Hyx : le y x = true) by (destruct (Htot x y); congruence).
      destruct i as [|i], j as [|j]; try lia; cbn in *.
      + injection Ha as <-. assert (Hb' : b ∈ insert_by le x l) by (by eapply list_elem_of_lookup_2).
        rewrite insert_by_perm in Hb'. apply elem_of_cons in Hb' as [->|Hb']; [done|].
        apply list_elem_of_lookup in Hb' as [k Hk]. by apply (Hs 0%nat (S k)); [lia|..].
      + apply (IH ltac:(intros i' j' a' b' Hij'; apply (Hs (S i') (S j')); lia) i j); [lia|done|done]. }
  induction l as [|x l IH]; intros i j a b Hij; cbn; [by destruct i|]. by apply Hins.
Qed.
