(* ===== verification/Hex.v ===== *)
(** * Hexadecimal text

    [format!("{b:02x}")] over bytes, [u8::from_str_radix(_, 16)] over two-byte strings and
    [str::is_ascii], shared by the external signing request and the wire quotes.  A Rust
    string is its UTF-8 bytes. *)

From Stdlib Require Import ZArith Lia.
From stdpp Require Import base list.
From S2P Require Import Prelude.

Definition hex_digit (n : Z) : Byte.byte := byte_of_Z (if n <? 10 then 48 + n else 87 + n).
Definition hex (l : bytes) : bytes :=
  concat ((fun b => [hex_digit (byte_to_Z b / 16); hex_digit (byte_to_Z b mod 16)]) <$> l).

(** [char::to_digit(16)] of an ASCII byte. *)
Definition hex_value (c : Byte.byte) : option Z :=
  let n := byte_to_Z c in
  if (48 <=? n) && (n <=? 57) then Some (n - 48)
  else if (97 <=? n) && (n <=? 102) then Some (n - 87)
  else if (65 <=? n) && (n <=? 70) then Some (n - 55)
  else None.

(** [u8::from_str_radix(_, 16)] of a two-byte string: a leading plus sign is accepted. *)
Definition from_hex_pair (a b : Byte.byte) : option Z :=
  if byte_to_Z a =? 43 then hex_value b
  else x ← hex_value a; y ← hex_value b; Some (16 * x + y).

Definition is_ascii (s : bytes) : bool := forallb (fun b => byte_to_Z b <? 128) s.

(** ** Lemmas *)

Lemma hex_value_digit n : 0 <= n < 16 -> hex_value (hex_digit n) = Some n.
Proof.
  intros Hn. assert (Hall : Forall (fun m => hex_value (hex_digit m) = Some m) (seqZ 0 16)).
  { apply (bool_decide_eq_true_1 _). vm_compute. reflexivity. }
  rewrite Forall_forall in Hall. apply Hall, elem_of_seqZ. lia.
Qed.

Lemma hex_digit_range n : 0 <= n < 16 -> 48 <= byte_to_Z (hex_digit n) < 103.
Proof.
  intros Hn. unfold hex_digit. destruct (Z.ltb_spec n 10); rewrite byte_to_of_Z, Z.mod_small; lia.
Qed.

Lemma nibbles b : 0 <= byte_to_Z b / 16 < 16 /\ 0 <= byte_to_Z b mod 16 < 16.
Proof.
  pose proof (byte_to_Z_range b). split; [|apply Z.mod_pos_bound; lia].
  split; [apply Z.div_pos; lia|apply Z.div_lt_upper_bound; lia].
Qed.

Lemma hex_cons b l :
  hex (b :: l) = hex_digit (byte_to_Z b / 16) :: hex_digit (byte_to_Z b mod 16) :: hex l.
Proof. done. Qed.

Lemma length_hex l : length (hex l) = (2 * length l)%nat.
Proof. induction l as [|b l IH]; [done|]. rewrite hex_cons. cbn [length]. lia. Qed.

Lemma is_ascii_hex l : is_ascii (hex l) = true.
Proof.
  induction l as [|b l IH]; [done|]. rewrite hex_cons. unfold is_ascii in *. cbn [forallb].
  destruct (nibbles b) as [H1%hex_digit_range H2%hex_digit_range].
  rewrite IH, (proj2 (Z.ltb_lt _ _)), (proj2 (Z.ltb_lt _ _)) by lia. done.
Qed.

Lemma from_hex_pair_digits b :
  from_hex_pair (hex_digit (byte_to_Z b / 16)) (hex_digit (byte_to_Z b mod 16)) = Some (byte_to_Z b).
Proof.
  unfold from_hex_pair. destruct (nibbles b) as [H1 H2]. pose proof (hex_digit_range _ H1).
  rewrite (proj2 (Z.eqb_neq _ _)) by lia. rewrite !hex_value_digit by done.
  cbn [mbind option_bind]. by rewrite <- Z.div_mod by lia.
Qed.
