(* ===== verification/Units.v ===== *)
(** * Unit newtypes and protocol constants

    [styx-core/src/units.rs] and the collateral-ratio bands of
    [styx-core/src/consts.rs].  Every amount carries its unit in its type, as in the
    source: a record with one [raw] field per Rust newtype.  Checked sums return a
    [MathError] instead of wrapping. *)

From stdpp Require Import base strings list.
From Stdlib Require Import ZArith Lia.
From S2P Require Import Prelude.

Inductive MathError : Type :=
| Overflow
| Underflow
| DebtExceedsU32 (debt : Z).

#[export] Instance MathError_eq_dec : EqDecision MathError.
Proof. solve_decision. Defined.

(** ** [Sats]: L-BTC satoshis, a [u64] *)
Module Sats.

Record t : Type := new { raw : Z }.

Definition ZERO : t := new 0.

Definition checked_add (a b : t) : result MathError t :=
  ok_or Overflow (new <$> u64_checked_add (raw a) (raw b)).

Definition checked_sub (a b : t) : result MathError t :=
  ok_or Underflow (new <$> u64_checked_sub (raw a) (raw b)).

#[export] Instance eq_dec : EqDecision t.
Proof. solve_decision. Defined.

End Sats.
Export (hints) Sats.

(** ** [Obol]: OBOL atomic units, which are debt cents, a [u64] *)
Module Obol.

Record t : Type := new { raw : Z }.

Definition ZERO : t := new 0.

Definition checked_add (a b : t) : result MathError t :=
  ok_or Overflow (new <$> u64_checked_add (raw a) (raw b)).

Definition checked_sub (a b : t) : result MathError t :=
  ok_or Underflow (new <$> u64_checked_sub (raw a) (raw b)).

(** The checked narrowing to the covenants' [u32] cents. *)
Definition covenant_cents (a : t) : result MathError Z :=
  if raw a <=? U32_MAX then Ok (raw a) else Err (DebtExceedsU32 (raw a)).

(** [covenant_cents().unwrap_or(u32::MAX)], the narrowing of the unchecked builders. *)
Definition cents_or_max (a : t) : Z :=
  match covenant_cents a with Ok c => c | Err _ => U32_MAX end.

#[export] Instance eq_dec : EqDecision t.
Proof. solve_decision. Defined.

End Obol.
Export (hints) Obol.

(** ** [Price]: integer USD per BTC, a [u32] *)
Module Price.

Record t : Type := new { raw : Z }.

Definition min (a b : t) : t := if raw b <? raw a then b else a.
Definition max (a b : t) : t := if raw b <? raw a then a else b.

#[export] Instance eq_dec : EqDecision t.
Proof. solve_decision. Defined.

End Price.
Export (hints) Price.

(** ** [RatioK]: the covenants' collateral-ratio unit, a [u32] *)
Module RatioK.

Record t : Type := new { raw : Z }.

Definition PER_CR_PERCENT : Z := 2000000.

(** The product is a [u32] multiplication; the [debug_assert] of the source is absent
    from release builds, where it wraps. *)
Definition from_cr_percent (percent : Z) : t := new (u32_wmul percent PER_CR_PERCENT).

Definition min (a b : t) : t := if raw b <? raw a then b else a.

#[export] Instance eq_dec : EqDecision t.
Proof. solve_decision. Defined.

End RatioK.
Export (hints) RatioK.

(** ** [BlockHeight]: a chain height, a [u32] *)
Module BlockHeight.

Record t : Type := new { raw : Z }.

#[export] Instance eq_dec : EqDecision t.
Proof. solve_decision. Defined.

End BlockHeight.
Export (hints) BlockHeight.

(** ** The collateral-ratio bands and fee rates ([consts.rs]) *)

Definition K_PAR : RatioK.t := RatioK.from_cr_percent 100.
Definition K_FULL_LIQ_CAP : RatioK.t := RatioK.from_cr_percent 115.
Definition K_HEALTH_GATE : RatioK.t := RatioK.from_cr_percent 130.
Definition K_HEAL_LO : RatioK.t := RatioK.from_cr_percent 132.
Definition K_HEAL_HI : RatioK.t := RatioK.from_cr_percent 137.
Definition K_OPEN_MIN : RatioK.t := RatioK.from_cr_percent 150.
Definition K_FEE_HALF_PERCENT : RatioK.t := RatioK.new 1000000.
Definition K_RESERVE_SHARE : RatioK.t := RatioK.new 10000000.
Definition K_BAD_DEBT_CAP : RatioK.t := RatioK.new 40000000.

(** ** Lemmas *)

Lemma sats_checked_add_ok a b c :
  Sats.checked_add a b = Ok c <->
  Sats.raw a + Sats.raw b <= U64_MAX /\ c = Sats.new (Sats.raw a + Sats.raw b).
Proof.
  unfold Sats.checked_add. rewrite ok_or_ok, fmap_Some. split.
  - intros (x & [? ->]%u64_checked_add_Some & ->). done.
  - intros [? ->]. eexists. rewrite u64_checked_add_Some. eauto.
Qed.

Lemma sats_checked_sub_ok a b c :
  Sats.checked_sub a b = Ok c <->
  Sats.raw b <= Sats.raw a /\ c = Sats.new (Sats.raw a - Sats.raw b).
Proof.
  unfold Sats.checked_sub. rewrite ok_or_ok, fmap_Some. split.
  - intros (x & [? ->]%u64_checked_sub_Some & ->). done.
  - intros [? ->]. eexists. rewrite u64_checked_sub_Some. eauto.
Qed.

Lemma obol_checked_add_ok a b c :
  Obol.checked_add a b = Ok c <->
  Obol.raw a + Obol.raw b <= U64_MAX /\ c = Obol.new (Obol.raw a + Obol.raw b).
Proof.
  unfold Obol.checked_add. rewrite ok_or_ok, fmap_Some. split.
  - intros (x & [? ->]%u64_checked_add_Some & ->). done.
  - intros [? ->]. eexists. rewrite u64_checked_add_Some. eauto.
Qed.

Lemma obol_checked_sub_ok a b c :
  Obol.checked_sub a b = Ok c <->
  Obol.raw b <= Obol.raw a /\ c = Obol.new (Obol.raw a - Obol.raw b).
Proof.
  unfold Obol.checked_sub. rewrite ok_or_ok, fmap_Some. split.
  - intros (x & [? ->]%u64_checked_sub_Some & ->). done.
  - intros [? ->]. eexists. rewrite u64_checked_sub_Some. eauto.
Qed.

Lemma covenant_cents_ok a c :
  Obol.covenant_cents a = Ok c <-> Obol.raw a <= U32_MAX /\ c = Obol.raw a.
Proof.
  unfold Obol.covenant_cents. destruct (Z.leb_spec (Obol.raw a) U32_MAX); naive_solver lia.
Qed.

Lemma cents_or_max_ok a c : Obol.covenant_cents a = Ok c -> Obol.cents_or_max a = c.
Proof. unfold Obol.cents_or_max. by intros ->. Qed.

Lemma price_min_raw a b : Price.raw (Price.min a b) = Z.min (Price.raw a) (Price.raw b).
Proof. unfold Price.min. destruct (Z.ltb_spec (Price.raw b) (Price.raw a)); lia. Qed.

Lemma price_max_raw a b : Price.raw (Price.max a b) = Z.max (Price.raw a) (Price.raw b).
Proof. unfold Price.max. destruct (Z.ltb_spec (Price.raw b) (Price.raw a)); lia. Qed.

Lemma price_min_new a b : Price.new (Z.min a (Price.raw b)) = Price.min (Price.new a) b.
Proof. destruct b as [b]. unfold Price.min. cbn. destruct (Z.ltb_spec b a); f_equal; lia. Qed.

Lemma price_max_new a b : Price.new (Z.max a (Price.raw b)) = Price.max (Price.new a) b.
Proof. destruct b as [b]. unfold Price.max. cbn. destruct (Z.ltb_spec b a); f_equal; lia. Qed.

Lemma ratio_min_raw a b : RatioK.raw (RatioK.min a b) = Z.min (RatioK.raw a) (RatioK.raw b).
Proof. unfold RatioK.min. destruct (Z.ltb_spec (RatioK.raw b) (RatioK.raw a)); lia. Qed.

(** The newtypes are in bijection with their integers, so a comparison of units is a
    comparison of [raw] values. *)
Lemma sats_eta a : a = Sats.new (Sats.raw a).
Proof. by destruct a. Qed.
Lemma obol_eta a : a = Obol.new (Obol.raw a).
Proof. by destruct a. Qed.
Lemma height_eta a : a = BlockHeight.new (BlockHeight.raw a).
Proof. by destruct a. Qed.

Lemma obol_eq_zero a : bool_decide (a = Obol.ZERO) = (Obol.raw a =? 0).
Proof.
  destruct a as [x]. cbn.
  destruct (Z.eqb_spec x 0) as [->|]; case_bool_decide; unfold Obol.ZERO in *; congruence.
Qed.
