(* ===== verification/CrMath.v ===== *)
(** * Covenant CR math ([styx-core/src/math.rs])

    [coll_at_cr], its checked [Obol] form and the sizing of a bad-debt payout, with the
    arithmetic facts every gate of the protocol rests on: the quotient is the exact
    floor of a rational, nothing overflows on the [u32] domain, and it is monotone in
    the debt and the ratio and antitone in the price. *)

From stdpp Require Import base strings list.
From Stdlib Require Import ZArith Lia.
From S2P Require Import Prelude Units.

(** The zero-denominator branch is the source's early return. *)
Definition coll_at_cr (debt_cents : Z) (price : Price.t) (k : RatioK.t) : Sats.t :=
  let numerator := debt_cents * RatioK.raw k in
  let denom := Price.raw price * 200 in
  if denom =? 0 then Sats.ZERO else Sats.new (numerator / denom).

Definition coll_at_cr_obol (debt : Obol.t) (price : Price.t) (k : RatioK.t)
    : result MathError Sats.t :=
  c ← Obol.covenant_cents debt; Ok (coll_at_cr c price k).

Definition bad_debt_reserve_pay (debt_cents : Z) (price : Price.t) (coll reserve : Sats.t)
    : Sats.t :=
  let debt_sats := coll_at_cr debt_cents price K_PAR in
  let shortfall := u64_sat_sub (Sats.raw debt_sats) (Sats.raw coll) in
  let bounty := Sats.raw (coll_at_cr debt_cents price K_RESERVE_SHARE) in
  let cap := Sats.raw (coll_at_cr debt_cents price K_BAD_DEBT_CAP) in
  Sats.new (Z.min (Z.min (u64_sat_add shortfall bounty) cap) (Sats.raw reserve)).

#[global] Arguments coll_at_cr : simpl never.
#[global] Arguments bad_debt_reserve_pay : simpl never.

(** ** Arithmetic of the quotient *)

Lemma coll_at_cr_raw d p k :
  Sats.raw (coll_at_cr d p k) = d * RatioK.raw k / (Price.raw p * 200).
Proof.
  unfold coll_at_cr. destruct (Z.eqb_spec (Price.raw p * 200) 0) as [E|E]; [|done].
  rewrite E. cbn. by rewrite Zdiv_0_r.
Qed.

Lemma coll_at_cr_nonneg d p k :
  0 <= d -> 0 <= Price.raw p -> 0 <= RatioK.raw k -> 0 <= Sats.raw (coll_at_cr d p k).
Proof.
  intros. rewrite coll_at_cr_raw.
  destruct (Z.eq_dec (Price.raw p) 0) as [->|]; [by rewrite Zdiv_0_r|].
  apply Z.div_pos; nia.
Qed.

Lemma coll_at_cr_mono_debt d1 d2 p k :
  0 <= Price.raw p -> 0 <= RatioK.raw k -> d1 <= d2 ->
  Sats.raw (coll_at_cr d1 p k) <= Sats.raw (coll_at_cr d2 p k).
Proof.
  intros. rewrite !coll_at_cr_raw.
  destruct (Z.eq_dec (Price.raw p) 0) as [->|]; [by rewrite !Zdiv_0_r|].
  apply Z.div_le_mono; nia.
Qed.

Lemma coll_at_cr_mono_k d p k1 k2 :
  0 <= d -> 0 <= Price.raw p -> RatioK.raw k1 <= RatioK.raw k2 ->
  Sats.raw (coll_at_cr d p k1) <= Sats.raw (coll_at_cr d p k2).
Proof.
  intros. rewrite !coll_at_cr_raw.
  destruct (Z.eq_dec (Price.raw p) 0) as [->|]; [by rewrite !Zdiv_0_r|].
  apply Z.div_le_mono; nia.
Qed.

Lemma coll_at_cr_anti_price d p1 p2 k :
  0 <= d -> 0 <= RatioK.raw k -> 0 < Price.raw p1 <= Price.raw p2 ->
  Sats.raw (coll_at_cr d p2 k) <= Sats.raw (coll_at_cr d p1 k).
Proof.
  intros. rewrite !coll_at_cr_raw. apply Z.div_le_compat_l; nia.
Qed.

(** Splitting a debt loses at most one satoshi to truncation. *)
Lemma coll_at_cr_split d1 d2 p k :
  0 < Price.raw p ->
  Sats.raw (coll_at_cr d1 p k) + Sats.raw (coll_at_cr d2 p k)
    <= Sats.raw (coll_at_cr (d1 + d2) p k)
    <= Sats.raw (coll_at_cr d1 p k) + Sats.raw (coll_at_cr d2 p k) + 1.
Proof.
  intros Hp. rewrite !coll_at_cr_raw, Z.mul_add_distr_r.
  set (n1 := d1 * RatioK.raw k). set (n2 := d2 * RatioK.raw k).
  set (den := Price.raw p * 200). assert (0 < den) by lia.
  pose proof (Z.div_mod n1 den ltac:(lia)). pose proof (Z.mod_pos_bound n1 den ltac:(lia)).
  pose proof (Z.div_mod n2 den ltac:(lia)). pose proof (Z.mod_pos_bound n2 den ltac:(lia)).
  split.
  - apply Z.div_le_lower_bound; lia.
  - apply Z.lt_succ_r, Z.div_lt_upper_bound; lia.
Qed.

#[export] Hint Resolve coll_at_cr_nonneg : styx.

Lemma reserve_pay_bounds d p coll r :
  0 <= d -> 0 <= Price.raw p -> 0 <= Sats.raw coll -> 0 <= Sats.raw r ->
  0 <= Sats.raw (bad_debt_reserve_pay d p coll r)
    <= Z.min (Sats.raw r) (Sats.raw (coll_at_cr d p K_BAD_DEBT_CAP)).
Proof.
  intros. unfold bad_debt_reserve_pay. cbn [Sats.raw].
  pose proof (coll_at_cr_nonneg d p K_BAD_DEBT_CAP ltac:(done) ltac:(done) ltac:(done)).
  pose proof (coll_at_cr_nonneg d p K_RESERVE_SHARE ltac:(done) ltac:(done) ltac:(done)).
  uint.
Qed.

(** ** Properties *)

(** C11: The quotient is the exact floor of debt * k / (200 * price): the 32x32 products fit
    64 bits, the result fits a [u64], and truncation is toward zero. *)
Theorem coll_at_cr_exact (d : Z) (p : Price.t) (k : RatioK.t) :
  u32 d -> u32 (Price.raw p) -> u32 (RatioK.raw k) -> 0 < Price.raw p ->
  u64 (d * RatioK.raw k) /\ u64 (Price.raw p * 200) /\
  u64 (Sats.raw (coll_at_cr d p k)) /\
  Price.raw p * 200 * Sats.raw (coll_at_cr d p k) <= d * RatioK.raw k
    < Price.raw p * 200 * (Sats.raw (coll_at_cr d p k) + 1).
Proof.
  unfold u32, u64. intros Hd Hp Hk Hpos. rewrite coll_at_cr_raw.
  set (n := d * RatioK.raw k) in *. assert (0 <= n <= 4294967295 * 4294967295) by nia.
  set (den := Price.raw p * 200) in *. assert (0 < den) by lia.
  pose proof (Z.div_mod n den ltac:(lia)). pose proof (Z.mod_pos_bound n den ltac:(lia)).
  assert (n / den <= n) by (apply Z.div_le_upper_bound; nia).
  assert (0 <= n / den) by (apply Z.div_pos; lia). lia.
Qed.

Lemma coll_at_cr_exact_witness :
  2142 = Sats.raw (coll_at_cr 3 (Price.new 7) (RatioK.new 1000003)) /\
  7 * 200 * Sats.raw (coll_at_cr 3 (Price.new 7) (RatioK.new 1000003)) <= 3 * 1000003
    < 7 * 200 * (Sats.raw (coll_at_cr 3 (Price.new 7) (RatioK.new 1000003)) + 1).
Proof.
  split; [reflexivity|].
  apply (coll_at_cr_exact 3 (Price.new 7) (RatioK.new 1000003)); unfold u32; cbn; lia.
Defined.
