(* ===== verification/Elements.v ===== *)
(** * Elements transactions

    The data types of the [elements] crate the code builds and reads (transactions,
    outpoints, confidential values), the library functions it calls as the class
    [Lib], and the layout helpers of [styx-pset/src/layout.rs].

    Hashes, keys, asset ids and scripts are their byte strings.  An x-only public key is
    its 32-byte serialization; an asset id its 32-byte consensus serialization. *)

From stdpp Require Import base gmap strings list countable.
From Stdlib Require Import ZArith Lia.
From S2P Require Import Prelude Units.

Abbreviation Script := bytes (only parsing).
Abbreviation XOnlyPublicKey := bytes (only parsing).
Abbreviation AssetId := bytes (only parsing).
Abbreviation Txid := bytes (only parsing).
Abbreviation BlockHash := bytes (only parsing).

#[export] Instance byte_countable : Countable Byte.byte.
Proof. refine (inj_countable' Byte.to_nat (fun n => default Byte.x00 (Byte.of_nat n)) _).
  intros x. by rewrite Byte.of_to_nat. Defined.

Record OutPoint : Type := mkOutPoint { op_txid : Txid; op_vout : Z }.

#[export] Instance OutPoint_eq_dec : EqDecision OutPoint.
Proof. solve_decision. Defined.
#[export] Instance OutPoint_countable : Countable OutPoint.
Proof.
  refine (inj_countable' (fun o => (op_txid o, op_vout o)) (fun p => mkOutPoint p.1 p.2) _).
  by intros [].
Defined.

(** [confidential::Value], [confidential::Asset] and [confidential::Nonce]. *)
Inductive CValue : Type :=
| VNull
| VExplicit (v : Z)
| VConfidential (commitment : bytes).

Inductive CAsset : Type :=
| ANull
| AExplicit (a : AssetId)
| AConfidential (generator : bytes).

Inductive CNonce : Type :=
| NNull
| NConfidential (key : bytes).

#[export] Instance CValue_eq_dec : EqDecision CValue.
Proof. solve_decision. Defined.
#[export] Instance CAsset_eq_dec : EqDecision CAsset.
Proof. solve_decision. Defined.
#[export] Instance CNonce_eq_dec : EqDecision CNonce.
Proof. solve_decision. Defined.

Record TxIn : Type := mkTxIn {
  previous_output : OutPoint;
  is_pegin : bool;
  script_sig : Script;
  sequence : Z;
  (** whether [asset_issuance] is [AssetIssuance::null()] *)
  issuance_null : bool;
  script_witness : list bytes
}.

Record TxOut : Type := mkTxOut {
  to_value : CValue;
  to_spk : Script;
  to_asset : CAsset;
  to_nonce : CNonce
}.

Record Transaction : Type := mkTx {
  version : Z;
  lock_time : Z;
  input : list TxIn;
  output : list TxOut
}.

(** [simplicity::jet::elements::ElementsUtxo]: what the spend environment knows of a
    spent output. *)
Record ElementsUtxo : Type := mkUtxo {
  utxo_spk : Script;
  utxo_asset : CAsset;
  utxo_value : CValue
}.

#[export] Instance TxIn_eq_dec : EqDecision TxIn.
Proof. solve_decision. Defined.
#[export] Instance TxOut_eq_dec : EqDecision TxOut.
Proof. solve_decision. Defined.
#[export] Instance Transaction_eq_dec : EqDecision Transaction.
Proof. solve_decision. Defined.
#[export] Instance ElementsUtxo_eq_dec : EqDecision ElementsUtxo.
Proof. solve_decision. Defined.

(** ** The libraries the code calls

    SHA-256, BIP340 and the BIP341 tree hashes live outside the repository, as do the
    consensus txid and the Simplicity [sig_all_hash].  They are the fields of [Lib];
    [LibSpec] names what the code relies on. *)

Class Lib : Type := {
  sha256 : bytes -> bytes;
  (** [verify_schnorr pk msg sig] *)
  verify_schnorr : XOnlyPublicKey -> bytes -> bytes -> bool;
  (** a keypair is its secret bytes: x-only key, and [sign_schnorr_no_aux_rand] *)
  keypair_pk : bytes -> XOnlyPublicKey;
  sign_schnorr : bytes -> bytes -> bytes;
  (** tapleaf hash of a script under a leaf version *)
  tap_leaf : Script -> Z -> bytes;
  tap_branch : bytes -> bytes -> bytes;
  (** output key of an internal key tweaked with an optional merkle root *)
  tap_tweak : XOnlyPublicKey -> option bytes -> XOnlyPublicKey;
  (** the parity bit of that output key *)
  tap_parity : XOnlyPublicKey -> option bytes -> bool;
  (** the leaf version of Simplicity programs in Elements *)
  simplicity_leaf_version : Z;
  (** [Transaction::txid]; witnesses are segregated *)
  txid_of : Transaction -> Txid
}.

(** [XOnlyPublicKey::from_slice] accepts the bytes: 32 bytes that name a curve point. *)
Class XOnlyParse : Type := valid_xonly : bytes -> bool.

(** The transaction body the txid commits to: witnesses removed. *)
Definition strip_witness (i : TxIn) : TxIn :=
  mkTxIn (previous_output i) (is_pegin i) (script_sig i) (sequence i) (issuance_null i) [].
Definition body (tx : Transaction) : Transaction :=
  mkTx (version tx) (lock_time tx) (strip_witness <$> input tx) (output tx).

(** ASCII bytes of a literal, for hash tags. *)
Definition ascii_bytes (s : string) : bytes :=
  String.list_byte_of_string s.

Class LibSpec (L : Lib) : Prop := {
  (** BIP341 leaf hash under the Elements tag: sha256(tag || tag || version ||
      compact_size(script) || script); one length byte covers scripts under 253 bytes. *)
  tap_leaf_spec (s : Script) (v : Z) :
    (length s < 253)%nat ->
    tap_leaf s v =
      sha256 (sha256 (ascii_bytes "TapLeaf/elements") ++
              sha256 (ascii_bytes "TapLeaf/elements") ++
              byte_of_Z v :: byte_of_Z (Z.of_nat (length s)) :: s);
  (** BIP340: what a key signs verifies under its x-only key *)
  sign_verify (kp msg : bytes) :
    verify_schnorr (keypair_pk kp) msg (sign_schnorr kp msg) = true;
  (** a BIP340 signature is 64 bytes *)
  sign_length (kp msg : bytes) : length (sign_schnorr kp msg) = 64%nat;
  (** witnesses are segregated: the txid is a function of the body *)
  txid_body (t1 t2 : Transaction) : body t1 = body t2 -> txid_of t1 = txid_of t2
}.

(** ** Layout helpers ([layout.rs]) *)

Definition SEQUENCE_ZERO : Z := 0.

Definition txin (outpoint : OutPoint) : TxIn :=
  mkTxIn outpoint false [] SEQUENCE_ZERO true [].

Definition txout (value : Z) (spk : Script) (asset : AssetId) : TxOut :=
  mkTxOut (VExplicit value) spk (AExplicit asset) NNull.

Definition claimed (value : Z) (spk : Script) (asset : AssetId) : ElementsUtxo :=
  let o := txout value spk asset in
  mkUtxo (to_spk o) (to_asset o) (to_value o).

(** [TxOut::new_fee]: an explicit output with an empty script. *)
Definition fee_out (fee : Sats.t) (policy : AssetId) : TxOut :=
  mkTxOut (VExplicit (Sats.raw fee)) [] (AExplicit policy) NNull.

(** [LockTime::from_consensus] and [LockTime::ZERO] are the [u32] they wrap. *)
Definition LOCKTIME_ZERO : Z := 0.

(** ** Balance of a transaction

    [total_in] and [total_out] sum the explicit amounts of one asset over the claimed
    inputs and the outputs; a node refuses a transaction whose sums differ. *)

Definition amount_of (a : AssetId) (asset : CAsset) (value : CValue) : Z :=
  match asset, value with
  | AExplicit a', VExplicit v => if bool_decide (a' = a) then v else 0
  | _, _ => 0
  end.

Definition total_in (a : AssetId) (us : list ElementsUtxo) : Z :=
  foldr (fun u acc => amount_of a (utxo_asset u) (utxo_value u) + acc) 0 us.

Definition total_out (a : AssetId) (os : list TxOut) : Z :=
  foldr (fun o acc => amount_of a (to_asset o) (to_value o) + acc) 0 os.

Lemma total_out_app a l1 l2 : total_out a (l1 ++ l2) = total_out a l1 + total_out a l2.
Proof.
  induction l1 as [|o l1 IH]; [done|]. unfold total_out in *. cbn [app foldr]. lia.
Qed.
