(* ===== verification/Floats.v ===== *)
(** * Binary64 numbers

    An [f64] is a [spec_float] of binary64.  [str::parse::<f64>] is its documented grammar
    with one correct rounding; comparisons and [round] work on the exact value.  Amounts
    cross the node's JSON in BTC: [sats_of_btc] and [btc_of_sats] are the two conversions of
    the code, and the theorem at the end says in which range they lose nothing. *)

From Stdlib Require Import ZArith Lia SpecFloat.
From stdpp Require Import base strings option list.
From S2P Require Import Prelude Hex Units Elements.

Abbreviation f64 := spec_float (only parsing).

(** ** Text to binary64 *)

Definition digit (b : Byte.byte) : option Z :=
  let c := byte_to_Z b in if (48 <=? c) && (c <=? 57) then Some (c - 48) else None.

(** The leading digits: how many, their value appended to [acc], and the rest. *)
Fixpoint digits (l : bytes) (acc : Z) (n : nat) : Z * nat * bytes :=
  match l with
  | b :: l' => match digit b with
               | Some d => digits l' (10 * acc + d) (S n)
               | None => (acc, n, l)
               end
  | [] => (acc, n, [])
  end.

Definition signed (l : bytes) : bool * bytes :=
  match l with
  | Byte.x2d :: l => (true, l)
  | Byte.x2b :: l => (false, l)
  | _ => (false, l)
  end.

(** [m * 10 ^ e], rounded to nearest, ties to even. *)
Definition of_decimal (neg : bool) (m e : Z) : f64 :=
  match m with
  | Zpos m =>
      let num := Z.to_pos (Zpos m * 10 ^ Z.max e 0) in
      SFdiv 53 1024 (S754_finite neg num 0) (S754_finite false (Z.to_pos (10 ^ Z.max (- e) 0)) 0)
  | _ => S754_zero neg
  end.

(** The exponent part, and the end of the text. *)
Definition exponent (l : bytes) : option Z :=
  match l with
  | [] => Some 0
  | b :: l =>
      if bool_decide (b = Byte.x65 \/ b = Byte.x45) then
        let '(neg, l) := signed l in
        let '(e, n, rest) := digits l 0 0 in
        if bool_decide (n = 0%nat \/ rest <> []) then None else Some (if neg then - e else e)
      else None
  end.

(** A letter in lower case. *)
Definition lower (b : Byte.byte) : Byte.byte :=
  let c := byte_to_Z b in if (65 <=? c) && (c <=? 90) then byte_of_Z (c + 32) else b.

Definition parse_f64 (text : bytes) : option f64 :=
  let '(neg, l) := signed text in
  let word := lower <$> l in
  if bool_decide (word = ascii_bytes "inf" \/ word = ascii_bytes "infinity") then Some (S754_infinity neg) else
  if bool_decide (word = ascii_bytes "nan") then Some S754_nan else
  let '(whole, n, l) := digits l 0 0 in
  match l with
  | Byte.x2e :: l =>
      let '(m, n', l) := digits l whole 0 in
      if bool_decide (n + n' = 0)%nat then None else
      e ← exponent l; Some (of_decimal neg m (e - Z.of_nat n'))
  | _ =>
      if bool_decide (n = 0%nat) then None else
      e ← exponent l; Some (of_decimal neg whole e)
  end.

(** ** Exact comparison and rounding of a positive finite value [m * 2 ^ e] *)

Definition at_least (m : positive) (e n : Z) : bool :=
  if 0 <=? e then n <=? Zpos m * 2 ^ e else n * 2 ^ (- e) <=? Zpos m.
Definition below (m : positive) (e n : Z) : bool :=
  if 0 <=? e then Zpos m * 2 ^ e <? n else Zpos m <? n * 2 ^ (- e).

(** [f64::round]: half away from zero. *)
Definition round_half_away (m : positive) (e : Z) : Z :=
  if 0 <=? e then Zpos m * 2 ^ e else (2 * Zpos m + 2 ^ (- e)) / (2 * 2 ^ (- e)).

(** [x as u32] saturates. *)
Definition f64_as_u32 (x : Z) : Z := Z.max 0 (Z.min x 4294967295).

(** [x as u64] saturates. *)
Definition f64_as_u64 (x : Z) : Z := Z.max 0 (Z.min x U64_MAX).

(** An integer as an [f64]: [n as f64]. *)
Definition f64_of_Z (n : Z) : f64 := binary_normalize 53 1024 n 0 false.

(** ** Amounts *)

(** [(x * 1e8).round() as u64]; a NaN converts to zero. *)
Definition sats_of_btc (x : f64) : Z :=
  match SFmul 53 1024 x (f64_of_Z 100000000) with
  | S754_finite false m e => f64_as_u64 (round_half_away m e)
  | S754_infinity false => U64_MAX
  | _ => 0
  end.

(** [s as f64 / 1e8]. *)
Definition btc_of_sats (s : Z) : f64 := SFdiv 53 1024 (f64_of_Z s) (f64_of_Z 100000000).

Lemma round_half_away_spec m e :
  e < 0 ->
  2 * Z.abs (round_half_away m e * 2 ^ (- e) - Zpos m) <= 2 ^ (- e).
Proof.
  intros He. unfold round_half_away. rewrite (proj2 (Z.leb_gt 0 e)) by lia.
  assert (0 < 2 ^ (- e)) by (apply Z.pow_pos_nonneg; lia). set (d := 2 ^ (- e)) in *.
  pose proof (Z.mul_div_le (2 * Zpos m + d) (2 * d) ltac:(lia)).
  pose proof (Z.mul_succ_div_gt (2 * Zpos m + d) (2 * d) ltac:(lia)).
  set (q := (2 * Zpos m + d) / (2 * d)) in *. nia.
Qed.

Example parse_coinbase : parse_f64 (ascii_bytes "104250.335") = parse_f64 (ascii_bytes "+10425033.5e-2").
Proof. vm_compute. reflexivity. Qed.

Lemma sats_of_btc_range x : 0 <= sats_of_btc x <= U64_MAX.
Proof.
  unfold sats_of_btc, f64_as_u64, U64_MAX. repeat case_match; lia.
Qed.

(** ** Rounding

    A [shr_record] with its mantissa as unit stands for a value [a / b]: the mantissa, then
    the half bit and the sticky bit. *)

Definition within (r : shr_record) (a b : Z) : Prop :=
  match shr_r r, shr_s r with
  | false, false => a = shr_m r * b
  | false, true => shr_m r * b < a /\ 2 * a < (2 * shr_m r + 1) * b
  | true, false => 2 * a = (2 * shr_m r + 1) * b
  | true, true => (2 * shr_m r + 1) * b < 2 * a /\ a < (shr_m r + 1) * b
  end.

Lemma shr_1_m r : 0 <= shr_m r -> shr_m (shr_1 r) = shr_m r / 2.
Proof.
  destruct r as [[|[p|p|]|p] r s]; cbn [shr_m shr_1]; intros H; try lia; try done.
  - rewrite Pos2Z.inj_xI. apply (Z.div_unique _ _ _ 1); lia.
  - rewrite Pos2Z.inj_xO. apply (Z.div_unique _ _ _ 0); lia.
Qed.

Lemma within_shr_1 r a b : 0 < b -> 0 <= shr_m r -> within r a b -> within (shr_1 r) a (2 * b).
Proof.
  destruct r as [[|[p|p|]|p] r s]; cbn [shr_m shr_1]; intros Hb Hm Hw; try (by destruct Hm);
    [|pose proof (Pos2Z.inj_xI p) as E|pose proof (Pos2Z.inj_xO p) as E|];
    destruct r, s; unfold within in *; cbn [shr_m shr_r shr_s orb] in *; try rewrite E in Hw; lia.
Qed.

Lemma iter_pos_nat {A} (f : A -> A) p x : SpecFloat.iter_pos f p x = Nat.iter (Pos.to_nat p) f x.
Proof.
  revert x. induction p as [p IH|p IH|]; intros x; cbn [SpecFloat.iter_pos].
  - rewrite !IH, <- Nat.iter_succ_r, <- Nat.iter_add. f_equal. lia.
  - rewrite !IH, <- Nat.iter_add. f_equal. lia.
  - done.
Qed.

(** A shift to the right by [n] bits. *)
Lemma within_iter n r a b :
  0 < b -> 0 <= shr_m r -> within r a b ->
  let r' := Nat.iter n shr_1 r in
  within r' a (b * 2 ^ Z.of_nat n) /\ shr_m r' = shr_m r / 2 ^ Z.of_nat n /\ 0 <= shr_m r'.
Proof.
  intros Hb Hm Hw. induction n as [|n (IH1 & IH2 & IH3)]; cbv zeta in *.
  { cbn [Nat.iter nat_rect]. rewrite Z.mul_1_r, Z.div_1_r. done. }
  assert (Hp : 0 < 2 ^ Z.of_nat n) by (apply Z.pow_pos_nonneg; lia).
  change (Nat.iter (S n) shr_1 r) with (shr_1 (Nat.iter n shr_1 r)).
  rewrite shr_1_m, IH2, Z.div_div by lia. rewrite Nat2Z.inj_succ, Z.pow_succ_r by lia. split_and!.
  - rewrite Z.mul_assoc, (Z.mul_comm b 2), <- Z.mul_assoc. apply within_shr_1; [nia|done|done].
  - f_equal. lia.
  - apply Z.div_pos; lia.
Qed.

Lemma within_loc q k n : 0 <= k < n -> within (shr_record_of_loc q (new_location n k)) (q * n + k) n.
Proof.
  intros Hk. unfold new_location, new_location_even, new_location_odd.
  destruct (Z.even n) eqn:He; destruct (Z.eqb_spec k 0) as [->|Hz]; cbn [shr_record_of_loc];
    unfold within; cbn [shr_m shr_r shr_s]; [lia| |lia|].
  - destruct (Z.compare_spec (2 * k) n); cbn [shr_record_of_loc shr_m shr_r shr_s]; nia.
  - assert (Hne : 2 * k <> n) by (intros <-; by rewrite Z.even_mul in He).
    destruct (Z.compare_spec (2 * k + 1) n); cbn [shr_record_of_loc shr_m shr_r shr_s]; nia.
Qed.

Lemma loc_within r : shr_record_of_loc (shr_m r) (loc_of_shr_record r) = r.
Proof. by destruct r as [m [] []]. Qed.

Lemma rne_near r a b :
  0 < b -> within r a b ->
  let q := round_nearest_even (shr_m r) (loc_of_shr_record r) in
  shr_m r <= q <= shr_m r + 1 /\ 2 * Z.abs (q * b - a) <= b.
Proof.
  intros Hb Hw. destruct r as [m [] []]; unfold within in Hw; cbn [shr_m shr_r shr_s] in Hw;
    cbn [loc_of_shr_record round_nearest_even shr_m]; try destruct (Z.even m); nia.
Qed.

Lemma digits2_range p : 2 ^ (Zpos (digits2_pos p) - 1) <= Zpos p < 2 ^ Zpos (digits2_pos p).
Proof.
  induction p as [p IH|p IH|]; cbn [digits2_pos]; [| |done];
    rewrite Pos2Z.inj_succ; replace (Z.succ (Zpos (digits2_pos p)) - 1) with (Z.succ (Zpos (digits2_pos p) - 1)) by lia;
    rewrite !Z.pow_succ_r by lia; lia.
Qed.

Lemma digits2_unique p d : 2 ^ (d - 1) <= Zpos p < 2 ^ d -> Zpos (digits2_pos p) = d.
Proof.
  intros Hd. pose proof (digits2_range p) as Hp.
  assert (0 <= d) by (destruct (Z.lt_ge_cases d 0); [rewrite (Z.pow_neg_r 2 d) in Hd by lia; lia|done]).
  assert (d - 1 < Zpos (digits2_pos p)) by (apply (Z.pow_lt_mono_r_iff 2); lia).
  assert (Zpos (digits2_pos p) - 1 < d) by (apply (Z.pow_lt_mono_r_iff 2); lia). lia.
Qed.

(** One rounding to binary64 in the normal range: a value [a / b * 2 ^ e] comes out as the
    53-bit mantissa [m'] at an exponent [e'], half a unit in the last place away at most. *)
Lemma round_normal sx m e l a b n :
  0 < b -> within (shr_record_of_loc (Zpos m) l) a b ->
  Zpos (digits2_pos m) = 53 + Z.of_nat n -> -1074 <= e + Z.of_nat n <= 970 ->
  exists m' e', binary_round_aux 53 1024 sx (Zpos m) e l = S754_finite sx m' e' /\
    4503599627370496 <= Zpos m' < 9007199254740992 /\ e <= e' <= e + Z.of_nat n + 1 /\
    2 * Z.abs (Zpos m' * b * 2 ^ (e' - e) - a) <= b * 2 ^ (e' - e).
Proof.
  intros Hb Hw Hd He. unfold binary_round_aux, shr_fexp.
  replace (fexp 53 1024 (Zdigits2 (Zpos m) + e) - e) with (Z.of_nat n)
    by (cbn [Zdigits2]; rewrite Hd; unfold fexp, emin; lia).
  assert (Hm : 0 <= shr_m (shr_record_of_loc (Zpos m) l)) by (by destruct l as [|[]]).
  assert (Em : shr_m (shr_record_of_loc (Zpos m) l) = Zpos m) by (by destruct l as [|[]]).
  destruct (within_iter n _ a b Hb Hm Hw) as (Hw1 & E1 & _).
  assert (Es : shr (shr_record_of_loc (Zpos m) l) e (Z.of_nat n) =
    (Nat.iter n shr_1 (shr_record_of_loc (Zpos m) l), e + Z.of_nat n)).
  { destruct n as [|n]; [cbn; by rewrite Z.add_0_r|]. change (Z.of_nat (S n)) with (Zpos (Pos.of_succ_nat n)). unfold shr.
    by rewrite iter_pos_nat, SuccNat2Pos.id_succ. }
  rewrite Es. set (r := Nat.iter n shr_1 _) in *. rewrite Em in E1.
  assert (Hp : 0 < 2 ^ Z.of_nat n) by (apply Z.pow_pos_nonneg; lia).
  destruct (rne_near r a (b * 2 ^ Z.of_nat n) ltac:(nia) Hw1) as [Hq Hnear].
  set (q := round_nearest_even _ _) in *.
  pose proof (digits2_range m) as Hr. rewrite Hd in Hr.
  replace (53 + Z.of_nat n - 1) with (52 + Z.of_nat n) in Hr by lia. rewrite !Z.pow_add_r in Hr by lia.
  assert (Hm1 : 4503599627370496 <= shr_m r < 9007199254740992).
  { rewrite E1. split; [apply Z.div_le_lower_bound; lia|apply Z.div_lt_upper_bound; lia]. }
  clearbody q. destruct q as [|q|q]; [lia| |lia].
  destruct (Z.eq_dec (Zpos q) 9007199254740992) as [Eq|Hlt].
  - injection Eq as ->. replace (fexp 53 1024 (Zdigits2 9007199254740992 + (e + Z.of_nat n)) - (e + Z.of_nat n)) with 1
      by (unfold fexp, emin; cbn [Zdigits2 digits2_pos Pos.succ]; lia).
    exists 4503599627370496%positive, (e + Z.of_nat n + 1). cbn [shr shr_record_of_loc SpecFloat.iter_pos shr_1 shr_m].
    rewrite (proj2 (Z.leb_le _ _)) by lia. split_and!; [done|lia|lia|lia|lia|].
    replace (e + Z.of_nat n + 1 - e) with (Z.of_nat n + 1) by lia. rewrite Z.pow_add_r by lia.
    change (2 ^ 1) with 2. nia.
  - assert (Hdq : Zpos (digits2_pos q) = 53) by (apply digits2_unique; lia).
    replace (fexp 53 1024 (Zdigits2 (Zpos q) + (e + Z.of_nat n)) - (e + Z.of_nat n)) with 0
      by (cbn [Zdigits2]; rewrite Hdq; unfold fexp, emin; lia).
    exists q, (e + Z.of_nat n). cbn [shr shr_record_of_loc shr_m].
    rewrite (proj2 (Z.leb_le _ _)) by lia. split_and!; [done|lia|lia|lia|lia|].
    replace (e + Z.of_nat n - e) with (Z.of_nat n) by lia. nia.
Qed.

(** A quotient, half a unit in the last place away at most. *)
Lemma SFdiv_near num en den ed :
  Zpos (digits2_pos num) <= 53 -> 27 <= Zpos (digits2_pos den) <= 53 -> -100 <= en - ed <= 100 ->
  exists m e, SFdiv 53 1024 (S754_finite false num en) (S754_finite false den ed) = S754_finite false m e /\
    4503599627370496 <= Zpos m < 9007199254740992 /\ 0 <= en - ed - e /\
    2 * Z.abs (Zpos m * Zpos den - Zpos num * 2 ^ (en - ed - e)) <= Zpos den.
Proof.
  intros H1 H2 He. unfold SFdiv, SFdiv_core_binary. cbn [Zdigits2 xorb].
  set (d1 := Zpos (digits2_pos num)) in *. set (d2 := Zpos (digits2_pos den)) in *.
  assert (Hd1 : 1 <= d1) by lia.
  set (e0 := en - ed + d1 - d2 - 53).
  replace (Z.min (fexp 53 1024 (d1 + en - (d2 + ed))) (en - ed)) with e0 by (unfold fexp, emin; lia).
  assert (Es : exists S, en - ed - e0 = Zpos S /\ Zpos S = 53 + d2 - d1).
  { exists (Z.to_pos (53 + d2 - d1)). lia. }
  destruct Es as (S & -> & ES). rewrite Z.shiftl_mul_pow2 by lia.
  pose proof (digits2_range num) as Hn. pose proof (digits2_range den) as Hd. fold d1 in Hn. fold d2 in Hd.
  set (m' := Zpos num * 2 ^ Zpos S).
  assert (Hm' : 4503599627370496 * 2 ^ d2 <= m' < 9007199254740992 * 2 ^ d2).
  { assert (0 < 2 ^ Zpos S) by (apply Z.pow_pos_nonneg; lia).
    assert (E1 : 2 ^ (d1 - 1) * 2 ^ Zpos S = 4503599627370496 * 2 ^ d2).
    { change 4503599627370496 with (2 ^ 52). rewrite <- !Z.pow_add_r by lia. f_equal. lia. }
    assert (E2 : 2 ^ d1 * 2 ^ Zpos S = 9007199254740992 * 2 ^ d2).
    { change 9007199254740992 with (2 ^ 53). rewrite <- !Z.pow_add_r by lia. f_equal. lia. }
    unfold m'. nia. }
  assert (E3 : 2 ^ d2 = 2 * 2 ^ (d2 - 1)) by (rewrite <- Z.pow_succ_r by lia; f_equal; lia).
  pose proof (Z_div_mod m' (Zpos den) ltac:(lia)) as Hdm.
  destruct (Z.div_eucl m' (Zpos den)) as [q r]. destruct Hdm as [Em Hr].
  assert (Hq : 4503599627370496 <= q < 18014398509481984) by nia.
  destruct q as [|q|q]; [lia| |lia].
  assert (Hn' : exists n, Zpos (digits2_pos q) = 53 + Z.of_nat n /\ (n <= 1)%nat).
  { destruct (Z.lt_ge_cases (Zpos q) 9007199254740992).
    - exists 0%nat. split; [|lia]. apply digits2_unique. lia.
    - exists 1%nat. split; [|lia]. apply digits2_unique. lia. }
  destruct Hn' as (n & Hdq & Hn1).
  destruct (round_normal false q e0 (new_location (Zpos den) r) m' (Zpos den) n) as (m & e & -> & Hmr & Hee & Hnear);
    [lia|rewrite Em, Z.mul_comm; apply within_loc; lia|done|lia|].
  exists m, e. split_and!; [done|lia|lia|lia|].
  set (k := e - e0) in *. assert (Hk : 0 < 2 ^ k) by (apply Z.pow_pos_nonneg; lia).
  replace (en - ed - e) with (Zpos S - k) by lia.
  assert (EP : 2 ^ Zpos S = 2 ^ (Zpos S - k) * 2 ^ k) by (rewrite <- Z.pow_add_r by lia; f_equal; lia).
  unfold m' in Hnear. rewrite EP in Hnear. set (P := 2 ^ (Zpos S - k)) in *. set (K := 2 ^ k) in *.
  apply (Zmult_le_reg_r _ _ K); [lia|].
  replace (Zpos m * Zpos den * K - Zpos num * (P * K)) with ((Zpos m * Zpos den - Zpos num * P) * K) in Hnear by ring.
  rewrite Z.abs_mul, (Z.abs_eq K) in Hnear by lia. lia.
Qed.

(** A float within [c] half units of the last place of [s / 10^8] reads as [s]. *)
Lemma sats_of_near c s m E :
  0 < s -> c = 1 /\ s <= 2100000000000000 \/ c = 2 /\ s <= 1500000000000000 -> 0 <= E ->
  4503599627370496 <= Zpos m < 9007199254740992 ->
  2 * Z.abs (Zpos m * 100000000 - s * 2 ^ E) <= c * 100000000 ->
  sats_of_btc (S754_finite false m (- E)) = s.
Proof.
  intros Hs Hc HE Hm Hnear. unfold sats_of_btc.
  change (f64_of_Z 100000000) with (S754_finite false 6710886400000000 (-26)).
  unfold SFmul. cbn [xorb]. set (P := (m * 6710886400000000)%positive).
  set (T := 2 ^ E) in *. assert (HT : 0 < T) by (apply Z.pow_pos_nonneg; lia).
  assert (HTlo : (2 * Zpos m - c) * 100000000 <= 2 * s * T) by lia.
  assert (HTs : 2 * s * T <= (2 * Zpos m + c) * 100000000) by lia.
  assert (HE' : E < 90).
  { destruct (Z.lt_ge_cases E 90); [done|]. assert (2 ^ 90 <= T) by (apply Z.pow_le_mono_r; lia).
    pose proof (Z.mul_le_mono_nonneg_r 1 s T ltac:(lia) ltac:(lia)). change (2 ^ 90) with 1237940039285380274899124224 in *. lia. }
  assert (HP : Zpos P = Zpos m * 6710886400000000) by done.
  assert (Hn : exists n, Zpos (digits2_pos P) = 53 + Z.of_nat n /\ (52 <= n <= 53)%nat).
  { destruct (Z.lt_ge_cases (Zpos P) (2 ^ 105)) as [Hlt|Hge].
    - exists 52%nat. split; [|lia]. apply digits2_unique. change (2 ^ (53 + Z.of_nat 52)) with (2 ^ 105).
      change (2 ^ (53 + Z.of_nat 52 - 1)) with 20282409603651670423947251286016. lia.
    - exists 53%nat. split; [|lia]. apply digits2_unique. change (2 ^ (53 + Z.of_nat 53 - 1)) with (2 ^ 105).
      change (2 ^ (53 + Z.of_nat 53)) with 81129638414606681695789005144064. lia. }
  destruct Hn as (n & Hd & Hn).
  destruct (round_normal false P (- E + -26) loc_Exact (Zpos P) 1 n) as (m2 & e2 & -> & Hm2 & He2 & Hr);
    [lia|unfold within; cbn; lia|done|lia|].
  rewrite !Z.mul_1_r, !Z.mul_1_l in Hr. set (k := e2 - (- E + -26)) in *.
  set (K := 2 ^ k) in *. assert (HK : 0 < K) by (apply Z.pow_pos_nonneg; lia).
  assert (HKP : 9007199254740991 * K <= 2 * Zpos P).
  { pose proof (Z.mul_le_mono_nonneg_r 4503599627370496 (Zpos m2) K ltac:(lia) ltac:(lia)). lia. }
  assert (HU : K + c * 100000000 * 67108864 < 67108864 * T).
  { destruct Hc as [[-> Hc]|[-> Hc]]; pose proof (Z.mul_le_mono_nonneg_r _ _ T ltac:(lia) Hc); lia. }
  assert (Hneg : e2 < 0).
  { destruct (Z.lt_ge_cases e2 0) as [|Hpos]; [done|]. exfalso.
    assert (HKT : 67108864 * T <= K).
    { unfold K, T. change 67108864 with (2 ^ 26). rewrite <- Z.pow_add_r by lia. apply Z.pow_le_mono_r; lia. }
    destruct Hc as [[-> Hc]|[-> Hc]]; pose proof (Z.mul_le_mono_nonneg_r _ _ T ltac:(lia) Hc);
      pose proof (Z.mul_le_mono_nonneg_r 4503599627370496 (Zpos m2) K ltac:(lia) ltac:(lia)); lia. }
  unfold round_half_away. rewrite (proj2 (Z.leb_gt 0 e2)) by lia. set (F := 2 ^ (- e2)).
  assert (HF : 0 < F) by (apply Z.pow_pos_nonneg; lia).
  assert (EU : K * F = 67108864 * T).
  { unfold K, F, T. change 67108864 with (2 ^ 26). rewrite <- !Z.pow_add_r by lia. f_equal. lia. }
  assert (Hclose : Z.abs (2 * Zpos m2 - 2 * s * F) < F).
  { assert (HK2 : Z.abs ((2 * Zpos m2 - 2 * s * F) * K) < F * K).
    { replace ((2 * Zpos m2 - 2 * s * F) * K) with (2 * (Zpos m2 * K) - 2 * s * (K * F)) by ring.
      rewrite (Z.mul_comm F K), EU. lia. }
    rewrite Z.abs_mul, (Z.abs_eq K) in HK2 by lia. by apply Zmult_lt_reg_r in HK2. }
  assert (Eq : (2 * Zpos m2 + F) / (2 * F) = s) by (symmetry; apply (Z.div_unique _ _ _ (2 * Zpos m2 + F - 2 * F * s)); lia).
  rewrite Eq. unfold f64_as_u64, U64_MAX. lia.
Qed.

Lemma iter_xO m d : Zpos (Pos.iter xO m d) = Zpos m * 2 ^ Zpos d.
Proof.
  induction d as [|d IH] using Pos.peano_ind; [cbn; lia|].
  rewrite Pos.iter_succ, Pos2Z.inj_xO, IH, Pos2Z.inj_succ, Z.pow_succ_r by lia. lia.
Qed.

(** A mantissa of 53 bits is its own rounding. *)
Lemma round_exact sx m e :
  Zpos (digits2_pos m) = 53 -> -1074 <= e <= 971 ->
  binary_round_aux 53 1024 sx (Zpos m) e loc_Exact = S754_finite sx m e.
Proof.
  intros Hd He. unfold binary_round_aux, shr_fexp.
  replace (fexp 53 1024 (Zdigits2 (Zpos m) + e) - e) with 0
    by (cbn [Zdigits2]; rewrite Hd; unfold fexp, emin; lia).
  cbn [shr shr_record_of_loc shr_m loc_of_shr_record round_nearest_even].
  replace (fexp 53 1024 (Zdigits2 (Zpos m) + e) - e) with 0
    by (cbn [Zdigits2]; rewrite Hd; unfold fexp, emin; lia).
  cbn [shr shr_m]. by rewrite (proj2 (Z.leb_le _ _)) by lia.
Qed.

(** An integer of at most 53 bits converts exactly. *)
Lemma f64_of_pos s :
  Zpos s < 9007199254740992 ->
  exists m E, f64_of_Z (Zpos s) = S754_finite false m (- E) /\ 0 <= E <= 52 /\
    4503599627370496 <= Zpos m < 9007199254740992 /\ Zpos m = Zpos s * 2 ^ E.
Proof.
  intros Hs. pose proof (digits2_range s) as Hr. set (d := Zpos (digits2_pos s)) in *.
  assert (Hd : d <= 53).
  { apply Z.le_ngt. intros Hd. assert (2 ^ 53 <= 2 ^ (d - 1)) by (apply Z.pow_le_mono_r; lia).
    change (2 ^ 53) with 9007199254740992 in *. lia. }
  unfold f64_of_Z, binary_normalize, binary_round. cbn [Z.add].
  replace (fexp 53 1024 (Zpos (digits2_pos s) + 0)) with (d - 53) by (unfold fexp, emin; lia).
  set (E := 53 - d).
  assert (Ha : exists m, shl_align s 0 (d - 53) = (m, - E) /\ Zpos m = Zpos s * 2 ^ E).
  { unfold shl_align. replace (d - 53 - 0) with (- E) by lia. destruct E as [|p|p] eqn:EE; [|cbn [Z.opp]|lia].
    - exists s. split; [done|lia].
    - exists (Pos.iter xO s p). split; [f_equal; lia|]. apply iter_xO. }
  destruct Ha as (m & -> & Em).
  assert (Hm : 4503599627370496 <= Zpos m < 9007199254740992).
  { assert (0 < 2 ^ E) by (apply Z.pow_pos_nonneg; lia). rewrite Em.
    assert (E1 : 2 ^ (d - 1) * 2 ^ E = 4503599627370496).
    { rewrite <- Z.pow_add_r by lia. replace (d - 1 + E) with 52 by lia. done. }
    assert (E2 : 2 ^ d * 2 ^ E = 9007199254740992).
    { rewrite <- Z.pow_add_r by lia. replace (d + E) with 53 by lia. done. }
    split.
    - rewrite <- E1. apply Z.mul_le_mono_nonneg_r; lia.
    - rewrite <- E2. apply Z.mul_lt_mono_pos_r; lia. }
  exists m, E. split_and!; [|lia|lia|lia|lia|done].
  apply round_exact; [apply digits2_unique; cbn; lia|lia].
Qed.

(** C40: Amounts cross the node's JSON without loss.  For every amount up to 21 million coins,
    the float nearest to the decimal the node prints, and the quotient the client sends, both
    read back as exactly that amount; up to 15 million coins this holds even for a parser
    whose float is a whole unit of the last place away. *)
Theorem amount_exact (s : Z) :
  0 <= s <= 2100000000000000 ->
  sats_of_btc (of_decimal false s (-8)) = s /\ sats_of_btc (btc_of_sats s) = s /\
  forall m e, 0 < s <= 1500000000000000 -> e <= 0 -> 4503599627370496 <= Zpos m < 9007199254740992 ->
    Z.abs (Zpos m * 100000000 - s * 2 ^ (- e)) <= 100000000 ->
    sats_of_btc (S754_finite false m e) = s.
Proof.
  intros Hs. split_and!.
  - destruct s as [|s|s]; [done| |lia].
    change (of_decimal false (Zpos s) (-8)) with
      (SFdiv 53 1024 (S754_finite false (Z.to_pos (Zpos s * 1)) 0) (S754_finite false 100000000 0)).
    rewrite Z.mul_1_r. cbn [Z.to_pos].
    destruct (SFdiv_near s 0 100000000 0) as (m & e & -> & Hm & He & Hn); [| |lia|].
    + pose proof (digits2_range s). apply Z.le_ngt. intros Hd.
      assert (2 ^ 53 <= 2 ^ (Zpos (digits2_pos s) - 1)) by (apply Z.pow_le_mono_r; lia).
      change (2 ^ 53) with 9007199254740992 in *. lia.
    + cbn. lia.
    + rewrite <- (Z.opp_involutive e). apply (sats_of_near 1); [lia|lia|lia|done|].
      replace (0 - 0 - e) with (- e) in Hn by lia. lia.
  - destruct s as [|s|s]; [done| |lia]. unfold btc_of_sats.
    destruct (f64_of_pos s ltac:(lia)) as (num & E & -> & HE & Hnum & En).
    change (f64_of_Z 100000000) with (S754_finite false 6710886400000000 (-26)).
    destruct (SFdiv_near num (- E) 6710886400000000 (-26)) as (m & e & -> & Hm & He & Hn); [|cbn; lia|lia|].
    { rewrite (digits2_unique num 53) by (cbn; lia). lia. }
    assert (Ew : Zpos num * 2 ^ (- E - -26 - e) = Zpos s * 2 ^ (26 - e)).
    { rewrite En, <- Z.mul_assoc, <- Z.pow_add_r by lia. do 2 f_equal. lia. }
    rewrite Ew in Hn. assert (He0 : e <= 0).
    { apply Z.le_ngt. intros He0. assert (Hp : 2 ^ (26 - e) <= 2 ^ 25) by (apply Z.pow_le_mono_r; lia).
      assert (0 < 2 ^ (26 - e)) by (apply Z.pow_pos_nonneg; lia). change (2 ^ 25) with 33554432 in Hp.
      pose proof (Z.mul_le_mono_nonneg_l _ _ (Zpos s) ltac:(lia) Hp). lia. }
    rewrite <- (Z.opp_involutive e). apply (sats_of_near 1); [lia|lia|lia|done|].
    replace (26 - e) with (26 + - e) in Hn by lia. rewrite Z.pow_add_r in Hn by lia.
    change (2 ^ 26) with 67108864 in Hn. lia.
  - intros m e Hs' He Hm Hn. rewrite <- (Z.opp_involutive e). apply (sats_of_near 2); [lia|lia|lia|done|lia].
Qed.
