(* ===== verification/Toy.v ===== *)
(** * A concrete instance of the library interface

    An executable stand-in for the cryptographic library, so that every theorem stated
    over [Lib] and [LibSpec] can be evaluated on concrete transactions.  It is no model of
    SHA-256 or BIP340: it only shows the interface's laws hold together. *)

From Stdlib Require Import ZArith Lia.
From stdpp Require Import base gmap strings option list.
From S2P Require Import Prelude Units Elements.

Definition toy_fold (acc : Z) (b : Byte.byte) : Z :=
  Z.land (acc + Z.shiftl acc 10 + byte_to_Z b + 1) 2305843009213693951.
Definition toy_sha256 (l : bytes) : bytes := replicate 24 Byte.x00 ++ be_bytes 8 (foldl toy_fold 7 l).

Definition toy_sign (kp msg : bytes) : bytes := toy_sha256 (kp ++ msg) ++ toy_sha256 (msg ++ kp).
Definition toy_verify (pk msg sig : bytes) : bool := bool_decide (sig = toy_sign pk msg).

Definition toy_tag : bytes := toy_sha256 (ascii_bytes "TapLeaf/elements").
Definition toy_tap_leaf (s : Script) (v : Z) : bytes :=
  toy_sha256 (toy_tag ++ toy_tag ++ byte_of_Z v :: byte_of_Z (Z.of_nat (length s)) :: s).

Definition toy_ser_value (v : CValue) : bytes :=
  match v with
  | VNull => [Byte.x00]
  | VExplicit x => Byte.x01 :: be_bytes 8 x
  | VConfidential c => Byte.x08 :: c
  end.
Definition toy_ser_asset (a : CAsset) : bytes :=
  match a with
  | ANull => [Byte.x00]
  | AExplicit x => Byte.x01 :: x
  | AConfidential c => Byte.x0a :: c
  end.
Definition toy_ser_tx (tx : Transaction) : bytes :=
  be_bytes 4 (version tx) ++ be_bytes 4 (lock_time tx) ++
  concat ((fun i => op_txid (previous_output i) ++ be_bytes 4 (op_vout (previous_output i)))
            <$> input tx) ++
  concat ((fun o => toy_ser_asset (to_asset o) ++ toy_ser_value (to_value o) ++ to_spk o)
            <$> output tx).

#[export] Instance toy_lib : Lib := {
  sha256 := toy_sha256;
  verify_schnorr := toy_verify;
  keypair_pk kp := kp;
  sign_schnorr := toy_sign;
  tap_leaf := toy_tap_leaf;
  tap_branch a b := toy_sha256 (a ++ b);
  tap_tweak k r := toy_sha256 (k ++ default [] r);
  tap_parity _ _ := false;
  simplicity_leaf_version := 0xbe;
  txid_of tx := toy_sha256 (toy_ser_tx tx)
}.

Lemma toy_ser_body tx : toy_ser_tx (body tx) = toy_ser_tx tx.
Proof. unfold toy_ser_tx, body. cbn. rewrite <- list_fmap_compose. done. Qed.

#[export] Instance toy_spec : LibSpec toy_lib.
Proof.
  constructor.
  - done.
  - intros. cbn. unfold toy_verify. by apply bool_decide_eq_true_2.
  - done.
  - intros t1 t2 E. change (toy_sha256 (toy_ser_tx t1) = toy_sha256 (toy_ser_tx t2)).
    by rewrite <- (toy_ser_body t1), <- (toy_ser_body t2), E.
Qed.
