(* ===== verification/Oracle.v ===== *)
(** * Oracle ticks ([styx-core/src/oracle.rs])

    The signed (height, price, backing_k) triples, the 3-of-5 tick whose constructor
    enforces the quorum shape, and the directional price range. *)

From stdpp Require Import base strings list sets.
From Stdlib Require Import ZArith Lia.
From S2P Require Import Prelude Units Elements.

Definition LOCK_TIME_HEIGHT_THRESHOLD : Z := 500000000.

Inductive OracleError : Type :=
| InvalidSlot (slot : Z)
| DuplicateSlot (slot : Z)
| HeightAboveThreshold (height : Z).

Record TickPayload : Type := mkPayload {
  tp_height : BlockHeight.t;
  tp_price : Price.t;
  tp_backing_k : RatioK.t
}.

(** The preimage each oracle signs the hash of. *)
Definition tick_preimage (p : TickPayload) : bytes :=
  be_bytes 4 (BlockHeight.raw (tp_height p)) ++
  be_bytes 4 (Price.raw (tp_price p)) ++
  be_bytes 4 (RatioK.raw (tp_backing_k p)).

Definition tick_digest `{Lib} (p : TickPayload) : bytes := sha256 (tick_preimage p).

(** ** Slots *)
Module OracleSlot.

Record t : Type := mk { idx : Z }.

Definition new (index : Z) : result OracleError t :=
  if 4 <? index then Err (InvalidSlot index) else Ok (mk index).

Definition index (s : t) : nat := Z.to_nat (idx s).

#[export] Instance eq_dec : EqDecision t.
Proof. solve_decision. Defined.

End OracleSlot.
Export (hints) OracleSlot.

Record SignedQuote : Type := mkQuote { sq_price : Price.t; sq_sig : bytes }.

#[export] Instance SignedQuote_eq_dec : EqDecision SignedQuote.
Proof. solve_decision. Defined.

(** [sign_quote]: one oracle's signature over a payload. *)
Definition sign_quote `{Lib} (kp : bytes) (payload : TickPayload) : SignedQuote :=
  mkQuote (tp_price payload) (sign_schnorr kp (tick_digest payload)).

(** ** Ticks

    [slots] is the [[Option<SignedQuote>; 5]] array: a list the constructor builds with
    five entries. *)
Module OracleTick.

Record t : Type := mk {
  height : BlockHeight.t;
  backing_k : RatioK.t;
  slots : list (option SignedQuote)
}.

(** The [for] loop of the constructor: place each quote, refusing an occupied slot. *)
Fixpoint place (quotes : list (OracleSlot.t * SignedQuote)) (slots : list (option SignedQuote))
    : result OracleError (list (option SignedQuote)) :=
  match quotes with
  | [] => Ok slots
  | (slot, quote) :: rest =>
      if bool_decide (is_Some (mjoin (slots !! OracleSlot.index slot)))
      then Err (DuplicateSlot (OracleSlot.idx slot))
      else place rest (<[OracleSlot.index slot := Some quote]> slots)
  end.

Definition new (height : BlockHeight.t) (backing_k : RatioK.t)
    (quotes : (OracleSlot.t * SignedQuote) * (OracleSlot.t * SignedQuote) *
              (OracleSlot.t * SignedQuote)) : result OracleError t :=
  if LOCK_TIME_HEIGHT_THRESHOLD <=? BlockHeight.raw height
  then Err (HeightAboveThreshold (BlockHeight.raw height))
  else
    let '(q1, q2, q3) := quotes in
    slots ← place [q1; q2; q3] (replicate 5 None);
    Ok (mk height backing_k slots).

(** (min, max) over the active quotes, from the two sentinels. *)
Fixpoint range (slots : list (option SignedQuote)) (lo hi : Price.t) : Price.t * Price.t :=
  match slots with
  | [] => (lo, hi)
  | None :: rest => range rest lo hi
  | Some q :: rest => range rest (Price.min lo (sq_price q)) (Price.max hi (sq_price q))
  end.

Definition price_range (t : t) : Price.t * Price.t :=
  range (slots t) (Price.new U32_MAX) (Price.new 0).

Definition lo (t : t) : Price.t := (price_range t).1.
Definition hi (t : t) : Price.t := (price_range t).2.

End OracleTick.

(** ** What a tick of the code satisfies

    [quotes_in] lists the active quotes; [tick_wf] is the invariant of every value the
    private constructor can produce, with the integer ranges of its fields. *)

Definition quotes_in (slots : list (option SignedQuote)) : list SignedQuote :=
  omap id slots.

Record tick_wf (t : OracleTick.t) : Prop := {
  wf_slots : length (OracleTick.slots t) = 5%nat;
  wf_quorum : length (quotes_in (OracleTick.slots t)) = 3%nat;
  wf_height : 0 <= BlockHeight.raw (OracleTick.height t) < LOCK_TIME_HEIGHT_THRESHOLD;
  wf_backing : u32 (RatioK.raw (OracleTick.backing_k t));
  wf_prices : Forall (fun q => u32 (Price.raw (sq_price q))) (quotes_in (OracleTick.slots t))
}.

Lemma slot_new_ok i s : OracleSlot.new i = Ok s <-> i <= 4 /\ s = OracleSlot.mk i.
Proof. unfold OracleSlot.new. destruct (Z.ltb_spec 4 i); naive_solver lia. Qed.

Lemma quotes_in_insert slots i q :
  slots !! i = Some None ->
  quotes_in (<[i := Some q]> slots) ≡ₚ q :: quotes_in slots.
Proof.
  revert i. induction slots as [|o slots IH]; intros [|i] Hi; simplify_eq/=; [done|].
  specialize (IH i Hi). unfold quotes_in in *. destruct o; cbn; [|done].
  rewrite IH. by constructor.
Qed.

Lemma place_ok quotes slots slots' :
  Forall (fun q => (OracleSlot.index q.1 < length slots)%nat) quotes ->
  OracleTick.place quotes slots = Ok slots' ->
  length slots' = length slots /\
  quotes_in slots' ≡ₚ (snd <$> quotes) ++ quotes_in slots.
Proof.
  revert slots. induction quotes as [|[s q] quotes IH]; intros slots HF H.
  { by injection H as <-. }
  apply Forall_cons in HF as [Hlt HF]. cbn in *. case_bool_decide as Hocc; [done|].
  destruct (lookup_lt_is_Some_2 slots (OracleSlot.index s) Hlt) as [o Ho].
  assert (o = None) as -> by (destruct o; [|done]; exfalso; apply Hocc; rewrite Ho; cbn; eauto).
  apply IH in H as [Hlen HP]; [|by rewrite length_insert].
  rewrite length_insert in Hlen. split; [done|].
  rewrite HP, quotes_in_insert by done. by rewrite Permutation_middle.
Qed.

(** The range of a tick, as a fold of integers. *)
Lemma range_raw slots lo hi :
  Price.raw (OracleTick.range slots lo hi).1
    = foldr (fun q acc => Z.min (Price.raw (sq_price q)) acc) (Price.raw lo) (quotes_in slots) /\
  Price.raw (OracleTick.range slots lo hi).2
    = foldr (fun q acc => Z.max (Price.raw (sq_price q)) acc) (Price.raw hi) (quotes_in slots).
Proof.
  revert lo hi. induction slots as [|[q|] slots IH]; intros lo hi; cbn; [done| |apply IH].
  destruct (IH (Price.min lo (sq_price q)) (Price.max hi (sq_price q))) as [-> ->].
  rewrite price_min_raw, price_max_raw. clear IH. unfold quotes_in.
  generalize (omap id slots). intros l.
  generalize (Price.raw (sq_price q)). intros x. split.
  - generalize (Price.raw lo). induction l; cbn; intros; [lia|]. rewrite IHl. lia.
  - generalize (Price.raw hi). induction l; cbn; intros; [lia|]. rewrite IHl. lia.
Qed.

Lemma lo_le q t : q ∈ quotes_in (OracleTick.slots t) ->
  Price.raw (OracleTick.lo t) <= Price.raw (sq_price q) <= Price.raw (OracleTick.hi t).
Proof.
  unfold OracleTick.lo, OracleTick.hi, OracleTick.price_range.
  destruct (range_raw (OracleTick.slots t) (Price.new U32_MAX) (Price.new 0)) as [-> ->].
  induction 1 as [|? ? ? ? IH]; cbn in *; lia.
Qed.

(** The extremes are quotes of the tick. *)
Lemma range_attained t : tick_wf t ->
  (exists q, q ∈ quotes_in (OracleTick.slots t) /\ sq_price q = OracleTick.lo t) /\
  (exists q, q ∈ quotes_in (OracleTick.slots t) /\ sq_price q = OracleTick.hi t).
Proof.
  intros [_ HQ _ _ HP]. unfold OracleTick.lo, OracleTick.hi, OracleTick.price_range.
  pose proof (range_raw (OracleTick.slots t) (Price.new U32_MAX) (Price.new 0)) as [Hlo Hhi].
  destruct (OracleTick.range _ _ _) as [[lo] [hi]]. cbn in *.
  destruct (quotes_in (OracleTick.slots t)) as [|q1 l]; [discriminate HQ|].
  destruct l as [|q2 l]; [discriminate HQ|]. destruct l as [|q3 l]; [discriminate HQ|].
  destruct l as [| x l]; [|discriminate HQ].
  destruct q1 as [p1 s1], q2 as [p2 s2], q3 as [p3 s3], p1 as [p1], p2 as [p2], p3 as [p3].
  rewrite !Forall_cons in HP. cbn in *. destruct HP as (?&?&?&_). split.
  - assert (lo = p1 \/ lo = p2 \/ lo = p3) as [-> | [-> | ->]] by uint;
      [exists (mkQuote (Price.new p1) s1)|exists (mkQuote (Price.new p2) s2)
      |exists (mkQuote (Price.new p3) s3)]; (split; [set_solver|done]).
  - assert (hi = p1 \/ hi = p2 \/ hi = p3) as [-> | [-> | ->]] by uint;
      [exists (mkQuote (Price.new p1) s1)|exists (mkQuote (Price.new p2) s2)
      |exists (mkQuote (Price.new p3) s3)]; (split; [set_solver|done]).
Qed.

Lemma range_u32 t : tick_wf t ->
  u32 (Price.raw (OracleTick.lo t)) /\ u32 (Price.raw (OracleTick.hi t)) /\
  Price.raw (OracleTick.lo t) <= Price.raw (OracleTick.hi t).
Proof.
  intros Hwf. destruct (range_attained t Hwf) as [(q1&H1&E1) (q2&H2&E2)].
  destruct Hwf as [_ _ _ _ HP]. rewrite Forall_forall in HP.
  rewrite <- E1, <- E2. split_and!; [by apply HP..|].
  pose proof (lo_le q2 t H2). rewrite E1. lia.
Qed.

(** What [place] leaves in the array, and why it refuses. *)
Lemma place_spec quotes slots :
  Forall (fun q => (OracleSlot.index q.1 < length slots)%nat) quotes ->
  match OracleTick.place quotes slots with
  | Ok slots' =>
      NoDup (OracleSlot.index ∘ fst <$> quotes) /\
      Forall (fun q => slots !! OracleSlot.index q.1 = Some None) quotes /\
      Forall (fun q => slots' !! OracleSlot.index q.1 = Some (Some q.2)) quotes /\
      (forall i q, slots !! i = Some (Some q) -> slots' !! i = Some (Some q))
  | Err (DuplicateSlot i) =>
      OracleSlot.mk i ∈ (fst <$> quotes) /\
      (NoDup (OracleSlot.index ∘ fst <$> quotes) ->
       exists q, q ∈ quotes /\ slots !! OracleSlot.index q.1 <> Some None)
  | Err _ => False
  end.
Proof.
  revert slots. induction quotes as [|[s q] quotes IH]; intros slots HF.
  { cbn. split_and!; [apply NoDup_nil_2|by constructor..|done]. }
  apply Forall_cons in HF as [Hlt HF]. cbn [OracleTick.place fst] in *.
  destruct (lookup_lt_is_Some_2 slots _ Hlt) as [o Ho].
  case_bool_decide as Hocc.
  { cbn. split; [destruct s; left|]. intros _. exists (s, q). split; [left|].
    cbn. rewrite Ho in *. destruct Hocc. by destruct o. }
  assert (o = None) as -> by (destruct o; [|done]; exfalso; apply Hocc; rewrite Ho; cbn; eauto).
  specialize (IH (<[OracleSlot.index s:=Some q]> slots)). rewrite length_insert in IH.
  specialize (IH HF). destruct (OracleTick.place quotes _) as [slots'|e]; [|destruct e].
  - destruct IH as (Hnd & Hfree & Hin & Hkeep).
    assert (Hne : Forall (fun q => OracleSlot.index q.1 <> OracleSlot.index s) quotes).
    { eapply Forall_impl; [exact Hfree|]. cbn. intros [s' q'] Hq E. cbn in *.
      rewrite E, list_lookup_insert_eq in Hq; done. }
    cbn. split_and!.
    + constructor; [|done]. rewrite list_elem_of_fmap. intros (x & E & Hx).
      rewrite Forall_forall in Hne. by apply (Hne x Hx).
    + constructor; [done|]. rewrite Forall_forall in *. intros x Hx.
      specialize (Hfree x Hx). rewrite list_lookup_insert_ne in Hfree; [done|].
      apply not_eq_sym, Hne, Hx.
    + constructor; [|done]. apply Hkeep. by rewrite list_lookup_insert_eq.
    + intros i q' Hi. apply Hkeep. rewrite list_lookup_insert_ne; [done|]. congruence.
  - done.
  - destruct IH as [Hi IH]. split; [by right|]. intros Hnd. cbn in Hnd.
    apply NoDup_cons in Hnd as [Hni Hnd]. destruct (IH Hnd) as (x & Hx & Hl).
    exists x. split; [by right|]. rewrite list_lookup_insert_ne in Hl; [done|].
    intros E. apply Hni. rewrite list_elem_of_fmap. by exists x.
  - done.
Qed.

(** Where the quotes of the array come from. *)
Lemma place_inv quotes slots slots' :
  OracleTick.place quotes slots = Ok slots' ->
  forall i q, slots' !! i = Some (Some q) ->
  slots !! i = Some (Some q) \/ exists s, (s, q) ∈ quotes /\ OracleSlot.index s = i.
Proof.
  revert slots. induction quotes as [|[s q] quotes IH]; intros slots H i q' Hi.
  { injection H as <-. by left. }
  cbn in H. case_bool_decide; [done|]. destruct (IH _ H i q' Hi) as [Hs|(s' & Hs & <-)].
  - destruct (decide (OracleSlot.index s = i)) as [<-|Hne].
    + apply list_lookup_insert_Some in Hs as [(_ & [= <-] & _)|[? _]]; [|done].
      right. exists s. split; [left|done].
    + rewrite list_lookup_insert_ne in Hs by done. by left.
  - right. exists s'. split; [by right|done].
Qed.

Lemma tick_new_inv h k q1 q2 q3 t :
  OracleTick.new h k (q1, q2, q3) = Ok t ->
  BlockHeight.raw h < LOCK_TIME_HEIGHT_THRESHOLD /\
  OracleTick.height t = h /\ OracleTick.backing_k t = k /\
  forall i q, OracleTick.slots t !! i = Some (Some q) ->
    exists s, (s, q) ∈ [q1; q2; q3] /\ OracleSlot.index s = i.
Proof.
  unfold OracleTick.new. destruct (Z.leb_spec LOCK_TIME_HEIGHT_THRESHOLD (BlockHeight.raw h)); [done|].
  destruct (OracleTick.place _ _) as [slots|] eqn:E; [|done]. intros [= <-]. split_and!; [done..|].
  intros i q Hi. destruct (place_inv _ _ _ E i q Hi) as [Hr|]; [|done].
  apply lookup_replicate in Hr as [? _]. done.
Qed.

(** Three distinct valid slots make a tick. *)
Lemma tick_new_total h k q1 q2 q3 :
  BlockHeight.raw h < LOCK_TIME_HEIGHT_THRESHOLD ->
  Forall (fun q => (OracleSlot.index q.1 < 5)%nat) [q1; q2; q3] ->
  NoDup (OracleSlot.index ∘ fst <$> [q1; q2; q3]) ->
  exists t, OracleTick.new h k (q1, q2, q3) = Ok t /\
    length (OracleTick.slots t) = 5%nat /\
    quotes_in (OracleTick.slots t) ≡ₚ snd <$> [q1; q2; q3].
Proof.
  intros Hh HF Hnd. unfold OracleTick.new.
  destruct (Z.leb_spec LOCK_TIME_HEIGHT_THRESHOLD (BlockHeight.raw h)); [lia|].
  pose proof (place_spec [q1; q2; q3] (replicate 5 None) HF) as HS.
  destruct (OracleTick.place _ _) as [slots|[]] eqn:E; try done.
  - destruct (place_ok [q1; q2; q3] (replicate 5 None) _ HF E) as [Hl Hp]. eexists. split; [done|]. cbn in *.
    done.
  - destruct HS as [_ HS]. destruct (HS Hnd) as (x & Hx & Hl). exfalso. apply Hl.
    rewrite Forall_forall in HF. by rewrite lookup_replicate_2 by (by apply HF).
Qed.

Lemma length_tick_preimage p : length (tick_preimage p) = 12%nat.
Proof. unfold tick_preimage. by rewrite !length_app, !length_be_bytes. Qed.

(** ** Properties *)

(** The price, the height and the backing ratio a signature covers can be read back from
    the signed bytes: two payloads with the same preimage are equal. *)
Theorem tick_preimage_inj p1 p2 :
  u32 (BlockHeight.raw (tp_height p1)) -> u32 (Price.raw (tp_price p1)) ->
  u32 (RatioK.raw (tp_backing_k p1)) ->
  u32 (BlockHeight.raw (tp_height p2)) -> u32 (Price.raw (tp_price p2)) ->
  u32 (RatioK.raw (tp_backing_k p2)) ->
  tick_preimage p1 = tick_preimage p2 -> p1 = p2.
Proof.
  destruct p1 as [[h1] [x1] [k1]], p2 as [[h2] [x2] [k2]]. unfold tick_preimage, u32.
  cbn [tp_height tp_price tp_backing_k BlockHeight.raw Price.raw RatioK.raw].
  intros ?????? E.
  apply app_inj_1 in E as [E1 E]; [|by rewrite !length_be_bytes].
  apply app_inj_1 in E as [E2 E3]; [|by rewrite !length_be_bytes].
  apply be_bytes_inj in E1; [|done..]. apply be_bytes_inj in E2; [|done..].
  apply be_bytes_inj in E3; [|done..]. congruence.
Qed.

(** The constructor accepts exactly three quotes at distinct valid slots of a block
    height: what it returns holds these three quotes and no others, and meets the
    quorum invariant; it refuses only a height at or above the BIP65 threshold and a
    slot used twice. *)
Theorem oracle_tick_new_spec (h : BlockHeight.t) (k : RatioK.t) (s1 s2 s3 : OracleSlot.t)
    (q1 q2 q3 : SignedQuote) :
  u32 (BlockHeight.raw h) -> u32 (RatioK.raw k) ->
  Forall (fun s => 0 <= OracleSlot.idx s <= 4) [s1; s2; s3] ->
  Forall (fun q => u32 (Price.raw (sq_price q))) [q1; q2; q3] ->
  match OracleTick.new h k ((s1, q1), (s2, q2), (s3, q3)) with
  | Ok t =>
      tick_wf t /\ NoDup [s1; s2; s3] /\
      OracleTick.height t = h /\ OracleTick.backing_k t = k /\
      Forall (fun '(s, q) => OracleTick.slots t !! OracleSlot.index s = Some (Some q))
        [(s1, q1); (s2, q2); (s3, q3)]
  | Err (HeightAboveThreshold x) =>
      x = BlockHeight.raw h /\ LOCK_TIME_HEIGHT_THRESHOLD <= BlockHeight.raw h
  | Err (DuplicateSlot i) => ~ NoDup [s1; s2; s3] /\ OracleSlot.mk i ∈ [s1; s2; s3]
  | Err (InvalidSlot _) => False
  end.
Proof.
  intros Hh Hk Hs Hq. unfold OracleTick.new.
  destruct (Z.leb_spec LOCK_TIME_HEIGHT_THRESHOLD (BlockHeight.raw h)); [done|].
  pose proof (place_spec [(s1, q1); (s2, q2); (s3, q3)] (replicate 5 None)) as HP.
  pose proof (place_ok [(s1, q1); (s2, q2); (s3, q3)] (replicate 5 None)) as HO.
  assert (HF : Forall (fun q : OracleSlot.t * SignedQuote =>
      (OracleSlot.index q.1 < length (replicate 5 (@None SignedQuote)))%nat)
      [(s1, q1); (s2, q2); (s3, q3)]).
  { clear HP HO. rewrite !Forall_cons in *. cbn. unfold OracleSlot.index.
    destruct Hs as (?&?&?&?). split_and!; [lia..|by constructor]. }
  specialize (HP HF). destruct (OracleTick.place _ _) as [slots|[]]; cbn; try done.
  - destruct (HO slots HF eq_refl) as [Hlen Hperm]. cbn in Hlen, Hperm.
    destruct HP as (Hnd & _ & Hin & _). split_and!.
    + constructor; cbn; [done|by rewrite Hperm|unfold u32 in Hh; lia|done|by rewrite Hperm].
    + apply (NoDup_fmap_1 OracleSlot.index). exact Hnd.
    + done.
    + done.
    + rewrite !Forall_cons in *. cbn in *. naive_solver.
  - destruct HP as [Hi HP]. split; [|done]. intros Hnd. destruct HP as (x & Hx & Hl).
    + change (NoDup (OracleSlot.index <$> [s1; s2; s3])). apply NoDup_fmap_2_strong; [|done].
      rewrite Forall_forall in Hs. unfold OracleSlot.index. intros [x] [y] Hx Hy E.
      apply Hs in Hx, Hy. cbn in *. f_equal. lia.
    + rewrite Forall_forall in HF. apply HF in Hx. apply Hl.
      by rewrite lookup_replicate_2 by exact Hx.
Qed.

Lemma tick_preimage_inj_witness :
  let p := mkPayload (BlockHeight.new 7) (Price.new 60000) (RatioK.new 200000000) in
  length (tick_preimage p) = 12%nat /\ p = p.
Proof.
  cbv zeta. split; [reflexivity|]. apply tick_preimage_inj; unfold u32; cbn; lia || done.
Defined.

Definition sample_quote (price : Z) : SignedQuote := mkQuote (Price.new price) [].

Lemma oracle_tick_new_spec_witness :
  exists t,
    OracleTick.new (BlockHeight.new 100) K_PAR
      ((OracleSlot.mk 4, sample_quote 7), (OracleSlot.mk 0, sample_quote 5),
       (OracleSlot.mk 2, sample_quote 6)) = Ok t /\ tick_wf t.
Proof.
  eexists. split; [reflexivity|].
  refine (proj1 (oracle_tick_new_spec (BlockHeight.new 100) K_PAR (OracleSlot.mk 4)
    (OracleSlot.mk 0) (OracleSlot.mk 2) (sample_quote 7) (sample_quote 5) (sample_quote 6)
    _ _ _ _)); repeat (apply Forall_cons_2 || apply Forall_nil_2 || split); by vm_compute.
Defined.
