(* ===== verification/Simf.v ===== *)
(** * Witness values ([styx-core/src/encode/simf.rs])

    The SimplicityHL types and values the encoders build, the [ToSimf] trait with its
    implementations, and a reader for each implemented type.  [ResolvedType] and [Value]
    are the terms the code writes: one constructor per [simplicityhl] constructor
    function it calls.  The reader is what a covenant sees of a witness. *)

From stdpp Require Import base strings list option.
From Stdlib Require Import ZArith Lia.
From S2P Require Import Prelude Elements.

(** [UIntType]: the widths the covenants use. *)
Inductive UIntType : Type := UT16 | UT32 | UT64 | UT256.

#[export] Instance UIntType_eq_dec : EqDecision UIntType.
Proof. solve_decision. Defined.

Definition uint_bits (w : UIntType) : Z :=
  match w with UT16 => 16 | UT32 => 32 | UT64 => 64 | UT256 => 256 end.

Inductive ResolvedType : Type :=
| TyUnit
| TyUInt (w : UIntType)
| TyByteArray (n : nat)
| TyTuple (a b : ResolvedType)
| TyEither (a b : ResolvedType)
| TyArray (t : ResolvedType) (n : nat).

#[export] Instance ResolvedType_eq_dec : EqDecision ResolvedType.
Proof. solve_decision. Defined.

(** A [u256] is its 32 big-endian bytes; the narrower integers are their values. *)
Inductive Value : Type :=
| ValUnit
| ValUInt (w : UIntType) (x : Z)
| ValU256 (b : bytes)
| ValByteArray (b : bytes)
| ValProduct (a b : Value)
| ValLeft (a : Value) (right : ResolvedType)
| ValRight (left : ResolvedType) (b : Value)
| ValArray (vs : list Value) (t : ResolvedType).

(** The typing of values. *)
Fixpoint has_type (v : Value) (t : ResolvedType) : bool :=
  match v, t with
  | ValUnit, TyUnit => true
  | ValUInt w x, TyUInt w' => bool_decide (w = w') && (0 <=? x) && (x <? 2 ^ uint_bits w)
  | ValU256 b, TyUInt UT256 => Nat.eqb (length b) 32
  | ValByteArray b, TyByteArray n => Nat.eqb (length b) n
  | ValProduct a b, TyTuple ta tb => has_type a ta && has_type b tb
  | ValLeft a r, TyEither ta tb => has_type a ta && bool_decide (r = tb)
  | ValRight l b, TyEither ta tb => bool_decide (l = ta) && has_type b tb
  | ValArray vs t', TyArray t n =>
      Nat.eqb (length vs) n && bool_decide (t' = t) && forallb (fun v => has_type v t) vs
  | _, _ => false
  end.

(** ** The Rust types with an encoding *)

Inductive Either (A B : Type) : Type :=
| Left (a : A)
| Right (b : B).
Arguments Left {A B} _.
Arguments Right {A B} _.

Record U32 : Type := mkU32 { u32_val : Z }.
Record U64 : Type := mkU64 { u64_val : Z }.
Record U256 : Type := mkU256 { u256_bytes : bytes }.
Record Sig : Type := mkSig { sig_bytes : bytes }.
(** [[T; N]] *)
Record Arr (n : nat) (A : Type) : Type := mkArr { arr_elems : list A }.
Arguments mkArr {n A} _.
Arguments arr_elems {n A} _.

Class ToSimf (A : Type) : Type := {
  ty : ResolvedType;
  value : A -> Value
}.
Arguments ty A {_}.

#[export] Instance simf_unit : ToSimf unit := {
  ty := TyUnit;
  value _ := ValUnit
}.

#[export] Instance simf_u32 : ToSimf U32 := {
  ty := TyUInt UT32;
  value x := ValUInt UT32 (u32_val x)
}.

#[export] Instance simf_u64 : ToSimf U64 := {
  ty := TyUInt UT64;
  value x := ValUInt UT64 (u64_val x)
}.

#[export] Instance simf_u256 : ToSimf U256 := {
  ty := TyUInt UT256;
  value x := ValU256 (u256_bytes x)
}.

#[export] Instance simf_sig : ToSimf Sig := {
  ty := TyByteArray 64;
  value x := ValByteArray (sig_bytes x)
}.

#[export] Instance simf_pair `{ToSimf A, ToSimf B} : ToSimf (A * B) := {
  ty := TyTuple (ty A) (ty B);
  value x := ValProduct (value x.1) (value x.2)
}.

#[export] Instance simf_either `{ToSimf A, ToSimf B} : ToSimf (Either A B) := {
  ty := TyEither (ty A) (ty B);
  value x :=
    match x with
    | Left a => ValLeft (value a) (ty B)
    | Right b => ValRight (ty A) (value b)
    end
}.

#[export] Instance simf_array `{ToSimf A} n : ToSimf (Arr n A) := {
  ty := TyArray (ty A) n;
  value x := ValArray (value <$> arr_elems x) (ty A)
}.

(** ** Reading a witness

    [FromSimf] is the interface the covenants read a witness through: [read] inverts
    [value] on the values in range ([simf_wf]), which [value] types at [ty].  The
    covenant theorems use only these laws. *)
Class FromSimf (A : Type) `{ToSimf A} : Type := {
  simf_wf : A -> Prop;
  read : Value -> option A;
  read_value x : simf_wf x -> read (value x) = Some x;
  value_typed x : simf_wf x -> has_type (value x) (ty A) = true
}.

#[local] Obligation Tactic := idtac.
#[local] Unset Program Cases.

#[export] Program Instance from_unit : FromSimf unit := {
  simf_wf _ := True;
  read v := match v with ValUnit => Some tt | _ => None end
}.
Next Obligation. by intros []. Qed.
Next Obligation. by intros []. Qed.

#[export] Program Instance from_u32 : FromSimf U32 := {
  simf_wf x := u32 (u32_val x);
  read v := match v with ValUInt UT32 x => Some (mkU32 x) | _ => None end
}.
Next Obligation. by intros []. Qed.
Next Obligation.
  intros [x]. unfold u32. cbn. intros. rewrite bool_decide_true by done. lia.
Qed.

#[export] Program Instance from_u64 : FromSimf U64 := {
  simf_wf x := u64 (u64_val x);
  read v := match v with ValUInt UT64 x => Some (mkU64 x) | _ => None end
}.
Next Obligation. by intros []. Qed.
Next Obligation.
  intros [x]. unfold u64. cbn. intros. rewrite bool_decide_true by done. lia.
Qed.

#[export] Program Instance from_u256 : FromSimf U256 := {
  simf_wf x := length (u256_bytes x) = 32%nat;
  read v := match v with ValU256 b => Some (mkU256 b) | _ => None end
}.
Next Obligation. by intros []. Qed.
Next Obligation. intros [x]. cbn. by intros ->. Qed.

#[export] Program Instance from_sig : FromSimf Sig := {
  simf_wf x := length (sig_bytes x) = 64%nat;
  read v := match v with ValByteArray b => Some (mkSig b) | _ => None end
}.
Next Obligation. by intros []. Qed.
Next Obligation. intros [x]. cbn. by intros ->. Qed.

#[export] Program Instance from_pair `{FromSimf A, FromSimf B} : FromSimf (A * B) := {
  simf_wf x := simf_wf x.1 /\ simf_wf x.2;
  read v :=
    match v with
    | ValProduct a b => x ← read a; y ← read b; Some (x, y)
    | _ => None
    end
}.
Next Obligation. intros A ?? B ?? [a b] []. cbn. by rewrite !read_value. Qed.
Next Obligation. intros A ?? B ?? [a b] []. cbn. by rewrite !value_typed. Qed.

#[export] Program Instance from_either `{FromSimf A, FromSimf B} : FromSimf (Either A B) := {
  simf_wf x := match x with Left a => simf_wf a | Right b => simf_wf b end;
  read v :=
    match v with
    | ValLeft a _ => Left <$> read a
    | ValRight _ b => Right <$> read b
    | _ => None
    end
}.
Next Obligation. intros A ?? B ?? [a|b] Hx; cbn; by rewrite read_value. Qed.
Next Obligation.
  intros A ?? B ?? [a|b] Hx; cbn; rewrite value_typed, bool_decide_true by done; done.
Qed.

#[export] Program Instance from_array `{FromSimf A} n : FromSimf (Arr n A) := {
  simf_wf x := length (arr_elems x) = n /\ Forall simf_wf (arr_elems x);
  read v :=
    match v with
    | ValArray vs _ => mkArr <$> mapM read vs
    | _ => None
    end
}.
Next Obligation.
  intros A ?? n [l] [_ HF]. cbn in *.
  assert (mapM read (value <$> l) = Some l) as ->; [|done].
  induction HF as [|x l Hx _ IH]; [done|]. cbn. by rewrite read_value, IH.
Qed.
Next Obligation.
  intros A ?? n [l] [Hlen HF]. cbn in *.
  rewrite length_fmap, Hlen, Nat.eqb_refl, bool_decide_true by done. cbn.
  clear Hlen. induction HF as [|x l' Hx _ IH]; [done|]. cbn. by rewrite value_typed.
Qed.
