(* ===== verification/Domain.v ===== *)
(** * Domain state, deploy parameters and data leaves

    [styx-core/src/domain.rs] (what each covenant UTXO commits to), [params.rs] (the
    per-deploy configuration and its preflight), [leaves.rs] (the data leaves that commit
    the state into an address), the leaf words of [consts.rs] and [net.rs]. *)

From Stdlib Require Import ZArith Lia.
From stdpp Require Import base strings option list.
From S2P Require Import Prelude Units Elements Simf.

(** ** [domain.rs] *)

Record VaultState : Type := mkVault {
  debt : Obol.t;
  owner : XOnlyPublicKey;
  last_height : BlockHeight.t
}.

Record IssuerState : Type := mkIssuer { last_mint_height : BlockHeight.t }.

Inductive PotState : Type := thePot.
Inductive ReserveState : Type := theReserve.

#[export] Instance VaultState_eq_dec : EqDecision VaultState.
Proof. solve_decision. Defined.
#[export] Instance IssuerState_eq_dec : EqDecision IssuerState.
Proof. solve_decision. Defined.

(** The unit a covenant UTXO's value is denominated in. *)
Class UtxoValue (T : Type) : Type := UVal : Type.
Arguments UVal T {_}.
#[export] Instance vault_value : UtxoValue VaultState := Sats.t.
#[export] Instance reserve_value : UtxoValue ReserveState := Sats.t.
#[export] Instance pot_value : UtxoValue PotState := Obol.t.
#[export] Instance issuer_value : UtxoValue IssuerState := Z.

Record OnChain (T : Type) `{UtxoValue T} : Type := mkOn {
  state : T;
  outpoint : OutPoint;
  oc_value : UVal T
}.
Arguments mkOn {T _} _ _ _.
Arguments state {T _} _.
Arguments outpoint {T _} _.
Arguments oc_value {T _} _.

Record ProtocolState : Type := mkProtocol {
  pot : OnChain PotState;
  reserve : OnChain ReserveState;
  issuer : OnChain IssuerState
}.

(** ** [params.rs] *)

Record Params : Type := mkParams {
  obol : AssetId;
  issuer_token : AssetId;
  policy : AssetId;
  (** [[XOnlyPublicKey; 5]] *)
  oracle_pks : list XOnlyPublicKey
}.

Inductive PreflightError : Type :=
| DuplicateOracleKey (a b : nat)
| AssetCollision (a b : string).

(** The index pairs of [for a in 0..n { for b in (a + 1)..n { .. } }], in loop order. *)
Definition loop_pairs (n : nat) : list (nat * nat) :=
  a ← seq 0 n; b ← seq (a + 1) (n - (a + 1)); [(a, b)].

Definition preflight (p : Params) : result PreflightError unit :=
  match list_find (fun '(a, b) => oracle_pks p !! a = oracle_pks p !! b) (loop_pairs 5) with
  | Some (_, (a, b)) => Err (DuplicateOracleKey a b)
  | None =>
      let assets := [("OBOL_ID"%string, obol p); ("ISSUER_TOKEN_ID"%string, issuer_token p);
                     ("POLICY"%string, policy p)] in
      match list_find (fun '(i, j) => snd <$> assets !! i = snd <$> assets !! j) (loop_pairs 3) with
      | Some (_, (i, j)) =>
          Err (AssetCollision (default EmptyString (fst <$> assets !! i))
                 (default EmptyString (fst <$> assets !! j)))
      | None => Ok tt
      end
  end.

(** An asset id already is its consensus serialization, a key its x-only one. *)
Definition asset_u256 (id : AssetId) : U256 := mkU256 id.
Definition xonly_u256 (pk : XOnlyPublicKey) : U256 := mkU256 pk.

(** ** [consts.rs]: taproot constants *)

Definition DATA_LEAF_VER : Z := 0xc4.

Definition nums_key : XOnlyPublicKey :=
  be_bytes 32 0x50929b74c1a04954b78b4b6035e97a5e078a5a0f28ec96d547bfee9ace803ac0.

Definition tapleaf_tag `{Lib} : U256 := mkU256 (sha256 (ascii_bytes "TapLeaf/elements")).

Definition leaf_vc : Z := Z.lor (Z.shiftl DATA_LEAF_VER 8) 0x2d.
Definition issuer_leaf_vc : Z := Z.lor (Z.shiftl DATA_LEAF_VER 8) 0x05.

(** ** [leaves.rs] *)

Definition data_leaf_version : Z := DATA_LEAF_VER.

Definition vault_data_leaf (s : VaultState) : Script * Z :=
  (byte_of_Z 0x6a :: be_bytes 8 (Obol.raw (debt s)) ++ owner s ++
     be_bytes 4 (BlockHeight.raw (last_height s)),
   data_leaf_version).

Definition issuer_data_leaf (h : BlockHeight.t) : Script * Z :=
  (byte_of_Z 0x6a :: be_bytes 4 (BlockHeight.raw h), data_leaf_version).

(** ** [net.rs] *)

Inductive AddressParams : Type := LIQUID | LIQUID_TESTNET | ELEMENTS.

Definition address_params (chain : string) : AddressParams :=
  if String.eqb chain "liquidv1" then LIQUID
  else if String.eqb chain "liquidtestnet" then LIQUID_TESTNET
  else ELEMENTS.

(** ** Well-formedness: the ranges the Rust types carry *)

Definition vault_wf (v : VaultState) : Prop :=
  u64 (Obol.raw (debt v)) /\ length (owner v) = 32%nat /\
  u32 (BlockHeight.raw (last_height v)).

Definition params_wf (p : Params) : Prop :=
  length (oracle_pks p) = 5%nat /\ Forall (fun k => length k = 32%nat) (oracle_pks p) /\
  length (obol p) = 32%nat /\ length (issuer_token p) = 32%nat /\ length (policy p) = 32%nat.

Lemma length_vault_data_leaf s :
  length (owner s) = 32%nat -> length (vault_data_leaf s).1 = 45%nat.
Proof. intros H. cbn. rewrite length_app, H. done. Qed.

Lemma elem_of_loop_pairs n a b : (a, b) ∈ loop_pairs n <-> (a < b < n)%nat.
Proof.
  unfold loop_pairs. rewrite list_elem_of_bind. split.
  - intros (x & Hx & Hn). apply list_elem_of_bind in Hx as (y & Hy & Hm).
    apply list_elem_of_singleton in Hy. apply elem_of_seq in Hn, Hm. naive_solver lia.
  - intros. exists a. rewrite list_elem_of_bind. split; [exists b|]; rewrite ?elem_of_seq; [|lia].
    split; [apply list_elem_of_singleton; done|lia].
Qed.

Lemma no_equal_pair {A} `{EqDecision A} (l : list A) :
  list_find (fun '(a, b) => l !! a = l !! b) (loop_pairs (length l)) = None <-> NoDup l.
Proof.
  rewrite list_find_None, Forall_forall, NoDup_alt. split.
  - intros HF i j x Hi Hj. destruct (decide (i = j)) as [|Hne]; [done|].
    pose proof (lookup_lt_Some _ _ _ Hi). pose proof (lookup_lt_Some _ _ _ Hj).
    destruct (decide (i < j)%nat).
    + destruct (HF (i, j)); [apply elem_of_loop_pairs; lia|congruence].
    + destruct (HF (j, i)); [apply elem_of_loop_pairs; lia|congruence].
  - intros HN [a b] [Hab Hb]%elem_of_loop_pairs E.
    destruct (lookup_lt_is_Some_2 l b Hb) as [x Hx].
    assert (a = b) by (eapply HN; [rewrite E|]; done). lia.
Qed.

Lemma vault_leaf_inj v1 v2 :
  vault_wf v1 -> vault_wf v2 -> (vault_data_leaf v1).1 = (vault_data_leaf v2).1 -> v1 = v2.
Proof.
  destruct v1 as [[d1] o1 [h1]], v2 as [[d2] o2 [h2]].
  intros (Hd1&Ho1&Hh1) (Hd2&Ho2&Hh2) E. unfold u64, u32 in *.
  apply (f_equal (@tail _)) in E.
  cbn [debt owner last_height Obol.raw BlockHeight.raw vault_data_leaf fst tail] in *.
  apply (app_inj_1 (be_bytes 8 d1)) in E as [E1 E]; [|by rewrite !length_be_bytes].
  apply app_inj_1 in E as [-> E2]; [|congruence].
  apply be_bytes_inj in E1; [|done..]. apply be_bytes_inj in E2; [|done..]. congruence.
Qed.

Lemma issuer_leaf_inj h1 h2 :
  u32 (BlockHeight.raw h1) -> u32 (BlockHeight.raw h2) ->
  (issuer_data_leaf h1).1 = (issuer_data_leaf h2).1 -> h1 = h2.
Proof.
  destruct h1 as [h1], h2 as [h2]. intros H1 H2 E. f_equal. unfold u32 in *.
  apply (f_equal (@tail _)) in E.
  by apply (be_bytes_inj 4).
Qed.

(** A deploy that passed preflight has pairwise distinct assets. *)
Lemma preflight_assets p : preflight p = Ok tt ->
  obol p <> issuer_token p /\ obol p <> policy p /\ issuer_token p <> policy p.
Proof.
  unfold preflight. destruct (list_find _ (loop_pairs 5)) as [[? [? ?]]|]; [done|].
  destruct (list_find _ (loop_pairs 3)) as [[? [? ?]]|] eqn:E; [done|]. intros _.
  apply list_find_None in E. rewrite Forall_forall in E.
  split_and!; intros Heq; [apply (E (0, 1)%nat)|apply (E (0, 2)%nat)|apply (E (1, 2)%nat)];
    try (apply elem_of_loop_pairs; lia); cbn; by rewrite Heq.
Qed.

(** ** Properties *)

(** [preflight] accepts exactly the configurations with five pairwise distinct oracle
    keys and three pairwise distinct assets, and each error names a real collision. *)
Theorem preflight_spec (p : Params) :
  length (oracle_pks p) = 5%nat ->
  match preflight p with
  | Ok tt => NoDup (oracle_pks p) /\ NoDup [obol p; issuer_token p; policy p]
  | Err (DuplicateOracleKey a b) =>
      (a < b < 5)%nat /\ exists k, oracle_pks p !! a = Some k /\ oracle_pks p !! b = Some k
  | Err (AssetCollision a b) => NoDup (oracle_pks p) /\ ~ NoDup [obol p; issuer_token p; policy p]
  end.
Proof.
  intros Hlen. unfold preflight.
  pose proof (no_equal_pair (oracle_pks p)) as HN. rewrite Hlen in HN.
  destruct (list_find _ (loop_pairs 5)) as [[i [a b]]|] eqn:E.
  - apply list_find_Some in E as (Hi & Heq & _).
    apply list_elem_of_lookup_2, elem_of_loop_pairs in Hi. split; [done|].
    destruct (lookup_lt_is_Some_2 (oracle_pks p) a) as [k Hk]; [lia|].
    exists k. by rewrite <- Heq.
  - apply proj1 in HN. specialize (HN eq_refl).
    pose proof (no_equal_pair [obol p; issuer_token p; policy p]) as HA. cbn [length] in HA.
    destruct (list_find _ (loop_pairs 3)) as [[i [a b]]|].
    + split; [done|]. intros Hnd. by apply HA in Hnd.
    + split; [done|]. by apply HA.
Qed.

Definition sample_params : Params :=
  mkParams (be_bytes 32 1) (be_bytes 32 2) (be_bytes 32 3)
    [be_bytes 32 11; be_bytes 32 12; be_bytes 32 13; be_bytes 32 14; be_bytes 32 15].

Lemma preflight_spec_witness :
  preflight sample_params = Ok tt /\ NoDup (oracle_pks sample_params).
Proof.
  split; [vm_compute; reflexivity|].
  refine (proj1 (_ : _ /\ NoDup [obol sample_params; _; _])).
  exact (preflight_spec sample_params eq_refl).
Defined.

(** The data leaf commits a vault state completely: the 45-byte script determines the
    debt, the owner and the freshness height, so two states never share a leaf. *)
Theorem vault_data_leaf_commits (v1 v2 : VaultState) :
  vault_wf v1 -> vault_wf v2 ->
  length (vault_data_leaf v1).1 = 45%nat /\
  ((vault_data_leaf v1).1 = (vault_data_leaf v2).1 <-> v1 = v2).
Proof.
  intros H1 H2. split; [apply length_vault_data_leaf, H1|].
  split; [by apply vault_leaf_inj|by intros ->].
Qed.

Definition sample_vault : VaultState :=
  mkVault (Obol.new 100000) (be_bytes 32 77) (BlockHeight.new 500).

Lemma vault_data_leaf_commits_witness :
  length (vault_data_leaf sample_vault).1 = 45%nat.
Proof.
  refine (proj1 (vault_data_leaf_commits sample_vault sample_vault _ _));
    split_and!; by vm_compute.
Defined.
