(* ===== verification/Encode.v ===== *)
(** * Witness encoders ([styx-core/src/encode/*.rs])

    The operation sums of the three dispatching covenants, one enum per covenant with its
    [lower] function (the only place arm positions are spelled), the tick layout, and the
    signature slot of the owner operations. *)

From Stdlib Require Import ZArith Lia.
From stdpp Require Import base strings option list.
From S2P Require Import Prelude Units Elements Oracle Simf.

(** ** Ticks ([encode/mod.rs]) *)

Abbreviation Slot := (Either unit (U32 * Sig)).
Abbreviation Tick := (U32 * (U32 * Arr 5 Slot))%type.

Definition lower_slot (s : option SignedQuote) : Slot :=
  match s with
  | None => Left tt
  | Some q => Right (mkU32 (Price.raw (sq_price q)), mkSig (sq_sig q))
  end.

Definition lower_tick (tick : OracleTick.t) : Tick :=
  (mkU32 (BlockHeight.raw (OracleTick.height tick)),
   (mkU32 (RatioK.raw (OracleTick.backing_k tick)),
    mkArr (lower_slot <$> OracleTick.slots tick))).

(** ** The vault's sum ([encode/vault_op.rs]) *)

Abbreviation OwnerKind := (Either unit (Either U64 (U64 * Tick))).

Abbreviation VaultOpSum :=
  (Either (Sig * OwnerKind)
     (Either (U64 * Tick) (Either Tick (Either Tick (Either (U64 * Tick) Tick))))).

Inductive VaultOp : Type :=
| VClose (owner_sig : Sig)
| VRepay (owner_sig : Sig) (amount : Obol.t)
| VDraw (owner_sig : Sig) (amount : Obol.t) (tick : OracleTick.t)
| VLiquidate (dd : Obol.t) (tick : OracleTick.t)
| VFullLiq (tick : OracleTick.t)
| VBadDebt (tick : OracleTick.t)
| VRedeem (x : Obol.t) (tick : OracleTick.t)
| VRefresh (tick : OracleTick.t).

Definition u64_of (o : Obol.t) : U64 := mkU64 (Obol.raw o).
Definition u32_of (h : BlockHeight.t) : U32 := mkU32 (BlockHeight.raw h).

Definition lower_vault_op (op : VaultOp) : VaultOpSum :=
  match op with
  | VClose owner_sig => Left (owner_sig, Left tt)
  | VRepay owner_sig amount => Left (owner_sig, Right (Left (u64_of amount)))
  | VDraw owner_sig amount tick =>
      Left (owner_sig, Right (Right (u64_of amount, lower_tick tick)))
  | VLiquidate dd tick => Right (Left (u64_of dd, lower_tick tick))
  | VFullLiq tick => Right (Right (Left (lower_tick tick)))
  | VBadDebt tick => Right (Right (Right (Left (lower_tick tick))))
  | VRedeem x tick => Right (Right (Right (Right (Left (u64_of x, lower_tick tick)))))
  | VRefresh tick => Right (Right (Right (Right (Right (lower_tick tick)))))
  end.

Definition vault_op_value (op : VaultOp) : Value := value (lower_vault_op op).

Definition with_owner_sig (op : VaultOp) (sig : Sig) : VaultOp :=
  match op with
  | VClose _ => VClose sig
  | VRepay _ amount => VRepay sig amount
  | VDraw _ amount tick => VDraw sig amount tick
  | other => other
  end.

Definition is_owner_op (op : VaultOp) : bool :=
  match op with
  | VClose _ | VRepay _ _ | VDraw _ _ _ => true
  | _ => false
  end.

(** ** The issuer's sum ([encode/issuer_op.rs]) *)

Abbreviation OpenSum := (U64 * (U256 * Tick))%type.
Abbreviation DrawSum := (U64 * (U256 * (U32 * (U64 * U32))))%type.
Abbreviation AttestSum := (U64 * (U256 * (U32 * Tick)))%type.
Abbreviation IssuerOpSum := (Either OpenSum (Either DrawSum (Either Tick AttestSum))).

Inductive IssuerOp : Type :=
| IOpen (principal : Obol.t) (owner : U256) (tick : OracleTick.t)
| IDraw (old_debt : Obol.t) (owner : U256) (old_last_height : BlockHeight.t)
    (new_debt : Obol.t) (draw_height : BlockHeight.t)
| IPoke (tick : OracleTick.t)
| IAttest (debt : Obol.t) (owner : U256) (last_height : BlockHeight.t) (tick : OracleTick.t).

Definition lower_issuer_op (op : IssuerOp) : IssuerOpSum :=
  match op with
  | IOpen principal owner tick => Left (u64_of principal, (owner, lower_tick tick))
  | IDraw old_debt owner old_last_height new_debt draw_height =>
      Right (Left (u64_of old_debt, (owner, (u32_of old_last_height,
        (u64_of new_debt, u32_of draw_height)))))
  | IPoke tick => Right (Right (Left (lower_tick tick)))
  | IAttest debt owner last_height tick =>
      Right (Right (Right (u64_of debt, (owner, (u32_of last_height, lower_tick tick)))))
  end.

Definition issuer_op_value (op : IssuerOp) : Value := value (lower_issuer_op op).

(** ** The reserve's sum ([encode/stability_op.rs]) *)

Abbreviation StabilityOpSum := (Either unit unit).

Inductive StabilityOp : Type := Accumulate | SBadDebt.

Definition lower_stability_op (op : StabilityOp) : StabilityOpSum :=
  match op with
  | Accumulate => Left tt
  | SBadDebt => Right tt
  end.

Definition stability_op_value (op : StabilityOp) : Value := value (lower_stability_op op).

(** ** Well-formed operations

    The ranges the Rust types of an operation's fields carry. *)

Definition sig_wf (s : Sig) : Prop := length (sig_bytes s) = 64%nat.
Definition tick_ok (t : OracleTick.t) : Prop :=
  tick_wf t /\ Forall (fun q => length (sq_sig q) = 64%nat) (quotes_in (OracleTick.slots t)).

Definition vault_op_wf (op : VaultOp) : Prop :=
  match op with
  | VClose s => sig_wf s
  | VRepay s a => sig_wf s /\ u64 (Obol.raw a)
  | VDraw s a t => sig_wf s /\ u64 (Obol.raw a) /\ tick_ok t
  | VLiquidate a t | VRedeem a t => u64 (Obol.raw a) /\ tick_ok t
  | VFullLiq t | VBadDebt t | VRefresh t => tick_ok t
  end.

Definition issuer_op_wf (op : IssuerOp) : Prop :=
  match op with
  | IOpen p o t => u64 (Obol.raw p) /\ length (u256_bytes o) = 32%nat /\ tick_ok t
  | IDraw od o oh nd h =>
      u64 (Obol.raw od) /\ length (u256_bytes o) = 32%nat /\ u32 (BlockHeight.raw oh) /\
      u64 (Obol.raw nd) /\ u32 (BlockHeight.raw h)
  | IPoke t => tick_ok t
  | IAttest d o h t =>
      u64 (Obol.raw d) /\ length (u256_bytes o) = 32%nat /\ u32 (BlockHeight.raw h) /\ tick_ok t
  end.

Lemma lower_tick_wf t : tick_ok t -> simf_wf (lower_tick t).
Proof.
  intros [[Hlen _ Hh Hk Hp] Hs]. cbn. split; [unfold LOCK_TIME_HEIGHT_THRESHOLD in *; uint|].
  split; [done|]. split; [by rewrite length_fmap|].
  clear Hlen. unfold quotes_in in *.
  induction (OracleTick.slots t) as [|[q|] l IH]; [constructor| |]; cbn in *.
  - apply Forall_cons in Hp as [? Hp], Hs as [? Hs]. constructor; [done|by apply IH].
  - constructor; [done|by apply IH].
Qed.

Lemma lower_vault_op_wf op : vault_op_wf op -> simf_wf (lower_vault_op op).
Proof.
  destruct op; cbn [vault_op_wf]; intros; destruct_and?;
    repeat (done || apply lower_tick_wf || split).
Qed.

Lemma lower_issuer_op_wf op : issuer_op_wf op -> simf_wf (lower_issuer_op op).
Proof.
  destruct op; cbn [issuer_op_wf]; intros; destruct_and?;
    repeat (done || apply lower_tick_wf || split).
Qed.

(** A lowered tick determines the tick. *)
Lemma lower_slot_inj s1 s2 : lower_slot s1 = lower_slot s2 -> s1 = s2.
Proof. destruct s1 as [[[]]|], s2 as [[[]]|]; cbn; congruence. Qed.

Lemma lower_tick_inj t1 t2 : lower_tick t1 = lower_tick t2 -> t1 = t2.
Proof.
  destruct t1 as [[h1] [k1] s1], t2 as [[h2] [k2] s2]. unfold lower_tick. cbn.
  intros [= -> -> E]. f_equal.
  revert s2 E. induction s1 as [|x s1 IH]; intros [|y s2] E; try discriminate E; [done|].
  injection E as Ex E. by rewrite (lower_slot_inj _ _ Ex), (IH _ E).
Qed.

Lemma u64_of_inj a b : u64_of a = u64_of b -> a = b.
Proof. destruct a, b. by intros [= ->]. Qed.
Lemma u32_of_inj a b : u32_of a = u32_of b -> a = b.
Proof. destruct a, b. by intros [= ->]. Qed.

#[export] Hint Resolve lower_vault_op_wf lower_issuer_op_wf lower_tick_wf : styx.
#[export] Hint Resolve lower_tick_inj u64_of_inj u32_of_inj : styx.

Lemma Left_inj {A B} (a b : A) : @Left A B a = Left b -> a = b.
Proof. by injection 1. Qed.
Lemma Right_inj {A B} (a b : B) : @Right A B a = Right b -> a = b.
Proof. by injection 1. Qed.

(** Strip sums and pairs off an equation of lowered operations. *)
Ltac sum_inj E :=
  lazymatch type of E with
  | Left _ = Left _ => apply Left_inj in E; sum_inj E
  | Right _ = Right _ => apply Right_inj in E; sum_inj E
  | (_, _) = (_, _) =>
      let E1 := fresh E in apply pair_equal_spec in E as [E1 E]; sum_inj E1; sum_inj E
  | _ => idtac
  end.

(** ** Properties *)

(** Encoding a vault operation is lossless: the value has the type of the covenant's
    witness, reading it gives the sum back, and the sum determines the operation, so no
    operation can be taken for another arm or another payload. *)
Theorem vault_op_roundtrip (op : VaultOp) :
  vault_op_wf op ->
  has_type (vault_op_value op) (ty VaultOpSum) = true /\
  read (vault_op_value op) = Some (lower_vault_op op) /\
  forall op', lower_vault_op op' = lower_vault_op op -> op' = op.
Proof.
  intros Hwf%lower_vault_op_wf. split; [by apply value_typed|].
  split; [by apply read_value|]. intros op'.
  destruct op', op; cbn [lower_vault_op]; intros E; try discriminate E;
    sum_inj E; f_equal; auto with styx.
Qed.

(** The same for the issuer's four arms. *)
Theorem issuer_op_roundtrip (op : IssuerOp) :
  issuer_op_wf op ->
  has_type (issuer_op_value op) (ty IssuerOpSum) = true /\
  read (issuer_op_value op) = Some (lower_issuer_op op) /\
  forall op', lower_issuer_op op' = lower_issuer_op op -> op' = op.
Proof.
  intros Hwf%lower_issuer_op_wf. split; [by apply value_typed|].
  split; [by apply read_value|]. intros op'.
  destruct op', op; cbn [lower_issuer_op]; intros E; try discriminate E;
    sum_inj E; f_equal; auto with styx.
Qed.

Definition sample_sig (b : Byte.byte) : bytes := replicate 64 b.
Definition sample_tick : OracleTick.t :=
  OracleTick.mk (BlockHeight.new 1000) K_HEALTH_GATE
    [Some (mkQuote (Price.new 60000) (sample_sig Byte.x01)); None;
     Some (mkQuote (Price.new 60100) (sample_sig Byte.x02)); None;
     Some (mkQuote (Price.new 60050) (sample_sig Byte.x03))].

Lemma sample_tick_ok : tick_ok sample_tick.
Proof. repeat (constructor || split); by vm_compute. Qed.

Lemma vault_op_roundtrip_witness :
  read (vault_op_value (VRedeem (Obol.new 5) sample_tick))
    = Some (lower_vault_op (VRedeem (Obol.new 5) sample_tick)).
Proof.
  apply (vault_op_roundtrip (VRedeem (Obol.new 5) sample_tick)).
  split; [by vm_compute|apply sample_tick_ok].
Defined.

Lemma issuer_op_roundtrip_witness :
  read (issuer_op_value (IOpen (Obol.new 5) (mkU256 (replicate 32 Byte.x07)) sample_tick))
    = Some (lower_issuer_op (IOpen (Obol.new 5) (mkU256 (replicate 32 Byte.x07)) sample_tick)).
Proof.
  apply (issuer_op_roundtrip (IOpen (Obol.new 5) (mkU256 (replicate 32 Byte.x07)) sample_tick)).
  split; [by vm_compute|split; [by vm_compute|apply sample_tick_ok]].
Defined.
