(* ===== verification/Artifacts.v ===== *)
(** * Compiled deploys ([styx-core/src/artifacts.rs])

    The five covenants, their compilation in CMR-DAG order with every cross-covenant pin
    wired from the compiled sibling, and the taproot derivation of each address.

    The SimplicityHL compiler is outside the repository: [hl_compile] of the class
    [Compiler] gives the commitment Merkle root of a covenant source under its arguments,
    or no result when the arguments do not fit.  A [CompiledProgram] keeps what it was
    compiled from. *)

From Stdlib Require Import ZArith Lia.
From stdpp Require Import base gmap strings option list.
From S2P Require Import Prelude Units Elements Simf Domain.

Inductive Covenant : Type := ReserveRepay | PotOutflow | Stability | Vault | Issuer.

Definition Covenant_ALL : list Covenant := [ReserveRepay; PotOutflow; Stability; Vault; Issuer].

Definition covenant_name (c : Covenant) : string :=
  match c with
  | ReserveRepay => "reserve_repay"
  | PotOutflow => "pot_outflow"
  | Stability => "stability"
  | Vault => "vault"
  | Issuer => "issuer"
  end.

Abbreviation Arguments := (gmap string Value).

Class Compiler : Type := hl_compile : Covenant -> Arguments -> option bytes.

Record CompiledProgram : Type := mkProg {
  prog_cov : Covenant;
  prog_args : Arguments;
  prog_cmr : bytes
}.

(** [CompileError] and [DeployError]. *)
Record CompileError : Type := mkCompileError { ce_covenant : string }.

Inductive DeployError : Type :=
| DPreflight (e : PreflightError)
| DCompile (e : CompileError).

Definition compile `{Compiler} (cov : Covenant) (args : Arguments)
    : result CompileError CompiledProgram :=
  match hl_compile cov args with
  | Some cmr => Ok (mkProg cov args cmr)
  | None => Err (mkCompileError (covenant_name cov))
  end.

(** The leaf script of a program is its raw CMR. *)
Definition cmr_script (p : CompiledProgram) : Script := prog_cmr p.
Definition cmr_u256 (p : CompiledProgram) : U256 := mkU256 (prog_cmr p).

Inductive PotLeaf : Type := Inflow | Outflow.

(** ** Taproot trees

    [TaprootSpendInfo] as the code reads it: the internal key, the merkle root and the
    merkle path of each leaf. *)

Record TaprootSpendInfo : Type := mkInfo {
  ti_internal_key : XOnlyPublicKey;
  ti_merkle_root : option bytes;
  ti_leaves : list ((Script * Z) * list bytes)
}.

Record ControlBlock : Type := mkCB {
  cb_leaf_version : Z;
  cb_parity : bool;
  cb_internal_key : XOnlyPublicKey;
  cb_merkle_branch : list bytes
}.

Section Taproot.
Context `{Lib}.

Definition two_leaf_tree (a b : Script * Z) : TaprootSpendInfo :=
  let ha := tap_leaf a.1 a.2 in
  let hb := tap_leaf b.1 b.2 in
  mkInfo nums_key (Some (tap_branch ha hb)) [(a, [hb]); (b, [ha])].

Definition single_leaf_tree (leaf : Script) : TaprootSpendInfo :=
  mkInfo nums_key (Some (tap_leaf leaf simplicity_leaf_version))
    [((leaf, simplicity_leaf_version), [])].

(** The source unwraps: the leaf is in the tree by construction.  A leaf outside the tree
    would panic; [None] is that panic. *)
Definition control_block (info : TaprootSpendInfo) (script : Script) (ver : Z)
    : option ControlBlock :=
  '(_, (_, path)) ← list_find (fun l => l.1 = (script, ver)) (ti_leaves info);
  Some (mkCB ver (tap_parity (ti_internal_key info) (ti_merkle_root info))
          (ti_internal_key info) path).

(** OP_1 PUSH32 output_key. *)
Definition p2tr_spk (info : TaprootSpendInfo) : Script :=
  byte_of_Z 0x51 :: byte_of_Z 0x20 :: tap_tweak (ti_internal_key info) (ti_merkle_root info).

Definition spk_hash (spk : Script) : U256 := mkU256 (sha256 spk).

End Taproot.

(** ** Arguments *)

Definition w (name : string) (v : Value) : string * Value := (name, v).
(** Collecting pairs into a [HashMap]: a later pair replaces an earlier one. *)
Definition args (pairs : list (string * Value)) : Arguments :=
  foldl (fun m p => <[p.1 := p.2]> m) ∅ pairs.

Definition oracle_arg_name (i : nat) : string :=
  match i with
  | O => "ORACLE_PK_1" | 1%nat => "ORACLE_PK_2" | 2%nat => "ORACLE_PK_3"
  | 3%nat => "ORACLE_PK_4" | _ => "ORACLE_PK_5"
  end.

Definition push_oracle_args (m : list (string * Value)) (p : Params) : list (string * Value) :=
  m ++ imap (fun i pk => w (oracle_arg_name i) (value (xonly_u256 pk))) (oracle_pks p).

Definition u16_value (x : Z) : Value := ValUInt UT16 x.

(** ** The deploy *)

Record Artifacts : Type := mkArtifacts {
  a_reserve_repay : CompiledProgram;
  a_pot_outflow : CompiledProgram;
  a_stability : CompiledProgram;
  a_vault : CompiledProgram;
  a_issuer : CompiledProgram;
  pot_info : TaprootSpendInfo;
  stability_info : TaprootSpendInfo
}.

Section Deploy.
Context `{Lib, Compiler}.

Definition reserve_repay_args (obol : U256) : Arguments := args [w "OBOL_ID" (value obol)].

Definition pot_outflow_args (obol token : U256) : Arguments :=
  args [w "OBOL_ID" (value obol); w "ISSUER_TOKEN_ID" (value token)].

Definition stability_args (obol token policy pot_spk : U256) : Arguments :=
  args [w "POT_SPK" (value pot_spk); w "ISSUER_TOKEN_ID" (value token);
        w "OBOL_ID" (value obol); w "POLICY" (value policy)].

Definition vault_args (params : Params) (obol policy pot_spk stability_spk : U256) : Arguments :=
  args (push_oracle_args
    [w "NUMS" (value (mkU256 nums_key));
     w "TAPLEAF_TAG" (value tapleaf_tag);
     w "LEAF_VC" (u16_value leaf_vc);
     w "OBOL_ID" (value obol);
     w "POLICY" (value policy);
     w "POT_SPK" (value pot_spk);
     w "STABILITY_SPK" (value stability_spk)] params).

Definition issuer_args (params : Params)
    (obol token policy pot_spk stability_spk vault_cmr : U256) : Arguments :=
  args (push_oracle_args
    [w "NUMS" (value (mkU256 nums_key));
     w "TAPLEAF_TAG" (value tapleaf_tag);
     w "LEAF_VC" (u16_value leaf_vc);
     w "ISSUER_LEAF_VC" (u16_value issuer_leaf_vc);
     w "VAULT_CMR" (value vault_cmr);
     w "STABILITY_SPK" (value stability_spk);
     w "OBOL_ID" (value obol);
     w "POLICY" (value policy);
     w "POT_SPK" (value pot_spk);
     w "ISSUER_TOKEN_ID" (value token)] params).

(** [Artifacts::compile]. *)
Definition compile_artifacts (params : Params) : result DeployError Artifacts :=
  _ ← map_err DPreflight (preflight params);
  let obol := asset_u256 (obol params) in
  let token := asset_u256 (issuer_token params) in
  let policy := asset_u256 (policy params) in
  reserve_repay ← map_err DCompile (compile ReserveRepay (reserve_repay_args obol));
  pot_outflow ← map_err DCompile (compile PotOutflow (pot_outflow_args obol token));
  let pot_info := two_leaf_tree (cmr_script reserve_repay, simplicity_leaf_version)
                    (cmr_script pot_outflow, simplicity_leaf_version) in
  let pot_spk := spk_hash (p2tr_spk pot_info) in
  stability ← map_err DCompile (compile Stability (stability_args obol token policy pot_spk));
  let stability_info := single_leaf_tree (cmr_script stability) in
  let stability_spk := spk_hash (p2tr_spk stability_info) in
  vault ← map_err DCompile (compile Vault (vault_args params obol policy pot_spk stability_spk));
  issuer ← map_err DCompile (compile Issuer
    (issuer_args params obol token policy pot_spk stability_spk (cmr_u256 vault)));
  Ok (mkArtifacts reserve_repay pot_outflow stability vault issuer pot_info stability_info).

Definition pot_spk (a : Artifacts) : Script := p2tr_spk (pot_info a).
Definition pot_spk_hash (a : Artifacts) : U256 := spk_hash (pot_spk a).
Definition pot_control_block (a : Artifacts) (leaf : PotLeaf) : option ControlBlock :=
  let prog := match leaf with Inflow => a_reserve_repay a | Outflow => a_pot_outflow a end in
  control_block (pot_info a) (cmr_script prog) simplicity_leaf_version.

Definition stability_spk (a : Artifacts) : Script := p2tr_spk (stability_info a).
Definition stability_spk_hash (a : Artifacts) : U256 := spk_hash (stability_spk a).
Definition stability_control_block (a : Artifacts) : option ControlBlock :=
  control_block (stability_info a) (cmr_script (a_stability a)) simplicity_leaf_version.

Definition vault_cmr (a : Artifacts) : U256 := cmr_u256 (a_vault a).
Definition vault_spend_info (a : Artifacts) (s : VaultState) : TaprootSpendInfo :=
  two_leaf_tree (cmr_script (a_vault a), simplicity_leaf_version) (vault_data_leaf s).
Definition vault_spk (a : Artifacts) (s : VaultState) : Script :=
  p2tr_spk (vault_spend_info a s).
Definition vault_control_block (a : Artifacts) (s : VaultState) : option ControlBlock :=
  control_block (vault_spend_info a s) (cmr_script (a_vault a)) simplicity_leaf_version.

Definition issuer_spend_info (a : Artifacts) (s : IssuerState) : TaprootSpendInfo :=
  two_leaf_tree (cmr_script (a_issuer a), simplicity_leaf_version)
    (issuer_data_leaf (last_mint_height s)).
Definition issuer_spk (a : Artifacts) (s : IssuerState) : Script :=
  p2tr_spk (issuer_spend_info a s).
Definition issuer_control_block (a : Artifacts) (s : IssuerState) : option ControlBlock :=
  control_block (issuer_spend_info a s) (cmr_script (a_issuer a)) simplicity_leaf_version.

End Deploy.

(** [Ctx]: what every transaction builder needs. *)
Record Ctx : Type := mkCtx {
  ctx_params : Params;
  ctx_artifacts : Artifacts;
  ctx_genesis : BlockHash
}.

(** ** Lemmas: control blocks never miss, and the arguments of a successful compile *)

Section ArtifactsLemmas.
Context `{Lib, Compiler}.

Lemma control_block_first k r l path rest :
  control_block (mkInfo k r ((l, path) :: rest)) l.1 l.2
    = Some (mkCB l.2 (tap_parity k r) k path).
Proof. destruct l as [s v]. unfold control_block. cbn. by rewrite decide_True. Qed.

Lemma vault_control_block_some a s :
  vault_control_block a s =
    Some (mkCB simplicity_leaf_version
            (tap_parity nums_key (ti_merkle_root (vault_spend_info a s))) nums_key
            [tap_leaf (vault_data_leaf s).1 (vault_data_leaf s).2]).
Proof. apply (control_block_first _ _ (cmr_script (a_vault a), simplicity_leaf_version)). Qed.

Lemma issuer_control_block_some a s :
  issuer_control_block a s =
    Some (mkCB simplicity_leaf_version
            (tap_parity nums_key (ti_merkle_root (issuer_spend_info a s))) nums_key
            [tap_leaf (issuer_data_leaf (last_mint_height s)).1
               (issuer_data_leaf (last_mint_height s)).2]).
Proof. apply (control_block_first _ _ (cmr_script (a_issuer a), simplicity_leaf_version)). Qed.

(** What a successful deploy is made of: the programs with the pins of their siblings. *)
Record artifacts_of (params : Params) (a : Artifacts) : Prop := {
  ao_preflight : preflight params = Ok tt;
  ao_repay : compile ReserveRepay (reserve_repay_args (asset_u256 (obol params)))
    = Ok (a_reserve_repay a);
  ao_outflow : compile PotOutflow (pot_outflow_args (asset_u256 (obol params))
    (asset_u256 (issuer_token params))) = Ok (a_pot_outflow a);
  ao_pot_info : pot_info a =
    two_leaf_tree (cmr_script (a_reserve_repay a), simplicity_leaf_version)
      (cmr_script (a_pot_outflow a), simplicity_leaf_version);
  ao_stability : compile Stability (stability_args (asset_u256 (obol params))
    (asset_u256 (issuer_token params)) (asset_u256 (policy params)) (pot_spk_hash a))
    = Ok (a_stability a);
  ao_stability_info : stability_info a = single_leaf_tree (cmr_script (a_stability a));
  ao_vault : compile Vault (vault_args params (asset_u256 (obol params))
    (asset_u256 (policy params)) (pot_spk_hash a) (stability_spk_hash a)) = Ok (a_vault a);
  ao_issuer : compile Issuer (issuer_args params (asset_u256 (obol params))
    (asset_u256 (issuer_token params)) (asset_u256 (policy params)) (pot_spk_hash a)
    (stability_spk_hash a) (vault_cmr a)) = Ok (a_issuer a)
}.

Lemma compile_artifacts_ok params a :
  compile_artifacts params = Ok a <-> artifacts_of params a.
Proof.
  unfold compile_artifacts. split.
  - intros E. peel E. subst a. destruct_unit.
    repeat match goal with Hm : map_err _ _ = Ok _ |- _ => apply map_err_ok in Hm end.
    by constructor.
  - intros []. destruct a as [rr po st va iss pi si].
    unfold pot_spk_hash, stability_spk_hash, vault_cmr, pot_spk, stability_spk in *. cbn in *. subst pi si. rewrite ao_preflight0. cbn. rewrite ao_repay0. cbn.
    rewrite ao_outflow0. cbn. rewrite ao_stability0. cbn. rewrite ao_vault0. cbn.
    rewrite ao_issuer0. done.
Qed.

Lemma compile_ok cov args p :
  compile cov args = Ok p <->
  prog_cov p = cov /\ prog_args p = args /\ hl_compile cov args = Some (prog_cmr p).
Proof.
  unfold compile. destruct (hl_compile cov args); destruct p; cbn; naive_solver.
Qed.

Lemma pot_control_block_some params a leaf :
  artifacts_of params a -> is_Some (pot_control_block a leaf).
Proof.
  intros HA. unfold pot_control_block. rewrite (ao_pot_info _ _ HA). unfold two_leaf_tree.
  destruct leaf.
  - eexists.
    apply (control_block_first _ _ (cmr_script (a_reserve_repay a), simplicity_leaf_version)).
  - unfold control_block. cbn. case_decide; cbn; [eauto|]. rewrite decide_True by done. eauto.
Qed.

Lemma stability_control_block_some params a :
  artifacts_of params a ->
  stability_control_block a =
    Some (mkCB simplicity_leaf_version
            (tap_parity nums_key (ti_merkle_root (stability_info a))) nums_key []).
Proof.
  intros HA. unfold stability_control_block. rewrite (ao_stability_info _ _ HA).
  apply (control_block_first _ _ (cmr_script (a_stability a), simplicity_leaf_version)).
Qed.

End ArtifactsLemmas.
