(* ===== verification/Jets.v ===== *)
(** * The covenant language: spend environment, jets and the shared covenant helpers

    A covenant runs against a spend environment (the transaction, the claimed input UTXOs,
    the position and control block of the input) and aborts or succeeds: a shallow
    embedding in the option monad.  The jets the sources call are the first part; the
    second is the helper functions [covenants/vault.simf] and [covenants/issuer.simf]
    share word for word (quotes, quorum, CR math, explicit amounts).

    [sighash_all] of the class [SigHash] is the Simplicity sig-all hash of an environment,
    computed outside the repository. *)

From Stdlib Require Import ZArith Lia.
From stdpp Require Import base gmap strings option list.
From S2P Require Import Prelude Units CrMath Elements Toy Oracle Simf Encode Domain Artifacts.

(** ** Spend environment ([ElementsEnv::new]) *)

Record Env : Type := mkEnv {
  env_tx : Transaction;
  env_utxos : list ElementsUtxo;
  env_ix : Z;
  env_cmr : bytes;
  env_cb : ControlBlock;
  env_genesis : BlockHash
}.

Class SigHash : Type := sighash_all : Env -> bytes.

(** ** Jets *)

(** Arithmetic.  Sums and differences come with their carry or borrow; [divide_64] by
    zero is zero. *)
Definition add_64 (a b : Z) : bool * Z :=
  (U64_MAX <? a + b, (a + b) mod 18446744073709551616).
Definition subtract_64 (a b : Z) : bool * Z :=
  (a <? b, (a - b) mod 18446744073709551616).
Definition add_32 (a b : Z) : bool * Z := (U32_MAX <? a + b, (a + b) mod 4294967296).
Definition subtract_32 (a b : Z) : bool * Z := (a <? b, (a - b) mod 4294967296).
Definition multiply_32 (a b : Z) : Z := a * b.
Definition divide_64 (n d : Z) : Z := if d =? 0 then 0 else n / d.
Definition rightmost_64_32 (x : Z) : Z := x mod 4294967296.
Definition min_32 (a b : Z) : Z := Z.min a b.
Definition max_32 (a b : Z) : Z := Z.max a b.
Definition min_64 (a b : Z) : Z := Z.min a b.
Definition eq_256 (a b : bytes) : bool := bool_decide (a = b).

(** Hashing context: the bytes added so far. *)
Definition Ctx8 : Type := bytes.
Definition sha_256_ctx_8_init : Ctx8 := [].
Definition sha_256_ctx_8_add_32 (h : Ctx8) (b : bytes) : Ctx8 := h ++ b.
Definition sha_256_ctx_8_add_8 (h : Ctx8) (x : Z) : Ctx8 := h ++ be_bytes 8 x.
Definition sha_256_ctx_8_add_4 (h : Ctx8) (x : Z) : Ctx8 := h ++ be_bytes 4 x.
Definition sha_256_ctx_8_add_2 (h : Ctx8) (x : Z) : Ctx8 := h ++ be_bytes 2 x.
Definition sha_256_ctx_8_add_1 (h : Ctx8) (x : Z) : Ctx8 := h ++ be_bytes 1 x.
Definition sha_256_ctx_8_finalize `{Lib} (h : Ctx8) : bytes := sha256 h.

Definition build_tapleaf_simplicity `{Lib} (cmr : bytes) : bytes :=
  tap_leaf cmr simplicity_leaf_version.
Definition build_tapbranch `{Lib} (a b : bytes) : bytes := tap_branch a b.
Definition build_taptweak `{Lib} (key root : bytes) : bytes := tap_tweak key (Some root).

(** [bip_0340_verify] aborts on a bad signature. *)
Definition bip_0340_verify `{Lib} (pk msg : bytes) (sig : Sig) : option unit :=
  assert! verify_schnorr pk msg (sig_bytes sig); Some tt.

(** [unwrap_right] of a confidential asset or amount: the explicit one. *)
Definition unwrap_asset (a : CAsset) : option bytes :=
  match a with AExplicit b => Some b | _ => None end.
Definition unwrap_amount (v : CValue) : option Z :=
  match v with VExplicit x => Some x | _ => None end.

(** [tx.isFinal]: every input sequence is final. *)
Definition tx_is_final (tx : Transaction) : bool :=
  forallb (fun i => sequence i =? U32_MAX) (input tx).
(** The lock height of a transaction: zero when it is final or locked to a timestamp. *)
Definition tx_lock_height (tx : Transaction) : Z :=
  if negb (tx_is_final tx) && (lock_time tx <? LOCK_TIME_HEIGHT_THRESHOLD)
  then lock_time tx else 0.

Section Introspection.
Context `{Lib} (E : Env).

Definition current_index : Z := env_ix E.
Definition script_cmr : bytes := env_cmr E.
Definition internal_key : bytes := cb_internal_key (env_cb E).

Definition input_script_hash (i : Z) : option bytes :=
  u ← env_utxos E !! Z.to_nat i; Some (sha256 (utxo_spk u)).
Definition output_script_hash (i : Z) : option bytes :=
  o ← output (env_tx E) !! Z.to_nat i; Some (sha256 (to_spk o)).
Definition input_amount (i : Z) : option (CAsset * CValue) :=
  u ← env_utxos E !! Z.to_nat i; Some (utxo_asset u, utxo_value u).
Definition output_amount (i : Z) : option (CAsset * CValue) :=
  o ← output (env_tx E) !! Z.to_nat i; Some (to_asset o, to_value o).
Definition current_script_hash : option bytes := input_script_hash current_index.
Definition current_amount : option (CAsset * CValue) := input_amount current_index.

Definition check_lock_height (h : Z) : option unit :=
  assert! h <=? tx_lock_height (env_tx E); Some tt.

(** ** Helpers of the covenant sources *)

Definition explicit_output_amount (idx : Z) : option Z :=
  '(_, amount) ← output_amount idx; unwrap_amount amount.
Definition explicit_output_asset (idx : Z) : option bytes :=
  '(asset, _) ← output_amount idx; unwrap_asset asset.
Definition explicit_input_amount (idx : Z) : option Z :=
  '(_, amount) ← input_amount idx; unwrap_amount amount.
Definition explicit_input_asset (idx : Z) : option bytes :=
  '(asset, _) ← input_amount idx; unwrap_asset asset.

(** The covenants' CR math, on [u32] values. *)
Definition cov_coll_at_cr (debt_cents price k : Z) : Z :=
  let numerator := multiply_32 debt_cents k in
  let denom := multiply_32 price 200 in
  divide_64 numerator denom.

Definition check_quote (pk : bytes) (height backing_k : Z) (quote : U32 * Sig) : option Z :=
  let '(price, sig) := quote in
  let h := sha_256_ctx_8_init in
  let h := sha_256_ctx_8_add_4 h height in
  let h := sha_256_ctx_8_add_4 h (u32_val price) in
  let h := sha_256_ctx_8_add_4 h backing_k in
  let msg := sha_256_ctx_8_finalize h in
  _ ← bip_0340_verify pk msg sig;
  assert! 0 <? u32_val price;
  Some (u32_val price).

Definition process_slot (pk : bytes) (height backing_k : Z) (slot : Slot)
    (acc : Z * Z * Z) : option (Z * Z * Z) :=
  let '(count, lo, hi) := acc in
  match slot with
  | Left _ => Some (count, lo, hi)
  | Right quote =>
      price ← check_quote pk height backing_k quote;
      let '(overflow, c) := add_32 count 1 in
      assert! negb overflow;
      Some (c, min_32 lo price, max_32 hi price)
  end.

(** [pks] are [param::ORACLE_PK_1] to [param::ORACLE_PK_5]. *)
Definition verify_quorum (pks : list bytes) (height backing_k : Z) (quotes : Arr 5 Slot)
    : option (Z * Z) :=
  match pks, arr_elems quotes with
  | [pk1; pk2; pk3; pk4; pk5], [s1; s2; s3; s4; s5] =>
      let a0 := (0, 4294967295, 0) in
      a1 ← process_slot pk1 height backing_k s1 a0;
      a2 ← process_slot pk2 height backing_k s2 a1;
      a3 ← process_slot pk3 height backing_k s3 a2;
      a4 ← process_slot pk4 height backing_k s4 a3;
      a5 ← process_slot pk5 height backing_k s5 a4;
      let '(count, lo, hi) := a5 in
      assert! count =? 3;
      assert! height <? 500000000;
      _ ← check_lock_height height;
      Some (lo, hi)
  | _, _ => None
  end.

End Introspection.

(** ** Parameters

    [param::NAME] reads an argument of the compiled program. *)

Definition param_u256 (a : Arguments) (name : string) : option bytes :=
  v ← a !! name; u256_bytes <$> read v.
Definition param_u16 (a : Arguments) (name : string) : option Z :=
  v ← a !! name;
  match v with ValUInt UT16 x => Some x | _ => None end.

Definition param_oracles (a : Arguments) : option (list bytes) :=
  mapM (param_u256 a)
    ["ORACLE_PK_1"; "ORACLE_PK_2"; "ORACLE_PK_3"; "ORACLE_PK_4"; "ORACLE_PK_5"]%string.

(** ** Lemmas on jets *)

Lemma add_64_ok a b : 0 <= a -> 0 <= b -> a + b <= U64_MAX -> add_64 a b = (false, a + b).
Proof.
  unfold add_64, U64_MAX. intros. rewrite Z.mod_small by lia. f_equal.
  by apply Z.ltb_ge.
Qed.

Lemma subtract_64_ok a b : 0 <= b <= a -> a <= U64_MAX -> subtract_64 a b = (false, a - b).
Proof.
  unfold subtract_64, U64_MAX. intros. rewrite Z.mod_small by lia. f_equal.
  apply Z.ltb_ge. lia.
Qed.

Lemma rightmost_id x : u32 x -> rightmost_64_32 x = x.
Proof. unfold rightmost_64_32, u32. intros. by apply Z.mod_small. Qed.

(** The covenants' CR math is the crate's. *)
Lemma cov_coll_at_cr_eq d p k :
  cov_coll_at_cr d p k = Sats.raw (coll_at_cr d (Price.new p) (RatioK.new k)).
Proof.
  unfold cov_coll_at_cr, coll_at_cr, divide_64, multiply_32. cbn.
  by destruct (p * 200 =? 0).
Qed.

(** ** The quorum fold as a fold over slots and keys *)

Fixpoint fold_slots `{Lib} (pks : list bytes) (height backing_k : Z) (slots : list Slot)
    (acc : Z * Z * Z) : option (Z * Z * Z) :=
  match pks, slots with
  | pk :: pks, s :: slots =>
      acc' ← process_slot pk height backing_k s acc;
      fold_slots pks height backing_k slots acc'
  | _, _ => Some acc
  end.

(** A quote is valid for a key when its signature covers the tick and its price is
    positive. *)
Definition quote_valid `{Lib} (height : BlockHeight.t) (backing_k : RatioK.t)
    (pk : bytes) (q : SignedQuote) : bool :=
  verify_schnorr pk (tick_digest (mkPayload height (sq_price q) backing_k)) (sq_sig q) &&
  (0 <? Price.raw (sq_price q)).

Fixpoint slots_valid `{Lib} (height : BlockHeight.t) (backing_k : RatioK.t)
    (pks : list bytes) (slots : list (option SignedQuote)) : bool :=
  match pks, slots with
  | pk :: pks, Some q :: slots => quote_valid height backing_k pk q &&
      slots_valid height backing_k pks slots
  | _ :: pks, None :: slots => slots_valid height backing_k pks slots
  | _, _ => true
  end.

(** A tick whose three quotes are valid under the oracle keys. *)
Definition tick_valid `{Lib} (pks : list bytes) (t : OracleTick.t) : bool :=
  slots_valid (OracleTick.height t) (OracleTick.backing_k t) pks (OracleTick.slots t).

Section QuorumLemmas.
Context `{Lib}.

Lemma process_slot_some pk h k q c lo hi :
  0 <= c < U32_MAX ->
  process_slot pk (BlockHeight.raw h) (RatioK.raw k) (lower_slot (Some q)) (c, lo, hi) =
  if quote_valid h k pk q
  then Some (c + 1, Z.min lo (Price.raw (sq_price q)), Z.max hi (Price.raw (sq_price q)))
  else None.
Proof.
  intros Hc. destruct q as [[p] s]. unfold quote_valid.
  cbn -[Z.ltb be_bytes tick_digest add_32].
  unfold bip_0340_verify, sha_256_ctx_8_finalize, sha_256_ctx_8_init, sha_256_ctx_8_add_4,
    tick_digest, tick_preimage. cbn -[Z.ltb be_bytes add_32].
  rewrite <- app_assoc. destruct (verify_schnorr _ _ _); [|done]. cbn -[Z.ltb add_32].
  destruct (0 <? p); [|done]. cbn -[Z.ltb].
  unfold add_32, U32_MAX in *. rewrite (proj2 (Z.ltb_ge _ _)), Z.mod_small by lia. done.
Qed.

Lemma fold_slots_lower h k pks slots c lo hi :
  0 <= c -> c + Z.of_nat (length slots) < U32_MAX -> length pks = length slots ->
  fold_slots pks (BlockHeight.raw h) (RatioK.raw k) (lower_slot <$> slots) (c, lo, hi) =
  if slots_valid h k pks slots
  then Some (c + Z.of_nat (length (quotes_in slots)),
             Price.raw (OracleTick.range slots (Price.new lo) (Price.new hi)).1,
             Price.raw (OracleTick.range slots (Price.new lo) (Price.new hi)).2)
  else None.
Proof.
  revert pks c lo hi. induction slots as [|[q|] slots IH]; intros pks c lo hi Hc Hb Hl.
  - destruct pks; [|done]. cbn. by rewrite Z.add_0_r.
  - destruct pks as [|pk pks]; [done|]. injection Hl as Hl.
    cbn [fmap list_fmap fold_slots slots_valid length] in *.
    rewrite process_slot_some by lia.
    destruct (quote_valid h k pk q) eqn:Ev; [|done].
    cbn [mbind option_bind andb].
    change (list_fmap (option SignedQuote) Slot lower_slot slots) with (lower_slot <$> slots).
    rewrite IH by lia. destruct (slots_valid h k pks slots) eqn:?; [|done].
    unfold quotes_in. cbn [omap list_omap id length OracleTick.range].
    rewrite price_min_new, price_max_new. do 3 f_equal. lia.
  - destruct pks as [|pk pks]; [done|]. injection Hl as Hl. cbn in *. rewrite IH by lia. done.
Qed.

Lemma verify_quorum_fold E pks h k slots :
  verify_quorum E pks h k (mkArr slots) =
  if bool_decide (length pks = 5%nat /\ length slots = 5%nat)
  then '(count, lo, hi) ← fold_slots pks h k slots (0, 4294967295, 0);
       assert! count =? 3; assert! h <? 500000000; _ ← check_lock_height E h; Some (lo, hi)
  else None.
Proof.
  case_bool_decide as HL.
  - destruct HL as [H5 H5'].
    do 5 (destruct pks as [|? pks]; [discriminate H5|]). destruct pks; [|discriminate H5].
    do 5 (destruct slots as [|? slots]; [discriminate H5'|]).
    destruct slots; [|discriminate H5'].
    cbn [verify_quorum arr_elems fold_slots].
    repeat (destruct (process_slot _ _ _ _ _); [cbn [mbind option_bind]|done]). done.
  - unfold verify_quorum. cbn [arr_elems].
    repeat (match goal with |- match ?l with _ => _ end = _ => destruct l end; try done).
    exfalso. by apply HL.
Qed.

(** What the covenants' quorum accepts, and the (min, max) it returns. *)
Lemma verify_quorum_iff E pks h k slots lo hi :
  length pks = 5%nat ->
  verify_quorum E pks (BlockHeight.raw h) (RatioK.raw k) (mkArr (lower_slot <$> slots))
    = Some (lo, hi) <->
  length slots = 5%nat /\ slots_valid h k pks slots = true /\
  length (quotes_in slots) = 3%nat /\
  BlockHeight.raw h < LOCK_TIME_HEIGHT_THRESHOLD /\
  BlockHeight.raw h <= tx_lock_height (env_tx E) /\
  (lo, hi) = (Price.raw (OracleTick.range slots (Price.new U32_MAX) (Price.new 0)).1,
              Price.raw (OracleTick.range slots (Price.new U32_MAX) (Price.new 0)).2).
Proof.
  intros Hp. rewrite verify_quorum_fold, length_fmap.
  case_bool_decide as HL; [|naive_solver]. destruct HL as [_ H5].
  rewrite fold_slots_lower by (unfold U32_MAX; rewrite ?H5; cbn; lia).
  destruct (slots_valid h k pks slots); [|naive_solver].
  cbn -[Z.eqb Z.ltb]. unfold check_lock_height, LOCK_TIME_HEIGHT_THRESHOLD, U32_MAX.
  destruct (Z.eqb_spec (0 + Z.of_nat (length (quotes_in slots))) 3); [|naive_solver lia].
  destruct (Z.ltb_spec (BlockHeight.raw h) 500000000); [|naive_solver lia].
  destruct (Z.leb_spec (BlockHeight.raw h) (tx_lock_height (env_tx E))); cbn; [|naive_solver lia].
  split; [|naive_solver]. intros [= <- <-]. split_and!; auto. lia.
Qed.

Lemma verify_quorum_ok E pks t :
  length pks = 5%nat -> tick_wf t -> tick_valid pks t = true ->
  BlockHeight.raw (OracleTick.height t) <= tx_lock_height (env_tx E) ->
  verify_quorum E pks (BlockHeight.raw (OracleTick.height t))
    (RatioK.raw (OracleTick.backing_k t)) (mkArr (lower_slot <$> OracleTick.slots t))
    = Some (Price.raw (OracleTick.lo t), Price.raw (OracleTick.hi t)).
Proof.
  intros Hp [] Hv Hl. apply verify_quorum_iff; [done|].
  unfold OracleTick.lo, OracleTick.hi, OracleTick.price_range. naive_solver lia.
Qed.

(** Every witness array is a lowered slot list. *)
Definition raise_slot (s : Slot) : option SignedQuote :=
  match s with
  | Left _ => None
  | Right (p, sig) => Some (mkQuote (Price.new (u32_val p)) (sig_bytes sig))
  end.

Lemma lower_raise_slots (l : list Slot) : lower_slot <$> (raise_slot <$> l) = l.
Proof.
  induction l as [|[[]|[[p] [s]]] l IH]; cbn in *; [done| |]; by rewrite IH.
Qed.

(** Valid slots, by position. *)
Lemma slots_valid_lookup h k pks slots i pk q :
  slots_valid h k pks slots = true -> pks !! i = Some pk -> slots !! i = Some (Some q) ->
  quote_valid h k pk q = true.
Proof.
  revert pks i. induction slots as [|s slots IH]; intros [|pk' pks] [|i] Hv Hp Hs;
    simplify_eq/=; boolz; [done|]. destruct s; boolz; eauto.
Qed.

(** The positions of the active slots, counted from [off]. *)
Fixpoint active (off : nat) (slots : list (option SignedQuote)) : list nat :=
  match slots with
  | [] => []
  | None :: slots => active (S off) slots
  | Some _ :: slots => off :: active (S off) slots
  end.

Lemma length_active off slots : length (active off slots) = length (quotes_in slots).
Proof.
  revert off. induction slots as [|[q|] slots IH]; intros off; cbn; [done| |apply IH].
  by rewrite IH.
Qed.

Lemma elem_of_active off slots i :
  i ∈ active off slots -> (off <= i)%nat /\ exists q, slots !! (i - off)%nat = Some (Some q).
Proof.
  revert off. induction slots as [|[q|] slots IH]; intros off; cbn.
  - by intros ?%elem_of_nil.
  - intros [->|Hi]%elem_of_cons; [split; [lia|]; rewrite Nat.sub_diag; cbn; eauto|].
    destruct (IH _ Hi) as [Hle Hq]. split; [lia|]. by replace (i - off)%nat with (S (i - S off)) by lia.
  - intros Hi. destruct (IH _ Hi) as [Hle Hq]. split; [lia|].
    by replace (i - off)%nat with (S (i - S off)) by lia.
Qed.

Lemma NoDup_active off slots : NoDup (active off slots).
Proof.
  revert off. induction slots as [|[q|] slots IH]; intros off; cbn;
    [apply NoDup_nil_2| |apply IH].
  apply NoDup_cons. split; [|apply IH]. intros [Hle _]%elem_of_active. lia.
Qed.

(** Three active slots are not all among two positions. *)
Lemma active_outside (slots : list (option SignedQuote)) (bad : list nat) :
  (length bad < length (quotes_in slots))%nat ->
  exists i q, i ∉ bad /\ slots !! i = Some (Some q).
Proof.
  intros Hb. rewrite <- (length_active 0) in Hb.
  destruct (decide (Forall (fun i => i ∈ bad) (active 0 slots))) as [HF|HF].
  - rewrite Forall_forall in HF.
    pose proof (submseteq_length _ _ (NoDup_submseteq _ _ (NoDup_active 0 slots) HF)). lia.
  - apply not_Forall_Exists in HF; [|intros i; apply _].
    apply Exists_exists in HF as (i & Hi & Hbad).
    apply elem_of_active in Hi as [_ [q Hq]]. rewrite Nat.sub_0_r in Hq.
    exists i, q. split; [exact Hbad|done].
Qed.

Lemma elem_of_quotes_in slots i q : slots !! i = Some (Some q) -> q ∈ quotes_in slots.
Proof.
  intros Hi. apply list_elem_of_omap. exists (Some q). split; [|done].
  by eapply list_elem_of_lookup_2.
Qed.

End QuorumLemmas.

(** ** Properties *)

(** C10: The directional quorum: whatever two oracle slots are Byzantine, an accepted quorum
    contains a quote of an oracle outside them, signed for this height and backing ratio
    with a positive price, and the returned minimum and maximum enclose it; the height is
    a block height the transaction is locked to. *)
Theorem quorum_directional `{Lib} (E : Env) (pks : list bytes) (h : BlockHeight.t) (k : RatioK.t)
    (quotes : Arr 5 Slot) (lo hi : Z) (byzantine : list nat) :
  length pks = 5%nat -> (length byzantine <= 2)%nat ->
  verify_quorum E pks (BlockHeight.raw h) (RatioK.raw k) quotes = Some (lo, hi) ->
  BlockHeight.raw h < LOCK_TIME_HEIGHT_THRESHOLD /\
  BlockHeight.raw h <= tx_lock_height (env_tx E) /\
  exists i pk p s,
    i ∉ byzantine /\ pks !! i = Some pk /\ arr_elems quotes !! i = Some (Right (mkU32 p, mkSig s)) /\
    verify_schnorr pk (tick_digest (mkPayload h (Price.new p) k)) s = true /\
    0 < p /\ lo <= p <= hi.
Proof.
  intros Hp Hb Hq. destruct quotes as [l]. rewrite <- (lower_raise_slots l) in Hq.
  apply verify_quorum_iff in Hq as (H5 & Hv & H3 & Hh & Hl & [= -> ->]); [|done].
  split; [done|]. split; [done|].
  destruct (active_outside (raise_slot <$> l) byzantine) as (i & q & Hi & Hs); [lia|].
  destruct (lookup_lt_is_Some_2 pks i) as [pk Hpk].
  { rewrite Hp, <- H5. by eapply lookup_lt_Some. }
  pose proof (slots_valid_lookup _ _ _ _ _ _ _ Hv Hpk Hs) as Hqv.
  unfold quote_valid in Hqv. boolz. destruct q as [[p] s]. cbn in *.
  pose proof (lo_le (mkQuote (Price.new p) s) (OracleTick.mk h k (raise_slot <$> l))
    (elem_of_quotes_in _ _ _ Hs)) as [Hlo Hhi].
  exists i, pk, p, s. split_and!; try done.
  rewrite list_lookup_fmap in Hs. apply fmap_Some in Hs as (x & Hx & E').
  destruct x as [|[[p'] [s']]]; [done|]. cbn in E'. by simplify_eq.
Qed.

(** A tick signed by three of the sample deploy's oracles (whose keys are their own
    secrets in the toy library). *)
Definition signed_tick (height backing_k : Z) (p1 p3 p5 : Z) : OracleTick.t :=
  let h := BlockHeight.new height in
  let k := RatioK.new backing_k in
  let q kp p := Some (sign_quote kp (mkPayload h (Price.new p) k)) in
  OracleTick.mk h k
    [q (be_bytes 32 11) p1; None; q (be_bytes 32 13) p3; None; q (be_bytes 32 15) p5].

Definition quorum_env : Env :=
  mkEnv (mkTx 2 1000 [txin (mkOutPoint [] 0)] []) [] 0 [] (mkCB 0 false [] []) [].

Lemma quorum_directional_witness :
  exists lo hi,
    verify_quorum quorum_env (oracle_pks sample_params) 1000 260000000
      (mkArr (lower_slot <$> OracleTick.slots (signed_tick 1000 260000000 60000 60100 60050)))
      = Some (lo, hi) /\ 1000 <= tx_lock_height (env_tx quorum_env).
Proof.
  exists 60000, 60100. assert (Hq : verify_quorum quorum_env (oracle_pks sample_params) 1000
    260000000 (mkArr (lower_slot <$> OracleTick.slots
      (signed_tick 1000 260000000 60000 60100 60050))) = Some (60000, 60100))
    by (vm_compute; reflexivity).
  split; [exact Hq|].
  refine (proj1 (proj2 (quorum_directional quorum_env (oracle_pks sample_params)
    (BlockHeight.new 1000) (RatioK.new 260000000) _ 60000 60100 [1%nat; 4%nat] eq_refl _ Hq))).
  cbn. lia.
Defined.
