(* ===== verification/CovVault.v ===== *)
(** * The vault covenant ([covenants/vault.simf])

    A line-by-line embedding of the per-position covenant: the address it reconstructs
    for itself, the pot and reserve pins, and the eight operations of [main]. *)

From Stdlib Require Import ZArith Lia.
From stdpp Require Import base gmap strings option list.
From S2P Require Import Prelude Units CrMath Elements Oracle Simf Encode Domain Artifacts Jets.

Abbreviation WitnessValues := (gmap string Value).

Module VaultCov.

(** The parameters the source reads. *)
Record Param : Type := mkParam {
  TAPLEAF_TAG : bytes;
  LEAF_VC : Z;
  OBOL_ID : bytes;
  POLICY : bytes;
  POT_SPK : bytes;
  STABILITY_SPK : bytes;
  ORACLE_PK : list bytes
}.

Definition params (a : Arguments) : option Param :=
  tag ← param_u256 a "TAPLEAF_TAG";
  vc ← param_u16 a "LEAF_VC";
  obol ← param_u256 a "OBOL_ID";
  policy ← param_u256 a "POLICY";
  pot ← param_u256 a "POT_SPK";
  stab ← param_u256 a "STABILITY_SPK";
  pks ← param_oracles a;
  Some (mkParam tag vc obol policy pot stab pks).

Section Vault.
Context `{Lib, SigHash} (P : Param) (E : Env).

Definition dataleaf_hash (debt : Z) (owner : bytes) (last_height : Z) : bytes :=
  let tag := TAPLEAF_TAG P in
  let h := sha_256_ctx_8_init in
  let h := sha_256_ctx_8_add_32 h tag in
  let h := sha_256_ctx_8_add_32 h tag in
  let h := sha_256_ctx_8_add_2 h (LEAF_VC P) in
  let h := sha_256_ctx_8_add_1 h 106 in
  let h := sha_256_ctx_8_add_8 h debt in
  let h := sha_256_ctx_8_add_32 h owner in
  let h := sha_256_ctx_8_add_4 h last_height in
  sha_256_ctx_8_finalize h.

Definition own_spk_hash_for (debt : Z) (owner : bytes) (last_height : Z) : bytes :=
  let leaf0 := build_tapleaf_simplicity (script_cmr E) in
  let leaf1 := dataleaf_hash debt owner last_height in
  let merkle := build_tapbranch leaf0 leaf1 in
  let outkey := build_taptweak (internal_key E) merkle in
  let h := sha_256_ctx_8_init in
  let h := sha_256_ctx_8_add_2 h 0x5120 in
  let h := sha_256_ctx_8_add_32 h outkey in
  sha_256_ctx_8_finalize h.

Definition pot_grows_by (delta : Z) : option unit :=
  in_hash ← input_script_hash E 1;
  assert! eq_256 (POT_SPK P) in_hash;
  out_hash ← output_script_hash E 1;
  assert! eq_256 (POT_SPK P) out_hash;
  out_asset ← explicit_output_asset E 1;
  assert! eq_256 (OBOL_ID P) out_asset;
  reserve_out ← explicit_output_amount E 1;
  '(r_asset, r_amount) ← input_amount E 1;
  in_asset ← unwrap_asset r_asset;
  assert! eq_256 (OBOL_ID P) in_asset;
  reserve_in ← unwrap_amount r_amount;
  let '(overflow, expected) := add_64 reserve_in delta in
  assert! negb overflow;
  assert! reserve_out =? expected;
  Some tt.

Definition pot_shrinks_by (d : Z) : option unit :=
  in_hash ← input_script_hash E 1;
  assert! eq_256 (POT_SPK P) in_hash;
  out_hash ← output_script_hash E 1;
  assert! eq_256 (POT_SPK P) out_hash;
  out_asset ← explicit_output_asset E 1;
  assert! eq_256 (OBOL_ID P) out_asset;
  reserve_out ← explicit_output_amount E 1;
  '(r_asset, r_amount) ← input_amount E 1;
  in_asset ← unwrap_asset r_asset;
  assert! eq_256 (OBOL_ID P) in_asset;
  reserve_in ← unwrap_amount r_amount;
  let '(underflow, expected) := subtract_64 reserve_in d in
  assert! negb underflow;
  assert! reserve_out =? expected;
  Some tt.

Definition recurse_to (new_debt : Z) (owner : bytes) (new_last_height : Z) : option unit :=
  out_hash ← output_script_hash E 0;
  assert! eq_256 (own_spk_hash_for new_debt owner new_last_height) out_hash;
  out_asset ← explicit_output_asset E 0;
  assert! eq_256 (POLICY P) out_asset;
  Some tt.

Definition current_collateral : option Z :=
  '(c_asset, c_amount) ← current_amount E;
  asset ← unwrap_asset c_asset;
  assert! eq_256 (POLICY P) asset;
  unwrap_amount c_amount.

Definition stability_grows_by (share : Z) : option unit :=
  in_hash ← input_script_hash E 3;
  assert! eq_256 (STABILITY_SPK P) in_hash;
  in_asset ← explicit_input_asset E 3;
  assert! eq_256 (POLICY P) in_asset;
  out_hash ← output_script_hash E 3;
  assert! eq_256 (STABILITY_SPK P) out_hash;
  out_asset ← explicit_output_asset E 3;
  assert! eq_256 (POLICY P) out_asset;
  stab_in ← explicit_input_amount E 3;
  stab_out ← explicit_output_amount E 3;
  let '(overflow, expected) := add_64 stab_in share in
  assert! negb overflow;
  assert! stab_out =? expected;
  Some tt.

(** ** The arms of [main] *)

Definition close (debt : Z) : option unit := pot_grows_by debt.

Definition repay (debt : Z) (owner : bytes) (last_height : Z) (r : Z) : option unit :=
  let '(underflow, new_debt) := subtract_64 debt r in
  assert! negb underflow;
  coll ← current_collateral;
  _ ← pot_grows_by r;
  _ ← recurse_to new_debt owner last_height;
  out ← explicit_output_amount E 0;
  assert! coll <=? out;
  Some tt.

Definition draw (debt : Z) (owner : bytes) (last_height : Z) (d : Z) (tick : Tick)
    : option unit :=
  let '(height, (backing_k, quotes)) := tick in
  '(lo, _) ← verify_quorum E (ORACLE_PK P) (u32_val height) (u32_val backing_k) quotes;
  assert! last_height <? u32_val height;
  let '(overflow, new_debt) := add_64 debt d in
  assert! negb overflow;
  assert! new_debt <? 4294967296;
  _ ← pot_shrinks_by d;
  _ ← recurse_to new_debt owner (u32_val height);
  let new_debt_cents := rightmost_64_32 new_debt in
  out ← explicit_output_amount E 0;
  assert! cov_coll_at_cr new_debt_cents lo 300000000 <=? out;
  Some tt.

Definition liquidate (debt : Z) (owner : bytes) (last_height : Z) (dd : Z) (tick : Tick)
    : option unit :=
  let '(height, (backing_k, quotes)) := tick in
  '(_, hi) ← verify_quorum E (ORACLE_PK P) (u32_val height) (u32_val backing_k) quotes;
  assert! last_height <? u32_val height;
  assert! 0 <? dd;
  let '(uf_rd, residual_debt) := subtract_64 debt dd in
  assert! negb uf_rd;
  assert! 0 <? residual_debt;
  coll ← current_collateral;
  let debt_cents := rightmost_64_32 debt in
  assert! coll <? cov_coll_at_cr debt_cents hi 260000000;
  _ ← pot_grows_by dd;
  _ ← recurse_to residual_debt owner last_height;
  residual_coll ← explicit_output_amount E 0;
  let rd_cents := rightmost_64_32 residual_debt in
  assert! cov_coll_at_cr rd_cents hi 264000000 <=? residual_coll;
  assert! residual_coll <=? cov_coll_at_cr rd_cents hi 274000000;
  let '(uf_ex, extraction) := subtract_64 coll residual_coll in
  assert! negb uf_ex;
  let dd_cents := rightmost_64_32 dd in
  assert! extraction <=? cov_coll_at_cr dd_cents hi 230000000;
  stability_grows_by (cov_coll_at_cr dd_cents hi 10000000).

Definition full_liq (debt : Z) (last_height : Z) (tick : Tick) : option unit :=
  let '(height, (backing_k, quotes)) := tick in
  '(_, hi) ← verify_quorum E (ORACLE_PK P) (u32_val height) (u32_val backing_k) quotes;
  assert! last_height <? u32_val height;
  coll ← current_collateral;
  let debt_cents := rightmost_64_32 debt in
  let debt_sats := cov_coll_at_cr debt_cents hi 200000000 in
  assert! debt_sats <=? coll;
  assert! coll <=? cov_coll_at_cr debt_cents hi 230000000;
  _ ← pot_grows_by debt;
  let '(uf_x, excess) := subtract_64 coll debt_sats in
  assert! negb uf_x;
  stability_grows_by (divide_64 excess 3).

Definition bad_debt (debt : Z) (last_height : Z) (tick : Tick) : option unit :=
  let '(height, (backing_k, quotes)) := tick in
  '(_, hi) ← verify_quorum E (ORACLE_PK P) (u32_val height) (u32_val backing_k) quotes;
  assert! last_height <? u32_val height;
  let debt_cents := rightmost_64_32 debt in
  coll ← current_collateral;
  assert! coll <? cov_coll_at_cr debt_cents hi 200000000;
  pot_grows_by debt.

Definition redeem (debt : Z) (owner : bytes) (last_height : Z) (x : Z) (tick : Tick)
    : option unit :=
  let '(height, (backing_k, quotes)) := tick in
  '(_, hi) ← verify_quorum E (ORACLE_PK P) (u32_val height) (u32_val backing_k) quotes;
  assert! last_height <? u32_val height;
  assert! 0 <? x;
  let '(uf_nd, new_debt) := subtract_64 debt x in
  assert! negb uf_nd;
  assert! x <? 4294967296;
  _ ← pot_grows_by x;
  _ ← recurse_to new_debt owner last_height;
  residual_coll ← explicit_output_amount E 0;
  coll ← current_collateral;
  let '(uf_ex, extraction) := subtract_64 coll residual_coll in
  assert! negb uf_ex;
  let x_cents := rightmost_64_32 x in
  let floor_k := min_32 200000000 (u32_val backing_k) in
  assert! extraction <=? cov_coll_at_cr x_cents hi floor_k;
  stability_grows_by (cov_coll_at_cr x_cents hi 1000000).

Definition refresh (debt : Z) (owner : bytes) (last_height : Z) (tick : Tick) : option unit :=
  let '(height, (backing_k, quotes)) := tick in
  '(_, hi) ← verify_quorum E (ORACLE_PK P) (u32_val height) (u32_val backing_k) quotes;
  assert! last_height <? u32_val height;
  coll ← current_collateral;
  let debt_cents := rightmost_64_32 debt in
  assert! cov_coll_at_cr debt_cents hi 260000000 <=? coll;
  _ ← recurse_to debt owner (u32_val height);
  out ← explicit_output_amount E 0;
  assert! coll <=? out;
  Some tt.

Definition dispatch (debt : Z) (owner : bytes) (last_height : Z) (op : VaultOpSum)
    : option unit :=
  match op with
  | Left (owner_sig, kind) =>
      _ ← bip_0340_verify owner (sighash_all E) owner_sig;
      match kind with
      | Left _ => close debt
      | Right (Left r) => repay debt owner last_height (u64_val r)
      | Right (Right (d, tick)) => draw debt owner last_height (u64_val d) tick
      end
  | Right (Left (dd, tick)) => liquidate debt owner last_height (u64_val dd) tick
  | Right (Right (Left tick)) => full_liq debt last_height tick
  | Right (Right (Right (Left tick))) => bad_debt debt last_height tick
  | Right (Right (Right (Right (Left (x, tick))))) =>
      redeem debt owner last_height (u64_val x) tick
  | Right (Right (Right (Right (Right tick)))) => refresh debt owner last_height tick
  end.

(** [main], with the witness values already read. *)
Definition body (debt : Z) (owner : bytes) (last_height : Z) (op : VaultOpSum) : option unit :=
  own_hash ← current_script_hash E;
  assert! eq_256 (own_spk_hash_for debt owner last_height) own_hash;
  assert! debt <? 4294967296;
  assert! current_index E =? 0;
  dispatch debt owner last_height op.

Definition main (wv : WitnessValues) : option unit :=
  debt ← wv !! "DEBT" ≫= read (A := U64);
  owner ← wv !! "OWNER" ≫= read (A := U256);
  last_height ← wv !! "LAST_HEIGHT" ≫= read (A := U32);
  op ← wv !! "OP" ≫= read (A := VaultOpSum);
  body (u64_val debt) (u256_bytes owner) (u32_val last_height) op.

End Vault.
End VaultCov.
