(* ===== verification/CovReserve.v ===== *)
(** * The pot and reserve covenants

    [covenants/reserve_repay.simf] and [covenants/pot_outflow.simf] (the two leaves of the
    OBOL pot) and [covenants/stability.simf] (the stability reserve). *)

From Stdlib Require Import ZArith Lia.
From stdpp Require Import base gmap strings option list.
From S2P Require Import Prelude Units CrMath Elements Oracle Simf Encode Domain Artifacts Jets.
From S2P Require Import CovVault.

(** ** The pot's inflow leaf *)
Module RepayCov.
Section Repay.
Context `{Lib} (OBOL_ID : bytes) (E : Env).

Definition main : option unit :=
  assert! current_index E =? 1;
  cur ← current_script_hash E;
  out_hash ← output_script_hash E 1;
  assert! eq_256 cur out_hash;
  out_asset ← explicit_output_asset E 1;
  assert! eq_256 OBOL_ID out_asset;
  reserve_out ← explicit_output_amount E 1;
  '(in_asset, in_amount) ← current_amount E;
  asset ← unwrap_asset in_asset;
  assert! eq_256 OBOL_ID asset;
  reserve_in ← unwrap_amount in_amount;
  assert! reserve_in <=? reserve_out;
  Some tt.

End Repay.
End RepayCov.

(** ** The pot's outflow leaf *)
Module OutflowCov.
Section Outflow.
Context `{Lib} (OBOL_ID ISSUER_TOKEN_ID : bytes) (E : Env).

Definition main : option unit :=
  let idx := current_index E in
  in_asset ← explicit_input_asset E idx;
  assert! eq_256 OBOL_ID in_asset;
  let '(overflow, next) := add_32 idx 1 in
  assert! negb overflow;
  next_asset ← explicit_input_asset E next;
  assert! eq_256 ISSUER_TOKEN_ID next_asset;
  cur ← current_script_hash E;
  out_hash ← output_script_hash E 1;
  assert! eq_256 cur out_hash;
  out_asset ← explicit_output_asset E 1;
  assert! eq_256 OBOL_ID out_asset;
  Some tt.

End Outflow.
End OutflowCov.

(** ** The stability reserve *)
Module StabilityCov.

Record Param : Type := mkParam {
  POT_SPK : bytes;
  ISSUER_TOKEN_ID : bytes;
  OBOL_ID : bytes;
  POLICY : bytes
}.

Definition params (a : Arguments) : option Param :=
  pot ← param_u256 a "POT_SPK";
  token ← param_u256 a "ISSUER_TOKEN_ID";
  obol ← param_u256 a "OBOL_ID";
  policy ← param_u256 a "POLICY";
  Some (mkParam pot token obol policy).

Section Stability.
Context `{Lib} (P : Param) (E : Env).

Definition current_balance : option Z :=
  '(_, c_amount) ← current_amount E; unwrap_amount c_amount.

Definition accumulate : option unit :=
  assert! current_index E =? 3;
  cur ← current_script_hash E;
  out_hash ← output_script_hash E 3;
  assert! eq_256 cur out_hash;
  out_asset ← explicit_output_asset E 3;
  assert! eq_256 (POLICY P) out_asset;
  bal ← current_balance;
  out ← explicit_output_amount E 3;
  assert! bal <=? out;
  Some tt.

Definition bad_debt : option unit :=
  assert! current_index E =? 3;
  token ← explicit_input_asset E 4;
  assert! eq_256 (ISSUER_TOKEN_ID P) token;
  in_hash ← input_script_hash E 1;
  assert! eq_256 (POT_SPK P) in_hash;
  out_hash1 ← output_script_hash E 1;
  assert! eq_256 (POT_SPK P) out_hash1;
  in_asset ← explicit_input_asset E 1;
  assert! eq_256 (OBOL_ID P) in_asset;
  out_asset1 ← explicit_output_asset E 1;
  assert! eq_256 (OBOL_ID P) out_asset1;
  pot_in ← explicit_input_amount E 1;
  pot_out ← explicit_output_amount E 1;
  assert! pot_in <? pot_out;
  cur ← current_script_hash E;
  out_hash ← output_script_hash E 2;
  assert! eq_256 cur out_hash;
  out_asset ← explicit_output_asset E 2;
  assert! eq_256 (POLICY P) out_asset;
  out ← explicit_output_amount E 2;
  bal ← current_balance;
  assert! out <=? bal;
  Some tt.

Definition body (op : StabilityOpSum) : option unit :=
  '(c_asset, _) ← current_amount E;
  asset ← unwrap_asset c_asset;
  assert! eq_256 (POLICY P) asset;
  match op with
  | Left _ => accumulate
  | Right _ => bad_debt
  end.

Definition main (wv : WitnessValues) : option unit :=
  op ← wv !! "OP" ≫= read (A := StabilityOpSum);
  body op.

End Stability.
End StabilityCov.
