(* ===== verification/CovIssuer.v ===== *)
(** * The issuer covenant ([covenants/issuer.simf])

    The mint authority: its own and the vaults' address reconstruction, the token
    recursion, and the four arms open, draw, poke and attest. *)

From Stdlib Require Import ZArith Lia.
From stdpp Require Import base gmap strings option list.
From S2P Require Import Prelude Units CrMath Elements Oracle Simf Encode Domain Artifacts Jets.
From S2P Require Import CovVault.

Module IssuerCov.

Record Param : Type := mkParam {
  NUMS : bytes;
  TAPLEAF_TAG : bytes;
  LEAF_VC : Z;
  ISSUER_LEAF_VC : Z;
  VAULT_CMR : bytes;
  STABILITY_SPK : bytes;
  OBOL_ID : bytes;
  POLICY : bytes;
  POT_SPK : bytes;
  ISSUER_TOKEN_ID : bytes;
  ORACLE_PK : list bytes
}.

Definition params (a : Arguments) : option Param :=
  nums ← param_u256 a "NUMS";
  tag ← param_u256 a "TAPLEAF_TAG";
  vc ← param_u16 a "LEAF_VC";
  ivc ← param_u16 a "ISSUER_LEAF_VC";
  vcmr ← param_u256 a "VAULT_CMR";
  stab ← param_u256 a "STABILITY_SPK";
  obol ← param_u256 a "OBOL_ID";
  policy ← param_u256 a "POLICY";
  pot ← param_u256 a "POT_SPK";
  token ← param_u256 a "ISSUER_TOKEN_ID";
  pks ← param_oracles a;
  Some (mkParam nums tag vc ivc vcmr stab obol policy pot token pks).

Section Issuer.
Context `{Lib} (P : Param) (E : Env).

Definition issuer_dataleaf_hash (last_mint_height : Z) : bytes :=
  let tag := TAPLEAF_TAG P in
  let h := sha_256_ctx_8_init in
  let h := sha_256_ctx_8_add_32 h tag in
  let h := sha_256_ctx_8_add_32 h tag in
  let h := sha_256_ctx_8_add_2 h (ISSUER_LEAF_VC P) in
  let h := sha_256_ctx_8_add_1 h 106 in
  let h := sha_256_ctx_8_add_4 h last_mint_height in
  sha_256_ctx_8_finalize h.

Definition own_spk_hash_for (last_mint_height : Z) : bytes :=
  let leaf0 := build_tapleaf_simplicity (script_cmr E) in
  let leaf1 := issuer_dataleaf_hash last_mint_height in
  let merkle := build_tapbranch leaf0 leaf1 in
  let outkey := build_taptweak (internal_key E) merkle in
  let h := sha_256_ctx_8_init in
  let h := sha_256_ctx_8_add_2 h 0x5120 in
  let h := sha_256_ctx_8_add_32 h outkey in
  sha_256_ctx_8_finalize h.

Definition vault_dataleaf_hash (debt : Z) (owner : bytes) (last_height : Z) : bytes :=
  let tag := TAPLEAF_TAG P in
  let h := sha_256_ctx_8_init in
  let h := sha_256_ctx_8_add_32 h tag in
  let h := sha_256_ctx_8_add_32 h tag in
  let h := sha_256_ctx_8_add_2 h (LEAF_VC P) in
  let h := sha_256_ctx_8_add_1 h 106 in
  let h := sha_256_ctx_8_add_8 h debt in
  let h := sha_256_ctx_8_add_32 h owner in
  let h := sha_256_ctx_8_add_4 h last_height in
  sha_256_ctx_8_finalize h.

Definition vault_spk_hash_for (debt : Z) (owner : bytes) (last_height : Z) : bytes :=
  let leaf0 := build_tapleaf_simplicity (VAULT_CMR P) in
  let leaf1 := vault_dataleaf_hash debt owner last_height in
  let merkle := build_tapbranch leaf0 leaf1 in
  let outkey := build_taptweak (NUMS P) merkle in
  let h := sha_256_ctx_8_init in
  let h := sha_256_ctx_8_add_2 h 0x5120 in
  let h := sha_256_ctx_8_add_32 h outkey in
  sha_256_ctx_8_finalize h.

Definition required_sats (debt_cents price : Z) : Z :=
  let numerator := multiply_32 debt_cents 300000000 in
  let denom := multiply_32 price 200 in
  divide_64 numerator denom.

Definition recurse_token (mint_height out_idx : Z) : option unit :=
  '(t_asset, t_amount) ← current_amount E;
  asset ← unwrap_asset t_asset;
  assert! eq_256 (ISSUER_TOKEN_ID P) asset;
  amount ← unwrap_amount t_amount;
  assert! amount =? 1;
  out_hash ← output_script_hash E out_idx;
  assert! eq_256 (own_spk_hash_for mint_height) out_hash;
  out_asset ← explicit_output_asset E out_idx;
  assert! eq_256 (ISSUER_TOKEN_ID P) out_asset;
  out ← explicit_output_amount E out_idx;
  assert! out =? 1;
  Some tt.

(** ** The arms of [main] *)

Definition open (last_mint_height : Z) (principal : Z) (owner : bytes) (tick : Tick)
    : option unit :=
  let '(open_height, (backing_k, quotes)) := tick in
  let open_height := u32_val open_height in
  '(price, _) ← verify_quorum E (ORACLE_PK P) open_height (u32_val backing_k) quotes;
  assert! last_mint_height <=? open_height;
  let debt := principal in
  assert! debt <? 4294967296;
  let fee_cents := rightmost_64_32 principal in
  let fee_sats := cov_coll_at_cr fee_cents price 1000000 in
  assert! 0 <? principal;
  _ ← recurse_token open_height 4;
  let '(uf_pi, pot_idx) := subtract_32 (current_index E) 1 in
  assert! negb uf_pi;
  pot_in_hash ← input_script_hash E pot_idx;
  assert! eq_256 (POT_SPK P) pot_in_hash;
  pot_in_asset ← explicit_input_asset E pot_idx;
  assert! eq_256 (OBOL_ID P) pot_in_asset;
  pot_out_hash ← output_script_hash E 1;
  assert! eq_256 (POT_SPK P) pot_out_hash;
  pot_out_asset ← explicit_output_asset E 1;
  assert! eq_256 (OBOL_ID P) pot_out_asset;
  pot_in ← explicit_input_amount E pot_idx;
  pot_out ← explicit_output_amount E 1;
  let '(uf, expected_pot) := subtract_64 pot_in principal in
  assert! negb uf;
  assert! pot_out =? expected_pot;
  borrower_asset ← explicit_output_asset E 2;
  assert! eq_256 (OBOL_ID P) borrower_asset;
  borrower ← explicit_output_amount E 2;
  assert! borrower =? principal;
  resv_in_hash ← input_script_hash E 3;
  assert! eq_256 (STABILITY_SPK P) resv_in_hash;
  resv_in_asset ← explicit_input_asset E 3;
  assert! eq_256 (POLICY P) resv_in_asset;
  resv_out_hash ← output_script_hash E 3;
  assert! eq_256 (STABILITY_SPK P) resv_out_hash;
  resv_out_asset ← explicit_output_asset E 3;
  assert! eq_256 (POLICY P) resv_out_asset;
  resv_in ← explicit_input_amount E 3;
  let '(of_f, resv_exp) := add_64 resv_in fee_sats in
  assert! negb of_f;
  resv_out ← explicit_output_amount E 3;
  assert! resv_out =? resv_exp;
  vault_hash ← output_script_hash E 0;
  assert! eq_256 (vault_spk_hash_for debt owner open_height) vault_hash;
  vault_asset ← explicit_output_asset E 0;
  assert! eq_256 (POLICY P) vault_asset;
  coll_sats ← explicit_output_amount E 0;
  let debt_cents := rightmost_64_32 debt in
  assert! required_sats debt_cents price <=? coll_sats;
  Some tt.

Definition draw (last_mint_height : Z) (old_debt : Z) (owner : bytes) (old_last_height : Z)
    (new_debt draw_height : Z) : option unit :=
  in_hash ← input_script_hash E 0;
  assert! eq_256 (vault_spk_hash_for old_debt owner old_last_height) in_hash;
  out_hash ← output_script_hash E 0;
  assert! eq_256 (vault_spk_hash_for new_debt owner draw_height) out_hash;
  assert! last_mint_height <=? draw_height;
  pot_out_hash ← output_script_hash E 1;
  assert! eq_256 (POT_SPK P) pot_out_hash;
  pot_out_asset ← explicit_output_asset E 1;
  assert! eq_256 (OBOL_ID P) pot_out_asset;
  let '(uf_pi, pot_idx) := subtract_32 (current_index E) 1 in
  assert! negb uf_pi;
  pot_in_hash ← input_script_hash E pot_idx;
  assert! eq_256 (POT_SPK P) pot_in_hash;
  pot_in_asset ← explicit_input_asset E pot_idx;
  assert! eq_256 (OBOL_ID P) pot_in_asset;
  let '(uf_d, d) := subtract_64 new_debt old_debt in
  assert! negb uf_d;
  assert! 0 <? d;
  pot_in ← explicit_input_amount E pot_idx;
  pot_out ← explicit_output_amount E 1;
  let '(uf_p, expect_pot) := subtract_64 pot_in d in
  assert! negb uf_p;
  assert! pot_out =? expect_pot;
  recurse_token draw_height 3.

Definition poke (last_mint_height : Z) (tick : Tick) : option unit :=
  let '(height, (backing_k, quotes)) := tick in
  _ ← verify_quorum E (ORACLE_PK P) (u32_val height) (u32_val backing_k) quotes;
  assert! last_mint_height <=? u32_val height;
  assert! current_index E =? 0;
  recurse_token (u32_val height) 0.

Definition attest (last_mint_height : Z) (debt : Z) (owner : bytes) (lh : Z) (tick : Tick)
    : option unit :=
  let '(height, (backing_k, quotes)) := tick in
  assert! current_index E =? 4;
  in_hash ← input_script_hash E 0;
  assert! eq_256 (vault_spk_hash_for debt owner lh) in_hash;
  '(_, hi) ← verify_quorum E (ORACLE_PK P) (u32_val height) (u32_val backing_k) quotes;
  assert! last_mint_height <=? u32_val height;
  assert! debt <? 4294967296;
  let debt_cents := rightmost_64_32 debt in
  let debt_sats := cov_coll_at_cr debt_cents hi 200000000 in
  coll_asset ← explicit_input_asset E 0;
  assert! eq_256 (POLICY P) coll_asset;
  coll ← explicit_input_amount E 0;
  assert! coll <? debt_sats;
  let '(uf_s, shortfall) := subtract_64 debt_sats coll in
  assert! negb uf_s;
  stab_in_hash ← input_script_hash E 3;
  assert! eq_256 (STABILITY_SPK P) stab_in_hash;
  stab_in_asset ← explicit_input_asset E 3;
  assert! eq_256 (POLICY P) stab_in_asset;
  stab_in ← explicit_input_amount E 3;
  let bounty := cov_coll_at_cr debt_cents hi 10000000 in
  let '(of_z, full_pay) := add_64 shortfall bounty in
  assert! negb of_z;
  let cap := cov_coll_at_cr debt_cents hi 40000000 in
  let capped := min_64 full_pay cap in
  let reserve_pay := min_64 capped stab_in in
  let '(of_s, seizure) := add_64 coll reserve_pay in
  assert! negb of_s;
  keeper_asset ← explicit_output_asset E 0;
  assert! eq_256 (POLICY P) keeper_asset;
  keeper_out ← explicit_output_amount E 0;
  assert! keeper_out =? seizure;
  pot_in_hash ← input_script_hash E 1;
  assert! eq_256 (POT_SPK P) pot_in_hash;
  pot_in_asset ← explicit_input_asset E 1;
  assert! eq_256 (OBOL_ID P) pot_in_asset;
  pot_out_hash ← output_script_hash E 1;
  assert! eq_256 (POT_SPK P) pot_out_hash;
  pot_out_asset ← explicit_output_asset E 1;
  assert! eq_256 (OBOL_ID P) pot_out_asset;
  pot_in ← explicit_input_amount E 1;
  pot_out ← explicit_output_amount E 1;
  let '(uf_pb, expect_pot) := add_64 pot_in debt in
  assert! negb uf_pb;
  assert! pot_out =? expect_pot;
  stab_out_hash ← output_script_hash E 2;
  assert! eq_256 (STABILITY_SPK P) stab_out_hash;
  stab_out_asset ← explicit_output_asset E 2;
  assert! eq_256 (POLICY P) stab_out_asset;
  let '(uf_o, stab_out) := subtract_64 stab_in reserve_pay in
  assert! negb uf_o;
  stab_out' ← explicit_output_amount E 2;
  assert! stab_out' =? stab_out;
  recurse_token (u32_val height) 3.

Definition dispatch (last_mint_height : Z) (op : IssuerOpSum) : option unit :=
  match op with
  | Left (principal, (owner, tick)) =>
      open last_mint_height (u64_val principal) (u256_bytes owner) tick
  | Right (Left (old_debt, (owner, (old_last_height, (new_debt, draw_height))))) =>
      draw last_mint_height (u64_val old_debt) (u256_bytes owner) (u32_val old_last_height)
        (u64_val new_debt) (u32_val draw_height)
  | Right (Right (Left tick)) => poke last_mint_height tick
  | Right (Right (Right (debt, (owner, (lh, tick))))) =>
      attest last_mint_height (u64_val debt) (u256_bytes owner) (u32_val lh) tick
  end.

Definition body (last_mint_height : Z) (op : IssuerOpSum) : option unit :=
  own_hash ← current_script_hash E;
  assert! eq_256 (own_spk_hash_for last_mint_height) own_hash;
  dispatch last_mint_height op.

Definition main (wv : WitnessValues) : option unit :=
  last_mint_height ← wv !! "LAST_MINT_HEIGHT" ≫= read (A := U32);
  op ← wv !! "OP" ≫= read (A := IssuerOpSum);
  body (u32_val last_mint_height) op.

End Issuer.
End IssuerCov.
