(* ===== verification/Plan.v ===== *)
(** * Plans, finalization and owner signing

    [styx-pset/src/error.rs], [plan.rs], [intent.rs], [finalize.rs] and [sign.rs]: the
    builder output, what a caller asks for, how each covenant slot is witnessed, and how
    an owner signature is produced over the sighash of the fixed transaction.

    [satisfy_with_env] gives the verdict of the covenant program, which is the embedding
    of its source; the encodings of the pruned program and of a control block are
    functions of the class [Redeemer]. *)

From Stdlib Require Import ZArith Lia.
From stdpp Require Import base gmap strings option list.
From S2P Require Import Prelude Units CrMath Elements Oracle Simf Encode Domain Artifacts Jets.
From S2P Require Import CovVault CovReserve CovIssuer.

(** ** Errors ([error.rs]) *)

Inductive BuildError : Type :=
| StaleTick (tick anchor : BlockHeight.t)
| RatchetNotAdvanced (tick last_height : BlockHeight.t)
| ZeroPrice
| ZeroAmount
| Undercollateralized (need have : Sats.t)
| InsufficientPot (need have : Obol.t)
| InsufficientFunding (need have : Sats.t)
| FundingMismatch (need have : Sats.t)
| NotPartial (dd debt : Obol.t)
| VaultTooHealthy (gate have : Sats.t)
| HealOutOfBand (residual lo hi : Sats.t)
| ExtractionExceedsCap (extraction cap : Sats.t)
| CrOutOfBand (coll floor cap : Sats.t)
| NotUnderwater (debt_sats coll : Sats.t)
| InsufficientPayer (need have : Obol.t)
| AmountExceedsDebt (amount debt : Obol.t)
| BMath (e : MathError).

(** [PruneRejected] without its message; [Panicked] stands for the panics of the code (an
    input index out of range, a control block of a leaf outside its tree). *)
Inductive FinalizeError : Type :=
| PruneRejected (input : Z) (covenant : string)
| Panicked.

(** ** Plans ([plan.rs]) *)

Inductive SlotKind : Type :=
| KPotInflow
| KPotOutflow
| KStability (op : StabilityOp)
| KIssuer (state : IssuerState) (op : IssuerOp)
| KVault (state : VaultState) (op : VaultOp).

Record WitnessSlot : Type := mkSlot { ws_input : Z; ws_kind : SlotKind }.

Record TxPlan : Type := mkPlan {
  p_tx : Transaction;
  p_utxos : list ElementsUtxo;
  p_slots : list WitnessSlot
}.

Definition plan_txid `{Lib} (p : TxPlan) : Txid := txid_of (p_tx p).

Record Built (D : Type) : Type := mkBuilt { plan : TxPlan; expected : D }.
Arguments mkBuilt {D} _ _.
Arguments plan {D} _.
Arguments expected {D} _.

(** ** Intents ([intent.rs]) *)

Record FundingCoin : Type := mkFunding {
  fc_outpoint : OutPoint; fc_value : Sats.t; fc_spk : Script
}.

Record ObolCoin : Type := mkObolCoin {
  ob_outpoint : OutPoint; ob_value : Obol.t; ob_spk : Script
}.

Record PokeIntent : Type := mkPokeIntent {
  pk_tick : OracleTick.t; pk_funding : FundingCoin; pk_change_spk : Script; pk_fee : Sats.t
}.

Record OpenIntent : Type := mkOpenIntent {
  op_owner : XOnlyPublicKey; op_principal : Obol.t; op_collateral : Sats.t;
  op_borrower_spk : Script; op_funding : FundingCoin; op_tick : OracleTick.t; op_fee : Sats.t
}.

Record CloseIntent : Type := mkCloseIntent {
  cl_payer : ObolCoin; cl_recipient_spk : Script; cl_payer_change_spk : Script; cl_fee : Sats.t
}.

Record RepayIntent : Type := mkRepayIntent {
  rp_amount : Obol.t; rp_payer : ObolCoin; rp_payer_change_spk : Script;
  rp_fee_coin : FundingCoin; rp_change_spk : Script; rp_fee : Sats.t
}.

Record DrawIntent : Type := mkDrawIntent {
  dr_amount : Obol.t; dr_borrower_spk : Script; dr_tick : OracleTick.t; dr_fee : Sats.t
}.

Record RefreshIntent : Type := mkRefreshIntent {
  rf_tick : OracleTick.t; rf_fee_coin : FundingCoin; rf_change_spk : Script; rf_fee : Sats.t
}.

Record LiquidateIntent : Type := mkLiquidateIntent {
  lq_dd : Obol.t; lq_residual : Sats.t; lq_keeper : ObolCoin; lq_keeper_spk : Script;
  lq_obol_change_spk : Script; lq_tick : OracleTick.t; lq_fee : Sats.t
}.

Record FullLiqIntent : Type := mkFullLiqIntent {
  fl_keeper : ObolCoin; fl_keeper_spk : Script; fl_obol_change_spk : Script;
  fl_tick : OracleTick.t; fl_fee : Sats.t
}.

Record BadDebtIntent : Type := mkBadDebtIntent {
  bd_keeper : ObolCoin; bd_keeper_spk : Script; bd_obol_change_spk : Script;
  bd_fee_coin : FundingCoin; bd_change_spk : Script; bd_tick : OracleTick.t; bd_fee : Sats.t
}.

Record RedeemIntent : Type := mkRedeemIntent {
  rd_x : Obol.t; rd_redeemer : ObolCoin; rd_redeemer_spk : Script; rd_obol_change_spk : Script;
  rd_tick : OracleTick.t; rd_fee : Sats.t
}.

(** ** Running a compiled covenant *)

Section Run.
Context `{Lib, SigHash}.

(** The verdict of a program: its embedding under its arguments. *)
Definition run_program (p : CompiledProgram) (E : Env) (wv : WitnessValues) : option unit :=
  match prog_cov p with
  | ReserveRepay =>
      obol ← param_u256 (prog_args p) "OBOL_ID"; RepayCov.main obol E
  | PotOutflow =>
      obol ← param_u256 (prog_args p) "OBOL_ID";
      token ← param_u256 (prog_args p) "ISSUER_TOKEN_ID";
      OutflowCov.main obol token E
  | Stability => P ← StabilityCov.params (prog_args p); StabilityCov.main P E wv
  | Vault => P ← VaultCov.params (prog_args p); VaultCov.main P E wv
  | Issuer => P ← IssuerCov.params (prog_args p); IssuerCov.main P E wv
  end.

Definition witness_values (pairs : list (string * Value)) : WitnessValues :=
  foldl (fun m p => <[p.1 := p.2]> m) ∅ pairs.

Definition issuer_witness (s : IssuerState) (op : IssuerOp) : WitnessValues :=
  witness_values
    [("LAST_MINT_HEIGHT"%string, value (u32_of (last_mint_height s)));
     ("OP"%string, issuer_op_value op)].

Definition vault_witness (s : VaultState) (op : VaultOp) : WitnessValues :=
  witness_values
    [("DEBT"%string, value (u64_of (debt s)));
     ("OWNER"%string, value (xonly_u256 (owner s)));
     ("LAST_HEIGHT"%string, value (u32_of (last_height s)));
     ("OP"%string, vault_op_value op)].

(** The program, control block and witness values of a slot. *)
Definition slot_program (a : Artifacts) (k : SlotKind)
    : CompiledProgram * option ControlBlock * WitnessValues :=
  match k with
  | KPotInflow => (a_reserve_repay a, pot_control_block a Inflow, ∅)
  | KPotOutflow => (a_pot_outflow a, pot_control_block a Outflow, ∅)
  | KStability op =>
      (a_stability a, stability_control_block a,
       witness_values [("OP"%string, stability_op_value op)])
  | KIssuer s op => (a_issuer a, issuer_control_block a s, issuer_witness s op)
  | KVault s op => (a_vault a, vault_control_block a s, vault_witness s op)
  end.

Definition slot_env (ctx : Ctx) (tx : Transaction) (utxos : list ElementsUtxo)
    (input : Z) (prog : CompiledProgram) (cb : ControlBlock) : Env :=
  mkEnv tx utxos input (prog_cmr prog) cb (ctx_genesis ctx).

(** The covenant of a slot accepts this transaction: what consensus checks of the input. *)
Definition slot_accepts (ctx : Ctx) (tx : Transaction) (utxos : list ElementsUtxo)
    (slot : WitnessSlot) : bool :=
  let '(prog, cb, wv) := slot_program (ctx_artifacts ctx) (ws_kind slot) in
  match cb with
  | Some cb =>
      bool_decide (run_program prog (slot_env ctx tx utxos (ws_input slot) prog cb) wv = Some tt)
  | None => false
  end.

End Run.

(** ** Finalization ([finalize.rs]) *)

(** The redeemer of the compiler library: [satisfy] fails when the values do not fit the
    program's declared witnesses. *)
Class Redeemer : Type := {
  (** [satisfy]: program and witness bytes, unpruned *)
  satisfy : CompiledProgram -> WitnessValues -> option (bytes * bytes);
  (** the bytes of [satisfy_with_env] when the program accepts in the env *)
  pruned_bytes : CompiledProgram -> WitnessValues -> Env -> bytes * bytes;
  cb_serialize : ControlBlock -> bytes
}.

(** Values under which a program runs to acceptance fit its witnesses. *)
Class RedeemerSpec `{Lib, SigHash} (R : Redeemer) : Prop :=
  satisfy_run (p : CompiledProgram) (wv : WitnessValues) (E : Env) :
    run_program p E wv = Some tt -> is_Some (satisfy p wv).

Section Finalize.
Context `{Lib, SigHash, Redeemer}.

Definition stack (prog : CompiledProgram) (program_bytes witness_bytes : bytes)
    (cb : ControlBlock) : list bytes :=
  [witness_bytes; program_bytes; cmr_script prog; cb_serialize cb].

(** The pot leaves have no witness values: satisfied without an env. *)
Definition leaf_witness (prog : CompiledProgram) (cb : ControlBlock) (input : Z)
    (covenant : string) : result FinalizeError (list bytes) :=
  '(program_bytes, witness_bytes) ← ok_or (PruneRejected input covenant) (satisfy prog ∅);
  Ok (stack prog program_bytes witness_bytes cb).

Definition pruned_witness (ctx : Ctx) (prog : CompiledProgram) (cb : ControlBlock)
    (tx : Transaction) (utxos : list ElementsUtxo) (input : Z) (wv : WitnessValues)
    (covenant : string) : result FinalizeError (list bytes) :=
  let env := slot_env ctx tx utxos input prog cb in
  match run_program prog env wv with
  | None => Err (PruneRejected input covenant)
  | Some _ =>
      let '(program_bytes, witness_bytes) := pruned_bytes prog wv env in
      Ok (stack prog program_bytes witness_bytes cb)
  end.

Definition slot_witness (ctx : Ctx) (tx : Transaction) (utxos : list ElementsUtxo)
    (slot : WitnessSlot) : result FinalizeError (list bytes) :=
  let '(prog, cb, wv) := slot_program (ctx_artifacts ctx) (ws_kind slot) in
  cb ← ok_or Panicked cb;
  match ws_kind slot with
  | KPotInflow => leaf_witness prog cb (ws_input slot) "reserve_repay"
  | KPotOutflow => leaf_witness prog cb (ws_input slot) "pot_outflow"
  | KStability _ => pruned_witness ctx prog cb tx utxos (ws_input slot) wv "stability"
  | KIssuer _ _ => pruned_witness ctx prog cb tx utxos (ws_input slot) wv "issuer"
  | KVault _ _ => pruned_witness ctx prog cb tx utxos (ws_input slot) wv "vault"
  end.

(** [tx.input[i].witness.script_witness = w] *)
Definition set_witness (tx : Transaction) (i : Z) (w : list bytes)
    : result FinalizeError Transaction :=
  match input tx !! Z.to_nat i with
  | Some inp =>
      Ok (mkTx (version tx) (lock_time tx)
            (<[Z.to_nat i := mkTxIn (previous_output inp) (is_pegin inp) (script_sig inp)
                 (sequence inp) (issuance_null inp) w]> (input tx)) (output tx))
  | None => Err Panicked
  end.

Fixpoint finalize_slots (ctx : Ctx) (utxos : list ElementsUtxo) (tx : Transaction)
    (slots : list WitnessSlot) : result FinalizeError Transaction :=
  match slots with
  | [] => Ok tx
  | slot :: slots =>
      witness ← slot_witness ctx tx utxos slot;
      tx ← set_witness tx (ws_input slot) witness;
      finalize_slots ctx utxos tx slots
  end.

Definition finalize (ctx : Ctx) (plan : TxPlan) : result FinalizeError Transaction :=
  finalize_slots ctx (p_utxos plan) (p_tx plan) (p_slots plan).

(** The loop of [tx_before_slot]: it breaks at the slot of the given input. *)
Fixpoint before_slots (ctx : Ctx) (utxos : list ElementsUtxo) (tx : Transaction)
    (slots : list WitnessSlot) (stop : Z) : result FinalizeError Transaction :=
  match slots with
  | [] => Ok tx
  | slot :: slots =>
      if ws_input slot =? stop then Ok tx
      else
        witness ← slot_witness ctx tx utxos slot;
        tx ← set_witness tx (ws_input slot) witness;
        before_slots ctx utxos tx slots stop
  end.

Definition tx_before_slot (ctx : Ctx) (plan : TxPlan) (stop : Z)
    : result FinalizeError Transaction :=
  before_slots ctx (p_utxos plan) (p_tx plan) (p_slots plan) stop.

Fixpoint find_vault_slot (slots : list WitnessSlot) : option (Z * VaultState) :=
  match slots with
  | [] => None
  | slot :: slots =>
      match ws_kind slot with
      | KVault state _ => Some (ws_input slot, state)
      | _ => find_vault_slot slots
      end
  end.

Definition vault_sighash (ctx : Ctx) (plan : TxPlan) : result FinalizeError bytes :=
  '(input, state) ← ok_or (PruneRejected 0 "vault") (find_vault_slot (p_slots plan));
  tx ← tx_before_slot ctx plan input;
  cb ← ok_or Panicked (vault_control_block (ctx_artifacts ctx) state);
  Ok (sighash_all (slot_env ctx tx (p_utxos plan) input (a_vault (ctx_artifacts ctx)) cb)).

(** ** Owner signing ([sign.rs]) *)

Definition install_slot (sig : Sig) (slot : WitnessSlot) : WitnessSlot :=
  match ws_kind slot with
  | KVault state op => mkSlot (ws_input slot) (KVault state (with_owner_sig op sig))
  | _ => slot
  end.

Definition install_owner_sig (plan : TxPlan) (sig : Sig) : TxPlan :=
  mkPlan (p_tx plan) (p_utxos plan) (install_slot sig <$> p_slots plan).

Definition owner_sign (ctx : Ctx) (plan : TxPlan) (kp : bytes) : result FinalizeError TxPlan :=
  digest ← vault_sighash ctx plan;
  Ok (install_owner_sig plan (mkSig (sign_schnorr kp digest))).

End Finalize.

(** Keep programs and witnesses folded in goals. *)
#[global] Arguments slot_accepts : simpl never.
#[global] Arguments run_program : simpl never.
#[global] Arguments slot_program : simpl never.
#[global] Arguments vault_witness : simpl never.
#[global] Arguments issuer_witness : simpl never.
