(* ===== verification/BuildOwner.v ===== *)
(** * Builders: open, draw, repay, close, refresh, poke

    [styx-pset/src/build/mod.rs] and the six modules whose operations an owner or a
    poking keeper runs.  Each has the checked entry point and the unchecked layout, as in
    the source; [expected] is the successor state the caller tracks. *)

From Stdlib Require Import ZArith Lia.
From stdpp Require Import base gmap strings option list.
From S2P Require Import Prelude Units CrMath Elements Oracle Simf Encode Domain Artifacts Jets.
From S2P Require Import CovVault CovReserve CovIssuer Plan.

Definition lift_math {A} (r : result MathError A) : result BuildError A := map_err BMath r.

(** ** Shared preflights ([build/mod.rs]) *)

Definition check_zero_price (tick : OracleTick.t) : result BuildError unit :=
  let '(lo, _) := OracleTick.price_range tick in
  if Price.raw lo =? 0 then Err ZeroPrice else Ok tt.

Definition check_tick (tick : OracleTick.t) (anchor : BlockHeight.t) : result BuildError unit :=
  _ ← check_zero_price tick;
  if BlockHeight.raw (OracleTick.height tick) <? BlockHeight.raw anchor
  then Err (StaleTick (OracleTick.height tick) anchor) else Ok tt.

Definition check_vault_ratchet (tick : OracleTick.t) (last_height : BlockHeight.t)
    : result BuildError unit :=
  if BlockHeight.raw (OracleTick.height tick) <=? BlockHeight.raw last_height
  then Err (RatchetNotAdvanced (OracleTick.height tick) last_height) else Ok tt.

(** [Sig([0u8; 64])]: the placeholder of owner operations. *)
Definition zero_sig : Sig := mkSig (replicate 64 Byte.x00).

Section Builders.
Context `{Lib}.

(** ** OPEN *)

Record OpenDelta : Type := mkOpenDelta {
  od_vault : OnChain VaultState;
  od_pot : OnChain PotState;
  od_reserve : OnChain ReserveState;
  od_issuer : OnChain IssuerState
}.

Definition open_unchecked (ctx : Ctx) (protocol : ProtocolState) (intent : OpenIntent)
    (borrow_fee : Sats.t) : Built OpenDelta :=
  let a := ctx_artifacts ctx in
  let p := ctx_params ctx in
  let vault := mkVault (op_principal intent) (op_owner intent) (OracleTick.height (op_tick intent)) in
  let issuer_successor := mkIssuer (OracleTick.height (op_tick intent)) in
  let pot_out := u64_sat_sub (Obol.raw (oc_value (pot protocol))) (Obol.raw (op_principal intent)) in
  let reserve_out := u64_sat_add (Sats.raw (oc_value (reserve protocol))) (Sats.raw borrow_fee) in
  let tx := mkTx 2 (BlockHeight.raw (OracleTick.height (op_tick intent)))
    [txin (outpoint (pot protocol));
     txin (outpoint (issuer protocol));
     txin (fc_outpoint (op_funding intent));
     txin (outpoint (reserve protocol))]
    [txout (Sats.raw (op_collateral intent)) (vault_spk a vault) (policy p);
     txout pot_out (pot_spk a) (obol p);
     txout (Obol.raw (op_principal intent)) (op_borrower_spk intent) (obol p);
     txout reserve_out (stability_spk a) (policy p);
     txout 1 (issuer_spk a issuer_successor) (issuer_token p);
     fee_out (op_fee intent) (policy p)] in
  let in_utxos :=
    [claimed (Obol.raw (oc_value (pot protocol))) (pot_spk a) (obol p);
     claimed 1 (issuer_spk a (state (issuer protocol))) (issuer_token p);
     claimed (Sats.raw (fc_value (op_funding intent))) (fc_spk (op_funding intent)) (policy p);
     claimed (Sats.raw (oc_value (reserve protocol))) (stability_spk a) (policy p)] in
  let slots :=
    [mkSlot 0 KPotOutflow;
     mkSlot 3 (KStability Accumulate);
     mkSlot 1 (KIssuer (state (issuer protocol))
       (IOpen (op_principal intent) (xonly_u256 (op_owner intent)) (op_tick intent)))] in
  let plan := mkPlan tx in_utxos slots in
  let txid := plan_txid plan in
  mkBuilt plan
    (mkOpenDelta
       (mkOn vault (mkOutPoint txid 0) (op_collateral intent))
       (mkOn thePot (mkOutPoint txid 1) (Obol.new pot_out))
       (mkOn theReserve (mkOutPoint txid 3) (Sats.new reserve_out))
       (mkOn issuer_successor (mkOutPoint txid 4) 1)).

Definition open (ctx : Ctx) (protocol : ProtocolState) (intent : OpenIntent)
    : result BuildError (Built OpenDelta) :=
  _ ← check_tick (op_tick intent) (last_mint_height (state (issuer protocol)));
  if bool_decide (op_principal intent = Obol.ZERO) then Err ZeroAmount else
  let '(lo, _) := OracleTick.price_range (op_tick intent) in
  debt_cents ← lift_math (Obol.covenant_cents (op_principal intent));
  let need_coll := coll_at_cr debt_cents lo K_OPEN_MIN in
  if Sats.raw (op_collateral intent) <? Sats.raw need_coll
  then Err (Undercollateralized need_coll (op_collateral intent)) else
  if Obol.raw (oc_value (pot protocol)) <? Obol.raw (op_principal intent)
  then Err (InsufficientPot (op_principal intent) (oc_value (pot protocol))) else
  let borrow_fee := coll_at_cr debt_cents lo K_FEE_HALF_PERCENT in
  s ← lift_math (Sats.checked_add (op_collateral intent) borrow_fee);
  need_funding ← lift_math (Sats.checked_add s (op_fee intent));
  if negb (bool_decide (fc_value (op_funding intent) = need_funding))
  then Err (FundingMismatch need_funding (fc_value (op_funding intent))) else
  Ok (open_unchecked ctx protocol intent borrow_fee).

(** ** DRAW *)

Record DrawDelta : Type := mkDrawDelta {
  dd_vault : OnChain VaultState;
  dd_pot : OnChain PotState;
  dd_issuer : OnChain IssuerState
}.

Definition draw_unchecked (ctx : Ctx) (protocol : ProtocolState) (vault : OnChain VaultState)
    (intent : DrawIntent) : Built DrawDelta :=
  let a := ctx_artifacts ctx in
  let p := ctx_params ctx in
  let d := Obol.raw (dr_amount intent) in
  let h := OracleTick.height (dr_tick intent) in
  let successor := mkVault (Obol.new (u64_sat_add (Obol.raw (debt (state vault))) d))
    (owner (state vault)) h in
  let issuer_succ := mkIssuer h in
  let tx := mkTx 2 (BlockHeight.raw h)
    [txin (outpoint vault); txin (outpoint (pot protocol)); txin (outpoint (issuer protocol))]
    [txout (u64_sat_sub (Sats.raw (oc_value vault)) (Sats.raw (dr_fee intent)))
       (vault_spk a successor) (policy p);
     txout (u64_sat_sub (Obol.raw (oc_value (pot protocol))) d) (pot_spk a) (obol p);
     txout d (dr_borrower_spk intent) (obol p);
     txout 1 (issuer_spk a issuer_succ) (issuer_token p);
     fee_out (dr_fee intent) (policy p)] in
  let in_utxos :=
    [claimed (Sats.raw (oc_value vault)) (vault_spk a (state vault)) (policy p);
     claimed (Obol.raw (oc_value (pot protocol))) (pot_spk a) (obol p);
     claimed 1 (issuer_spk a (state (issuer protocol))) (issuer_token p)] in
  let slots :=
    [mkSlot 1 KPotOutflow;
     mkSlot 2 (KIssuer (state (issuer protocol))
       (IDraw (debt (state vault)) (xonly_u256 (owner (state vault))) (last_height (state vault))
          (debt successor) h));
     mkSlot 0 (KVault (state vault) (VDraw zero_sig (dr_amount intent) (dr_tick intent)))] in
  let plan := mkPlan tx in_utxos slots in
  let txid := plan_txid plan in
  mkBuilt plan
    (mkDrawDelta
       (mkOn successor (mkOutPoint txid 0)
          (Sats.new (u64_sat_sub (Sats.raw (oc_value vault)) (Sats.raw (dr_fee intent)))))
       (mkOn thePot (mkOutPoint txid 1)
          (Obol.new (u64_sat_sub (Obol.raw (oc_value (pot protocol))) d)))
       (mkOn issuer_succ (mkOutPoint txid 3) 1)).

Definition draw (ctx : Ctx) (protocol : ProtocolState) (vault : OnChain VaultState)
    (intent : DrawIntent) : result BuildError (Built DrawDelta) :=
  _ ← check_tick (dr_tick intent) (last_mint_height (state (issuer protocol)));
  _ ← check_vault_ratchet (dr_tick intent) (last_height (state vault));
  if bool_decide (dr_amount intent = Obol.ZERO) then Err ZeroAmount else
  if Sats.raw (oc_value vault) <=? Sats.raw (dr_fee intent)
  then Err (InsufficientFunding (dr_fee intent) (oc_value vault)) else
  if Obol.raw (oc_value (pot protocol)) <? Obol.raw (dr_amount intent)
  then Err (InsufficientPot (dr_amount intent) (oc_value (pot protocol))) else
  new_debt ← lift_math (Obol.checked_add (debt (state vault)) (dr_amount intent));
  let '(lo, _) := OracleTick.price_range (dr_tick intent) in
  cents ← lift_math (Obol.covenant_cents new_debt);
  let need := coll_at_cr cents lo K_OPEN_MIN in
  let post := Sats.new (u64_sat_sub (Sats.raw (oc_value vault)) (Sats.raw (dr_fee intent))) in
  if Sats.raw post <? Sats.raw need then Err (Undercollateralized need post) else
  Ok (draw_unchecked ctx protocol vault intent).

(** ** REPAY *)

Record RepayDelta : Type := mkRepayDelta {
  rpd_vault : OnChain VaultState;
  rpd_pot : OnChain PotState
}.

Definition repay_unchecked (ctx : Ctx) (pot : OnChain PotState) (vault : OnChain VaultState)
    (intent : RepayIntent) : Built RepayDelta :=
  let a := ctx_artifacts ctx in
  let p := ctx_params ctx in
  let r := Obol.raw (rp_amount intent) in
  let successor := mkVault (Obol.new (u64_sat_sub (Obol.raw (debt (state vault))) r))
    (owner (state vault)) (last_height (state vault)) in
  let output :=
    [txout (Sats.raw (oc_value vault)) (vault_spk a successor) (policy p);
     txout (u64_sat_add (Obol.raw (oc_value pot)) r) (pot_spk a) (obol p)] ++
    (if r <? Obol.raw (ob_value (rp_payer intent))
     then [txout (Obol.raw (ob_value (rp_payer intent)) - r) (rp_payer_change_spk intent) (obol p)]
     else []) ++
    [txout (u64_sat_sub (Sats.raw (fc_value (rp_fee_coin intent))) (Sats.raw (rp_fee intent)))
       (rp_change_spk intent) (policy p);
     fee_out (rp_fee intent) (policy p)] in
  let tx := mkTx 2 LOCKTIME_ZERO
    [txin (outpoint vault); txin (outpoint pot); txin (ob_outpoint (rp_payer intent));
     txin (fc_outpoint (rp_fee_coin intent))] output in
  let in_utxos :=
    [claimed (Sats.raw (oc_value vault)) (vault_spk a (state vault)) (policy p);
     claimed (Obol.raw (oc_value pot)) (pot_spk a) (obol p);
     claimed (Obol.raw (ob_value (rp_payer intent))) (ob_spk (rp_payer intent)) (obol p);
     claimed (Sats.raw (fc_value (rp_fee_coin intent))) (fc_spk (rp_fee_coin intent)) (policy p)] in
  let slots :=
    [mkSlot 1 KPotInflow;
     mkSlot 0 (KVault (state vault) (VRepay zero_sig (rp_amount intent)))] in
  let plan := mkPlan tx in_utxos slots in
  let txid := plan_txid plan in
  mkBuilt plan
    (mkRepayDelta
       (mkOn successor (mkOutPoint txid 0) (oc_value vault))
       (mkOn thePot (mkOutPoint txid 1) (Obol.new (u64_wadd (Obol.raw (oc_value pot)) r)))).

Definition repay (ctx : Ctx) (pot : OnChain PotState) (vault : OnChain VaultState)
    (intent : RepayIntent) : result BuildError (Built RepayDelta) :=
  if Obol.raw (debt (state vault)) <? Obol.raw (rp_amount intent)
  then Err (AmountExceedsDebt (rp_amount intent) (debt (state vault))) else
  if Obol.raw (ob_value (rp_payer intent)) <? Obol.raw (rp_amount intent)
  then Err (InsufficientPayer (rp_amount intent) (ob_value (rp_payer intent))) else
  if Sats.raw (fc_value (rp_fee_coin intent)) <=? Sats.raw (rp_fee intent)
  then Err (InsufficientFunding (rp_fee intent) (fc_value (rp_fee_coin intent))) else
  Ok (repay_unchecked ctx pot vault intent).

(** ** CLOSE *)

Record CloseDelta : Type := mkCloseDelta {
  cd_pot : OnChain PotState;
  cd_freed : OutPoint
}.

Definition close_unchecked (ctx : Ctx) (pot : OnChain PotState) (vault : OnChain VaultState)
    (intent : CloseIntent) : Built CloseDelta :=
  let a := ctx_artifacts ctx in
  let p := ctx_params ctx in
  let debt := Obol.raw (debt (state vault)) in
  let output :=
    [txout (u64_sat_sub (Sats.raw (oc_value vault)) (Sats.raw (cl_fee intent)))
       (cl_recipient_spk intent) (policy p);
     txout (u64_sat_add (Obol.raw (oc_value pot)) debt) (pot_spk a) (obol p)] ++
    (if debt <? Obol.raw (ob_value (cl_payer intent))
     then [txout (Obol.raw (ob_value (cl_payer intent)) - debt) (cl_payer_change_spk intent)
             (obol p)]
     else []) ++
    [fee_out (cl_fee intent) (policy p)] in
  let tx := mkTx 2 LOCKTIME_ZERO
    [txin (outpoint vault); txin (outpoint pot); txin (ob_outpoint (cl_payer intent))] output in
  let in_utxos :=
    [claimed (Sats.raw (oc_value vault)) (vault_spk a (state vault)) (policy p);
     claimed (Obol.raw (oc_value pot)) (pot_spk a) (obol p);
     claimed (Obol.raw (ob_value (cl_payer intent))) (ob_spk (cl_payer intent)) (obol p)] in
  let slots :=
    [mkSlot 1 KPotInflow; mkSlot 0 (KVault (state vault) (VClose zero_sig))] in
  let plan := mkPlan tx in_utxos slots in
  let txid := plan_txid plan in
  mkBuilt plan
    (mkCloseDelta
       (mkOn thePot (mkOutPoint txid 1) (Obol.new (u64_wadd (Obol.raw (oc_value pot)) debt)))
       (mkOutPoint txid 0)).

Definition close (ctx : Ctx) (pot : OnChain PotState) (vault : OnChain VaultState)
    (intent : CloseIntent) : result BuildError (Built CloseDelta) :=
  if Obol.raw (ob_value (cl_payer intent)) <? Obol.raw (debt (state vault))
  then Err (InsufficientPayer (debt (state vault)) (ob_value (cl_payer intent))) else
  if Sats.raw (oc_value vault) <=? Sats.raw (cl_fee intent)
  then Err (InsufficientFunding (cl_fee intent) (oc_value vault)) else
  Ok (close_unchecked ctx pot vault intent).

(** ** REFRESH *)

Record RefreshDelta : Type := mkRefreshDelta { rfd_vault : OnChain VaultState }.

Definition refresh_unchecked (ctx : Ctx) (vault : OnChain VaultState) (intent : RefreshIntent)
    : Built RefreshDelta :=
  let a := ctx_artifacts ctx in
  let p := ctx_params ctx in
  let successor := mkVault (debt (state vault)) (owner (state vault))
    (OracleTick.height (rf_tick intent)) in
  let tx := mkTx 2 (BlockHeight.raw (OracleTick.height (rf_tick intent)))
    [txin (outpoint vault); txin (fc_outpoint (rf_fee_coin intent))]
    [txout (Sats.raw (oc_value vault)) (vault_spk a successor) (policy p);
     txout (u64_sat_sub (Sats.raw (fc_value (rf_fee_coin intent))) (Sats.raw (rf_fee intent)))
       (rf_change_spk intent) (policy p);
     fee_out (rf_fee intent) (policy p)] in
  let in_utxos :=
    [claimed (Sats.raw (oc_value vault)) (vault_spk a (state vault)) (policy p);
     claimed (Sats.raw (fc_value (rf_fee_coin intent))) (fc_spk (rf_fee_coin intent)) (policy p)] in
  let slots := [mkSlot 0 (KVault (state vault) (VRefresh (rf_tick intent)))] in
  let plan := mkPlan tx in_utxos slots in
  mkBuilt plan (mkRefreshDelta (mkOn successor (mkOutPoint (plan_txid plan) 0) (oc_value vault))).

Definition refresh (ctx : Ctx) (vault : OnChain VaultState) (intent : RefreshIntent)
    : result BuildError (Built RefreshDelta) :=
  _ ← check_zero_price (rf_tick intent);
  _ ← check_vault_ratchet (rf_tick intent) (last_height (state vault));
  let '(_, hi) := OracleTick.price_range (rf_tick intent) in
  cents ← lift_math (Obol.covenant_cents (debt (state vault)));
  let need := coll_at_cr cents hi K_HEALTH_GATE in
  if Sats.raw (oc_value vault) <? Sats.raw need
  then Err (Undercollateralized need (oc_value vault)) else
  if Sats.raw (fc_value (rf_fee_coin intent)) <=? Sats.raw (rf_fee intent)
  then Err (InsufficientFunding (rf_fee intent) (fc_value (rf_fee_coin intent))) else
  Ok (refresh_unchecked ctx vault intent).

(** ** POKE *)

Record PokeDelta : Type := mkPokeDelta { pkd_issuer : OnChain IssuerState }.

Definition poke_unchecked (ctx : Ctx) (issuer : OnChain IssuerState) (intent : PokeIntent)
    : Built PokeDelta :=
  let a := ctx_artifacts ctx in
  let p := ctx_params ctx in
  let successor := mkIssuer (OracleTick.height (pk_tick intent)) in
  let change := Sats.new (u64_sat_sub (Sats.raw (fc_value (pk_funding intent)))
    (Sats.raw (pk_fee intent))) in
  let tx := mkTx 2 (BlockHeight.raw (OracleTick.height (pk_tick intent)))
    [txin (outpoint issuer); txin (fc_outpoint (pk_funding intent))]
    [txout 1 (issuer_spk a successor) (issuer_token p);
     txout (Sats.raw change) (pk_change_spk intent) (policy p);
     fee_out (pk_fee intent) (policy p)] in
  let in_utxos :=
    [claimed 1 (issuer_spk a (state issuer)) (issuer_token p);
     claimed (Sats.raw (fc_value (pk_funding intent))) (fc_spk (pk_funding intent)) (policy p)] in
  let slots := [mkSlot 0 (KIssuer (state issuer) (IPoke (pk_tick intent)))] in
  let plan := mkPlan tx in_utxos slots in
  mkBuilt plan (mkPokeDelta (mkOn successor (mkOutPoint (plan_txid plan) 0) 1)).

Definition poke (ctx : Ctx) (issuer : OnChain IssuerState) (intent : PokeIntent)
    : result BuildError (Built PokeDelta) :=
  _ ← check_tick (pk_tick intent) (last_mint_height (state issuer));
  if Sats.raw (fc_value (pk_funding intent)) <=? Sats.raw (pk_fee intent)
  then Err (InsufficientFunding (pk_fee intent) (fc_value (pk_funding intent))) else
  Ok (poke_unchecked ctx issuer intent).

End Builders.
