(* ===== verification/BuildKeeper.v ===== *)
(** * Builders: liquidate, full liquidation, bad debt, redeem

    The four permissionless operations that touch the reserve:
    [styx-pset/src/build/liquidate.rs], [full_liq.rs], [bad_debt.rs] and [redeem.rs].
    [OracleTick.hi] is the second component of [price_range]. *)

From Stdlib Require Import ZArith Lia.
From stdpp Require Import base gmap strings option list.
From S2P Require Import Prelude Units CrMath Elements Oracle Simf Encode Domain Artifacts Jets.
From S2P Require Import CovVault CovReserve CovIssuer Plan BuildOwner.

Section KeeperBuilders.
Context `{Lib}.

(** ** LIQUIDATE *)

Record LiquidateDelta : Type := mkLiquidateDelta {
  ld_vault : OnChain VaultState;
  ld_pot : OnChain PotState;
  ld_reserve : OnChain ReserveState
}.

Definition liquidate_unchecked (ctx : Ctx) (protocol : ProtocolState)
    (vault : OnChain VaultState) (intent : LiquidateIntent) : Built LiquidateDelta :=
  let a := ctx_artifacts ctx in
  let p := ctx_params ctx in
  let hi := OracleTick.hi (lq_tick intent) in
  let dd := Obol.raw (lq_dd intent) in
  let share := Sats.raw (coll_at_cr (Obol.cents_or_max (lq_dd intent)) hi K_RESERVE_SHARE) in
  let keeper_coll :=
    u64_sat_sub
      (u64_sat_sub (u64_sat_sub (Sats.raw (oc_value vault)) (Sats.raw (lq_residual intent))) share)
      (Sats.raw (lq_fee intent)) in
  let successor := mkVault (Obol.new (u64_sat_sub (Obol.raw (debt (state vault))) dd))
    (owner (state vault)) (last_height (state vault)) in
  let pot_out := u64_sat_add (Obol.raw (oc_value (pot protocol))) dd in
  let reserve_out := u64_sat_add (Sats.raw (oc_value (reserve protocol))) share in
  let output :=
    [txout (Sats.raw (lq_residual intent)) (vault_spk a successor) (policy p);
     txout pot_out (pot_spk a) (obol p);
     txout keeper_coll (lq_keeper_spk intent) (policy p);
     txout reserve_out (stability_spk a) (policy p)] ++
    (if dd <? Obol.raw (ob_value (lq_keeper intent))
     then [txout (Obol.raw (ob_value (lq_keeper intent)) - dd) (lq_obol_change_spk intent) (obol p)]
     else []) ++
    [fee_out (lq_fee intent) (policy p)] in
  let tx := mkTx 2 (BlockHeight.raw (OracleTick.height (lq_tick intent)))
    [txin (outpoint vault); txin (outpoint (pot protocol)); txin (ob_outpoint (lq_keeper intent));
     txin (outpoint (reserve protocol))] output in
  let in_utxos :=
    [claimed (Sats.raw (oc_value vault)) (vault_spk a (state vault)) (policy p);
     claimed (Obol.raw (oc_value (pot protocol))) (pot_spk a) (obol p);
     claimed (Obol.raw (ob_value (lq_keeper intent))) (ob_spk (lq_keeper intent)) (obol p);
     claimed (Sats.raw (oc_value (reserve protocol))) (stability_spk a) (policy p)] in
  let slots :=
    [mkSlot 1 KPotInflow; mkSlot 3 (KStability Accumulate);
     mkSlot 0 (KVault (state vault) (VLiquidate (lq_dd intent) (lq_tick intent)))] in
  let plan := mkPlan tx in_utxos slots in
  let txid := plan_txid plan in
  mkBuilt plan
    (mkLiquidateDelta
       (mkOn successor (mkOutPoint txid 0) (lq_residual intent))
       (mkOn thePot (mkOutPoint txid 1) (Obol.new pot_out))
       (mkOn theReserve (mkOutPoint txid 3) (Sats.new reserve_out))).

Definition liquidate (ctx : Ctx) (protocol : ProtocolState) (vault : OnChain VaultState)
    (intent : LiquidateIntent) : result BuildError (Built LiquidateDelta) :=
  _ ← check_zero_price (lq_tick intent);
  _ ← check_vault_ratchet (lq_tick intent) (last_height (state vault));
  let '(_, hi) := OracleTick.price_range (lq_tick intent) in
  debt_cents ← lift_math (Obol.covenant_cents (debt (state vault)));
  let gate := coll_at_cr debt_cents hi K_HEALTH_GATE in
  if Sats.raw gate <=? Sats.raw (oc_value vault)
  then Err (VaultTooHealthy gate (oc_value vault)) else
  if bool_decide (lq_dd intent = Obol.ZERO) then Err ZeroAmount else
  if Obol.raw (debt (state vault)) <=? Obol.raw (lq_dd intent)
  then Err (NotPartial (lq_dd intent) (debt (state vault))) else
  residual_debt ← lift_math (Obol.checked_sub (debt (state vault)) (lq_dd intent));
  rd ← lift_math (Obol.covenant_cents residual_debt);
  let '(lo_band, hi_band) := (coll_at_cr rd hi K_HEAL_LO, coll_at_cr rd hi K_HEAL_HI) in
  if (Sats.raw (lq_residual intent) <? Sats.raw lo_band) ||
     (Sats.raw hi_band <? Sats.raw (lq_residual intent))
  then Err (HealOutOfBand (lq_residual intent) lo_band hi_band) else
  extraction ← lift_math (Sats.checked_sub (oc_value vault) (lq_residual intent));
  dd_cents ← lift_math (Obol.covenant_cents (lq_dd intent));
  let cap := coll_at_cr dd_cents hi K_FULL_LIQ_CAP in
  if Sats.raw cap <? Sats.raw extraction then Err (ExtractionExceedsCap extraction cap) else
  if Obol.raw (ob_value (lq_keeper intent)) <? Obol.raw (lq_dd intent)
  then Err (InsufficientPayer (lq_dd intent) (ob_value (lq_keeper intent))) else
  dd_cents' ← lift_math (Obol.covenant_cents (lq_dd intent));
  let share := coll_at_cr dd_cents' hi K_RESERVE_SHARE in
  need ← lift_math (Sats.checked_add share (lq_fee intent));
  if Sats.raw extraction <=? Sats.raw need then Err (InsufficientFunding need extraction) else
  Ok (liquidate_unchecked ctx protocol vault intent).

(** ** FULL-LIQ *)

Record FullLiqDelta : Type := mkFullLiqDelta {
  fd_pot : OnChain PotState;
  fd_reserve : OnChain ReserveState;
  fd_seized : OutPoint
}.

Definition full_liq_unchecked (ctx : Ctx) (protocol : ProtocolState)
    (vault : OnChain VaultState) (intent : FullLiqIntent) : Built FullLiqDelta :=
  let a := ctx_artifacts ctx in
  let p := ctx_params ctx in
  let hi := OracleTick.hi (fl_tick intent) in
  let debt' := Obol.raw (debt (state vault)) in
  let debt_sats := coll_at_cr (Obol.cents_or_max (debt (state vault))) hi K_PAR in
  let reserve_fee := u64_sat_sub (Sats.raw (oc_value vault)) (Sats.raw debt_sats) / 3 in
  let pot_out := u64_sat_add (Obol.raw (oc_value (pot protocol))) debt' in
  let reserve_out := u64_sat_add (Sats.raw (oc_value (reserve protocol))) reserve_fee in
  let tx := mkTx 2 (BlockHeight.raw (OracleTick.height (fl_tick intent)))
    [txin (outpoint vault); txin (outpoint (pot protocol)); txin (ob_outpoint (fl_keeper intent));
     txin (outpoint (reserve protocol))]
    [txout (u64_sat_sub (u64_sat_sub (Sats.raw (oc_value vault)) reserve_fee)
              (Sats.raw (fl_fee intent))) (fl_keeper_spk intent) (policy p);
     txout pot_out (pot_spk a) (obol p);
     txout (u64_sat_sub (Obol.raw (ob_value (fl_keeper intent))) debt')
       (fl_obol_change_spk intent) (obol p);
     txout reserve_out (stability_spk a) (policy p);
     fee_out (fl_fee intent) (policy p)] in
  let in_utxos :=
    [claimed (Sats.raw (oc_value vault)) (vault_spk a (state vault)) (policy p);
     claimed (Obol.raw (oc_value (pot protocol))) (pot_spk a) (obol p);
     claimed (Obol.raw (ob_value (fl_keeper intent))) (ob_spk (fl_keeper intent)) (obol p);
     claimed (Sats.raw (oc_value (reserve protocol))) (stability_spk a) (policy p)] in
  let slots :=
    [mkSlot 1 KPotInflow; mkSlot 3 (KStability Accumulate);
     mkSlot 0 (KVault (state vault) (VFullLiq (fl_tick intent)))] in
  let plan := mkPlan tx in_utxos slots in
  let txid := plan_txid plan in
  mkBuilt plan
    (mkFullLiqDelta
       (mkOn thePot (mkOutPoint txid 1) (Obol.new pot_out))
       (mkOn theReserve (mkOutPoint txid 3) (Sats.new reserve_out))
       (mkOutPoint txid 0)).

Definition full_liq (ctx : Ctx) (protocol : ProtocolState) (vault : OnChain VaultState)
    (intent : FullLiqIntent) : result BuildError (Built FullLiqDelta) :=
  _ ← check_zero_price (fl_tick intent);
  _ ← check_vault_ratchet (fl_tick intent) (last_height (state vault));
  let '(_, hi) := OracleTick.price_range (fl_tick intent) in
  debt_cents ← lift_math (Obol.covenant_cents (debt (state vault)));
  let floor := coll_at_cr debt_cents hi K_PAR in
  let cap := coll_at_cr debt_cents hi K_FULL_LIQ_CAP in
  if (Sats.raw (oc_value vault) <? Sats.raw floor) || (Sats.raw cap <? Sats.raw (oc_value vault))
  then Err (CrOutOfBand (oc_value vault) floor cap) else
  if Obol.raw (ob_value (fl_keeper intent)) <=? Obol.raw (debt (state vault))
  then
    need ← lift_math (Obol.checked_add (debt (state vault)) (Obol.new 1));
    Err (InsufficientPayer need (ob_value (fl_keeper intent)))
  else Ok (full_liq_unchecked ctx protocol vault intent).

(** ** BAD-DEBT *)

Record BadDebtDelta : Type := mkBadDebtDelta {
  bdd_pot : OnChain PotState;
  bdd_reserve : OnChain ReserveState;
  bdd_issuer : OnChain IssuerState;
  bdd_seized : OutPoint
}.

Definition bad_debt_unchecked (ctx : Ctx) (protocol : ProtocolState)
    (vault : OnChain VaultState) (intent : BadDebtIntent) : Built BadDebtDelta :=
  let a := ctx_artifacts ctx in
  let p := ctx_params ctx in
  let hi := OracleTick.hi (bd_tick intent) in
  let debt' := Obol.raw (debt (state vault)) in
  let reserve_pay := Sats.raw (bad_debt_reserve_pay (Obol.cents_or_max (debt (state vault))) hi
    (oc_value vault) (oc_value (reserve protocol))) in
  let issuer_succ := mkIssuer (OracleTick.height (bd_tick intent)) in
  let pot_out := u64_sat_add (Obol.raw (oc_value (pot protocol))) debt' in
  let reserve_out := u64_sat_sub (Sats.raw (oc_value (reserve protocol))) reserve_pay in
  let output :=
    [txout (u64_sat_add (Sats.raw (oc_value vault)) reserve_pay) (bd_keeper_spk intent) (policy p);
     txout pot_out (pot_spk a) (obol p);
     txout reserve_out (stability_spk a) (policy p);
     txout 1 (issuer_spk a issuer_succ) (issuer_token p)] ++
    (if debt' <? Obol.raw (ob_value (bd_keeper intent))
     then [txout (Obol.raw (ob_value (bd_keeper intent)) - debt') (bd_obol_change_spk intent)
             (obol p)]
     else []) ++
    [txout (u64_sat_sub (Sats.raw (fc_value (bd_fee_coin intent))) (Sats.raw (bd_fee intent)))
       (bd_change_spk intent) (policy p);
     fee_out (bd_fee intent) (policy p)] in
  let tx := mkTx 2 (BlockHeight.raw (OracleTick.height (bd_tick intent)))
    [txin (outpoint vault); txin (outpoint (pot protocol)); txin (ob_outpoint (bd_keeper intent));
     txin (outpoint (reserve protocol)); txin (outpoint (issuer protocol));
     txin (fc_outpoint (bd_fee_coin intent))] output in
  let in_utxos :=
    [claimed (Sats.raw (oc_value vault)) (vault_spk a (state vault)) (policy p);
     claimed (Obol.raw (oc_value (pot protocol))) (pot_spk a) (obol p);
     claimed (Obol.raw (ob_value (bd_keeper intent))) (ob_spk (bd_keeper intent)) (obol p);
     claimed (Sats.raw (oc_value (reserve protocol))) (stability_spk a) (policy p);
     claimed 1 (issuer_spk a (state (issuer protocol))) (issuer_token p);
     claimed (Sats.raw (fc_value (bd_fee_coin intent))) (fc_spk (bd_fee_coin intent)) (policy p)] in
  let slots :=
    [mkSlot 1 KPotInflow;
     mkSlot 3 (KStability SBadDebt);
     mkSlot 4 (KIssuer (state (issuer protocol))
       (IAttest (debt (state vault)) (xonly_u256 (owner (state vault))) (last_height (state vault))
          (bd_tick intent)));
     mkSlot 0 (KVault (state vault) (VBadDebt (bd_tick intent)))] in
  let plan := mkPlan tx in_utxos slots in
  let txid := plan_txid plan in
  mkBuilt plan
    (mkBadDebtDelta
       (mkOn thePot (mkOutPoint txid 1) (Obol.new pot_out))
       (mkOn theReserve (mkOutPoint txid 2) (Sats.new reserve_out))
       (mkOn issuer_succ (mkOutPoint txid 3) 1)
       (mkOutPoint txid 0)).

Definition bad_debt (ctx : Ctx) (protocol : ProtocolState) (vault : OnChain VaultState)
    (intent : BadDebtIntent) : result BuildError (Built BadDebtDelta) :=
  _ ← check_tick (bd_tick intent) (last_mint_height (state (issuer protocol)));
  _ ← check_vault_ratchet (bd_tick intent) (last_height (state vault));
  let '(_, hi) := OracleTick.price_range (bd_tick intent) in
  debt_cents ← lift_math (Obol.covenant_cents (debt (state vault)));
  let debt_sats := coll_at_cr debt_cents hi K_PAR in
  if Sats.raw debt_sats <=? Sats.raw (oc_value vault)
  then Err (NotUnderwater debt_sats (oc_value vault)) else
  if Obol.raw (ob_value (bd_keeper intent)) <? Obol.raw (debt (state vault))
  then Err (InsufficientPayer (debt (state vault)) (ob_value (bd_keeper intent))) else
  if Sats.raw (fc_value (bd_fee_coin intent)) <=? Sats.raw (bd_fee intent)
  then Err (InsufficientFunding (bd_fee intent) (fc_value (bd_fee_coin intent))) else
  Ok (bad_debt_unchecked ctx protocol vault intent).

(** ** REDEEM *)

Record RedeemDelta : Type := mkRedeemDelta {
  rdd_vault : OnChain VaultState;
  rdd_pot : OnChain PotState;
  rdd_reserve : OnChain ReserveState;
  rdd_redeemed : OutPoint
}.

Definition redeem_unchecked (ctx : Ctx) (protocol : ProtocolState)
    (vault : OnChain VaultState) (intent : RedeemIntent) : Built RedeemDelta :=
  let a := ctx_artifacts ctx in
  let p := ctx_params ctx in
  let hi := OracleTick.hi (rd_tick intent) in
  let x := Obol.raw (rd_x intent) in
  let x_cents := Obol.cents_or_max (rd_x intent) in
  let floor_k := RatioK.min (OracleTick.backing_k (rd_tick intent)) K_PAR in
  let x_worth := Sats.raw (coll_at_cr x_cents hi floor_k) in
  let fee_share := Sats.raw (coll_at_cr x_cents hi K_FEE_HALF_PERCENT) in
  let successor := mkVault (Obol.new (u64_sat_sub (Obol.raw (debt (state vault))) x))
    (owner (state vault)) (last_height (state vault)) in
  let residual := u64_sat_sub (Sats.raw (oc_value vault)) x_worth in
  let pot_out := u64_sat_add (Obol.raw (oc_value (pot protocol))) x in
  let reserve_out := u64_sat_add (Sats.raw (oc_value (reserve protocol))) fee_share in
  let output :=
    [txout residual (vault_spk a successor) (policy p);
     txout pot_out (pot_spk a) (obol p);
     txout (u64_sat_sub (u64_sat_sub x_worth fee_share) (Sats.raw (rd_fee intent)))
       (rd_redeemer_spk intent) (policy p);
     txout reserve_out (stability_spk a) (policy p)] ++
    (if x <? Obol.raw (ob_value (rd_redeemer intent))
     then [txout (Obol.raw (ob_value (rd_redeemer intent)) - x) (rd_obol_change_spk intent) (obol p)]
     else []) ++
    [fee_out (rd_fee intent) (policy p)] in
  let tx := mkTx 2 (BlockHeight.raw (OracleTick.height (rd_tick intent)))
    [txin (outpoint vault); txin (outpoint (pot protocol)); txin (ob_outpoint (rd_redeemer intent));
     txin (outpoint (reserve protocol))] output in
  let in_utxos :=
    [claimed (Sats.raw (oc_value vault)) (vault_spk a (state vault)) (policy p);
     claimed (Obol.raw (oc_value (pot protocol))) (pot_spk a) (obol p);
     claimed (Obol.raw (ob_value (rd_redeemer intent))) (ob_spk (rd_redeemer intent)) (obol p);
     claimed (Sats.raw (oc_value (reserve protocol))) (stability_spk a) (policy p)] in
  let slots :=
    [mkSlot 1 KPotInflow; mkSlot 3 (KStability Accumulate);
     mkSlot 0 (KVault (state vault) (VRedeem (rd_x intent) (rd_tick intent)))] in
  let plan := mkPlan tx in_utxos slots in
  let txid := plan_txid plan in
  mkBuilt plan
    (mkRedeemDelta
       (mkOn successor (mkOutPoint txid 0) (Sats.new residual))
       (mkOn thePot (mkOutPoint txid 1) (Obol.new pot_out))
       (mkOn theReserve (mkOutPoint txid 3) (Sats.new reserve_out))
       (mkOutPoint txid 2)).

Definition redeem (ctx : Ctx) (protocol : ProtocolState) (vault : OnChain VaultState)
    (intent : RedeemIntent) : result BuildError (Built RedeemDelta) :=
  _ ← check_zero_price (rd_tick intent);
  _ ← check_vault_ratchet (rd_tick intent) (last_height (state vault));
  if bool_decide (rd_x intent = Obol.ZERO) then Err ZeroAmount else
  if Obol.raw (debt (state vault)) <? Obol.raw (rd_x intent)
  then Err (AmountExceedsDebt (rd_x intent) (debt (state vault))) else
  if Obol.raw (ob_value (rd_redeemer intent)) <? Obol.raw (rd_x intent)
  then Err (InsufficientPayer (rd_x intent) (ob_value (rd_redeemer intent))) else
  let '(_, hi) := OracleTick.price_range (rd_tick intent) in
  x_cents ← lift_math (Obol.covenant_cents (rd_x intent));
  let floor_k := RatioK.min (OracleTick.backing_k (rd_tick intent)) K_PAR in
  let x_worth := coll_at_cr x_cents hi floor_k in
  if Sats.raw (oc_value vault) <? Sats.raw x_worth
  then Err (InsufficientFunding x_worth (oc_value vault)) else
  let fee_share := coll_at_cr x_cents hi K_FEE_HALF_PERCENT in
  need ← lift_math (Sats.checked_add fee_share (rd_fee intent));
  if Sats.raw x_worth <=? Sats.raw need then Err (InsufficientFunding need x_worth) else
  Ok (redeem_unchecked ctx protocol vault intent).

End KeeperBuilders.
