(* ===== verification/Accept.v ===== *)
(** * Finalization succeeds when the covenants accept

    A covenant sees a transaction only through its body: [env_eqv] relates environments
    that differ in witnesses, and every covenant program is proved invariant under it.
    From this, finalization of a plan whose slots accept succeeds, changes only witnesses,
    and every slot still accepts the finished transaction; an owner signature produced
    before finalization is the one the covenant verifies. *)

From Stdlib Require Import ZArith Lia.
From stdpp Require Import base gmap strings option list.
From S2P Require Import Prelude Units CrMath Elements Oracle Simf Encode Domain Artifacts Jets.
From S2P Require Import CovVault CovReserve CovIssuer Plan.

(** ** Environments that differ in witnesses *)

Record env_eqv (E1 E2 : Env) : Prop := {
  ee_body : body (env_tx E1) = body (env_tx E2);
  ee_utxos : env_utxos E1 = env_utxos E2;
  ee_ix : env_ix E1 = env_ix E2;
  ee_cmr : env_cmr E1 = env_cmr E2;
  ee_cb : env_cb E1 = env_cb E2;
  ee_genesis : env_genesis E1 = env_genesis E2
}.

#[export] Instance env_eqv_equivalence : Equivalence env_eqv.
Proof.
  split; [by constructor|intros ?? []; by constructor|].
  intros ??? [] []. constructor; congruence.
Qed.

(** The sig-all hash commits to the transaction, not to its witnesses. *)
Class SigHashSpec (S : SigHash) : Prop :=
  sighash_body : Proper (env_eqv ==> eq) (sighash_all (SigHash := S)).

Section Invariance.
Context `{Lib, SigHash, !SigHashSpec _}.

Lemma body_output tx1 tx2 : body tx1 = body tx2 -> output tx1 = output tx2.
Proof. by injection 1. Qed.

Lemma tx_is_final_body tx : tx_is_final (body tx) = tx_is_final tx.
Proof.
  unfold tx_is_final, body. cbn. induction (input tx) as [|i l IH]; [done|]. cbn in *. by rewrite IH.
Qed.

Lemma tx_lock_height_body tx1 tx2 :
  body tx1 = body tx2 -> tx_lock_height tx1 = tx_lock_height tx2.
Proof.
  intros E. unfold tx_lock_height. rewrite <- (tx_is_final_body tx1), <- (tx_is_final_body tx2), E.
  by injection E as _ ->.
Qed.

Section Two.
Context (E1 E2 : Env) (Heq : env_eqv E1 E2).

Lemma eqv_ix : current_index E1 = current_index E2.
Proof. apply Heq. Qed.
Lemma eqv_cmr : script_cmr E1 = script_cmr E2.
Proof. apply Heq. Qed.
Lemma eqv_key : internal_key E1 = internal_key E2.
Proof. unfold internal_key. by rewrite (ee_cb _ _ Heq). Qed.
Lemma eqv_in_hash : input_script_hash E1 = input_script_hash E2.
Proof. unfold input_script_hash. by rewrite (ee_utxos _ _ Heq). Qed.
Lemma eqv_in_amount : input_amount E1 = input_amount E2.
Proof. unfold input_amount. by rewrite (ee_utxos _ _ Heq). Qed.
Lemma eqv_out_hash : output_script_hash E1 = output_script_hash E2.
Proof. unfold output_script_hash. by rewrite (body_output _ _ (ee_body _ _ Heq)). Qed.
Lemma eqv_out_amount : output_amount E1 = output_amount E2.
Proof. unfold output_amount. by rewrite (body_output _ _ (ee_body _ _ Heq)). Qed.
Lemma eqv_lock : check_lock_height E1 = check_lock_height E2.
Proof. unfold check_lock_height. by rewrite (tx_lock_height_body _ _ (ee_body _ _ Heq)). Qed.
Lemma eqv_sighash : sighash_all E1 = sighash_all E2.
Proof. by apply sighash_body. Qed.

Ltac eqv :=
  unfold current_script_hash, current_amount, explicit_input_amount, explicit_input_asset,
    explicit_output_amount, explicit_output_asset;
  rewrite ?eqv_ix, ?eqv_cmr, ?eqv_key, ?eqv_in_hash, ?eqv_in_amount, ?eqv_out_hash,
    ?eqv_out_amount, ?eqv_lock, ?eqv_sighash; try reflexivity.

Lemma eqv_quorum : verify_quorum E1 = verify_quorum E2.
Proof. unfold verify_quorum. by rewrite eqv_lock. Qed.

Lemma eqv_repay_main obol : RepayCov.main obol E1 = RepayCov.main obol E2.
Proof. unfold RepayCov.main. eqv. Qed.

Lemma eqv_outflow_main obol token : OutflowCov.main obol token E1 = OutflowCov.main obol token E2.
Proof. unfold OutflowCov.main. eqv. Qed.

Lemma eqv_stability_main P wv : StabilityCov.main P E1 wv = StabilityCov.main P E2 wv.
Proof.
  unfold StabilityCov.main, StabilityCov.body, StabilityCov.accumulate, StabilityCov.bad_debt,
    StabilityCov.current_balance. eqv.
Qed.

Lemma eqv_vault_main P wv : VaultCov.main P E1 wv = VaultCov.main P E2 wv.
Proof.
  unfold VaultCov.main, VaultCov.body, VaultCov.dispatch, VaultCov.close, VaultCov.repay,
    VaultCov.draw, VaultCov.liquidate, VaultCov.full_liq, VaultCov.bad_debt, VaultCov.redeem,
    VaultCov.refresh, VaultCov.pot_grows_by, VaultCov.pot_shrinks_by, VaultCov.recurse_to,
    VaultCov.stability_grows_by, VaultCov.current_collateral, VaultCov.own_spk_hash_for.
  rewrite eqv_quorum. eqv.
Qed.

Lemma eqv_issuer_main P wv : IssuerCov.main P E1 wv = IssuerCov.main P E2 wv.
Proof.
  unfold IssuerCov.main, IssuerCov.body, IssuerCov.dispatch, IssuerCov.open, IssuerCov.draw,
    IssuerCov.poke, IssuerCov.attest, IssuerCov.recurse_token, IssuerCov.own_spk_hash_for.
  rewrite eqv_quorum. eqv.
Qed.

Lemma eqv_run p wv : run_program p E1 wv = run_program p E2 wv.
Proof.
  unfold run_program. destruct (prog_cov p).
  - destruct (param_u256 _ _); [|done]. apply eqv_repay_main.
  - destruct (param_u256 _ _); [|done]. cbn. destruct (param_u256 _ _); [|done].
    apply eqv_outflow_main.
  - destruct (StabilityCov.params _); [|done]. apply eqv_stability_main.
  - destruct (VaultCov.params _); [|done]. apply eqv_vault_main.
  - destruct (IssuerCov.params _); [|done]. apply eqv_issuer_main.
Qed.

End Two.

#[export] Instance run_program_proper p : Proper (env_eqv ==> eq ==> eq) (run_program p).
Proof. intros E1 E2 HE wv1 wv2 ->. by apply eqv_run. Qed.

Lemma slot_env_eqv ctx tx1 tx2 utxos i prog cb :
  body tx1 = body tx2 ->
  env_eqv (slot_env ctx tx1 utxos i prog cb) (slot_env ctx tx2 utxos i prog cb).
Proof. by constructor. Qed.

Lemma slot_accepts_body ctx tx1 tx2 utxos slot :
  body tx1 = body tx2 -> slot_accepts ctx tx1 utxos slot = slot_accepts ctx tx2 utxos slot.
Proof.
  intros E. unfold slot_accepts. destruct (slot_program _ _) as [[prog [cb|]] wv]; [|done].
  by rewrite (eqv_run _ _ (slot_env_eqv ctx tx1 tx2 utxos (ws_input slot) prog cb E)).
Qed.

End Invariance.

(** ** Finalization *)

(** The slots of a plan name inputs of its transaction. *)
Definition slots_in_range (plan : TxPlan) : Prop :=
  Forall (fun s => is_Some (input (p_tx plan) !! Z.to_nat (ws_input s))) (p_slots plan).

Definition slots_accept `{Lib, SigHash} (ctx : Ctx) (tx : Transaction) (plan : TxPlan) : Prop :=
  Forall (fun s => slot_accepts ctx tx (p_utxos plan) s = true) (p_slots plan).

(** What finalization promises: a transaction with the planned body whose every covenant
    input is accepted, the pot leaves included. *)
Definition finalizes `{Lib, SigHash, Redeemer} (ctx : Ctx) (plan : TxPlan) : Prop :=
  exists tx, finalize ctx plan = Ok tx /\ body tx = body (p_tx plan) /\ slots_accept ctx tx plan.

Section FinalizeLemmas.
Context `{HL : Lib, HS : SigHash, !SigHashSpec _, R : Redeemer, !RedeemerSpec R}.

Lemma set_witness_ok tx i w :
  is_Some (input tx !! Z.to_nat i) ->
  exists tx', set_witness tx i w = Ok tx' /\ body tx' = body tx.
Proof.
  intros [inp Hi]. unfold set_witness. rewrite Hi. eexists. split; [done|].
  unfold body. cbn. f_equal. apply list_eq. intros j.
  rewrite !list_lookup_fmap. destruct (decide (j = Z.to_nat i)) as [->|Hne].
  - rewrite list_lookup_insert_eq by (by eapply lookup_lt_Some). by rewrite Hi.
  - by rewrite list_lookup_insert_ne.
Qed.

Lemma body_length_input tx1 tx2 :
  body tx1 = body tx2 -> length (input tx1) = length (input tx2).
Proof.
  intros E. apply (f_equal input), (f_equal length) in E. cbn in E. by rewrite !length_fmap in E.
Qed.

Lemma body_in_range tx1 tx2 i :
  body tx1 = body tx2 -> is_Some (input tx1 !! i) -> is_Some (input tx2 !! i).
Proof. intros E%body_length_input. rewrite !lookup_lt_is_Some. by rewrite E. Qed.

Lemma slot_accepts_witness ctx tx utxos slot :
  slot_accepts ctx tx utxos slot = true -> exists w, slot_witness ctx tx utxos slot = Ok w.
Proof.
  unfold slot_accepts, slot_witness.
  destruct slot as [i []]; unfold slot_program; cbn [ws_kind ws_input];
    match goal with |- context [match ?o with Some _ => _ | None => false end] =>
      destruct o; [|done] end;
    intros Ha; cbn [ok_or mbind result_bind]; unfold leaf_witness, pruned_witness;
    apply bool_decide_eq_true in Ha.
  1,2: apply satisfy_run in Ha as [[] ->]; cbn; eauto.
  all: rewrite Ha; destruct (pruned_bytes _ _ _); eauto.
Qed.

Lemma finalize_slots_ok ctx utxos tx0 tx slots :
  body tx = body tx0 ->
  Forall (fun s => is_Some (input tx0 !! Z.to_nat (ws_input s))) slots ->
  Forall (fun s => slot_accepts ctx tx0 utxos s = true) slots ->
  exists tx', finalize_slots ctx utxos tx slots = Ok tx' /\ body tx' = body tx0.
Proof.
  intros Hb HR HA. revert tx Hb. induction slots as [|s slots IH]; intros tx Hb; cbn; [eauto|].
  apply Forall_cons in HR as [Hr HR], HA as [Ha HA].
  rewrite <- (slot_accepts_body ctx tx tx0) in Ha by done.
  destruct (slot_accepts_witness _ _ _ _ Ha) as [w Hw]. rewrite Hw. cbn.
  destruct (set_witness_ok tx (ws_input s) w) as (tx' & Ht & Hb').
  { by eapply body_in_range. }
  rewrite Ht. cbn. apply IH; [done|done|congruence].
Qed.

Lemma accept_finalizes ctx plan :
  slots_in_range plan -> slots_accept ctx (p_tx plan) plan -> finalizes ctx plan.
Proof.
  intros HR HA.
  destruct (finalize_slots_ok ctx (p_utxos plan) (p_tx plan) (p_tx plan) (p_slots plan))
    as (tx & Hf & Hb); [done..|].
  exists tx. split_and!; [done..|]. unfold slots_accept in *.
  eapply Forall_impl; [exact HA|]. intros s Hs. by rewrite (slot_accepts_body ctx tx (p_tx plan)).
Qed.

(** *** Owner signing *)

Lemma before_slots_ok ctx utxos tx0 tx slots stop :
  body tx = body tx0 ->
  Forall (fun s => is_Some (input tx0 !! Z.to_nat (ws_input s))) slots ->
  Forall (fun s => ws_input s <> stop -> slot_accepts ctx tx0 utxos s = true) slots ->
  exists tx', before_slots ctx utxos tx slots stop = Ok tx' /\ body tx' = body tx0.
Proof.
  intros Hb HR HA. revert tx Hb. induction slots as [|s slots IH]; intros tx Hb; cbn; [eauto|].
  apply Forall_cons in HR as [Hr HR], HA as [Ha HA].
  destruct (Z.eqb_spec (ws_input s) stop); [eauto|]. specialize (Ha n).
  rewrite <- (slot_accepts_body ctx tx tx0) in Ha by done.
  destruct (slot_accepts_witness _ _ _ _ Ha) as [w Hw]. rewrite Hw. cbn.
  destruct (set_witness_ok tx (ws_input s) w) as (tx' & Ht & Hb').
  { by eapply body_in_range. }
  rewrite Ht. cbn. apply IH; [done|done|congruence].
Qed.

(** The digest an owner signs for the vault slot of a plan. *)
Definition owner_digest (ctx : Ctx) (plan : TxPlan) (input : Z) (s : VaultState) : bytes :=
  sighash_all (slot_env ctx (p_tx plan) (p_utxos plan) input (a_vault (ctx_artifacts ctx))
    (mkCB simplicity_leaf_version
       (tap_parity nums_key (ti_merkle_root (vault_spend_info (ctx_artifacts ctx) s))) nums_key
       [tap_leaf (vault_data_leaf s).1 (vault_data_leaf s).2])).

Lemma owner_sign_ok ctx plan kp input s :
  find_vault_slot (p_slots plan) = Some (input, s) ->
  slots_in_range plan ->
  Forall (fun sl => ws_input sl <> input -> slot_accepts ctx (p_tx plan) (p_utxos plan) sl = true)
    (p_slots plan) ->
  owner_sign ctx plan kp =
    Ok (install_owner_sig plan (mkSig (sign_schnorr kp (owner_digest ctx plan input s)))).
Proof.
  intros Hf HR HA. unfold owner_sign, vault_sighash. rewrite Hf.
  cbn [mbind result_bind ok_or].
  destruct (before_slots_ok ctx (p_utxos plan) (p_tx plan) (p_tx plan) (p_slots plan) input)
    as (tx & Ht & Hb); [done..|].
  unfold tx_before_slot. rewrite Ht. cbn [mbind result_bind ok_or].
  rewrite vault_control_block_some. cbn [mbind result_bind ok_or].
  do 4 f_equal. apply sighash_body, slot_env_eqv, Hb.
Qed.

(** An owner operation finalizes once signed: the other slots accept, and the vault slot
    accepts any signature valid over the digest. *)
Definition owner_finalizes (ctx : Ctx) (plan : TxPlan) (kp : bytes) : Prop :=
  exists plan', owner_sign ctx plan kp = Ok plan' /\ p_tx plan' = p_tx plan /\
    finalizes ctx plan'.

Lemma owner_accept_finalizes ctx tx utxos pre s op kp :
  let plan := mkPlan tx utxos (pre ++ [mkSlot 0 (KVault s op)]) in
  slots_in_range plan ->
  Forall (fun sl => ws_input sl <> 0 /\ slot_accepts ctx tx utxos sl = true /\
            match ws_kind sl with KVault _ _ => False | _ => True end) pre ->
  (forall sig, sig = mkSig (sign_schnorr kp (owner_digest ctx plan 0 s)) ->
     slot_accepts ctx tx utxos (mkSlot 0 (KVault s (with_owner_sig op sig))) = true) ->
  owner_finalizes ctx plan kp.
Proof.
  intros plan HR HA HV.
  assert (Hf : find_vault_slot (pre ++ [mkSlot 0 (KVault s op)]) = Some (0, s)).
  { clear -HA. induction HA as [|sl l (_ & _ & Hk) _ IH]; [done|]. cbn. by destruct (ws_kind sl). }
  assert (Hi : forall sig, install_slot sig <$> pre = pre).
  { intros sig. clear -HA. induction HA as [|sl l (_ & _ & Hk) _ IH]; [done|]. cbn in *.
    rewrite IH. unfold install_slot. by destruct (ws_kind sl). }
  eexists. split.
  { apply (owner_sign_ok ctx plan kp 0 s); [done|done|]. apply Forall_app. split.
    - eapply Forall_impl; [exact HA|]. by intros sl (_ & ? & _) _.
    - constructor; [|done]. intros []; done. }
  split; [done|]. apply accept_finalizes.
  - unfold slots_in_range in *. cbn. rewrite fmap_app, Hi. apply Forall_app in HR as [HR1 HR2].
    apply Forall_app. split; [done|]. apply Forall_cons in HR2 as [HR2 _]. by constructor.
  - unfold slots_accept. cbn. rewrite fmap_app, Hi. apply Forall_app. split.
    + eapply Forall_impl; [exact HA|]. by intros sl (_ & ? & _).
    + constructor; [|done]. by apply HV.
Qed.

End FinalizeLemmas.
