(* ===== verification/CovLemmas.v ===== *)
(** * What each covenant reads and reconstructs

    The parameters a deploy compiles into each program, the equality of the addresses the
    covenants reconstruct with the ones [artifacts.rs] derives, and the tactics that run a
    covenant on an environment whose coins are known. *)

From Stdlib Require Import ZArith Lia.
From stdpp Require Import base gmap strings option list.
From S2P Require Import Prelude Units CrMath Elements Oracle Simf Encode Domain Artifacts Jets.
From S2P Require Import CovVault CovReserve CovIssuer Plan.

(** ** Compiled parameters *)

Section Params.
Context `{Lib, Compiler}.

Definition vault_param (p : Params) (a : Artifacts) : VaultCov.Param :=
  VaultCov.mkParam (u256_bytes tapleaf_tag) leaf_vc (obol p) (policy p)
    (sha256 (pot_spk a)) (sha256 (stability_spk a)) (oracle_pks p).

Definition issuer_param (p : Params) (a : Artifacts) : IssuerCov.Param :=
  IssuerCov.mkParam nums_key (u256_bytes tapleaf_tag) leaf_vc issuer_leaf_vc
    (prog_cmr (a_vault a)) (sha256 (stability_spk a)) (obol p) (policy p)
    (sha256 (pot_spk a)) (issuer_token p) (oracle_pks p).

Definition stability_param (p : Params) (a : Artifacts) : StabilityCov.Param :=
  StabilityCov.mkParam (sha256 (pot_spk a)) (issuer_token p) (obol p) (policy p).

Lemma five_keys (l : list bytes) :
  length l = 5%nat -> exists a b c d e, l = [a; b; c; d; e].
Proof.
  intros HL. do 5 (destruct l as [|? l]; [discriminate HL|]). destruct l; [|discriminate HL].
  eauto 10.
Qed.

Lemma vault_params_ok p a :
  artifacts_of p a -> length (oracle_pks p) = 5%nat ->
  VaultCov.params (prog_args (a_vault a)) = Some (vault_param p a).
Proof.
  intros HA HL. pose proof (ao_vault _ _ HA) as Hc. apply compile_ok in Hc as (_ & -> & _).
  unfold vault_param, vault_args. destruct p as [ob tk po pks]. cbn [oracle_pks obol policy] in *.
  destruct (five_keys pks HL) as (k1&k2&k3&k4&k5&->).
  unfold pot_spk_hash, stability_spk_hash, spk_hash.
  generalize (sha256 (pot_spk a)) (sha256 (stability_spk a)). intros h1 h2.
  generalize tapleaf_tag. intros tag. destruct tag as [tag].
  vm_compute. reflexivity.
Qed.

Lemma issuer_params_ok p a :
  artifacts_of p a -> length (oracle_pks p) = 5%nat ->
  IssuerCov.params (prog_args (a_issuer a)) = Some (issuer_param p a).
Proof.
  intros HA HL. pose proof (ao_issuer _ _ HA) as Hc. apply compile_ok in Hc as (_ & -> & _).
  unfold issuer_param, issuer_args, vault_cmr, cmr_u256. destruct p as [ob tk po pks].
  cbn [oracle_pks obol policy issuer_token] in *.
  destruct (five_keys pks HL) as (k1&k2&k3&k4&k5&->).
  unfold pot_spk_hash, stability_spk_hash, spk_hash.
  generalize (sha256 (pot_spk a)) (sha256 (stability_spk a)) (prog_cmr (a_vault a)). intros h1 h2 h3.
  generalize tapleaf_tag. intros tag. destruct tag as [tag].
  vm_compute. reflexivity.
Qed.

Lemma stability_params_ok p a :
  artifacts_of p a ->
  StabilityCov.params (prog_args (a_stability a)) = Some (stability_param p a).
Proof.
  intros HA. pose proof (ao_stability _ _ HA) as Hc. apply compile_ok in Hc as (_ & -> & _).
  unfold stability_param. unfold pot_spk_hash, spk_hash.
  generalize (sha256 (pot_spk a)). intros x. destruct p as [ob tk po pks].
  vm_compute. reflexivity.
Qed.

Lemma outflow_params_ok p a :
  artifacts_of p a ->
  param_u256 (prog_args (a_pot_outflow a)) "OBOL_ID" = Some (obol p) /\
  param_u256 (prog_args (a_pot_outflow a)) "ISSUER_TOKEN_ID" = Some (issuer_token p).
Proof.
  intros HA. pose proof (ao_outflow _ _ HA) as Hc. apply compile_ok in Hc as (_ & -> & _).
  destruct p as [ob tk po pks]. split; vm_compute; reflexivity.
Qed.

Lemma repay_params_ok p a :
  artifacts_of p a ->
  param_u256 (prog_args (a_reserve_repay a)) "OBOL_ID" = Some (obol p).
Proof.
  intros HA. pose proof (ao_repay _ _ HA) as Hc. apply compile_ok in Hc as (_ & -> & _).
  destruct p as [ob tk po pks]. vm_compute; reflexivity.
Qed.

Lemma prog_covs p a : artifacts_of p a ->
  prog_cov (a_reserve_repay a) = ReserveRepay /\ prog_cov (a_pot_outflow a) = PotOutflow /\
  prog_cov (a_stability a) = Stability /\ prog_cov (a_vault a) = Vault /\
  prog_cov (a_issuer a) = Issuer.
Proof.
  intros [].
  repeat match goal with Hc : compile _ _ = _ |- _ => apply compile_ok in Hc as (?&_) end. done.
Qed.

End Params.

(** ** Reconstructed addresses *)

Section Addresses.
Context `{HL : Lib, !LibSpec HL}.

(** The version-control words are the leaf version and the script length. *)
Lemma leaf_vc_bytes : be_bytes 2 leaf_vc = [byte_of_Z data_leaf_version; byte_of_Z 45].
Proof. reflexivity. Qed.
Lemma issuer_leaf_vc_bytes : be_bytes 2 issuer_leaf_vc = [byte_of_Z data_leaf_version; byte_of_Z 5].
Proof. reflexivity. Qed.

Lemma vault_leaf_hash p a s :
  length (owner s) = 32%nat ->
  VaultCov.dataleaf_hash (vault_param p a) (Obol.raw (debt s)) (owner s)
    (BlockHeight.raw (last_height s)) =
  tap_leaf (vault_data_leaf s).1 (vault_data_leaf s).2.
Proof.
  intros Ho. rewrite tap_leaf_spec by (by rewrite length_vault_data_leaf by done; lia).
  rewrite length_vault_data_leaf by done.
  unfold VaultCov.dataleaf_hash, vault_param, tapleaf_tag.
  cbn [VaultCov.TAPLEAF_TAG VaultCov.LEAF_VC u256_bytes].
  unfold sha_256_ctx_8_finalize, sha_256_ctx_8_add_32, sha_256_ctx_8_add_8, sha_256_ctx_8_add_4,
    sha_256_ctx_8_add_2, sha_256_ctx_8_add_1, sha_256_ctx_8_init.
  rewrite leaf_vc_bytes. f_equal. rewrite <- !app_assoc. reflexivity.
Qed.

Lemma issuer_leaf_hash p a h :
  IssuerCov.issuer_dataleaf_hash (issuer_param p a) (BlockHeight.raw h) =
  tap_leaf (issuer_data_leaf h).1 (issuer_data_leaf h).2.
Proof.
  rewrite tap_leaf_spec by (cbn; lia).
  unfold IssuerCov.issuer_dataleaf_hash, issuer_param, tapleaf_tag.
  cbn [IssuerCov.TAPLEAF_TAG IssuerCov.ISSUER_LEAF_VC u256_bytes].
  unfold sha_256_ctx_8_finalize, sha_256_ctx_8_add_32, sha_256_ctx_8_add_4,
    sha_256_ctx_8_add_2, sha_256_ctx_8_add_1, sha_256_ctx_8_init.
  rewrite issuer_leaf_vc_bytes. f_equal. rewrite <- !app_assoc. reflexivity.
Qed.

(** The vault covenant reconstructs, for any state, the hash of the address the crate
    derives, when it runs under its own CMR and the NUMS key. *)
Lemma vault_own_spk p a E s :
  length (owner s) = 32%nat ->
  env_cmr E = prog_cmr (a_vault a) -> cb_internal_key (env_cb E) = nums_key ->
  VaultCov.own_spk_hash_for (vault_param p a) E (Obol.raw (debt s)) (owner s)
    (BlockHeight.raw (last_height s)) = sha256 (vault_spk a s).
Proof.
  intros Ho Hc Hk. unfold VaultCov.own_spk_hash_for, script_cmr, internal_key.
  rewrite vault_leaf_hash, Hc, Hk by done. reflexivity.
Qed.

(** The issuer reconstructs the same address from [VAULT_CMR] and [NUMS]. *)
Lemma issuer_vault_spk p a s :
  length (owner s) = 32%nat ->
  IssuerCov.vault_spk_hash_for (issuer_param p a) (Obol.raw (debt s)) (owner s)
    (BlockHeight.raw (last_height s)) = sha256 (vault_spk a s).
Proof.
  intros Ho. unfold IssuerCov.vault_spk_hash_for.
  change (IssuerCov.vault_dataleaf_hash (issuer_param p a) (Obol.raw (debt s)) (owner s)
    (BlockHeight.raw (last_height s))) with
    (VaultCov.dataleaf_hash (vault_param p a) (Obol.raw (debt s)) (owner s)
      (BlockHeight.raw (last_height s))).
  rewrite vault_leaf_hash by done. reflexivity.
Qed.

Lemma issuer_own_spk p a E s :
  env_cmr E = prog_cmr (a_issuer a) -> cb_internal_key (env_cb E) = nums_key ->
  IssuerCov.own_spk_hash_for (issuer_param p a) E (BlockHeight.raw (last_mint_height s))
    = sha256 (issuer_spk a s).
Proof.
  intros Hc Hk. unfold IssuerCov.own_spk_hash_for, script_cmr, internal_key.
  rewrite issuer_leaf_hash, Hc, Hk. reflexivity.
Qed.

End Addresses.

(** ** Running a covenant on known coins *)

Section Views.
Context `{Lib} (E : Env).

(** Input or output [i] is this explicit coin. *)
Definition in_coin (i : Z) (v : Z) (spk : Script) (asset : AssetId) : Prop :=
  env_utxos E !! Z.to_nat i = Some (claimed v spk asset).
Definition out_coin (i : Z) (v : Z) (spk : Script) (asset : AssetId) : Prop :=
  output (env_tx E) !! Z.to_nat i = Some (txout v spk asset).

Lemma view_in i v spk asset : in_coin i v spk asset ->
  input_script_hash E i = Some (sha256 spk) /\
  input_amount E i = Some (AExplicit asset, VExplicit v) /\
  explicit_input_amount E i = Some v /\ explicit_input_asset E i = Some asset.
Proof.
  unfold in_coin, explicit_input_amount, explicit_input_asset, input_script_hash, input_amount.
  by intros ->.
Qed.

Lemma view_out i v spk asset : out_coin i v spk asset ->
  output_script_hash E i = Some (sha256 spk) /\
  output_amount E i = Some (AExplicit asset, VExplicit v) /\
  explicit_output_amount E i = Some v /\ explicit_output_asset E i = Some asset.
Proof.
  unfold out_coin, explicit_output_amount, explicit_output_asset, output_script_hash,
    output_amount.
  by intros ->.
Qed.

Lemma view_current v spk asset : in_coin (env_ix E) v spk asset ->
  current_script_hash E = Some (sha256 spk) /\
  current_amount E = Some (AExplicit asset, VExplicit v).
Proof. intros (?&?&_)%view_in. done. Qed.

End Views.

(** Turn coin hypotheses into the equations of the jets. *)
Ltac observe :=
  repeat match goal with
  | Hc : in_coin _ _ _ _ _ |- _ => apply view_in in Hc as (?&?&?&?)
  | Hc : out_coin _ _ _ _ _ |- _ => apply view_out in Hc as (?&?&?&?)
  end.

Lemma eq_256_refl a : eq_256 a a = true.
Proof. by apply bool_decide_eq_true_2. Qed.

Ltac cov_guard :=
  lazymatch goal with
  | |- eq_256 _ _ = true => apply bool_decide_eq_true_2; solve [reflexivity | congruence]
  | |- (_ <? _) = true => apply Z.ltb_lt; uint
  | |- (_ <=? _) = true => apply Z.leb_le; uint
  | |- (_ =? _) = true => apply Z.eqb_eq; uint
  | |- negb false = true => reflexivity
  end.

(** One step of a covenant: read a jet from an equation in the context, check an
    assertion, or evaluate a checked sum. *)
Ltac cov_step :=
  match goal with
  | |- Some _ = Some _ => reflexivity
  | Hj : ?o = Some _ |- (?o ≫= _) = Some _ => rewrite Hj; cbn [mbind option_bind unwrap_asset unwrap_amount]
  | |- (Some _ ≫= _) = Some _ => cbn [mbind option_bind unwrap_asset unwrap_amount]
  | |- (if ?b then _ else None) = Some _ =>
      let Hb := fresh "Hb" in assert (Hb : b = true) by cov_guard; rewrite Hb; clear Hb
  | |- (let '(_, _) := add_64 ?a ?b in _) = Some _ => rewrite (add_64_ok a b) by uint
  | |- (let '(_, _) := subtract_64 ?a ?b in _) = Some _ => rewrite (subtract_64_ok a b) by uint
  end.
Ltac cov_run := repeat cov_step.

Section VaultHelpers.
Context `{HLib : Lib, !LibSpec HLib, !SigHash}.
Context (p : Params) (a : Artifacts) (E : Env).
Abbreviation P := (vault_param p a).

Lemma pot_grows_ok pin delta :
  in_coin E 1 pin (pot_spk a) (obol p) -> out_coin E 1 (pin + delta) (pot_spk a) (obol p) ->
  0 <= pin -> 0 <= delta -> pin + delta <= U64_MAX ->
  VaultCov.pot_grows_by P E delta = Some tt.
Proof. intros. observe. unfold VaultCov.pot_grows_by. cov_run. Qed.

Lemma pot_shrinks_ok pin d :
  in_coin E 1 pin (pot_spk a) (obol p) -> out_coin E 1 (pin - d) (pot_spk a) (obol p) ->
  0 <= d <= pin -> pin <= U64_MAX ->
  VaultCov.pot_shrinks_by P E d = Some tt.
Proof. intros. observe. unfold VaultCov.pot_shrinks_by. cov_run. Qed.

Lemma stability_grows_ok sin share :
  in_coin E 3 sin (stability_spk a) (policy p) ->
  out_coin E 3 (sin + share) (stability_spk a) (policy p) ->
  0 <= sin -> 0 <= share -> sin + share <= U64_MAX ->
  VaultCov.stability_grows_by P E share = Some tt.
Proof. intros. observe. unfold VaultCov.stability_grows_by. cov_run. Qed.

Lemma recurse_ok v s :
  out_coin E 0 v (vault_spk a s) (policy p) -> length (owner s) = 32%nat ->
  env_cmr E = prog_cmr (a_vault a) -> cb_internal_key (env_cb E) = nums_key ->
  VaultCov.recurse_to P E (Obol.raw (debt s)) (owner s) (BlockHeight.raw (last_height s)) = Some tt.
Proof.
  intros. observe. unfold VaultCov.recurse_to. rewrite vault_own_spk by done. cov_run.
Qed.

Lemma collateral_ok v spk :
  env_ix E = 0 -> in_coin E 0 v spk (policy p) -> VaultCov.current_collateral P E = Some v.
Proof.
  intros Hi Hc. rewrite <- Hi in Hc. apply view_current in Hc as [? ?].
  unfold VaultCov.current_collateral. cov_run.
Qed.

End VaultHelpers.
