(* ===== verification/CovAccept.v ===== *)
(** * When each covenant arm accepts

    Sufficient conditions for every arm of the five covenants, on an environment whose
    coins are given: the arithmetic is the crate's ([coll_at_cr] and the [K_*] bands), the
    addresses are the derived ones. *)

From Stdlib Require Import ZArith Lia.
From stdpp Require Import base gmap strings option list.
From S2P Require Import Prelude Units CrMath Elements Oracle Simf Encode Domain Artifacts Jets.
From S2P Require Import CovVault CovReserve CovIssuer Plan CovLemmas.

(** Sats a debt is worth at a price and ratio, as integers. *)
Definition at_cr (d : Z) (price : Price.t) (k : RatioK.t) : Z := Sats.raw (coll_at_cr d price k).

#[global] Arguments at_cr : simpl never.

Lemma cov_at_cr d price k : cov_coll_at_cr d (Price.raw price) (RatioK.raw k) = at_cr d price k.
Proof. destruct price, k. apply cov_coll_at_cr_eq. Qed.

Lemma at_cr_nonneg d p k : 0 <= d -> 0 <= Price.raw p -> 0 <= RatioK.raw k -> 0 <= at_cr d p k.
Proof. apply coll_at_cr_nonneg. Qed.

Lemma at_cr_pos_debt d p k : 0 <= d -> 0 <= Price.raw p -> 0 < at_cr d p k -> 0 < d.
Proof.
  intros Hd Hp Hpos. destruct (Z.eq_dec d 0) as [->|]; [|lia]. exfalso.
  unfold at_cr in Hpos. rewrite coll_at_cr_raw, Z.mul_0_l in Hpos.
  destruct (Z.eq_dec (Price.raw p * 200) 0) as [E|E]; [rewrite E, Zdiv_0_r in Hpos|rewrite Z.div_0_l in Hpos by done]; lia.
Qed.

(** The [K_*] constants are the literals of the covenants. *)
Lemma k_literals :
  200000000 = RatioK.raw K_PAR /\ 230000000 = RatioK.raw K_FULL_LIQ_CAP /\
  260000000 = RatioK.raw K_HEALTH_GATE /\ 264000000 = RatioK.raw K_HEAL_LO /\
  274000000 = RatioK.raw K_HEAL_HI /\ 300000000 = RatioK.raw K_OPEN_MIN /\
  1000000 = RatioK.raw K_FEE_HALF_PERCENT /\ 10000000 = RatioK.raw K_RESERVE_SHARE /\
  40000000 = RatioK.raw K_BAD_DEBT_CAP.
Proof. by vm_compute. Qed.

Section Arms.
Context `{HLib : Lib, !LibSpec HLib, !SigHash}.
Context (p : Params) (a : Artifacts) (E : Env).
Context (HK : length (oracle_pks p) = 5%nat).

(** A tick the quorum of this environment accepts. *)
Definition tick_accepted (t : OracleTick.t) : Prop :=
  tick_wf t /\ tick_valid (oracle_pks p) t = true /\
  BlockHeight.raw (OracleTick.height t) <= tx_lock_height (env_tx E).

Lemma quorum_ok t : tick_accepted t ->
  verify_quorum E (oracle_pks p) (BlockHeight.raw (OracleTick.height t))
    (RatioK.raw (OracleTick.backing_k t)) (mkArr (lower_slot <$> OracleTick.slots t))
    = Some (Price.raw (OracleTick.lo t), Price.raw (OracleTick.hi t)).
Proof. intros (?&?&?). by apply verify_quorum_ok. Qed.

Ltac quorum t Ht :=
  cbn [u32_val VaultCov.ORACLE_PK vault_param IssuerCov.ORACLE_PK issuer_param];
  rewrite (quorum_ok t Ht).

Section VaultArms.
Context (Hcmr : env_cmr E = prog_cmr (a_vault a)) (Hkey : cb_internal_key (env_cb E) = nums_key)
  (Hix : env_ix E = 0).
Context (s : VaultState) (coll : Z).
Context (Hs : length (owner s) = 32%nat) (Hd : u32 (Obol.raw (debt s))) (Hc : u64 coll)
  (Hin : in_coin E 0 coll (vault_spk a s) (policy p)).
Abbreviation P := (vault_param p a).
Abbreviation d := (Obol.raw (debt s)).
Abbreviation lh := (BlockHeight.raw (last_height s)).

Lemma vault_body_ok op :
  VaultCov.dispatch P E d (owner s) lh op = Some tt ->
  VaultCov.body P E d (owner s) lh op = Some tt.
Proof.
  intros Hop. pose proof Hin as Hcur. rewrite <- Hix in Hcur.
  apply view_current in Hcur as [Hch _]. unfold VaultCov.body.
  rewrite vault_own_spk by done. unfold current_index. cov_run. done.
Qed.

Lemma repay_arm_ok s' r pin out :
  s' = mkVault (Obol.new (d - r)) (owner s) (last_height s) ->
  0 <= r <= d -> u64 pin -> pin + r <= U64_MAX ->
  in_coin E 1 pin (pot_spk a) (obol p) -> out_coin E 1 (pin + r) (pot_spk a) (obol p) ->
  out_coin E 0 out (vault_spk a s') (policy p) -> coll <= out ->
  VaultCov.repay P E d (owner s) lh r = Some tt.
Proof.
  intros -> Hr Hp Hb Hpi Hpo Hvo Hle. unfold VaultCov.repay.
  rewrite subtract_64_ok by uint. cov_step.
  rewrite (collateral_ok p a E coll _ Hix Hin). cov_step.
  rewrite (pot_grows_ok p a E pin r) by (done || uint). cov_step.
  rewrite (recurse_ok p a E out _ Hvo Hs Hcmr Hkey : VaultCov.recurse_to P E (d - r) (owner s) lh = _).
  cov_step. observe. cov_run.
Qed.

Lemma draw_arm_ok s' t x pin out :
  s' = mkVault (Obol.new (d + x)) (owner s) (OracleTick.height t) ->
  tick_accepted t -> lh < BlockHeight.raw (OracleTick.height t) ->
  0 <= x -> u32 (d + x) -> x <= pin -> u64 pin ->
  in_coin E 1 pin (pot_spk a) (obol p) -> out_coin E 1 (pin - x) (pot_spk a) (obol p) ->
  out_coin E 0 out (vault_spk a s') (policy p) ->
  at_cr (d + x) (OracleTick.lo t) K_OPEN_MIN <= out ->
  VaultCov.draw P E d (owner s) lh x (lower_tick t) = Some tt.
Proof.
  intros -> Ht Hh Hx Hdx Hxp Hp Hpi Hpo Hvo Hle. unfold VaultCov.draw, lower_tick.
  quorum t Ht. cov_step. cov_step.
  rewrite add_64_ok by uint. cov_step. cov_step.
  rewrite (pot_shrinks_ok p a E pin x) by (done || uint). cov_step.
  rewrite (recurse_ok p a E out _ Hvo Hs Hcmr Hkey :
    VaultCov.recurse_to P E (d + x) (owner s) (BlockHeight.raw (OracleTick.height t)) = _).
  cov_step. observe. rewrite rightmost_id by done.
  change 300000000 with (RatioK.raw K_OPEN_MIN). rewrite cov_at_cr. cov_run.
Qed.

Lemma liquidate_arm_ok s' t dd pin sin residual :
  s' = mkVault (Obol.new (d - dd)) (owner s) (last_height s) ->
  tick_accepted t -> lh < BlockHeight.raw (OracleTick.height t) ->
  0 < dd < d ->
  coll < at_cr d (OracleTick.hi t) K_HEALTH_GATE ->
  u64 pin -> pin + dd <= U64_MAX ->
  in_coin E 1 pin (pot_spk a) (obol p) -> out_coin E 1 (pin + dd) (pot_spk a) (obol p) ->
  0 <= residual <= coll ->
  out_coin E 0 residual (vault_spk a s') (policy p) ->
  at_cr (d - dd) (OracleTick.hi t) K_HEAL_LO <= residual
    <= at_cr (d - dd) (OracleTick.hi t) K_HEAL_HI ->
  coll - residual <= at_cr dd (OracleTick.hi t) K_FULL_LIQ_CAP ->
  u64 sin -> sin + at_cr dd (OracleTick.hi t) K_RESERVE_SHARE <= U64_MAX ->
  in_coin E 3 sin (stability_spk a) (policy p) ->
  out_coin E 3 (sin + at_cr dd (OracleTick.hi t) K_RESERVE_SHARE) (stability_spk a) (policy p) ->
  VaultCov.liquidate P E d (owner s) lh dd (lower_tick t) = Some tt.
Proof.
  intros -> Ht Hh Hdd Hgate Hp Hpb Hpi Hpo Hres Hvo Hband Hcap Hsn Hsb Hsi Hso.
  destruct (range_u32 t (proj1 Ht)) as (Hlo & Hhi & _).
  unfold VaultCov.liquidate, lower_tick. quorum t Ht. do 3 cov_step.
  rewrite subtract_64_ok by uint. do 2 cov_step.
  rewrite (collateral_ok p a E coll _ Hix Hin). cov_step.
  rewrite !rightmost_id by uint.
  change 260000000 with (RatioK.raw K_HEALTH_GATE). change 264000000 with (RatioK.raw K_HEAL_LO).
  change 274000000 with (RatioK.raw K_HEAL_HI). change 230000000 with (RatioK.raw K_FULL_LIQ_CAP).
  change 10000000 with (RatioK.raw K_RESERVE_SHARE). rewrite !cov_at_cr. cov_step.
  rewrite (pot_grows_ok p a E pin dd) by (done || uint). cov_step.
  rewrite (recurse_ok p a E residual _ Hvo Hs Hcmr Hkey :
    VaultCov.recurse_to P E (d - dd) (owner s) lh = _). cov_step.
  pose proof (view_out _ _ _ _ _ Hvo) as (_ & _ & Hamt & _). do 3 cov_step.
  rewrite subtract_64_ok by uint. do 2 cov_step.
  apply (stability_grows_ok p a E sin); try done; [uint|].
  apply at_cr_nonneg; [lia|apply Hhi|by vm_compute].
Qed.

Lemma full_liq_arm_ok t pin sin rf :
  rf = (coll - at_cr d (OracleTick.hi t) K_PAR) / 3 ->
  tick_accepted t -> lh < BlockHeight.raw (OracleTick.height t) ->
  at_cr d (OracleTick.hi t) K_PAR <= coll <= at_cr d (OracleTick.hi t) K_FULL_LIQ_CAP ->
  u64 pin -> pin + d <= U64_MAX ->
  in_coin E 1 pin (pot_spk a) (obol p) -> out_coin E 1 (pin + d) (pot_spk a) (obol p) ->
  u64 sin -> sin + rf <= U64_MAX ->
  in_coin E 3 sin (stability_spk a) (policy p) ->
  out_coin E 3 (sin + rf) (stability_spk a) (policy p) ->
  VaultCov.full_liq P E d lh (lower_tick t) = Some tt.
Proof.
  intros -> Ht Hh Hband Hp Hpb Hpi Hpo Hsn Hsb Hsi Hso.
  destruct (range_u32 t (proj1 Ht)) as (_ & Hhi & _).
  assert (0 <= at_cr d (OracleTick.hi t) K_PAR) as Hn
    by (apply at_cr_nonneg; [uint|apply Hhi|by vm_compute]).
  unfold VaultCov.full_liq, lower_tick. quorum t Ht. do 2 cov_step.
  rewrite (collateral_ok p a E coll _ Hix Hin). cov_step. rewrite !rightmost_id by uint.
  change 200000000 with (RatioK.raw K_PAR). change 230000000 with (RatioK.raw K_FULL_LIQ_CAP).
  rewrite !cov_at_cr. do 2 cov_step.
  rewrite (pot_grows_ok p a E pin d) by (done || uint). cov_step.
  rewrite subtract_64_ok by uint. cov_step. unfold divide_64. cbn [Z.eqb].
  apply (stability_grows_ok p a E sin); try done; [uint|]. apply Z.div_pos; lia.
Qed.

Lemma bad_debt_arm_ok t pin :
  tick_accepted t -> lh < BlockHeight.raw (OracleTick.height t) ->
  coll < at_cr d (OracleTick.hi t) K_PAR -> u64 pin -> pin + d <= U64_MAX ->
  in_coin E 1 pin (pot_spk a) (obol p) -> out_coin E 1 (pin + d) (pot_spk a) (obol p) ->
  VaultCov.bad_debt P E d lh (lower_tick t) = Some tt.
Proof.
  intros Ht Hh Hband Hp Hpb Hpi Hpo. unfold VaultCov.bad_debt, lower_tick. quorum t Ht. do 2 cov_step.
  rewrite (collateral_ok p a E coll _ Hix Hin). cov_step. rewrite !rightmost_id by uint.
  change 200000000 with (RatioK.raw K_PAR). rewrite !cov_at_cr. cov_step.
  apply (pot_grows_ok p a E pin d); done || uint.
Qed.

Lemma redeem_arm_ok s' t x pin sin residual :
  s' = mkVault (Obol.new (d - x)) (owner s) (last_height s) ->
  tick_accepted t -> lh < BlockHeight.raw (OracleTick.height t) ->
  0 < x <= d ->
  u64 pin -> pin + x <= U64_MAX ->
  in_coin E 1 pin (pot_spk a) (obol p) -> out_coin E 1 (pin + x) (pot_spk a) (obol p) ->
  0 <= residual <= coll -> out_coin E 0 residual (vault_spk a s') (policy p) ->
  coll - residual <=
    at_cr x (OracleTick.hi t) (RatioK.min (OracleTick.backing_k t) K_PAR) ->
  u64 sin -> sin + at_cr x (OracleTick.hi t) K_FEE_HALF_PERCENT <= U64_MAX ->
  in_coin E 3 sin (stability_spk a) (policy p) ->
  out_coin E 3 (sin + at_cr x (OracleTick.hi t) K_FEE_HALF_PERCENT) (stability_spk a) (policy p) ->
  VaultCov.redeem P E d (owner s) lh x (lower_tick t) = Some tt.
Proof.
  intros -> Ht Hh Hx Hp Hpb Hpi Hpo Hres Hvo Hcap Hsn Hsb Hsi Hso.
  destruct (range_u32 t (proj1 Ht)) as (Hlo & Hhi & _).
  unfold VaultCov.redeem, lower_tick. quorum t Ht. do 3 cov_step.
  rewrite subtract_64_ok by uint. do 2 cov_step.
  rewrite (pot_grows_ok p a E pin x) by (done || uint). cov_step.
  rewrite (recurse_ok p a E residual _ Hvo Hs Hcmr Hkey :
    VaultCov.recurse_to P E (d - x) (owner s) lh = _). cov_step.
  pose proof (view_out _ _ _ _ _ Hvo) as (_ & _ & Hamt & _). cov_step.
  rewrite (collateral_ok p a E coll _ Hix Hin). cov_step.
  rewrite subtract_64_ok by uint. cov_step. rewrite !rightmost_id by uint.
  assert (min_32 200000000 (RatioK.raw (OracleTick.backing_k t))
    = RatioK.raw (RatioK.min (OracleTick.backing_k t) K_PAR)) as ->.
  { rewrite ratio_min_raw. unfold min_32. change (RatioK.raw K_PAR) with 200000000. lia. }
  change 1000000 with (RatioK.raw K_FEE_HALF_PERCENT). rewrite !cov_at_cr. cov_step.
  apply (stability_grows_ok p a E sin); try done; [uint|].
  apply at_cr_nonneg; [lia|apply Hhi|by vm_compute].
Qed.

Lemma refresh_arm_ok s' t out :
  s' = mkVault (debt s) (owner s) (OracleTick.height t) ->
  tick_accepted t -> lh < BlockHeight.raw (OracleTick.height t) ->
  at_cr d (OracleTick.hi t) K_HEALTH_GATE <= coll -> coll <= out ->
  out_coin E 0 out (vault_spk a s') (policy p) ->
  VaultCov.refresh P E d (owner s) lh (lower_tick t) = Some tt.
Proof.
  intros -> Ht Hh Hgate Hle Hvo. unfold VaultCov.refresh, lower_tick. quorum t Ht. do 2 cov_step.
  rewrite (collateral_ok p a E coll _ Hix Hin). cov_step. rewrite !rightmost_id by uint.
  change 260000000 with (RatioK.raw K_HEALTH_GATE). rewrite !cov_at_cr. cov_step.
  rewrite (recurse_ok p a E out _ Hvo Hs Hcmr Hkey :
    VaultCov.recurse_to P E d (owner s) (BlockHeight.raw (OracleTick.height t)) = _).
  cov_step. observe. cov_run.
Qed.

End VaultArms.

Section IssuerArms.
Context (Hcmr : env_cmr E = prog_cmr (a_issuer a)) (Hkey : cb_internal_key (env_cb E) = nums_key).
Context (s : IssuerState) (ix : Z) (Hix : env_ix E = ix)
  (Hin : in_coin E ix 1 (issuer_spk a s) (issuer_token p)).
Abbreviation P := (issuer_param p a).
Abbreviation anchor := (BlockHeight.raw (last_mint_height s)).

Lemma issuer_body_ok op :
  IssuerCov.dispatch P E anchor op = Some tt -> IssuerCov.body P E anchor op = Some tt.
Proof.
  intros Hop. pose proof Hin as Hcur. rewrite <- Hix in Hcur.
  apply view_current in Hcur as [Hch _]. unfold IssuerCov.body.
  rewrite issuer_own_spk by done. cov_run. done.
Qed.

Lemma recurse_token_ok h i :
  out_coin E i 1 (issuer_spk a (mkIssuer h)) (issuer_token p) ->
  IssuerCov.recurse_token P E (BlockHeight.raw h) i = Some tt.
Proof.
  intros Ho. pose proof Hin as Hcur. rewrite <- Hix in Hcur.
  apply view_current in Hcur as [_ Hca]. observe. unfold IssuerCov.recurse_token.
  rewrite (issuer_own_spk p a E (mkIssuer h) Hcmr Hkey :
    IssuerCov.own_spk_hash_for P E (BlockHeight.raw h) = _).
  cov_run.
Qed.

Lemma poke_arm_ok t :
  ix = 0 -> tick_accepted t -> anchor <= BlockHeight.raw (OracleTick.height t) ->
  out_coin E 0 1 (issuer_spk a (mkIssuer (OracleTick.height t))) (issuer_token p) ->
  IssuerCov.poke P E anchor (lower_tick t) = Some tt.
Proof.
  intros H0 Ht Hh Ho. unfold IssuerCov.poke, lower_tick. quorum t Ht. unfold current_index.
  do 3 cov_step. by apply recurse_token_ok.
Qed.

Lemma subtract_32_ok x y : 0 <= y <= x -> x <= U32_MAX -> subtract_32 x y = (false, x - y).
Proof.
  unfold subtract_32, U32_MAX. intros. rewrite Z.mod_small by lia. f_equal. apply Z.ltb_ge. lia.
Qed.

Lemma open_arm_ok v t x pin rin bspk coll :
  ix = 1 -> v = mkVault (Obol.new x) (owner v) (OracleTick.height t) ->
  length (owner v) = 32%nat ->
  tick_accepted t -> anchor <= BlockHeight.raw (OracleTick.height t) ->
  0 < x -> u32 x -> x <= pin -> u64 pin ->
  out_coin E 4 1 (issuer_spk a (mkIssuer (OracleTick.height t))) (issuer_token p) ->
  in_coin E 0 pin (pot_spk a) (obol p) -> out_coin E 1 (pin - x) (pot_spk a) (obol p) ->
  out_coin E 2 x bspk (obol p) ->
  u64 rin -> rin + at_cr x (OracleTick.lo t) K_FEE_HALF_PERCENT <= U64_MAX ->
  in_coin E 3 rin (stability_spk a) (policy p) ->
  out_coin E 3 (rin + at_cr x (OracleTick.lo t) K_FEE_HALF_PERCENT) (stability_spk a) (policy p) ->
  out_coin E 0 coll (vault_spk a v) (policy p) ->
  at_cr x (OracleTick.lo t) K_OPEN_MIN <= coll ->
  IssuerCov.open P E anchor x (owner v) (lower_tick t) = Some tt.
Proof.
  intros H1 Hv Ho Ht Hh Hx Hx32 Hxp Hp Hio Hpi Hpo Hbo Hr Hrb Hri Hro Hvo Hcoll.
  destruct (range_u32 t (proj1 Ht)) as (Hlo & _).
  assert (Hn : 0 <= at_cr x (OracleTick.lo t) K_FEE_HALF_PERCENT)
    by (apply at_cr_nonneg; [lia|apply Hlo|by vm_compute]).
  unfold IssuerCov.open, lower_tick. quorum t Ht. do 4 cov_step.
  rewrite (recurse_token_ok _ 4 Hio). cov_step.
  unfold current_index. rewrite Hix, H1, (subtract_32_ok 1 1) by uint.
  rewrite rightmost_id by done. unfold IssuerCov.required_sats.
  change (divide_64 (multiply_32 x 300000000) (multiply_32 (Price.raw (OracleTick.lo t)) 200))
    with (cov_coll_at_cr x (Price.raw (OracleTick.lo t)) (RatioK.raw K_OPEN_MIN)).
  change 1000000 with (RatioK.raw K_FEE_HALF_PERCENT). rewrite !cov_at_cr.
  assert (Hvs : IssuerCov.vault_spk_hash_for P x (owner v) (BlockHeight.raw (OracleTick.height t))
    = sha256 (vault_spk a v)) by (rewrite <- (issuer_vault_spk p) by done; by rewrite Hv).
  rewrite Hvs. change (1 - 1) with 0. observe. cov_run.
Qed.

Lemma draw_issuer_ok v v' x pin coll out :
  ix = 2 -> length (owner v) = 32%nat ->
  v' = mkVault (Obol.new (Obol.raw (debt v) + x)) (owner v) (last_height v') ->
  anchor <= BlockHeight.raw (last_height v') ->
  0 < x -> u32 (Obol.raw (debt v) + x) -> u32 (Obol.raw (debt v)) -> x <= pin -> u64 pin ->
  in_coin E 0 coll (vault_spk a v) (policy p) -> out_coin E 0 out (vault_spk a v') (policy p) ->
  in_coin E 1 pin (pot_spk a) (obol p) -> out_coin E 1 (pin - x) (pot_spk a) (obol p) ->
  out_coin E 3 1 (issuer_spk a (mkIssuer (last_height v'))) (issuer_token p) ->
  IssuerCov.draw P E anchor (Obol.raw (debt v)) (owner v) (BlockHeight.raw (last_height v))
    (Obol.raw (debt v')) (BlockHeight.raw (last_height v')) = Some tt.
Proof.
  intros H2 Ho Hv' Hh Hx Hdx Hd Hxp Hp Hvi Hvo Hpi Hpo Hio.
  assert (Hown : owner v' = owner v) by (by rewrite Hv').
  assert (Hdebt : Obol.raw (debt v') = Obol.raw (debt v) + x) by (by rewrite Hv').
  unfold IssuerCov.draw.
  rewrite (issuer_vault_spk p a v Ho). rewrite <- Hown.
  rewrite (issuer_vault_spk p a v') by congruence.
  pose proof (recurse_token_ok _ 3 Hio) as Hrt. observe.
  unfold current_index. rewrite Hix, H2, (subtract_32_ok 2 1) by uint. change (2 - 1) with 1.
  rewrite Hdebt, (subtract_64_ok (Obol.raw (debt v) + x)) by uint.
  replace (Obol.raw (debt v) + x - Obol.raw (debt v)) with x by lia. cov_run. exact Hrt.
Qed.

Lemma attest_arm_ok v t pin rin coll kspk :
  ix = 4 -> length (owner v) = 32%nat -> u32 (Obol.raw (debt v)) -> u64 coll ->
  tick_accepted t -> anchor <= BlockHeight.raw (OracleTick.height t) ->
  let d := Obol.raw (debt v) in
  let pay := Sats.raw (bad_debt_reserve_pay d (OracleTick.hi t) (Sats.new coll) (Sats.new rin)) in
  coll < at_cr d (OracleTick.hi t) K_PAR ->
  at_cr d (OracleTick.hi t) K_PAR + at_cr d (OracleTick.hi t) K_RESERVE_SHARE <= U64_MAX ->
  in_coin E 0 coll (vault_spk a v) (policy p) -> out_coin E 0 (coll + pay) kspk (policy p) ->
  coll + pay <= U64_MAX ->
  u64 pin -> pin + d <= U64_MAX ->
  in_coin E 1 pin (pot_spk a) (obol p) -> out_coin E 1 (pin + d) (pot_spk a) (obol p) ->
  u64 rin ->
  in_coin E 3 rin (stability_spk a) (policy p) -> out_coin E 2 (rin - pay) (stability_spk a) (policy p) ->
  out_coin E 3 1 (issuer_spk a (mkIssuer (OracleTick.height t))) (issuer_token p) ->
  IssuerCov.attest P E anchor d (owner v) (BlockHeight.raw (last_height v)) (lower_tick t) = Some tt.
Proof.
  intros H4 Ho Hd Hc Ht Hh d pay Hgate Hsum Hvi Hko Hcb Hp Hpb Hpi Hpo Hr Hri Hro Hio.
  destruct (range_u32 t (proj1 Ht)) as (_ & Hhi & _).
  assert (Hnb : 0 <= at_cr d (OracleTick.hi t) K_RESERVE_SHARE)
    by (apply at_cr_nonneg; [apply Hd|apply Hhi|by vm_compute]).
  assert (Hpay : pay = Z.min (Z.min (at_cr d (OracleTick.hi t) K_PAR - coll
      + at_cr d (OracleTick.hi t) K_RESERVE_SHARE) (at_cr d (OracleTick.hi t) K_BAD_DEBT_CAP)) rin).
  { subst pay. unfold bad_debt_reserve_pay. cbn [Sats.raw].
    fold (at_cr d (OracleTick.hi t) K_PAR) (at_cr d (OracleTick.hi t) K_RESERVE_SHARE)
      (at_cr d (OracleTick.hi t) K_BAD_DEBT_CAP).
    rewrite u64_sat_sub_id, u64_sat_add_id by uint. done. }
  assert (0 <= pay <= rin) as Hpr.
  { subst pay. pose proof (reserve_pay_bounds d (OracleTick.hi t) (Sats.new coll) (Sats.new rin)).
    cbn [Sats.raw] in *. unfold u32, u64 in *. lia. }
  pose proof (recurse_token_ok _ 3 Hio) as Hrt.
  unfold IssuerCov.attest, lower_tick.
  cbn [u32_val]. unfold current_index at 1. rewrite (issuer_vault_spk p a v Ho). cov_step. observe.
  do 2 cov_step. quorum t Ht. cov_step. rewrite !rightmost_id by done.
  change 200000000 with (RatioK.raw K_PAR). change 10000000 with (RatioK.raw K_RESERVE_SHARE).
  change 40000000 with (RatioK.raw K_BAD_DEBT_CAP). rewrite !cov_at_cr.
  do 5 cov_step. rewrite subtract_64_ok by uint. do 6 cov_step.
  rewrite add_64_ok by uint. cov_step. unfold min_64. rewrite <- Hpay. cov_run. exact Hrt.
Qed.

End IssuerArms.

Section PotReserveArms.

Lemma repay_main_ok pin pout :
  env_ix E = 1 -> in_coin E 1 pin (pot_spk a) (obol p) ->
  out_coin E 1 pout (pot_spk a) (obol p) -> pin <= pout ->
  RepayCov.main (obol p) E = Some tt.
Proof.
  clear HK. intros Hix Hpi Hpo Hle. pose proof Hpi as Hcur. rewrite <- Hix in Hcur.
  apply view_current in Hcur as [? ?]. observe. unfold RepayCov.main, current_index. cov_run.
Qed.

Lemma outflow_main_ok ix pin pout tok tspk :
  env_ix E = ix -> 0 <= ix < U32_MAX -> in_coin E ix pin (pot_spk a) (obol p) ->
  in_coin E (ix + 1) tok tspk (issuer_token p) ->
  out_coin E 1 pout (pot_spk a) (obol p) ->
  OutflowCov.main (obol p) (issuer_token p) E = Some tt.
Proof.
  clear HK. intros Hix Hr Hpi Hti Hpo. pose proof Hpi as Hcur. rewrite <- Hix in Hcur.
  apply view_current in Hcur as [? ?]. observe. unfold OutflowCov.main, current_index, add_32.
  rewrite Hix, Z.mod_small, (proj2 (Z.ltb_ge _ _)) by (unfold U32_MAX in *; lia). cov_run.
Qed.

Lemma accumulate_ok bal out :
  env_ix E = 3 -> in_coin E 3 bal (stability_spk a) (policy p) ->
  out_coin E 3 out (stability_spk a) (policy p) -> bal <= out ->
  StabilityCov.body (stability_param p a) E (lower_stability_op Accumulate) = Some tt.
Proof.
  clear HK. intros Hix Hsi Hso Hle. pose proof Hsi as Hcur. rewrite <- Hix in Hcur.
  apply view_current in Hcur as [? ?]. observe.
  unfold StabilityCov.body, StabilityCov.accumulate, StabilityCov.current_balance, current_index.
  cbn [lower_stability_op]. cov_run.
Qed.

Lemma stability_bad_debt_ok bal out pin pout tok tspk :
  env_ix E = 3 -> in_coin E 3 bal (stability_spk a) (policy p) ->
  out_coin E 2 out (stability_spk a) (policy p) -> out <= bal ->
  in_coin E 4 tok tspk (issuer_token p) ->
  in_coin E 1 pin (pot_spk a) (obol p) -> out_coin E 1 pout (pot_spk a) (obol p) -> pin < pout ->
  StabilityCov.body (stability_param p a) E (lower_stability_op SBadDebt) = Some tt.
Proof.
  clear HK. intros Hix Hsi Hso Hle Hti Hpi Hpo Hlt. pose proof Hsi as Hcur. rewrite <- Hix in Hcur.
  apply view_current in Hcur as [? ?]. observe.
  unfold StabilityCov.body, StabilityCov.bad_debt, StabilityCov.current_balance, current_index.
  cbn [lower_stability_op]. cov_run.
Qed.

End PotReserveArms.
End Arms.

(** ** From arms to slots *)

Section Slots.
Context `{HLib : Lib, !LibSpec HLib, !SigHash, !Compiler}.
Context (ctx : Ctx) (tx : Transaction) (utxos : list ElementsUtxo).
Abbreviation p := (ctx_params ctx).
Abbreviation a := (ctx_artifacts ctx).
Context (HA : artifacts_of p a) (HK : length (oracle_pks p) = 5%nat).

Lemma slot_inflow_ok i :
  (forall cb, RepayCov.main (obol p) (slot_env ctx tx utxos i (a_reserve_repay a) cb) = Some tt) ->
  slot_accepts ctx tx utxos (mkSlot i KPotInflow) = true.
Proof.
  intros Hm. unfold slot_accepts, slot_program. cbn [ws_kind ws_input].
  destruct (pot_control_block_some p a Inflow HA) as [cb ->].
  apply bool_decide_eq_true_2. unfold run_program.
  destruct (prog_covs p a HA) as (-> & _). rewrite (repay_params_ok p a HA). apply Hm.
Qed.

Lemma slot_outflow_ok i :
  (forall cb, OutflowCov.main (obol p) (issuer_token p)
     (slot_env ctx tx utxos i (a_pot_outflow a) cb) = Some tt) ->
  slot_accepts ctx tx utxos (mkSlot i KPotOutflow) = true.
Proof.
  intros Hm. unfold slot_accepts, slot_program. cbn [ws_kind ws_input].
  destruct (pot_control_block_some p a Outflow HA) as [cb ->].
  apply bool_decide_eq_true_2. unfold run_program.
  destruct (prog_covs p a HA) as (_ & -> & _).
  destruct (outflow_params_ok p a HA) as [-> ->]. apply Hm.
Qed.

Lemma slot_stability_ok i op :
  (forall cb, StabilityCov.body (stability_param p a)
     (slot_env ctx tx utxos i (a_stability a) cb) (lower_stability_op op) = Some tt) ->
  slot_accepts ctx tx utxos (mkSlot i (KStability op)) = true.
Proof.
  intros Hm. unfold slot_accepts, slot_program. cbn [ws_kind ws_input].
  rewrite (stability_control_block_some p a HA). apply bool_decide_eq_true_2. unfold run_program.
  destruct (prog_covs p a HA) as (_ & _ & -> & _).
  rewrite (stability_params_ok p a HA). cbn [mbind option_bind]. unfold StabilityCov.main.
  unfold witness_values. cbn [foldl fst snd]. rewrite lookup_insert_eq. cbn [mbind option_bind].
  unfold stability_op_value. rewrite read_value by (by destruct op). apply Hm.
Qed.

Lemma slot_vault_ok i s op :
  vault_wf s -> vault_op_wf op ->
  (forall cb, vault_control_block a s = Some cb -> cb_internal_key cb = nums_key ->
     VaultCov.body (vault_param p a) (slot_env ctx tx utxos i (a_vault a) cb)
       (Obol.raw (debt s)) (owner s) (BlockHeight.raw (last_height s)) (lower_vault_op op)
       = Some tt) ->
  slot_accepts ctx tx utxos (mkSlot i (KVault s op)) = true.
Proof.
  intros (Hd & Ho & Hh) Hop Hm. unfold slot_accepts, slot_program. cbn [ws_kind ws_input].
  pose proof (vault_control_block_some a s) as Hcb. rewrite Hcb. apply bool_decide_eq_true_2. unfold run_program.
  destruct (prog_covs p a HA) as (_ & _ & _ & -> & _).
  rewrite (vault_params_ok p a HA HK). cbn [mbind option_bind]. unfold VaultCov.main.
  unfold vault_witness, witness_values. cbn [foldl fst snd]. simpl_map. cbn [mbind option_bind].
  unfold vault_op_value.
  rewrite !read_value by (try done; by apply lower_vault_op_wf). cbn [mbind option_bind].
  by apply Hm.
Qed.

Lemma slot_issuer_ok i s op :
  u32 (BlockHeight.raw (last_mint_height s)) -> issuer_op_wf op ->
  (forall cb, cb_internal_key cb = nums_key ->
     IssuerCov.body (issuer_param p a) (slot_env ctx tx utxos i (a_issuer a) cb)
       (BlockHeight.raw (last_mint_height s)) (lower_issuer_op op) = Some tt) ->
  slot_accepts ctx tx utxos (mkSlot i (KIssuer s op)) = true.
Proof.
  intros Hh Hop Hm. unfold slot_accepts, slot_program. cbn [ws_kind ws_input].
  rewrite issuer_control_block_some. apply bool_decide_eq_true_2. unfold run_program.
  destruct (prog_covs p a HA) as (_ & _ & _ & _ & ->).
  rewrite (issuer_params_ok p a HA HK). cbn [mbind option_bind]. unfold IssuerCov.main.
  unfold issuer_witness, witness_values. cbn [foldl fst snd]. simpl_map. cbn [mbind option_bind].
  unfold issuer_op_value.
  rewrite !read_value by (try done; by apply lower_issuer_op_wf). cbn [mbind option_bind].
  by apply Hm.
Qed.

(** A vault or issuer slot accepts when its arm does. *)
Lemma slot_issuer_arm i s op :
  u32 (BlockHeight.raw (last_mint_height s)) -> issuer_op_wf op ->
  utxos !! Z.to_nat i = Some (claimed 1 (issuer_spk a s) (issuer_token p)) ->
  (forall cb, cb_internal_key cb = nums_key ->
     IssuerCov.dispatch (issuer_param p a) (slot_env ctx tx utxos i (a_issuer a) cb)
       (BlockHeight.raw (last_mint_height s)) (lower_issuer_op op) = Some tt) ->
  slot_accepts ctx tx utxos (mkSlot i (KIssuer s op)) = true.
Proof.
  intros Hh Hop Hu Hm. apply slot_issuer_ok; [done..|]. intros cb Hcb.
  apply (issuer_body_ok p a) with (ix := i); [done..|]. by apply Hm.
Qed.

Lemma slot_vault_arm s coll op :
  vault_wf s -> u32 (Obol.raw (debt s)) -> u64 coll -> vault_op_wf op ->
  utxos !! 0%nat = Some (claimed coll (vault_spk a s) (policy p)) ->
  (forall cb, vault_control_block a s = Some cb -> cb_internal_key cb = nums_key ->
     VaultCov.dispatch (vault_param p a) (slot_env ctx tx utxos 0 (a_vault a) cb)
       (Obol.raw (debt s)) (owner s) (BlockHeight.raw (last_height s)) (lower_vault_op op)
       = Some tt) ->
  slot_accepts ctx tx utxos (mkSlot 0 (KVault s op)) = true.
Proof.
  intros Hs Hd Hc Hop Hu Hm. apply slot_vault_ok; [done..|]. intros cb Hs' Hcb.
  apply (vault_body_ok p a (slot_env ctx tx utxos 0 (a_vault a) cb) HK eq_refl Hcb eq_refl s coll
    (proj1 (proj2 Hs)) Hd Hu). by apply Hm.
Qed.

End Slots.
