(* ===== verification/Sound.v ===== *)
(** * What a sound builder guarantees

    The vocabulary of the builder theorems: well-formed deploys, protocol states and
    signed ticks; balanced transactions; and the successor coins a builder announces.
    [MAX_MONEY] is the consensus bound on any explicit amount. *)

From Stdlib Require Import ZArith Lia.
From stdpp Require Import base gmap strings option list.
From S2P Require Import Prelude Units CrMath Elements Oracle Simf Encode Domain Artifacts Jets.
From S2P Require Import CovVault CovReserve CovIssuer Plan BuildOwner BuildKeeper Accept.
From S2P Require Import CovLemmas CovAccept.

Definition MAX_MONEY : Z := 2100000000000000.
Definition amount (x : Z) : Prop := 0 <= x <= MAX_MONEY.

(** ** Well-formed inputs of a builder *)

Definition deploy_ok `{Lib, Compiler} (ctx : Ctx) : Prop :=
  artifacts_of (ctx_params ctx) (ctx_artifacts ctx) /\ params_wf (ctx_params ctx).

Definition protocol_wf (s : ProtocolState) : Prop :=
  amount (Obol.raw (oc_value (pot s))) /\ amount (Sats.raw (oc_value (reserve s))) /\
  u32 (BlockHeight.raw (last_mint_height (state (issuer s)))).

Definition vault_on_wf (v : OnChain VaultState) : Prop :=
  vault_wf (state v) /\ amount (Sats.raw (oc_value v)).

(** Every quote of the tick is signed by the oracle of its slot. *)
Definition tick_signed `{Lib} (pks : list bytes) (t : OracleTick.t) : Prop :=
  tick_ok t /\
  forall i pk q, pks !! i = Some pk -> OracleTick.slots t !! i = Some (Some q) ->
    verify_schnorr pk
      (tick_digest (mkPayload (OracleTick.height t) (sq_price q) (OracleTick.backing_k t)))
      (sq_sig q) = true.

(** ** What a plan promises *)

(** No asset is created or destroyed. *)
Definition balanced (pl : TxPlan) : Prop :=
  forall asset, total_in asset (p_utxos pl) = total_out asset (output (p_tx pl)).

Section Tracking.
Context `{Lib} (ctx : Ctx) (tx : Transaction).

(** The announced coin is an output of the transaction, at the address of its state. *)
Definition vault_at (v : OnChain VaultState) : Prop :=
  op_txid (outpoint v) = txid_of tx /\
  output tx !! Z.to_nat (op_vout (outpoint v)) =
    Some (txout (Sats.raw (oc_value v)) (vault_spk (ctx_artifacts ctx) (state v))
            (policy (ctx_params ctx))).
Definition pot_at (v : OnChain PotState) : Prop :=
  op_txid (outpoint v) = txid_of tx /\
  output tx !! Z.to_nat (op_vout (outpoint v)) =
    Some (txout (Obol.raw (oc_value v)) (pot_spk (ctx_artifacts ctx)) (obol (ctx_params ctx))).
Definition reserve_at (v : OnChain ReserveState) : Prop :=
  op_txid (outpoint v) = txid_of tx /\
  output tx !! Z.to_nat (op_vout (outpoint v)) =
    Some (txout (Sats.raw (oc_value v)) (stability_spk (ctx_artifacts ctx))
            (policy (ctx_params ctx))).
Definition issuer_at (v : OnChain IssuerState) : Prop :=
  op_txid (outpoint v) = txid_of tx /\
  output tx !! Z.to_nat (op_vout (outpoint v)) =
    Some (txout (oc_value v) (issuer_spk (ctx_artifacts ctx) (state v))
            (issuer_token (ctx_params ctx))).

End Tracking.

(** ** Lemmas *)

Lemma check_zero_price_ok t : tick_wf t -> check_zero_price t = Ok tt <->
  0 < Price.raw (OracleTick.lo t).
Proof.
  intros Hwf. unfold check_zero_price, OracleTick.lo. destruct (range_u32 t Hwf) as (Hlo & _).
  unfold OracleTick.lo in Hlo. destruct (OracleTick.price_range t) as [lo hi]. cbn in *.
  unfold u32 in Hlo. destruct (Z.eqb_spec (Price.raw lo) 0); split; intros; try lia; done.
Qed.

Section SignedTicks.
Context `{Lib}.

Lemma slots_valid_intro h k pks slots :
  length pks = length slots ->
  (forall i pk q, pks !! i = Some pk -> slots !! i = Some (Some q) -> quote_valid h k pk q = true) ->
  slots_valid h k pks slots = true.
Proof.
  revert pks. induction slots as [|o slots IH]; intros [|pk pks] Hl HF; try done.
  cbn. injection Hl as Hl. assert (slots_valid h k pks slots = true) as ->.
  { apply IH; [done|]. intros i. apply (HF (S i)). }
  destruct o as [q|]; [|done]. by rewrite (HF 0%nat pk q).
Qed.

(** A signed tick with no zero price passes the covenants' quorum. *)
Lemma signed_tick_valid pks t :
  length pks = 5%nat -> tick_signed pks t -> check_zero_price t = Ok tt ->
  tick_valid pks t = true.
Proof.
  intros Hp [[Hwf Hs] Hsig] Hz. apply check_zero_price_ok in Hz; [|done].
  apply slots_valid_intro; [rewrite (wf_slots t Hwf); done|].
  intros i pk q Hpk Hq. unfold quote_valid. rewrite (Hsig i pk q) by done. cbn.
  pose proof (lo_le q t (elem_of_quotes_in _ _ _ Hq)). apply Z.ltb_lt. lia.
Qed.

Lemma txin_not_final l x tx :
  input tx = txin x :: l -> lock_time tx < LOCK_TIME_HEIGHT_THRESHOLD ->
  tx_lock_height tx = lock_time tx.
Proof.
  intros Hi Hl. unfold tx_lock_height, tx_is_final. rewrite Hi. cbn.
  by rewrite (proj2 (Z.ltb_lt _ _) Hl).
Qed.

(** A tick-carrying transaction is locked to the tick's height. *)
Lemma locked_tick pks t E x l :
  length pks = 5%nat -> tick_signed pks t -> check_zero_price t = Ok tt ->
  input (env_tx E) = txin x :: l ->
  lock_time (env_tx E) = BlockHeight.raw (OracleTick.height t) ->
  forall p, oracle_pks p = pks -> tick_accepted p E t.
Proof.
  intros Hp Hs Hz Hi Hl p <-. split; [apply Hs|]. split; [by apply signed_tick_valid|].
  rewrite (txin_not_final l x); [lia|done|]. rewrite Hl. apply (wf_height t), Hs.
Qed.

End SignedTicks.

Lemma check_tick_ok t anchor : check_tick t anchor = Ok tt <->
  check_zero_price t = Ok tt /\ BlockHeight.raw anchor <= BlockHeight.raw (OracleTick.height t).
Proof.
  unfold check_tick. destruct (check_zero_price t) as [[]|]; cbn; [|naive_solver].
  destruct (Z.ltb_spec (BlockHeight.raw (OracleTick.height t)) (BlockHeight.raw anchor));
    naive_solver lia.
Qed.

Lemma check_ratchet_ok t lh : check_vault_ratchet t lh = Ok tt <->
  BlockHeight.raw lh < BlockHeight.raw (OracleTick.height t).
Proof.
  unfold check_vault_ratchet.
  destruct (Z.leb_spec (BlockHeight.raw (OracleTick.height t)) (BlockHeight.raw lh));
    naive_solver lia.
Qed.

(** Collateral amounts stay far below the [u64] range: at any positive price a [u32] debt
    is worth at most [2^32 * k / 200] sats. *)
Lemma at_cr_bound d p k :
  u32 d -> 0 < Price.raw p -> 0 <= RatioK.raw k <= 300000000 ->
  0 <= at_cr d p k <= 6442450942500000.
Proof.
  intros Hd Hp Hk. unfold u32 in Hd. split; [apply at_cr_nonneg; lia|].
  unfold at_cr. rewrite coll_at_cr_raw. apply Z.div_le_upper_bound; [lia|].
  transitivity (4294967295 * 300000000); [nia|]. nia.
Qed.

Lemma range_pos t : tick_wf t -> check_zero_price t = Ok tt ->
  0 < Price.raw (OracleTick.lo t) /\ 0 < Price.raw (OracleTick.hi t).
Proof.
  intros Hwf Hz. apply check_zero_price_ok in Hz; [|done]. destruct (range_u32 t Hwf) as (_&_&?). lia.
Qed.

(** Sums over the coins of a plan. *)
Lemma total_in_claimed x v spk asset l :
  total_in x (claimed v spk asset :: l) = (if bool_decide (asset = x) then v else 0) + total_in x l.
Proof. done. Qed.
Lemma total_in_nil x : total_in x [] = 0.
Proof. done. Qed.
Lemma total_out_txout x v spk asset l :
  total_out x (txout v spk asset :: l) = (if bool_decide (asset = x) then v else 0) + total_out x l.
Proof. done. Qed.
Lemma total_out_fee x v asset l :
  total_out x (fee_out v asset :: l) =
    (if bool_decide (asset = x) then Sats.raw v else 0) + total_out x l.
Proof. done. Qed.
Lemma total_out_nil x : total_out x [] = 0.
Proof. done. Qed.
#[export] Hint Rewrite total_in_claimed total_in_nil total_out_txout total_out_fee total_out_nil
  : totals.

(** Side conditions of the arm lemmas: coins by computation, amounts by arithmetic. *)
Lemma out_coin_eq E i v v' spk asset :
  output (env_tx E) !! Z.to_nat i = Some (txout v' spk asset) -> v' = v -> out_coin E i v spk asset.
Proof. by intros ? <-. Qed.

Ltac amounts :=
  unfold vault_on_wf, vault_wf, protocol_wf, amount, MAX_MONEY in *; destruct_and?;
  cbn [Sats.raw Obol.raw debt owner last_height u64_val u64_of u32_val u32_of] in *; uint.

Ltac side :=
  lazymatch goal with
  | |- out_coin _ _ _ _ _ => eapply out_coin_eq; [reflexivity|amounts]
  | |- in_coin _ _ _ _ _ => reflexivity
  | |- _ = mkVault _ _ _ => repeat (reflexivity || amounts || apply obol_eta || f_equal)
  | |- _ => first [done | reflexivity | amounts]
  end.
