(* ===== verification/Quotes.v ===== *)
(** * Oracle quotes off the wire ([styx-watch/src/quotes.rs])

    The wire quote, the verified per-height cache and tick assembly.  A quote enters the
    book only after its signature verified under the covenant key of its slot, so what
    [assemble_tick] returns meets the premise of the builder theorems ([tick_signed]).

    The JSON form is serde's and is not modelled; a Rust string is its UTF-8 bytes.  A
    string slice at a byte that is not a character boundary panics: [sig_bytes] and
    [insert] return [None] there. *)

From Stdlib Require Import ZArith Lia.
From stdpp Require Import base gmap strings option list.
From S2P Require Import Prelude Hex Units CrMath Elements Oracle Simf Encode Domain Artifacts.
From S2P Require Import Jets CovVault CovReserve CovIssuer Plan BuildOwner BuildKeeper Accept.
From S2P Require Import CovLemmas CovAccept Sound.

Module QuoteError.

Inductive t : Type :=
| Slot (slot : Z)
| ZeroPrice (slot height : Z)
| SigEncoding
| BadSignature (slot height : Z)
| Stale (height tip horizon : Z)
| Future (height tip : Z).

End QuoteError.

Module WireQuote.

Record t : Type := mk {
  slot : Z;
  height : Z;
  price : Z;
  backing_k : Z;
  sig : bytes;
  name : bytes
}.

(** [sign]; the [as u8] of a slot index below five is the identity. *)
Definition sign `{Lib} (kp : bytes) (s : OracleSlot.t) (payload : TickPayload) : t :=
  let q := sign_quote kp payload in
  mk (OracleSlot.idx s) (BlockHeight.raw (tp_height payload)) (Price.raw (tp_price payload))
    (RatioK.raw (tp_backing_k payload)) (hex (sq_sig q)) [].

Definition payload (q : t) : TickPayload :=
  mkPayload (BlockHeight.new (height q)) (Price.new (price q)) (RatioK.new (backing_k q)).

(** A UTF-8 continuation byte: [str::is_char_boundary] is false in front of it. *)
Definition continuation (b : Byte.byte) : bool :=
  (128 <=? byte_to_Z b) && (byte_to_Z b <? 192).

Definition starts_char (s : bytes) : bool :=
  match s with [] => true | b :: _ => negb (continuation b) end.

(** The loop of [sig_bytes]: slice [2i..2i+2] and parse it.  The slice starts where the last
    one ended, so only its end can fall inside a character. *)
Fixpoint sig_pairs (s : bytes) : option (result QuoteError.t bytes) :=
  match s with
  | a :: b :: rest =>
      if negb (starts_char rest) then None
      else match from_hex_pair a b with
           | None => Some (Err QuoteError.SigEncoding)
           | Some x => r ← sig_pairs rest; Some (l ← r; Ok (byte_of_Z x :: l))
           end
  | _ => Some (Ok [])
  end.

Definition sig_bytes (q : t) : option (result QuoteError.t bytes) :=
  if bool_decide (length (sig q) <> 128%nat) then Some (Err QuoteError.SigEncoding) else sig_pairs (sig q).

End WireQuote.

Module QuoteBook.

Abbreviation Entry := (option (RatioK.t * SignedQuote)) (only parsing).

Record t : Type := mk {
  oracle_pks : list XOnlyPublicKey;
  horizon : Z;
  drift : Z;
  heights : gmap Z (list Entry)
}.

Definition DEFAULT_HORIZON : Z := 32.
Definition DEFAULT_DRIFT : Z := 2.

Definition with_window (pks : list XOnlyPublicKey) (horizon drift : Z) : t := mk pks horizon drift ∅.
Definition new (pks : list XOnlyPublicKey) : t := with_window pks DEFAULT_HORIZON DEFAULT_DRIFT.

(** The cache update: [entry(..).or_insert(..)], the slot write, then [retain]. *)
Definition record_quote (b : t) (height floor : Z) (slot : nat) (e : RatioK.t * SignedQuote) : t :=
  let entry := default (replicate 5 None) (heights b !! height) in
  mk (oracle_pks b) (horizon b) (drift b)
    (filter (fun x => floor <= x.1) (<[height := <[slot := Some e]> entry]> (heights b))).

(** [Signature::from_slice] takes any 64 bytes. *)
Definition insert `{Lib} (b : t) (q : WireQuote.t) (tip : BlockHeight.t)
    : option (result QuoteError.t t) :=
  match OracleSlot.new (WireQuote.slot q) with
  | Err _ => Some (Err (QuoteError.Slot (WireQuote.slot q)))
  | Ok slot =>
      if WireQuote.price q =? 0
      then Some (Err (QuoteError.ZeroPrice (WireQuote.slot q) (WireQuote.height q))) else
      let floor := u32_sat_sub (BlockHeight.raw tip) (horizon b) in
      if WireQuote.height q <? floor
      then Some (Err (QuoteError.Stale (WireQuote.height q) (BlockHeight.raw tip) (horizon b))) else
      if u32_sat_add (BlockHeight.raw tip) (drift b) <? WireQuote.height q
      then Some (Err (QuoteError.Future (WireQuote.height q) (BlockHeight.raw tip))) else
      r ← WireQuote.sig_bytes q;
      match r with
      | Err e => Some (Err e)
      | Ok sig =>
          pk ← oracle_pks b !! OracleSlot.index slot;
          if negb (verify_schnorr pk (tick_digest (WireQuote.payload q)) sig)
          then Some (Err (QuoteError.BadSignature (WireQuote.slot q) (WireQuote.height q)))
          else Some (Ok (record_quote b (WireQuote.height q) floor (OracleSlot.index slot)
                 (RatioK.new (WireQuote.backing_k q),
                  mkQuote (Price.new (WireQuote.price q)) sig)))
      end
  end.

Definition count (b : t) (height : BlockHeight.t) : nat :=
  match heights b !! BlockHeight.raw height with
  | Some slots => length (omap id slots)
  | None => 0
  end.

(** [by_k]: the quotes of a height grouped by backing ratio, in slot order. *)
Fixpoint by_k (slots : list Entry) (i : nat) (m : gmap Z (list (nat * SignedQuote)))
    : gmap Z (list (nat * SignedQuote)) :=
  match slots with
  | [] => m
  | None :: slots => by_k slots (S i) m
  | Some (k, q) :: slots =>
      by_k slots (S i) (<[RatioK.raw k := default [] (m !! RatioK.raw k) ++ [(i, q)]]> m)
  end.

(** The order of the key [(v.len(), Reverse(k))]. *)
Definition support_le (a b : Z * list (nat * SignedQuote)) : bool :=
  (length a.2 <? length b.2)%nat || ((length a.2 =? length b.2)%nat && (b.1 <=? a.1)).

Definition slot_of (x : nat * SignedQuote) : option (OracleSlot.t * SignedQuote) :=
  s ← ok (OracleSlot.new (Z.of_nat x.1)); Some (s, x.2).

Definition assemble_tick (b : t) (height : BlockHeight.t) : option OracleTick.t :=
  slots ← heights b !! BlockHeight.raw height;
  let groups := filter (fun x => (3 <= length x.2)%nat) (map_to_list (by_k slots 0 ∅)) in
  '(k_raw, quorum) ← max_by support_le groups;
  match omap slot_of (take 3 quorum) with
  | [q1; q2; q3] => ok (OracleTick.new height (RatioK.new k_raw) (q1, q2, q3))
  | _ => None
  end.

End QuoteBook.

(** ** Lemmas: the signature text *)

Lemma digit_starts n l : 0 <= n < 16 -> WireQuote.starts_char (hex_digit n :: l) = true.
Proof.
  intros Hn%hex_digit_range. cbn. unfold WireQuote.continuation.
  by rewrite (proj2 (Z.leb_gt _ _)) by lia.
Qed.

Lemma hex_starts l : WireQuote.starts_char (hex l) = true.
Proof. destruct l as [|b l]; [done|]. rewrite hex_cons. apply digit_starts, nibbles. Qed.

Lemma sig_pairs_hex l : WireQuote.sig_pairs (hex l) = Some (Ok l).
Proof.
  induction l as [|b l IH]; [done|]. rewrite hex_cons. cbn [WireQuote.sig_pairs].
  rewrite hex_starts, from_hex_pair_digits. cbn [negb]. rewrite IH. cbn. by rewrite byte_of_to_Z.
Qed.

Lemma sig_pairs_length n s l :
  WireQuote.sig_pairs s = Some (Ok l) -> length s = (2 * n)%nat -> length l = n.
Proof.
  revert s l. induction n as [|n IH]; intros [|a [|b s]] l Hd Hn; cbn in Hn; try lia.
  - by injection Hd as <-.
  - cbn [WireQuote.sig_pairs] in Hd. destruct (WireQuote.starts_char s); [|done].
    destruct (from_hex_pair a b); [|done]. cbn [negb] in Hd.
    apply bind_Some in Hd as ([l'|] & Hr & [= <-]). cbn. f_equal.
    eapply IH; [done|lia].
Qed.

Lemma sig_bytes_length q l : WireQuote.sig_bytes q = Some (Ok l) -> length l = 64%nat.
Proof.
  unfold WireQuote.sig_bytes. case_bool_decide as Hl; [done|]. intros H.
  by apply (sig_pairs_length 64 (WireQuote.sig q)).
Qed.

(** ** Lemmas: grouping *)

Import QuoteBook.

(** The quotes of one backing ratio with their slots. *)
Fixpoint support (kk : Z) (slots : list Entry) (i : nat) : list (nat * SignedQuote) :=
  match slots with
  | [] => []
  | Some (k, q) :: slots =>
      if RatioK.raw k =? kk then (i, q) :: support kk slots (S i) else support kk slots (S i)
  | None :: slots => support kk slots (S i)
  end.

Lemma by_k_lookup kk slots i m :
  by_k slots i m !! kk =
  match support kk slots i with [] => m !! kk | l => Some (default [] (m !! kk) ++ l) end.
Proof.
  revert i m. induction slots as [|[[k q]|] slots IH]; intros i m; cbn; [done| |apply IH].
  rewrite IH. destruct (Z.eqb_spec (RatioK.raw k) kk) as [<-|Hne].
  - rewrite lookup_insert_eq. cbn. destruct (support _ slots _); by rewrite <- ?app_assoc.
  - by rewrite lookup_insert_ne.
Qed.

Lemma by_k_group kk slots l :
  by_k slots 0 ∅ !! kk = Some l <-> l = support kk slots 0 /\ l <> [].
Proof.
  rewrite by_k_lookup, lookup_empty. destruct (support kk slots 0); cbn; naive_solver.
Qed.

Lemma support_elem kk slots i j q :
  (j, q) ∈ support kk slots i <->
  exists n k, j = (i + n)%nat /\ slots !! n = Some (Some (k, q)) /\ RatioK.raw k = kk.
Proof.
  revert i. induction slots as [|e slots IH]; intros i.
  - split; [by intros ?%not_elem_of_nil|by intros (?&?&?&?&?)].
  - assert (Hs : (j, q) ∈ support kk slots (S i) <-> exists n k,
      j = (i + S n)%nat /\ (e :: slots) !! S n = Some (Some (k, q)) /\ RatioK.raw k = kk).
    { rewrite IH. cbn. setoid_rewrite Nat.add_succ_r. naive_solver. }
    split.
    + intros H. destruct e as [[k q']|]; cbn in H; [|apply Hs in H as (m&?&?); eauto].
      destruct (Z.eqb_spec (RatioK.raw k) kk); [apply elem_of_cons in H as [[= -> ->]|H]|];
        [exists 0%nat, k; split_and!; [lia|done..]|apply Hs in H as (m&?&?); eauto..].
    + intros ([|n] & k & -> & Hn & <-).
      * injection Hn as ->. cbn. rewrite Z.eqb_refl, Nat.add_0_r. left.
      * assert ((i + S n, q)%nat ∈ support (RatioK.raw k) slots (S i)) by (apply Hs; eauto).
        destruct e as [[k' q']|]; cbn; [case_match; [by right|done]|done].
Qed.

Lemma support_nodup kk slots i : NoDup (fst <$> support kk slots i).
Proof.
  revert i. induction slots as [|[[k q]|] slots IH]; intros i; cbn; [apply NoDup_nil_2| |apply IH].
  destruct (RatioK.raw k =? kk); [|apply IH]. cbn. constructor; [|apply IH].
  rewrite list_elem_of_fmap. intros ([j q'] & -> & H).
  apply support_elem in H as (n & ? & ? & _). cbn in *. lia.
Qed.

Lemma support_disjoint k1 k2 slots i :
  k1 <> k2 -> (length (support k1 slots i) + length (support k2 slots i) <= length slots)%nat.
Proof.
  intros Hne. revert i. induction slots as [|[[k q]|] slots IH]; intros i; cbn; [lia| |].
  - specialize (IH (S i)). destruct (Z.eqb_spec (RatioK.raw k) k1), (Z.eqb_spec (RatioK.raw k) k2);
      cbn; lia.
  - specialize (IH (S i)). lia.
Qed.

(** ** The invariant of the book *)

Definition wire_wf (q : WireQuote.t) : Prop :=
  u8 (WireQuote.slot q) /\ u32 (WireQuote.height q) /\ u32 (WireQuote.price q) /\
  u32 (WireQuote.backing_k q).

Section Book.
Context `{HL : Lib}.

(** A cached quote verified under its slot's key, for its own height, price and ratio. *)
Record entry_ok (pk : XOnlyPublicKey) (h : Z) (k : RatioK.t) (q : SignedQuote) : Prop := {
  eo_sig : verify_schnorr pk
    (tick_digest (mkPayload (BlockHeight.new h) (sq_price q) k)) (sq_sig q) = true;
  eo_price : 0 < Price.raw (sq_price q) < 4294967296;
  eo_ratio : u32 (RatioK.raw k);
  eo_length : length (sq_sig q) = 64%nat
}.

Definition entries_ok (pks : list XOnlyPublicKey) (h : Z) (slots : list Entry) : Prop :=
  length slots = 5%nat /\
  forall i pk k q, pks !! i = Some pk -> slots !! i = Some (Some (k, q)) -> entry_ok pk h k q.

Definition book_wf (b : QuoteBook.t) : Prop :=
  length (oracle_pks b) = 5%nat /\
  forall h slots, heights b !! h = Some slots -> u32 h /\ entries_ok (oracle_pks b) h slots.

Lemma record_lookup b h floor s e h' :
  heights (record_quote b h floor s e) !! h' =
  if decide (floor <= h') then
    if decide (h' = h) then Some (<[s := Some e]> (default (replicate 5 None) (heights b !! h)))
    else heights b !! h'
  else None.
Proof.
  cbn. destruct (decide (floor <= h')).
  - rewrite map_lookup_filter. destruct (decide (h' = h)) as [->|].
    + rewrite lookup_insert_eq. cbn. by rewrite option_guard_True.
    + rewrite lookup_insert_ne by done. destruct (heights b !! h'); cbn; [|done].
      by rewrite option_guard_True.
  - rewrite map_lookup_filter_None. right. by intros x _.
Qed.

Lemma insert_inv b q tip b' :
  insert b q tip = Some (Ok b') ->
  exists slot pk sig,
    OracleSlot.new (WireQuote.slot q) = Ok slot /\ WireQuote.price q <> 0 /\
    WireQuote.sig_bytes q = Some (Ok sig) /\ oracle_pks b !! OracleSlot.index slot = Some pk /\
    verify_schnorr pk (tick_digest (WireQuote.payload q)) sig = true /\
    b' = record_quote b (WireQuote.height q) (u32_sat_sub (BlockHeight.raw tip) (horizon b))
           (OracleSlot.index slot)
           (RatioK.new (WireQuote.backing_k q), mkQuote (Price.new (WireQuote.price q)) sig).
Proof.
  unfold insert. destruct (OracleSlot.new _) as [slot|]; [|done].
  destruct (Z.eqb_spec (WireQuote.price q) 0); [done|]. destruct (_ <? _); [done|].
  destruct (_ <? _); [done|]. intros H. apply bind_Some in H as ([sig|] & Hs & H); [|done].
  apply bind_Some in H as (pk & Hpk & H). destruct (verify_schnorr _ _ _) eqn:Hv; [|done].
  injection H as <-. by exists slot, pk, sig.
Qed.

Lemma entries_ok_default b h :
  book_wf b -> entries_ok (oracle_pks b) h (default (replicate 5 None) (heights b !! h)).
Proof.
  intros [_ Hb]. destruct (heights b !! h) as [slots|] eqn:E; [by apply Hb in E as [_ ?]|].
  split; [done|]. intros i pk k q _ Hi. by apply (lookup_replicate 5 None) in Hi as [? _].
Qed.

Lemma insert_wf b q tip b' :
  book_wf b -> wire_wf q -> insert b q tip = Some (Ok b') ->
  book_wf b' /\ oracle_pks b' = oracle_pks b.
Proof.
  intros Hb (Hs & Hh & Hp & Hk) Hi.
  apply insert_inv in Hi as (slot & pk & sig & Hn & Hz & Hsig & Hpk & Hv & ->).
  split; [|done]. split; [apply Hb|]. intros h slots. rewrite record_lookup.
  destruct (decide _); [|done]. destruct (decide _) as [->|]; [|by apply Hb].
  intros [= <-]. split; [done|]. destruct (entries_ok_default b (WireQuote.height q) Hb) as [Hl He].
  split; [by rewrite length_insert|]. intros i pk' k q' Hpk' Hi.
  apply list_lookup_insert_Some in Hi as [(<- & [= <- <-] & _)|[_ Hi]]; [|by eapply He].
  cbn in Hpk'. simplify_eq. constructor; cbn; [done|uint|done|by eapply sig_bytes_length].
Qed.

(** A well-formed group of one backing ratio. *)
Lemma support_entry pks h slots kk j q :
  entries_ok pks h slots -> length pks = 5%nat -> (j, q) ∈ support kk slots 0 ->
  (j < 5)%nat /\ exists pk, pks !! j = Some pk /\ entry_ok pk h (RatioK.new kk) q.
Proof.
  intros [Hl He] Hp (n & k & -> & Hn & <-)%support_elem. cbn in *.
  pose proof (lookup_lt_Some _ _ _ Hn) as Hlt. split; [lia|].
  destruct (lookup_lt_is_Some_2 pks n) as [pk Hpk]; [lia|]. exists pk. split; [done|].
  destruct k. by eapply He.
Qed.

Lemma groups_elem slots kk l :
  (kk, l) ∈ filter (fun x => (3 <= length x.2)%nat) (map_to_list (by_k slots 0 ∅)) <->
  l = support kk slots 0 /\ (3 <= length l)%nat.
Proof.
  rewrite list_elem_of_filter, elem_of_map_to_list, by_k_group. cbn.
  split; [naive_solver|]. intros [? Hl]. split_and!; [done..|]. intros ->. cbn in Hl. lia.
Qed.

Lemma slot_of_ok j q : (j < 5)%nat -> slot_of (j, q) = Some (OracleSlot.mk (Z.of_nat j), q).
Proof.
  intros. unfold slot_of, OracleSlot.new. cbn. by rewrite (proj2 (Z.ltb_ge _ _)) by lia.
Qed.

(** What assembly takes from a group of at least three quotes. *)
Lemma take_three pks h slots kk :
  entries_ok pks h slots -> length pks = 5%nat -> (3 <= length (support kk slots 0))%nat ->
  exists q1 q2 q3, omap slot_of (take 3 (support kk slots 0)) = [q1; q2; q3] /\
    NoDup (OracleSlot.index ∘ fst <$> [q1; q2; q3]) /\
    Forall (fun q => (OracleSlot.index q.1 < 5)%nat /\ exists pk,
      pks !! OracleSlot.index q.1 = Some pk /\ entry_ok pk h (RatioK.new kk) q.2) [q1; q2; q3].
Proof.
  intros He Hp Hl. pose proof (support_nodup kk slots 0) as Hnd.
  pose proof (fun j q => support_entry pks h slots kk j q He Hp) as Hin.
  destruct (support kk slots 0) as [|[j1 q1] [|[j2 q2] [|[j3 q3] rest]]]; cbn in Hl; [lia..|].
  assert (H1 := Hin j1 q1 ltac:(set_solver)). assert (H2 := Hin j2 q2 ltac:(set_solver)).
  assert (H3 := Hin j3 q3 ltac:(set_solver)).
  exists (OracleSlot.mk (Z.of_nat j1), q1), (OracleSlot.mk (Z.of_nat j2), q2),
    (OracleSlot.mk (Z.of_nat j3), q3).
  cbn [take omap list_omap]. rewrite !slot_of_ok by tauto. split; [done|].
  cbn [fmap list_fmap compose fst snd] in *. unfold OracleSlot.index. cbn [OracleSlot.idx].
  rewrite !Nat2Z.id. split.
  - apply (sublist_NoDup _ (j1 :: j2 :: j3 :: (fst <$> rest))); [done|].
    by apply (sublist_inserts_r (fst <$> rest) [j1; j2; j3] [j1; j2; j3]).
  - rewrite !Forall_cons. cbn [fst snd OracleSlot.idx]. rewrite !Nat2Z.id.
    destruct H1, H2, H3. split_and!; [done..|by constructor].
Qed.

Lemma assemble_inv b h t :
  assemble_tick b h = Some t ->
  exists slots kk q1 q2 q3, heights b !! BlockHeight.raw h = Some slots /\
    (3 <= length (support kk slots 0))%nat /\
    omap slot_of (take 3 (support kk slots 0)) = [q1; q2; q3] /\
    OracleTick.new h (RatioK.new kk) (q1, q2, q3) = Ok t.
Proof.
  unfold assemble_tick. intros H. apply bind_Some in H as (slots & Hs & H).
  apply bind_Some in H as ([kk l] & Hm & H).
  apply max_by_elem, groups_elem in Hm as [-> Hl].
  exists slots, kk. destruct (omap _ _) as [|q1 [|q2 [|q3 [|]]]]; try done.
  apply ok_some in H. by exists q1, q2, q3.
Qed.

(** A tick assembled from a well-formed book carries verified quotes at positive prices. *)
Lemma assemble_signed b h t :
  book_wf b -> assemble_tick b h = Some t ->
  OracleTick.height t = h /\ tick_signed (oracle_pks b) t /\ check_zero_price t = Ok tt.
Proof.
  intros [Hp Hb] (slots & kk & q1 & q2 & q3 & Hs & Hl & Ho & Hn)%assemble_inv.
  destruct (Hb _ _ Hs) as [Hu He].
  destruct (take_three _ _ _ _ He Hp Hl) as (q1' & q2' & q3' & Ho' & Hnd & HF).
  rewrite Ho in Ho'. injection Ho' as <- <- <-.
  destruct (tick_new_inv _ _ _ _ _ _ Hn) as (Hth & Hh & Hk & Hin).
  destruct (tick_new_total h (RatioK.new kk) q1 q2 q3 Hth) as (t' & Hn' & H5 & Hq); [|done|].
  { eapply Forall_impl; [exact HF|]. by intros ? [? _]. }
  rewrite Hn in Hn'. injection Hn' as <-. split; [done|].
  assert (HE : forall i q pk, oracle_pks b !! i = Some pk -> OracleTick.slots t !! i = Some (Some q) ->
    entry_ok pk (BlockHeight.raw h) (RatioK.new kk) q).
  { intros i q pk Hpk Hi. destruct (Hin i q Hi) as (s & Hel & <-). rewrite Forall_forall in HF.
    destruct (HF _ Hel) as (_ & pk' & Hpk' & ?). cbn in *. by simplify_eq. }
  assert (HQ : Forall (fun q => exists pk, entry_ok pk (BlockHeight.raw h) (RatioK.new kk) q)
    (quotes_in (OracleTick.slots t))).
  { rewrite Hq, Forall_fmap. eapply Forall_impl; [exact HF|]. intros q (_ & pk & _ & ?). by exists pk. }
  assert (Hwf : tick_wf t).
  { constructor; rewrite ?Hh, ?Hk; [done|by rewrite Hq|uint| |].
    - assert (Hx := proj1 (Forall_cons _ _ _) HF). destruct Hx as [(_ & ? & _ & Hx) _]. apply Hx.
    - eapply Forall_impl; [exact HQ|]. intros q (pk & []). uint. }
  split_and!.
  - split.
    + split; [done|]. eapply Forall_impl; [exact HQ|]. intros q (pk & []). done.
    + intros i pk q Hpk Hi. rewrite Hh, Hk. destruct h. apply (HE i q pk Hpk Hi).
  - apply check_zero_price_ok; [done|]. destruct (range_attained t Hwf) as [(q & Hel & <-) _].
    rewrite Forall_forall in HQ. destruct (HQ q Hel) as (? & []). lia.
Qed.

(** A group of three makes a tick; five slots hold at most one such group. *)
Lemma assemble_quorum b h slots kk :
  book_wf b -> heights b !! BlockHeight.raw h = Some slots ->
  (3 <= length (support kk slots 0))%nat ->
  BlockHeight.raw h < LOCK_TIME_HEIGHT_THRESHOLD ->
  exists t, assemble_tick b h = Some t /\ OracleTick.backing_k t = RatioK.new kk.
Proof.
  intros [Hp Hb] Hs Hl Hh. unfold assemble_tick. rewrite Hs. cbn [mbind option_bind].
  set (groups := filter _ _). destruct (Hb _ _ Hs) as [_ He].
  assert (Hg : (kk, support kk slots 0) ∈ groups) by (by apply groups_elem).
  destruct (max_by_some support_le groups) as [[kk' l] Hm].
  { intros E. rewrite E in Hg. by apply not_elem_of_nil in Hg. }
  rewrite Hm. cbn [mbind option_bind]. apply max_by_elem, groups_elem in Hm as [-> Hl'].
  assert (kk' = kk) as ->.
  { destruct (decide (kk' = kk)) as [|Hne]; [done|].
    pose proof (support_disjoint kk' kk slots 0 Hne). destruct He. lia. }
  destruct (take_three _ _ _ _ He Hp Hl) as (q1 & q2 & q3 & -> & Hnd & HF).
  destruct (tick_new_total h (RatioK.new kk) q1 q2 q3 Hh) as (t & Ht & _); [|done|].
  { eapply Forall_impl; [exact HF|]. by intros ? [? _]. }
  rewrite Ht. exists t. split; [done|]. apply (tick_new_inv _ _ _ _ _ _ Ht).
Qed.

(** ** A stream of quotes

    What [Keeper::absorb] does to the book: insert, dropping what is refused. *)

Fixpoint absorb_all (b : QuoteBook.t) (feed : list (WireQuote.t * BlockHeight.t))
    : option QuoteBook.t :=
  match feed with
  | [] => Some b
  | (q, tip) :: feed =>
      r ← insert b q tip;
      absorb_all (match r with Ok b' => b' | Err _ => b end) feed
  end.

Lemma absorb_wf feed b b' :
  book_wf b -> Forall (fun x => wire_wf x.1) feed -> absorb_all b feed = Some b' ->
  book_wf b' /\ oracle_pks b' = oracle_pks b.
Proof.
  revert b. induction feed as [|[q tip] feed IH]; intros b Hb HF H; [by injection H as <-|].
  apply Forall_cons in HF as [Hq HF]. cbn in H. apply bind_Some in H as ([b1|] & Hi & H); [|by apply IH].
  destruct (insert_wf b q tip b1 Hb Hq Hi) as [Hb1 <-]. by apply IH.
Qed.

Lemma new_wf pks : length pks = 5%nat -> book_wf (new pks).
Proof. done. Qed.

(** ** An honest quote *)

(** A payload an oracle signs at a height the book accepts. *)
Definition publishable (b : QuoteBook.t) (tip : BlockHeight.t) (p : TickPayload) : Prop :=
  0 < Price.raw (tp_price p) < 4294967296 /\ u32 (RatioK.raw (tp_backing_k p)) /\
  0 <= BlockHeight.raw (tp_height p) < LOCK_TIME_HEIGHT_THRESHOLD /\
  u32_sat_sub (BlockHeight.raw tip) (horizon b) <= BlockHeight.raw (tp_height p)
    <= u32_sat_add (BlockHeight.raw tip) (drift b).

Context {HS : LibSpec HL}.

(** A quote signed under the listed key is refused for its height only. *)
Lemma insert_own b kp slot p tip :
  Price.raw (tp_price p) <> 0 -> 0 <= OracleSlot.idx slot <= 4 ->
  oracle_pks b !! OracleSlot.index slot = Some (keypair_pk kp) ->
  let h := BlockHeight.raw (tp_height p) in
  let floor := u32_sat_sub (BlockHeight.raw tip) (horizon b) in
  insert b (WireQuote.sign kp slot p) tip =
    Some (if h <? floor then Err (QuoteError.Stale h (BlockHeight.raw tip) (horizon b))
          else if u32_sat_add (BlockHeight.raw tip) (drift b) <? h
          then Err (QuoteError.Future h (BlockHeight.raw tip))
          else Ok (record_quote b h floor (OracleSlot.index slot) (tp_backing_k p, sign_quote kp p))).
Proof.
  destruct p as [[h] [x] [k]], slot as [i]. intros Hx Hi Hpk.
  unfold insert, OracleSlot.new, WireQuote.sig_bytes, WireQuote.payload, WireQuote.sign.
  cbn [WireQuote.slot WireQuote.price WireQuote.height WireQuote.sig WireQuote.backing_k
    OracleSlot.idx sign_quote sq_sig tp_price tp_height tp_backing_k BlockHeight.raw Price.raw
    RatioK.raw] in *.
  rewrite (proj2 (Z.ltb_ge 4 i)), (proj2 (Z.eqb_neq x 0)) by lia.
  destruct (h <? _); [done|]. destruct (_ <? h); [done|].
  rewrite bool_decide_false by (rewrite length_hex, sign_length; lia).
  rewrite sig_pairs_hex. cbn [mbind option_bind]. rewrite Hpk. cbn [mbind option_bind].
  by rewrite sign_verify.
Qed.

Lemma insert_signed b kp slot p tip :
  publishable b tip p -> 0 <= OracleSlot.idx slot <= 4 ->
  oracle_pks b !! OracleSlot.index slot = Some (keypair_pk kp) ->
  insert b (WireQuote.sign kp slot p) tip =
    Some (Ok (record_quote b (BlockHeight.raw (tp_height p))
      (u32_sat_sub (BlockHeight.raw tip) (horizon b)) (OracleSlot.index slot)
      (tp_backing_k p, sign_quote kp p))).
Proof.
  intros (Hx & _ & _ & Hw) Hi Hpk. rewrite insert_own by (done || lia). cbv zeta.
  by rewrite (proj2 (Z.ltb_ge _ _)), (proj2 (Z.ltb_ge _ (BlockHeight.raw (tp_height p)))) by lia.
Qed.

Lemma support_three kk slots i1 i2 i3 k q1 q2 q3 :
  NoDup [i1; i2; i3] -> RatioK.raw k = kk ->
  slots !! i1 = Some (Some (k, q1)) -> slots !! i2 = Some (Some (k, q2)) ->
  slots !! i3 = Some (Some (k, q3)) -> (3 <= length (support kk slots 0))%nat.
Proof.
  intros Hnd Hk H1 H2 H3.
  apply (submseteq_length [(i1, q1); (i2, q2); (i3, q3)]), NoDup_submseteq.
  - apply (NoDup_fmap_1 fst). exact Hnd.
  - intros [j q]. rewrite !elem_of_cons, elem_of_nil. intros Hel. apply support_elem.
    exists j, k. destruct Hel as [[= -> ->]|[[= -> ->]|[[= -> ->]|[]]]]; by split_and!.
Qed.

(** An oracle of slot [s] with key [kp] that can publish price [x] for height [h]. *)
Definition honest (b : QuoteBook.t) (tip h : BlockHeight.t) (k : RatioK.t)
    (o : OracleSlot.t * bytes * Price.t) : Prop :=
  0 <= OracleSlot.idx o.1.1 <= 4 /\ oracle_pks b !! OracleSlot.index o.1.1 = Some (keypair_pk o.1.2) /\
  publishable b tip (mkPayload h o.2 k).

Definition honest_quote (h : BlockHeight.t) (k : RatioK.t) (o : OracleSlot.t * bytes * Price.t)
    : WireQuote.t :=
  WireQuote.sign o.1.2 o.1.1 (mkPayload h o.2 k).

(** Accepted, and the cached slots of its height afterwards. *)
Lemma insert_honest b tip h k o :
  book_wf b -> honest b tip h k o ->
  exists b', insert b (honest_quote h k o) tip = Some (Ok b') /\ book_wf b' /\
    (forall o', honest b tip h k o' -> honest b' tip h k o') /\ oracle_pks b' = oracle_pks b /\
    heights b' !! BlockHeight.raw h =
      Some (<[OracleSlot.index o.1.1 := Some (k, sign_quote o.1.2 (mkPayload h o.2 k))]>
        (default (replicate 5 None) (heights b !! BlockHeight.raw h))).
Proof.
  intros Hb (Hs & Hk & Hp). pose proof (insert_signed b o.1.2 o.1.1 _ tip Hp Hs Hk) as Hins.
  eexists. split; [exact Hins|]. split_and!.
  - eapply insert_wf; [exact Hb| |exact Hins]. destruct Hp as (?&?&?&_).
    unfold wire_wf, LOCK_TIME_HEIGHT_THRESHOLD in *. cbn in *. split_and!; uint.
  - done.
  - done.
  - rewrite record_lookup. destruct Hp as (_ & _ & _ & Hw).
    cbn in Hw. rewrite decide_True by apply Hw. by rewrite decide_True.
Qed.

Lemma honest_slots (b : QuoteBook.t) tip h k o1 o2 o3 :
  Forall (honest b tip h k) [o1; o2; o3] -> NoDup [o1.1.1; o2.1.1; o3.1.1] ->
  NoDup [OracleSlot.index o1.1.1; OracleSlot.index o2.1.1; OracleSlot.index o3.1.1].
Proof.
  rewrite !Forall_cons. intros ((?&_)&(?&_)&(?&_)&_).
  rewrite !NoDup_cons, !not_elem_of_cons.
  assert (Hne : forall s s', 0 <= OracleSlot.idx s -> 0 <= OracleSlot.idx s' -> s <> s' ->
    OracleSlot.index s <> OracleSlot.index s').
  { unfold OracleSlot.index. intros [i] [j] ?? Hn E. apply Hn. cbn in *. f_equal. lia. }
  intros ((?&?&_)&(?&_)&_&?). split_and!; try apply not_elem_of_nil; try apply NoDup_nil_2;
    (apply Hne; [lia|lia|done]).
Qed.

(** C14: Whatever stream of quotes a consumer absorbed, valid, forged or replayed, a tick
    assembled from its book is at the asked height, every quote in it verifies under the
    covenant key of its slot for exactly that height, price and backing ratio, and no price
    is zero: the premise of the builder theorems. *)
Theorem assembled_tick_signed (pks : list XOnlyPublicKey)
    (feed : list (WireQuote.t * BlockHeight.t)) (b : QuoteBook.t) (h : BlockHeight.t)
    (t : OracleTick.t) :
  length pks = 5%nat -> Forall (fun x => wire_wf x.1) feed ->
  absorb_all (new pks) feed = Some b -> assemble_tick b h = Some t ->
  OracleTick.height t = h /\ tick_signed pks t /\ check_zero_price t = Ok tt.
Proof.
  intros Hp HF Ha Ht. destruct (absorb_wf _ _ _ (new_wf pks Hp) HF Ha) as [Hb Hpks].
  change pks with (oracle_pks (new pks)). rewrite <- Hpks. by apply assemble_signed.
Qed.

(** What one slot of one height holds. *)
Definition cached (b : QuoteBook.t) (h : Z) (i : nat) : Entry :=
  mjoin ((heights b !! h) ≫= (.!! i)).

(** The quotes of an assembled tick are the book's, of its height and ratio. *)
Lemma assemble_cached b h t i q :
  assemble_tick b h = Some t -> OracleTick.slots t !! i = Some (Some q) ->
  cached b (BlockHeight.raw h) i = Some (OracleTick.backing_k t, q).
Proof.
  intros (slots & kk & q1 & q2 & q3 & Hs & _ & Ho & Hn)%assemble_inv Hi.
  destruct (tick_new_inv _ _ _ _ _ _ Hn) as (_ & _ & -> & Hin).
  destruct (Hin i q Hi) as (s & Hel & <-). rewrite <- Ho in Hel.
  apply list_elem_of_omap in Hel as ([j q'] & Hj & Hslot).
  apply elem_of_take in Hj as (n & Hj & _). apply list_elem_of_lookup_2, support_elem in Hj as (m & k & -> & Hm & Hk).
  unfold slot_of in Hslot. cbn in Hslot. apply fmap_Some in Hslot as (sl & Hsl%ok_some & [= -> ->]).
  apply slot_new_ok in Hsl as [_ ->]. unfold cached, OracleSlot.index. cbn [OracleSlot.idx].
  rewrite Nat2Z.id, Hs. cbn. rewrite Hm. cbn. rewrite <- Hk. by destruct k.
Qed.

(** What a slot holds after a quote was recorded in one. *)
Lemma inserted_or (l : list Entry) j k (sq : SignedQuote) i e :
  mjoin (<[j := Some (k, sq)]> l !! i) = Some (k, e) -> (i = j /\ e = sq) \/ mjoin (l !! i) = Some (k, e).
Proof.
  intros Hc. destruct (<[_ := _]> l !! i) as [x|] eqn:E; [|done]. cbn in Hc.
  apply list_lookup_insert_Some in E as [(<- & <- & _)|[_ E]]; [left; by injection Hc as ->|right].
  by rewrite E.
Qed.

(** C15: Three honest quotes suffice.  Once three oracles of different slots published quotes
    with one height in the consumer's window and below the lock-time threshold, nonzero prices
    and one backing ratio, the book makes a tick of that height and ratio, whatever the two
    other slots (or anyone else) had put into it.  The tick need not be of those three quotes:
    it is signed by three of the oracles, and each quote in it is one of the three or one the
    book already held at that height and ratio. *)
Theorem quorum_assembles (b : QuoteBook.t) (tip h : BlockHeight.t) (k : RatioK.t)
    (o1 o2 o3 : OracleSlot.t * bytes * Price.t) :
  book_wf b -> NoDup [o1.1.1; o2.1.1; o3.1.1] -> Forall (honest b tip h k) [o1; o2; o3] ->
  exists b' t,
    absorb_all b ((fun o => (honest_quote h k o, tip)) <$> [o1; o2; o3]) = Some b' /\
    assemble_tick b' h = Some t /\ OracleTick.height t = h /\ OracleTick.backing_k t = k /\
    tick_signed (oracle_pks b) t /\ check_zero_price t = Ok tt /\
    forall i q, OracleTick.slots t !! i = Some (Some q) ->
      (exists o, o ∈ [o1; o2; o3] /\ i = OracleSlot.index o.1.1 /\ q = sign_quote o.1.2 (mkPayload h o.2 k)) \/
      cached b (BlockHeight.raw h) i = Some (k, q).
Proof.
  intros Hb Hnd HF. pose proof (honest_slots _ _ _ _ _ _ _ HF Hnd) as Hix.
  rewrite !Forall_cons in HF. destruct HF as (H1 & H2 & H3 & _). cbn [fmap list_fmap absorb_all].
  pose proof (proj1 (entries_ok_default b (BlockHeight.raw h) Hb)) as Hl.
  destruct (insert_honest b tip h k o1 Hb H1) as (b1 & -> & Hb1 & Hk1 & Hp1 & Hs1). cbn [mbind option_bind].
  destruct (insert_honest b1 tip h k o2 Hb1) as (b2 & -> & Hb2 & Hk2 & Hp2 & Hs2); [by apply Hk1|].
  cbn [mbind option_bind].
  destruct (insert_honest b2 tip h k o3 Hb2) as (b3 & -> & Hb3 & _ & Hp3 & Hs3); [by apply Hk2, Hk1|].
  rewrite Hs2, Hs1 in Hs3. cbn [default from_option mbind option_bind] in *. unfold id in Hs3.
  pose proof Hix as Hne. rewrite !NoDup_cons, !not_elem_of_cons in Hne. destruct Hne as ((?&?&_)&(?&_)&_).
  destruct H1 as (? & _ & _ & _ & Hh & _), H2 as (? & _), H3 as (? & _).
  destruct (assemble_quorum b3 h _ (RatioK.raw k) Hb3 Hs3) as (t & Ht & Hk); [|apply Hh|].
  - eapply (support_three _ _ _ _ _ k); [exact Hix|done|..]; rewrite ?list_lookup_insert_ne by done;
      apply list_lookup_insert_eq; rewrite ?length_insert; unfold OracleSlot.index, id in *; lia.
  - destruct (assemble_signed b3 h t Hb3 Ht) as (Hth & Hsg & Hz). rewrite Hp3, Hp2, Hp1 in Hsg.
    assert (Ek : OracleTick.backing_k t = k) by (by destruct k).
    exists b3, t. split_and!; [done..|]. intros i q Hi. apply (assemble_cached b3 h t i q Ht) in Hi.
    rewrite Ek in Hi. unfold cached in Hi at 1. rewrite Hs3 in Hi. cbn [mbind option_bind] in Hi.
    apply inserted_or in Hi as [[-> ->]|[[-> ->]|[[-> ->]|Hi]%inserted_or]%inserted_or];
      [left; eexists; (split; [|done]); rewrite !elem_of_cons; tauto..|right].
    unfold cached. destruct (heights b !! BlockHeight.raw h) as [l|]; cbn in *; [done|].
    by destruct i as [|[|[|[|[|]]]]].
Qed.

(** ** Every outcome of [insert] *)

(** ASCII text never splits a character. *)
Lemma sig_pairs_ascii s : is_ascii s = true -> is_Some (WireQuote.sig_pairs s).
Proof.
  assert (G : forall n s, (length s <= n)%nat -> is_ascii s = true -> is_Some (WireQuote.sig_pairs s)).
  { clear. induction n as [|n IH]; intros [|a [|b s]] Hn Ha; cbn in Hn; try lia; cbn; eauto.
    unfold is_ascii in *. cbn in Ha. rewrite !andb_true_iff in Ha. destruct Ha as (_ & _ & Ha).
    assert (WireQuote.starts_char s = true) as ->.
    { destruct s as [|c s]; [done|]. cbn in *. apply andb_true_iff in Ha as [Hc%Z.ltb_lt _].
      unfold WireQuote.continuation. by rewrite (proj2 (Z.leb_gt _ _)). }
    destruct (from_hex_pair a b); cbn; [|eauto]. destruct (IH s) as [r ->]; [lia|done|cbn; eauto]. }
  by apply (G (length s)).
Qed.

Lemma sig_pairs_err s e : WireQuote.sig_pairs s = Some (Err e) -> e = QuoteError.SigEncoding.
Proof.
  assert (G : forall n s, (length s <= n)%nat -> WireQuote.sig_pairs s = Some (Err e) ->
    e = QuoteError.SigEncoding).
  { clear. induction n as [|n IH]; intros [|a [|b s]] Hn H; cbn in Hn; try lia; try done.
    cbn in H. destruct (WireQuote.starts_char s); [|done]. cbn in H.
    destruct (from_hex_pair a b); [|by injection H as <-].
    apply bind_Some in H as ([l|e'] & Hr & H); [done|]. injection H as ->.
    apply (IH s); [lia|done]. }
  by apply (G (length s)).
Qed.

Lemma sig_bytes_err q e :
  WireQuote.sig_bytes q = Some (Err e) ->
  e = QuoteError.SigEncoding /\ forall sig, length sig = 64%nat -> WireQuote.sig q <> hex sig.
Proof.
  unfold WireQuote.sig_bytes. case_bool_decide as Hl.
  - intros [= <-]. split; [done|]. intros sig Hs Hx. rewrite Hx, length_hex in Hl. lia.
  - intros H. split; [by eapply sig_pairs_err|]. intros sig _ Hx. by rewrite Hx, sig_pairs_hex in H.
Qed.

Lemma sig_bytes_panic q :
  WireQuote.sig_bytes q = None ->
  length (WireQuote.sig q) = 128%nat /\ is_ascii (WireQuote.sig q) = false.
Proof.
  unfold WireQuote.sig_bytes. case_bool_decide as Hl; [done|]. intros H. split; [done|].
  apply not_true_is_false. intros [r Hr]%sig_pairs_ascii. congruence.
Qed.

Lemma cached_record b h floor s e h' i :
  book_wf b -> (s < 5)%nat ->
  cached (record_quote b h floor s e) h' i =
  if decide (floor <= h') then
    if decide (h' = h /\ i = s) then Some e else cached b h' i
  else None.
Proof.
  intros Hb Hs. unfold cached. rewrite record_lookup. destruct (decide (floor <= h')); [|done].
  destruct (decide (h' = h)) as [->|]; [|by rewrite (decide_False (P := _ /\ _)) by tauto].
  cbn [mbind option_bind]. destruct (decide (i = s)) as [->|].
  - rewrite decide_True by done. rewrite list_lookup_insert_eq; [done|].
    by rewrite (proj1 (entries_ok_default b _ Hb)).
  - rewrite (decide_False (P := _ /\ _)) by tauto. rewrite list_lookup_insert_ne by done.
    destruct (heights b !! h); [done|]. cbn [default from_option mbind option_bind].
    unfold id. destruct (replicate 5 None !! i) as [o|] eqn:Ho; [|done].
    by apply (lookup_replicate 5 None) in Ho as [-> _].
Qed.

(** Every outcome of caching a wire quote: each error names the first check that failed,
    a success means the signature verified under the slot's key and the quote, and nothing
    else at or above the horizon, is in the book; a panic needs a signature text that is not
    ASCII. *)
Theorem insert_spec (b : QuoteBook.t) (q : WireQuote.t) (tip : BlockHeight.t) :
  book_wf b -> wire_wf q ->
  let floor := u32_sat_sub (BlockHeight.raw tip) (horizon b) in
  let in_window := floor <= WireQuote.height q <= u32_sat_add (BlockHeight.raw tip) (drift b) in
  match insert b q tip with
  | None => WireQuote.slot q <= 4 /\ WireQuote.price q <> 0 /\ in_window /\
      length (WireQuote.sig q) = 128%nat /\ is_ascii (WireQuote.sig q) = false
  | Some (Err (QuoteError.Slot s)) => s = WireQuote.slot q /\ 4 < s
  | Some (Err (QuoteError.ZeroPrice _ _)) => WireQuote.slot q <= 4 /\ WireQuote.price q = 0
  | Some (Err (QuoteError.Stale h _ _)) => h = WireQuote.height q /\ h < floor
  | Some (Err (QuoteError.Future h _)) =>
      h = WireQuote.height q /\ u32_sat_add (BlockHeight.raw tip) (drift b) < h
  | Some (Err QuoteError.SigEncoding) => in_window /\
      forall sig, length sig = 64%nat -> WireQuote.sig q <> hex sig
  | Some (Err (QuoteError.BadSignature _ _)) => in_window /\
      exists pk sig, oracle_pks b !! Z.to_nat (WireQuote.slot q) = Some pk /\
        verify_schnorr pk (tick_digest (WireQuote.payload q)) sig = false
  | Some (Ok b') => in_window /\
      exists pk sig, oracle_pks b !! Z.to_nat (WireQuote.slot q) = Some pk /\
        verify_schnorr pk (tick_digest (WireQuote.payload q)) sig = true /\
        forall h i, cached b' h i =
          if decide (floor <= h) then
            if decide (h = WireQuote.height q /\ i = Z.to_nat (WireQuote.slot q))
            then Some (RatioK.new (WireQuote.backing_k q),
                       mkQuote (Price.new (WireQuote.price q)) sig)
            else cached b h i
          else None
  end.
Proof.
  intros Hb (Hs & _) floor in_window. unfold insert, OracleSlot.new.
  destruct (Z.ltb_spec 4 (WireQuote.slot q)) as [|Hs4]; [done|].
  destruct (Z.eqb_spec (WireQuote.price q) 0) as [|Hz]; [done|]. fold floor.
  destruct (Z.ltb_spec (WireQuote.height q) floor) as [|Hf]; [done|].
  destruct (Z.ltb_spec (u32_sat_add (BlockHeight.raw tip) (drift b)) (WireQuote.height q)) as [|Hd];
    [done|].
  destruct (WireQuote.sig_bytes q) as [[sig|e]|] eqn:E; cbn [mbind option_bind].
  - assert (Hi : (Z.to_nat (WireQuote.slot q) < 5)%nat) by (unfold u8 in Hs; lia).
    unfold OracleSlot.index. cbn [OracleSlot.idx].
    destruct (lookup_lt_is_Some_2 (oracle_pks b) (Z.to_nat (WireQuote.slot q))) as [pk Hpk].
    { by rewrite (proj1 Hb). }
    rewrite Hpk. cbn [mbind option_bind]. destruct (verify_schnorr _ _ _) eqn:Hv; cbn [negb].
    2: { split; [done|]. by exists pk, sig. }
    split; [done|]. exists pk, sig. split_and!; [done..|]. intros h i. by rewrite cached_record.
  - by destruct (sig_bytes_err _ _ E) as [-> ?].
  - by destruct (sig_bytes_panic _ E).
Qed.

(** What does not return from the book. *)
Lemma insert_panics (b : QuoteBook.t) (q : WireQuote.t) (tip : BlockHeight.t) :
  book_wf b -> wire_wf q -> insert b q tip = None ->
  length (WireQuote.sig q) = 128%nat /\ is_ascii (WireQuote.sig q) = false.
Proof. intros Hb Hq Hi. pose proof (insert_spec b q tip Hb Hq) as Hs. rewrite Hi in Hs. by destruct Hs as (_ & _ & _ & ? & ?). Qed.

(** A wire quote whose signature text is 128 bytes of UTF-8 with one two-byte character in
    front of an odd index. *)
Definition poison (tip : BlockHeight.t) : WireQuote.t :=
  WireQuote.mk 0 (BlockHeight.raw tip) 1 0
    (byte_of_Z 48 :: byte_of_Z 0xc3 :: byte_of_Z 0xa9 :: replicate 125 (byte_of_Z 48)) [].

(** One unsigned quote panics every consumer: the book of any five keys, at any tip, does
    not return on a quote for that tip whose 128-byte signature text has a multi-byte
    character at an odd index, because the text is sliced before it is known to be ASCII. *)
Theorem poison_panics (pks : list XOnlyPublicKey) (tip : BlockHeight.t) :
  u32 (BlockHeight.raw tip) -> insert (new pks) (poison tip) tip = None.
Proof.
  intros Ht. unfold insert, poison, new, with_window, OracleSlot.new, DEFAULT_HORIZON, DEFAULT_DRIFT.
  cbn [WireQuote.slot WireQuote.price WireQuote.height horizon drift].
  rewrite (proj2 (Z.ltb_ge 4 0)), (proj2 (Z.eqb_neq 1 0)) by lia.
  rewrite (proj2 (Z.ltb_ge _ _)), (proj2 (Z.ltb_ge _ _)) by uint. reflexivity.
Qed.

End Book.
