(* ===== verification/SoundOwner.v ===== *)
(** * Soundness of the owner and poke builders

    For each checked builder of [BuildOwner]: when it returns a plan for a well-formed
    deploy, state and signed tick, the plan finalizes with every covenant input accepting
    (after the owner signs, for owner operations), no asset is created or destroyed, and
    every coin the builder announces is an output of the transaction. *)

From Stdlib Require Import ZArith Lia.
From stdpp Require Import base gmap strings option list.
From S2P Require Import Prelude Units CrMath Elements Oracle Simf Encode Domain Artifacts Jets.
From S2P Require Import CovVault CovReserve CovIssuer Plan BuildOwner BuildKeeper Accept.
From S2P Require Import CovLemmas CovAccept Sound.

(** Slots name inputs that exist. *)
Ltac in_range := repeat constructor; eexists; reflexivity.

(** Sum the coins of a plan asset by asset. *)
Ltac layout := cbv beta zeta delta [balanced poke_unchecked refresh_unchecked open_unchecked
  draw_unchecked repay_unchecked close_unchecked liquidate_unchecked full_liq_unchecked
  bad_debt_unchecked redeem_unchecked].
Ltac coins := cbn [plan p_utxos p_tx output app]; autorewrite with totals.
Ltac balance :=
  let x := fresh "x" in layout; intros x; coins;
  repeat match goal with |- context [if ?a <? ?b then _ else _] => destruct (Z.ltb_spec a b) end;
  coins; repeat case_bool_decide; amounts.

Section SoundOwner.
Context `{HLib : Lib, !LibSpec HLib, !SigHash, !SigHashSpec _, HRed : !Redeemer,
  !RedeemerSpec HRed, !Compiler}.
Context (ctx : Ctx) (Hctx : deploy_ok ctx).

Lemma deploy_keys : length (oracle_pks (ctx_params ctx)) = 5%nat.
Proof. apply Hctx. Qed.

(** ** When the checked builders succeed *)

Lemma poke_ok_iff iss intent b :
  poke ctx iss intent = Ok b <->
  check_tick (pk_tick intent) (last_mint_height (state iss)) = Ok tt /\
  Sats.raw (pk_fee intent) < Sats.raw (fc_value (pk_funding intent)) /\
  b = poke_unchecked ctx iss intent.
Proof.
  unfold poke. rewrite bind_ok. split.
  - intros ([] & Ht & Hb). peel Hb. auto.
  - intros (Ht & Hf & ->). exists tt. split; [done|]. by rewrite (proj2 (Z.leb_gt _ _)).
Qed.

Lemma refresh_ok_iff v intent b :
  refresh ctx v intent = Ok b <->
  check_zero_price (rf_tick intent) = Ok tt /\
  check_vault_ratchet (rf_tick intent) (last_height (state v)) = Ok tt /\
  Obol.raw (debt (state v)) <= U32_MAX /\
  at_cr (Obol.raw (debt (state v))) (OracleTick.hi (rf_tick intent)) K_HEALTH_GATE
    <= Sats.raw (oc_value v) /\
  Sats.raw (rf_fee intent) < Sats.raw (fc_value (rf_fee_coin intent)) /\
  b = refresh_unchecked ctx v intent.
Proof.
  unfold refresh, lift_math, OracleTick.hi, at_cr.
  destruct (OracleTick.price_range (rf_tick intent)) as [lo hi]. cbn [snd]. split.
  - intros Hb. do 2 (apply bind_ok in Hb as ([] & ? & Hb)).
    apply bind_ok in Hb as (c & [Hc ->]%map_err_ok%covenant_cents_ok & Hb). peel Hb. auto 10.
  - intros (-> & -> & Hc & Hg & Hf & ->). cbn [mbind result_bind].
    rewrite (proj2 (covenant_cents_ok _ _) (conj Hc eq_refl)). cbn [map_err mbind result_bind].
    by rewrite (proj2 (Z.ltb_ge _ _)), (proj2 (Z.leb_gt _ _)).
Qed.

Lemma open_ok_iff pr intent b :
  open ctx pr intent = Ok b <->
  let x := Obol.raw (op_principal intent) in
  let fee := at_cr x (OracleTick.lo (op_tick intent)) K_FEE_HALF_PERCENT in
  check_tick (op_tick intent) (last_mint_height (state (issuer pr))) = Ok tt /\
  x <> 0 /\ x <= U32_MAX /\
  at_cr x (OracleTick.lo (op_tick intent)) K_OPEN_MIN <= Sats.raw (op_collateral intent) /\
  x <= Obol.raw (oc_value (pot pr)) /\
  Sats.raw (fc_value (op_funding intent)) = Sats.raw (op_collateral intent) + fee + Sats.raw (op_fee intent) /\
  Sats.raw (op_collateral intent) + fee <= U64_MAX /\
  Sats.raw (op_collateral intent) + fee + Sats.raw (op_fee intent) <= U64_MAX /\
  b = open_unchecked ctx pr intent (Sats.new fee).
Proof.
  unfold open, lift_math, OracleTick.lo, at_cr. rewrite obol_eq_zero.
  destruct (OracleTick.price_range (op_tick intent)) as [lo hi]. cbn [fst]. split.
  - intros Hb. apply bind_ok in Hb as ([] & ? & Hb).
    destruct (Z.eqb_spec (Obol.raw (op_principal intent)) 0) as [|Hz]; [done|].
    apply bind_ok in Hb as (c & [Hc ->]%map_err_ok%covenant_cents_ok & Hb).
    do 2 pass_guard Hb.
    apply bind_ok in Hb as (s1 & [Hs1 ->]%map_err_ok%sats_checked_add_ok & Hb).
    apply bind_ok in Hb as (s2 & [Hs2 ->]%map_err_ok%sats_checked_add_ok & Hb). cbn [Sats.raw] in *.
    pass_guard Hb. boolz. rename G1 into Hf. injection Hb as <-. boolz. cbn zeta.
    rewrite <- sats_eta. split_and!; try done; by rewrite Hf.
  - cbn zeta. intros (-> & Hz & Hc & Hg & Hp & Hf & Hs1 & Hs2 & ->). cbn [mbind result_bind].
    rewrite (proj2 (Z.eqb_neq _ _) Hz).
    rewrite (proj2 (covenant_cents_ok _ _) (conj Hc eq_refl)). cbn [map_err mbind result_bind].
    rewrite !(proj2 (Z.ltb_ge _ _)) by done.
    rewrite (proj2 (sats_checked_add_ok _ _ _) (conj Hs1 eq_refl)). cbn [map_err mbind result_bind].
    rewrite (proj2 (sats_checked_add_ok (Sats.new _) _ _) (conj Hs2 eq_refl)).
    cbn [map_err mbind result_bind Sats.raw].
    rewrite bool_decide_true by (rewrite (sats_eta (fc_value _)), Hf; done). cbn [negb].
    by rewrite <- sats_eta.
Qed.

Lemma draw_ok_iff pr v intent b :
  draw ctx pr v intent = Ok b <->
  let x := Obol.raw (dr_amount intent) in
  let d := Obol.raw (debt (state v)) in
  check_tick (dr_tick intent) (last_mint_height (state (issuer pr))) = Ok tt /\
  check_vault_ratchet (dr_tick intent) (last_height (state v)) = Ok tt /\
  x <> 0 /\ Sats.raw (dr_fee intent) < Sats.raw (oc_value v) /\
  x <= Obol.raw (oc_value (pot pr)) /\ d + x <= U64_MAX /\ d + x <= U32_MAX /\
  at_cr (d + x) (OracleTick.lo (dr_tick intent)) K_OPEN_MIN
    <= u64_sat_sub (Sats.raw (oc_value v)) (Sats.raw (dr_fee intent)) /\
  b = draw_unchecked ctx pr v intent.
Proof.
  unfold draw, lift_math, OracleTick.lo, at_cr. rewrite obol_eq_zero.
  destruct (OracleTick.price_range (dr_tick intent)) as [lo hi]. cbn [fst]. split.
  - intros Hb. do 2 (apply bind_ok in Hb as ([] & ? & Hb)).
    destruct (Z.eqb_spec (Obol.raw (dr_amount intent)) 0) as [|Hz]; [done|].
    do 2 pass_guard Hb.
    apply bind_ok in Hb as (s1 & [Hs1 ->]%map_err_ok%obol_checked_add_ok & Hb).
    apply bind_ok in Hb as (c & [Hc ->]%map_err_ok%covenant_cents_ok & Hb). cbn [Obol.raw] in *.
    pass_guard Hb. injection Hb as <-. boolz. cbn zeta. auto 12.
  - cbn zeta. intros (-> & -> & Hz & Hf & Hp & Hs & Hc & Hg & ->). cbn [mbind result_bind].
    rewrite (proj2 (Z.eqb_neq _ _) Hz), (proj2 (Z.leb_gt _ _) Hf), (proj2 (Z.ltb_ge _ _) Hp).
    rewrite (proj2 (obol_checked_add_ok _ _ _) (conj Hs eq_refl)). cbn [map_err mbind result_bind].
    rewrite (proj2 (covenant_cents_ok (Obol.new _) _) (conj Hc eq_refl)).
    cbn [map_err mbind result_bind Sats.raw Obol.raw]. by rewrite (proj2 (Z.ltb_ge _ _) Hg).
Qed.

Lemma repay_ok_iff pt v intent b :
  repay ctx pt v intent = Ok b <->
  Obol.raw (rp_amount intent) <= Obol.raw (debt (state v)) /\
  Obol.raw (rp_amount intent) <= Obol.raw (ob_value (rp_payer intent)) /\
  Sats.raw (rp_fee intent) < Sats.raw (fc_value (rp_fee_coin intent)) /\
  b = repay_unchecked ctx pt v intent.
Proof.
  unfold repay. split.
  - intros Hb. peel Hb. auto.
  - intros (G1 & G2 & G3 & ->).
    by rewrite (proj2 (Z.ltb_ge _ _) G1), (proj2 (Z.ltb_ge _ _) G2), (proj2 (Z.leb_gt _ _) G3).
Qed.

Lemma close_ok_iff pt v intent b :
  close ctx pt v intent = Ok b <->
  Obol.raw (debt (state v)) <= Obol.raw (ob_value (cl_payer intent)) /\
  Sats.raw (cl_fee intent) < Sats.raw (oc_value v) /\
  b = close_unchecked ctx pt v intent.
Proof.
  unfold close. split.
  - intros Hb. peel Hb. auto.
  - intros (G1 & G2 & ->). by rewrite (proj2 (Z.ltb_ge _ _) G1), (proj2 (Z.leb_gt _ _) G2).
Qed.

(** ** Soundness *)

(** A poke the builder accepts finalizes: every covenant input accepts the transaction,
    which keeps the planned body, creates and destroys no asset, carries the announced
    issuer coin, and never moves the mint anchor back. *)
Theorem poke_sound (iss : OnChain IssuerState) (intent : PokeIntent) (b : Built PokeDelta) :
  u32 (BlockHeight.raw (last_mint_height (state iss))) ->
  tick_signed (oracle_pks (ctx_params ctx)) (pk_tick intent) ->
  amount (Sats.raw (fc_value (pk_funding intent))) -> 0 <= Sats.raw (pk_fee intent) ->
  poke ctx iss intent = Ok b ->
  finalizes ctx (plan b) /\ balanced (plan b) /\
  issuer_at ctx (p_tx (plan b)) (pkd_issuer (expected b)) /\
  BlockHeight.raw (last_mint_height (state iss))
    <= BlockHeight.raw (last_mint_height (state (pkd_issuer (expected b)))).
Proof.
  intros Hh Ht Hf Hfee Hb. apply poke_ok_iff in Hb as ([Hz Ha]%check_tick_ok & Hg & ->).
  split_and!.
  - apply accept_finalizes; [in_range|]. constructor; [|constructor].
    apply slot_issuer_arm; [apply Hctx|apply deploy_keys|done|apply Ht|done|].
    intros cb Hcb. eapply (poke_arm_ok (ctx_params ctx) (ctx_artifacts ctx)); try done.
    + apply deploy_keys.
    + by eapply (locked_tick _ _ _ _ _ deploy_keys Ht Hz).
  - balance.
  - done.
  - done.
Qed.

(** A refresh the builder accepts finalizes under the vault covenant, creates and destroys
    no asset, and carries the announced successor of the vault. *)
Theorem refresh_sound (v : OnChain VaultState) (intent : RefreshIntent) (b : Built RefreshDelta) :
  vault_on_wf v -> tick_signed (oracle_pks (ctx_params ctx)) (rf_tick intent) ->
  amount (Sats.raw (fc_value (rf_fee_coin intent))) -> 0 <= Sats.raw (rf_fee intent) ->
  refresh ctx v intent = Ok b ->
  finalizes ctx (plan b) /\ balanced (plan b) /\
  vault_at ctx (p_tx (plan b)) (rfd_vault (expected b)).
Proof.
  intros [Hv Ha] Ht Hf Hfee Hb.
  apply refresh_ok_iff in Hb as (Hz & Hr%check_ratchet_ok & Hd & Hg & Hff & ->).
  split_and!; [|balance|done..].
  apply accept_finalizes; [in_range|]. constructor; [|constructor].
  apply (slot_vault_arm _ _ _ (proj1 Hctx) deploy_keys _ (Sats.raw (oc_value v)));
    [done|unfold vault_wf in Hv; uint|unfold amount, MAX_MONEY in Ha; uint|apply Ht|done|].
  intros cb _ Hcb.
  apply (refresh_arm_ok (ctx_params ctx) (ctx_artifacts ctx)) with (coll := Sats.raw (oc_value v))
    (s' := mkVault (debt (state v)) (owner (state v)) (OracleTick.height (rf_tick intent)))
    (out := Sats.raw (oc_value v)); try side.
  - apply deploy_keys.
  - by eapply (locked_tick _ _ _ _ _ deploy_keys Ht Hz).
Qed.

(** An open the builder accepts passes every covenant. *)
Lemma open_finalizes (pr : ProtocolState) (intent : OpenIntent) (b : Built OpenDelta) :
  protocol_wf pr -> tick_signed (oracle_pks (ctx_params ctx)) (op_tick intent) ->
  length (op_owner intent) = 32%nat -> 0 <= Obol.raw (op_principal intent) ->
  amount (Sats.raw (fc_value (op_funding intent))) -> 0 <= Sats.raw (op_collateral intent) ->
  0 <= Sats.raw (op_fee intent) ->
  open ctx pr intent = Ok b -> finalizes ctx (plan b).
Proof.
  intros Hp Ht Ho Hx0 Hf Hc0 Hfee Hb.
  apply open_ok_iff in Hb as ([Hz Ha]%check_tick_ok & Hx & Hx32 & Hg & Hpot & Hfund & _ & _ & ->).
  destruct (range_pos _ (proj1 (proj1 Ht)) Hz) as [Hlo Hhi].
  assert (Hbf : 0 <= at_cr (Obol.raw (op_principal intent)) (OracleTick.lo (op_tick intent))
      K_FEE_HALF_PERCENT <= 6442450942500000) by (apply at_cr_bound; [uint|done|by vm_compute]).
  apply accept_finalizes; [in_range|]. constructor; [|constructor; [|constructor; [|constructor]]].
  - apply (slot_outflow_ok _ _ _ (proj1 Hctx)). intros cb.
    eapply (outflow_main_ok (ctx_params ctx) (ctx_artifacts ctx)) with (ix := 0);
      try reflexivity; uint.
  - apply (slot_stability_ok _ _ _ (proj1 Hctx)). intros cb.
    eapply (accumulate_ok (ctx_params ctx) (ctx_artifacts ctx)); try reflexivity. amounts.
  - apply (slot_issuer_arm _ _ _ (proj1 Hctx) deploy_keys); [apply Hp|split_and!; [amounts|done|apply Ht]|done|].
    intros cb Hcb.
    apply (open_arm_ok (ctx_params ctx) (ctx_artifacts ctx)) with (ix := 1)
      (v := mkVault (op_principal intent) (op_owner intent) (OracleTick.height (op_tick intent)))
      (pin := Obol.raw (oc_value (pot pr))) (rin := Sats.raw (oc_value (reserve pr)))
      (bspk := op_borrower_spk intent) (coll := Sats.raw (op_collateral intent)); try side.
    + apply deploy_keys.
    + by eapply (locked_tick _ _ _ _ _ deploy_keys Ht Hz).
Qed.

(** C5: An open the builder accepts finalizes: pot, reserve and issuer covenants accept, no
    asset is created or destroyed, and the announced vault, pot, reserve and issuer coins
    are outputs of the transaction at the addresses of their states. *)
Theorem open_sound (pr : ProtocolState) (intent : OpenIntent) (b : Built OpenDelta) :
  protocol_wf pr -> tick_signed (oracle_pks (ctx_params ctx)) (op_tick intent) ->
  length (op_owner intent) = 32%nat -> 0 <= Obol.raw (op_principal intent) ->
  amount (Sats.raw (fc_value (op_funding intent))) -> 0 <= Sats.raw (op_collateral intent) ->
  0 <= Sats.raw (op_fee intent) ->
  open ctx pr intent = Ok b ->
  finalizes ctx (plan b) /\ balanced (plan b) /\
  vault_at ctx (p_tx (plan b)) (od_vault (expected b)) /\
  pot_at ctx (p_tx (plan b)) (od_pot (expected b)) /\
  reserve_at ctx (p_tx (plan b)) (od_reserve (expected b)) /\
  issuer_at ctx (p_tx (plan b)) (od_issuer (expected b)).
Proof.
  intros Hp Ht Ho Hx0 Hf Hc0 Hfee Hb. pose proof (open_finalizes pr intent b Hp Ht Ho Hx0 Hf Hc0 Hfee Hb) as Hfin.
  apply open_ok_iff in Hb as ([Hz Ha]%check_tick_ok & Hx & Hx32 & Hg & Hpot & Hfund & _ & _ & ->).
  destruct (range_pos _ (proj1 (proj1 Ht)) Hz) as [Hlo Hhi].
  assert (Hbf : 0 <= at_cr (Obol.raw (op_principal intent)) (OracleTick.lo (op_tick intent))
      K_FEE_HALF_PERCENT <= 6442450942500000) by (apply at_cr_bound; [uint|done|by vm_compute]).
  split_and!; try done. balance.
Qed.

(** The owner's signature over the plan's digest passes the vault's check. *)
Lemma owner_sig_dispatch tx utxos slots s kp sig kind cb k :
  keypair_pk kp = owner s ->
  vault_control_block (ctx_artifacts ctx) s = Some cb ->
  sig = mkSig (sign_schnorr kp (owner_digest ctx (mkPlan tx utxos slots) 0 s)) ->
  let E := slot_env ctx tx utxos 0 (a_vault (ctx_artifacts ctx)) cb in
  VaultCov.dispatch (vault_param (ctx_params ctx) (ctx_artifacts ctx)) E
    (Obol.raw (debt s)) (owner s) (BlockHeight.raw (last_height s)) (Left (sig, kind)) = k <->
  match kind with
  | Left _ => VaultCov.close (vault_param (ctx_params ctx) (ctx_artifacts ctx)) E (Obol.raw (debt s))
  | Right (Left r) =>
      VaultCov.repay (vault_param (ctx_params ctx) (ctx_artifacts ctx)) E
        (Obol.raw (debt s)) (owner s) (BlockHeight.raw (last_height s)) (u64_val r)
  | Right (Right (x, tick)) =>
      VaultCov.draw (vault_param (ctx_params ctx) (ctx_artifacts ctx)) E
        (Obol.raw (debt s)) (owner s) (BlockHeight.raw (last_height s)) (u64_val x) tick
  end = k.
Proof.
  intros Hk Hcb -> E. cbn [VaultCov.dispatch]. unfold bip_0340_verify. cbn [sig_bytes].
  rewrite vault_control_block_some in Hcb. injection Hcb as <-.
  change (sighash_all E) with (owner_digest ctx (mkPlan tx utxos slots) 0 s).
  rewrite <- Hk, sign_verify. done.
Qed.

Ltac pre_slots := repeat (apply Forall_cons; split); try apply Forall_nil_2; split_and!; try done.

(** A repayment the builder accepts finalizes once the vault owner's key signs it, balances,
    and carries the announced vault and pot coins. *)
Theorem repay_sound (pt : OnChain PotState) (v : OnChain VaultState) (intent : RepayIntent)
    (kp : bytes) (b : Built RepayDelta) :
  vault_on_wf v -> u32 (Obol.raw (debt (state v))) ->
  amount (Obol.raw (oc_value pt)) -> amount (Obol.raw (ob_value (rp_payer intent))) ->
  amount (Sats.raw (fc_value (rp_fee_coin intent))) -> 0 <= Sats.raw (rp_fee intent) ->
  0 <= Obol.raw (rp_amount intent) -> keypair_pk kp = owner (state v) ->
  repay ctx pt v intent = Ok b ->
  owner_finalizes ctx (plan b) kp /\ balanced (plan b) /\
  vault_at ctx (p_tx (plan b)) (rpd_vault (expected b)) /\
  pot_at ctx (p_tx (plan b)) (rpd_pot (expected b)).
Proof.
  intros Hv Hd Hp Hpay Hfc Hfee Hr Hk Hb. apply repay_ok_iff in Hb as (G1 & G2 & G3 & ->).
  split_and!; try done.
  - apply owner_accept_finalizes with
      (pre := [mkSlot 1 KPotInflow]) (s := state v) (op := VRepay zero_sig (rp_amount intent)).
    + in_range.
    + pre_slots. apply (slot_inflow_ok _ _ _ (proj1 Hctx)). intros cb.
      eapply (repay_main_ok (ctx_params ctx) (ctx_artifacts ctx)); try reflexivity. amounts.
    + intros sig Hsig.
      apply (slot_vault_arm _ _ _ (proj1 Hctx) deploy_keys _ (Sats.raw (oc_value v)));
        [apply Hv|done|amounts| |done|].
      { split; [by rewrite Hsig; apply sign_length|amounts]. }
      intros cb Hcb Hcb'. eapply owner_sig_dispatch; [exact Hk|exact Hcb|exact Hsig|].
      apply (repay_arm_ok (ctx_params ctx) (ctx_artifacts ctx)) with (coll := Sats.raw (oc_value v))
        (s' := mkVault (Obol.new (u64_sat_sub (Obol.raw (debt (state v))) (Obol.raw (rp_amount intent))))
                 (owner (state v)) (last_height (state v)))
        (pin := Obol.raw (oc_value pt)) (out := Sats.raw (oc_value v)); try side.
      apply deploy_keys.
  - balance.
  - split; [done|]. cbn -[txout]. rewrite u64_wadd_id, u64_sat_add_id by amounts. done.
Qed.

(** A close the builder accepts finalizes once the vault owner's key signs it, balances, and
    carries the announced pot coin. *)
Theorem close_sound (pt : OnChain PotState) (v : OnChain VaultState) (intent : CloseIntent)
    (kp : bytes) (b : Built CloseDelta) :
  vault_on_wf v -> u32 (Obol.raw (debt (state v))) ->
  amount (Obol.raw (oc_value pt)) -> amount (Obol.raw (ob_value (cl_payer intent))) ->
  0 <= Sats.raw (cl_fee intent) -> keypair_pk kp = owner (state v) ->
  close ctx pt v intent = Ok b ->
  owner_finalizes ctx (plan b) kp /\ balanced (plan b) /\
  pot_at ctx (p_tx (plan b)) (cd_pot (expected b)).
Proof.
  intros Hv Hd Hp Hpay Hfee Hk Hb. apply close_ok_iff in Hb as (G1 & G2 & ->).
  split_and!; try done.
  - apply owner_accept_finalizes with
      (pre := [mkSlot 1 KPotInflow]) (s := state v) (op := VClose zero_sig).
    + in_range.
    + pre_slots. apply (slot_inflow_ok _ _ _ (proj1 Hctx)). intros cb.
      eapply (repay_main_ok (ctx_params ctx) (ctx_artifacts ctx)); try reflexivity. amounts.
    + intros sig Hsig.
      apply (slot_vault_arm _ _ _ (proj1 Hctx) deploy_keys _ (Sats.raw (oc_value v)));
        [apply Hv|done|amounts| |done|].
      { by rewrite Hsig; apply sign_length. }
      intros cb Hcb Hcb'. eapply owner_sig_dispatch; [exact Hk|exact Hcb|exact Hsig|].
      apply (pot_grows_ok (ctx_params ctx) (ctx_artifacts ctx)) with
        (pin := Obol.raw (oc_value pt)); side.
  - balance.
  - split; [done|]. cbn -[txout]. rewrite u64_wadd_id, u64_sat_add_id by amounts. done.
Qed.

(** A draw the builder accepts finalizes once the vault owner's key signs it: pot, issuer
    and vault covenants accept, no asset is created or destroyed, and the announced vault,
    pot and issuer coins are outputs of the transaction. *)
Theorem draw_sound (pr : ProtocolState) (v : OnChain VaultState) (intent : DrawIntent)
    (kp : bytes) (b : Built DrawDelta) :
  protocol_wf pr -> vault_on_wf v ->
  tick_signed (oracle_pks (ctx_params ctx)) (dr_tick intent) ->
  0 <= Obol.raw (dr_amount intent) -> 0 <= Sats.raw (dr_fee intent) ->
  keypair_pk kp = owner (state v) ->
  draw ctx pr v intent = Ok b ->
  owner_finalizes ctx (plan b) kp /\ balanced (plan b) /\
  vault_at ctx (p_tx (plan b)) (dd_vault (expected b)) /\
  pot_at ctx (p_tx (plan b)) (dd_pot (expected b)) /\
  issuer_at ctx (p_tx (plan b)) (dd_issuer (expected b)).
Proof.
  intros Hp Hv Ht Hx0 Hfee Hk Hb.
  apply draw_ok_iff in Hb as
    ([Hz Ha]%check_tick_ok & Hr%check_ratchet_ok & Hx & Hf & Hpot & _ & Hnd & Hg & ->).
  set (s' := mkVault (Obol.new (u64_sat_add (Obol.raw (debt (state v))) (Obol.raw (dr_amount intent))))
                 (owner (state v)) (OracleTick.height (dr_tick intent))).
  split_and!; try done; [|balance].
  apply owner_accept_finalizes with
    (pre := [mkSlot 1 KPotOutflow; mkSlot 2 (KIssuer (state (issuer pr))
       (IDraw (debt (state v)) (xonly_u256 (owner (state v))) (last_height (state v))
          (debt s') (OracleTick.height (dr_tick intent))))])
    (s := state v) (op := VDraw zero_sig (dr_amount intent) (dr_tick intent)).
  - in_range.
  - pre_slots.
    + apply (slot_outflow_ok _ _ _ (proj1 Hctx)). intros cb.
      eapply (outflow_main_ok (ctx_params ctx) (ctx_artifacts ctx)) with (ix := 1);
        try reflexivity; uint.
    + apply (slot_issuer_arm _ _ _ (proj1 Hctx) deploy_keys);
        [apply Hp| |done|].
      { pose proof (wf_height _ (proj1 (proj1 Ht))). unfold LOCK_TIME_HEIGHT_THRESHOLD in *.
        split_and!; subst s'; try amounts. apply Hv. }
      intros cb Hcb.
      apply (draw_issuer_ok (ctx_params ctx) (ctx_artifacts ctx)) with (ix := 2)
        (v := state v) (v' := s') (x := Obol.raw (dr_amount intent))
        (pin := Obol.raw (oc_value (pot pr))) (coll := Sats.raw (oc_value v))
        (out := u64_sat_sub (Sats.raw (oc_value v)) (Sats.raw (dr_fee intent))); subst s'; try side.
      all: apply deploy_keys || apply Hv.
  - intros sig Hsig.
    apply (slot_vault_arm _ _ _ (proj1 Hctx) deploy_keys _ (Sats.raw (oc_value v)));
      [apply Hv|amounts|amounts| |done|].
    { split_and!; [by rewrite Hsig; apply sign_length|amounts|apply Ht]. }
    intros cb Hcb Hcb'. eapply owner_sig_dispatch; [exact Hk|exact Hcb|exact Hsig|].
    apply (draw_arm_ok (ctx_params ctx) (ctx_artifacts ctx)) with
      (coll := Sats.raw (oc_value v)) (s' := s') (pin := Obol.raw (oc_value (pot pr)))
      (out := u64_sat_sub (Sats.raw (oc_value v)) (Sats.raw (dr_fee intent)));
      subst s'; try side.
    + apply deploy_keys.
    + by eapply (locked_tick _ _ _ _ _ deploy_keys Ht Hz).
Qed.

End SoundOwner.
