(* ===== verification/SoundKeeper.v ===== *)
(** * Soundness of the keeper builders

    The same guarantee as in [SoundOwner] for liquidate, full liquidation, bad debt and
    redeem: a successful checked builder gives a plan every covenant accepts, which
    creates and destroys nothing. *)

From Stdlib Require Import ZArith Lia.
From stdpp Require Import base gmap strings option list.
From S2P Require Import Prelude Units CrMath Elements Oracle Simf Encode Domain Artifacts Jets.
From S2P Require Import CovVault CovReserve CovIssuer Plan BuildOwner BuildKeeper Accept.
From S2P Require Import CovLemmas CovAccept Sound SoundOwner.

Section KeeperIff.
Context `{Lib} (ctx : Ctx).

(** ** When the checked builders succeed *)

Lemma liquidate_ok_iff pr v intent b :
  liquidate ctx pr v intent = Ok b <->
  let d := Obol.raw (debt (state v)) in
  let dd := Obol.raw (lq_dd intent) in
  let hi := OracleTick.hi (lq_tick intent) in
  let coll := Sats.raw (oc_value v) in
  let res := Sats.raw (lq_residual intent) in
  check_zero_price (lq_tick intent) = Ok tt /\
  check_vault_ratchet (lq_tick intent) (last_height (state v)) = Ok tt /\
  d <= U32_MAX /\ coll < at_cr d hi K_HEALTH_GATE /\ dd <> 0 /\ dd < d /\ d - dd <= U32_MAX /\
  at_cr (d - dd) hi K_HEAL_LO <= res <= at_cr (d - dd) hi K_HEAL_HI /\
  res <= coll /\ dd <= U32_MAX /\ coll - res <= at_cr dd hi K_FULL_LIQ_CAP /\
  dd <= Obol.raw (ob_value (lq_keeper intent)) /\
  at_cr dd hi K_RESERVE_SHARE + Sats.raw (lq_fee intent) <= U64_MAX /\
  at_cr dd hi K_RESERVE_SHARE + Sats.raw (lq_fee intent) < coll - res /\
  b = liquidate_unchecked ctx pr v intent.
Proof.
  unfold liquidate, lift_math, OracleTick.hi, at_cr. rewrite obol_eq_zero.
  destruct (OracleTick.price_range (lq_tick intent)) as [lo hi] eqn:Hrange. cbn [snd]. split.
  - intros Hb. do 2 (apply bind_ok in Hb as ([] & ? & Hb)).
    apply bind_ok in Hb as (c & [Hc ->]%map_err_ok%covenant_cents_ok & Hb). do 3 pass_guard Hb.
    apply bind_ok in Hb as (rd & [Hrd ->]%map_err_ok%obol_checked_sub_ok & Hb).
    apply bind_ok in Hb as (rc & [Hrc ->]%map_err_ok%covenant_cents_ok & Hb). pass_guard Hb.
    apply bind_ok in Hb as (ex & [Hex ->]%map_err_ok%sats_checked_sub_ok & Hb).
    apply bind_ok in Hb as (dc & [Hdc ->]%map_err_ok%covenant_cents_ok & Hb). do 2 pass_guard Hb.
    apply bind_ok in Hb as (dc & [_ ->]%map_err_ok%covenant_cents_ok & Hb).
    apply bind_ok in Hb as (nd & [Hnd ->]%map_err_ok%sats_checked_add_ok & Hb). pass_guard Hb.
    injection Hb as <-. boolz. cbn [Sats.raw Obol.raw] in *. cbn zeta. split_and!; done || lia.
  - cbn zeta. intros (-> & -> & Hd & Hg & Hz & Hlt & Hrd & [Hb1 Hb2] & Hres & Hdd & Hcap & Hpay & Hs & Hsh & ->).
    cbn [mbind result_bind].
    rewrite (proj2 (covenant_cents_ok (debt _) _) (conj Hd eq_refl)). cbn [map_err mbind result_bind].
    rewrite (proj2 (Z.leb_gt _ _) Hg), (proj2 (Z.eqb_neq _ _) Hz), (proj2 (Z.leb_gt _ _) Hlt).
    rewrite (proj2 (obol_checked_sub_ok _ _ _) (conj (Z.lt_le_incl _ _ Hlt) eq_refl)).
    cbn [map_err mbind result_bind].
    rewrite (proj2 (covenant_cents_ok (Obol.new _) _) (conj Hrd eq_refl)).
    cbn [map_err mbind result_bind Obol.raw].
    rewrite (proj2 (Z.ltb_ge _ _) Hb1), (proj2 (Z.ltb_ge _ _) Hb2). cbn [orb].
    rewrite (proj2 (sats_checked_sub_ok _ _ _) (conj Hres eq_refl)). cbn [map_err mbind result_bind].
    rewrite (proj2 (covenant_cents_ok _ _) (conj Hdd eq_refl)). cbn [map_err mbind result_bind Sats.raw].
    rewrite (proj2 (Z.ltb_ge _ _) Hcap), (proj2 (Z.ltb_ge _ _) Hpay).
    rewrite (proj2 (sats_checked_add_ok _ _ _) (conj Hs eq_refl)). cbn [map_err mbind result_bind Sats.raw].
    by rewrite (proj2 (Z.leb_gt _ _) Hsh).
Qed.

Lemma full_liq_ok_iff pr v intent b :
  full_liq ctx pr v intent = Ok b <->
  let d := Obol.raw (debt (state v)) in
  let hi := OracleTick.hi (fl_tick intent) in
  check_zero_price (fl_tick intent) = Ok tt /\
  check_vault_ratchet (fl_tick intent) (last_height (state v)) = Ok tt /\
  d <= U32_MAX /\
  at_cr d hi K_PAR <= Sats.raw (oc_value v) <= at_cr d hi K_FULL_LIQ_CAP /\
  d < Obol.raw (ob_value (fl_keeper intent)) /\
  b = full_liq_unchecked ctx pr v intent.
Proof.
  unfold full_liq, lift_math, OracleTick.hi, at_cr.
  destruct (OracleTick.price_range (fl_tick intent)) as [lo hi]. cbn [snd]. split.
  - intros Hb. do 2 (apply bind_ok in Hb as ([] & ? & Hb)).
    apply bind_ok in Hb as (c & [Hc ->]%map_err_ok%covenant_cents_ok & Hb). pass_guard Hb.
    destruct (Z.leb_spec (Obol.raw (ob_value (fl_keeper intent))) (Obol.raw (debt (state v)))).
    { apply bind_ok in Hb as (? & ? & ?). done. }
    injection Hb as <-. boolz. cbn zeta. split_and!; done.
  - cbn zeta. intros (-> & -> & Hd & [Hb1 Hb2] & Hk & ->). cbn [mbind result_bind].
    rewrite (proj2 (covenant_cents_ok (debt _) _) (conj Hd eq_refl)). cbn [map_err mbind result_bind].
    rewrite (proj2 (Z.ltb_ge _ _) Hb1), (proj2 (Z.ltb_ge _ _) Hb2). cbn [orb].
    by rewrite (proj2 (Z.leb_gt _ _) Hk).
Qed.

Lemma bad_debt_ok_iff pr v intent b :
  bad_debt ctx pr v intent = Ok b <->
  let d := Obol.raw (debt (state v)) in
  check_tick (bd_tick intent) (last_mint_height (state (issuer pr))) = Ok tt /\
  check_vault_ratchet (bd_tick intent) (last_height (state v)) = Ok tt /\
  d <= U32_MAX /\ Sats.raw (oc_value v) < at_cr d (OracleTick.hi (bd_tick intent)) K_PAR /\
  d <= Obol.raw (ob_value (bd_keeper intent)) /\
  Sats.raw (bd_fee intent) < Sats.raw (fc_value (bd_fee_coin intent)) /\
  b = bad_debt_unchecked ctx pr v intent.
Proof.
  unfold bad_debt, lift_math, OracleTick.hi, at_cr.
  destruct (OracleTick.price_range (bd_tick intent)) as [lo hi]. cbn [snd]. split.
  - intros Hb. do 2 (apply bind_ok in Hb as ([] & ? & Hb)).
    apply bind_ok in Hb as (c & [Hc ->]%map_err_ok%covenant_cents_ok & Hb). do 3 pass_guard Hb.
    injection Hb as <-. boolz. cbn zeta. split_and!; done.
  - cbn zeta. intros (-> & -> & Hd & Hg & Hk & Hf & ->). cbn [mbind result_bind].
    rewrite (proj2 (covenant_cents_ok (debt _) _) (conj Hd eq_refl)). cbn [map_err mbind result_bind].
    by rewrite (proj2 (Z.leb_gt _ _) Hg), (proj2 (Z.ltb_ge _ _) Hk), (proj2 (Z.leb_gt _ _) Hf).
Qed.

Lemma redeem_ok_iff pr v intent b :
  redeem ctx pr v intent = Ok b <->
  let d := Obol.raw (debt (state v)) in
  let x := Obol.raw (rd_x intent) in
  let hi := OracleTick.hi (rd_tick intent) in
  let worth := at_cr x hi (RatioK.min (OracleTick.backing_k (rd_tick intent)) K_PAR) in
  let share := at_cr x hi K_FEE_HALF_PERCENT in
  check_zero_price (rd_tick intent) = Ok tt /\
  check_vault_ratchet (rd_tick intent) (last_height (state v)) = Ok tt /\
  x <> 0 /\ x <= d /\ x <= Obol.raw (ob_value (rd_redeemer intent)) /\ x <= U32_MAX /\
  worth <= Sats.raw (oc_value v) /\
  share + Sats.raw (rd_fee intent) <= U64_MAX /\ share + Sats.raw (rd_fee intent) < worth /\
  b = redeem_unchecked ctx pr v intent.
Proof.
  unfold redeem, lift_math, OracleTick.hi, at_cr. rewrite obol_eq_zero.
  destruct (OracleTick.price_range (rd_tick intent)) as [lo hi]. cbn [snd]. split.
  - intros Hb. do 2 (apply bind_ok in Hb as ([] & ? & Hb)). do 3 pass_guard Hb.
    apply bind_ok in Hb as (c & [Hc ->]%map_err_ok%covenant_cents_ok & Hb). pass_guard Hb.
    apply bind_ok in Hb as (nd & [Hnd ->]%map_err_ok%sats_checked_add_ok & Hb). pass_guard Hb.
    injection Hb as <-. boolz. cbn [Sats.raw] in *. cbn zeta. split_and!; done.
  - cbn zeta. intros (-> & -> & Hz & Hd & Hk & Hx & Hw & Hs & Hlt & ->). cbn [mbind result_bind].
    rewrite (proj2 (Z.eqb_neq _ _) Hz), (proj2 (Z.ltb_ge _ _) Hd), (proj2 (Z.ltb_ge _ _) Hk).
    rewrite (proj2 (covenant_cents_ok _ _) (conj Hx eq_refl)). cbn [map_err mbind result_bind].
    rewrite (proj2 (Z.ltb_ge _ _) Hw).
    rewrite (proj2 (sats_checked_add_ok _ _ _) (conj Hs eq_refl)). cbn [map_err mbind result_bind Sats.raw].
    by rewrite (proj2 (Z.leb_gt _ _) Hlt).
Qed.

End KeeperIff.

Section SoundKeeper.
Context `{HLib : Lib, !LibSpec HLib, !SigHash, !SigHashSpec _, HRed : !Redeemer,
  !RedeemerSpec HRed, !Compiler}.
Context (ctx : Ctx) (Hctx : deploy_ok ctx).
Abbreviation pks := (oracle_pks (ctx_params ctx)).

(** The narrowing of the unchecked layouts is exact once the checks have passed. *)
Lemma cents_exact d p k : Obol.raw d <= U32_MAX ->
  Sats.raw (coll_at_cr (Obol.cents_or_max d) p k) = at_cr (Obol.raw d) p k.
Proof. intros Hd. unfold at_cr. by rewrite (cents_or_max_ok d (Obol.raw d)) by (by apply covenant_cents_ok). Qed.

Lemma policy_ne_obol : obol (ctx_params ctx) <> policy (ctx_params ctx).
Proof.
  destruct Hctx as [HA HW]. pose proof (ao_preflight _ _ HA) as Hpf.
  destruct (preflight_assets _ Hpf) as (_ & ? & _). done.
Qed.

Ltac inflow := apply (slot_inflow_ok _ _ _ (proj1 Hctx)); intros cb;
  eapply (repay_main_ok (ctx_params ctx) (ctx_artifacts ctx)); try reflexivity; amounts.
Ltac accumulate := apply (slot_stability_ok _ _ _ (proj1 Hctx)); intros cb;
  eapply (accumulate_ok (ctx_params ctx) (ctx_artifacts ctx)); try reflexivity; amounts.
Ltac slots := repeat (apply Forall_cons; split); [..|apply Forall_nil_2].

(** A liquidation the builder accepts passes every covenant. *)
Lemma liquidate_finalizes (pr : ProtocolState) (v : OnChain VaultState) (intent : LiquidateIntent)
    (b : Built LiquidateDelta) :
  protocol_wf pr -> vault_on_wf v -> tick_signed pks (lq_tick intent) ->
  0 <= Obol.raw (lq_dd intent) -> 0 <= Sats.raw (lq_residual intent) ->
  amount (Obol.raw (ob_value (lq_keeper intent))) -> 0 <= Sats.raw (lq_fee intent) ->
  liquidate ctx pr v intent = Ok b ->
  finalizes ctx (plan b).
Proof.
  intros Hp Hv Ht Hdd0 Hres0 Hk Hfee Hb.
  apply liquidate_ok_iff in Hb as (Hz & Hr%check_ratchet_ok & Hd & Hg & Hdz & Hlt & _ & Hband &
    Hres & Hdd & Hcap & Hpay & _ & Hsh & ->).
  destruct (range_pos _ (proj1 (proj1 Ht)) Hz) as [Hlo Hhi].
  pose proof (at_cr_bound (Obol.raw (lq_dd intent)) (OracleTick.hi (lq_tick intent)) K_RESERVE_SHARE
    ltac:(uint) Hhi ltac:(by vm_compute)) as Hsb.
  pose proof (cents_exact (lq_dd intent) (OracleTick.hi (lq_tick intent)) K_RESERVE_SHARE Hdd) as Hce.
  apply accept_finalizes; [in_range|]. slots; [inflow|accumulate|].
  apply (slot_vault_arm _ _ _ (proj1 Hctx) (deploy_keys ctx Hctx) _ (Sats.raw (oc_value v)));
    [apply Hv|amounts|amounts|split; [amounts|apply Ht]|done|].
  intros cb _ Hcb. apply (liquidate_arm_ok (ctx_params ctx) (ctx_artifacts ctx)) with
    (coll := Sats.raw (oc_value v))
    (s' := mkVault (Obol.new (u64_sat_sub (Obol.raw (debt (state v))) (Obol.raw (lq_dd intent))))
             (owner (state v)) (last_height (state v)))
    (pin := Obol.raw (oc_value (pot pr))) (sin := Sats.raw (oc_value (reserve pr)))
    (residual := Sats.raw (lq_residual intent)); try side.
  - apply (deploy_keys ctx Hctx).
  - by eapply (locked_tick _ _ _ _ _ (deploy_keys ctx Hctx) Ht Hz).
Qed.

(** C6: A partial liquidation the builder accepts finalizes without the owner: pot, reserve and
    vault covenants accept, the transaction balances, and the announced vault, pot and
    reserve coins are its outputs. *)
Theorem liquidate_sound (pr : ProtocolState) (v : OnChain VaultState) (intent : LiquidateIntent)
    (b : Built LiquidateDelta) :
  protocol_wf pr -> vault_on_wf v -> tick_signed pks (lq_tick intent) ->
  0 <= Obol.raw (lq_dd intent) -> 0 <= Sats.raw (lq_residual intent) ->
  amount (Obol.raw (ob_value (lq_keeper intent))) -> 0 <= Sats.raw (lq_fee intent) ->
  liquidate ctx pr v intent = Ok b ->
  finalizes ctx (plan b) /\ balanced (plan b) /\
  vault_at ctx (p_tx (plan b)) (ld_vault (expected b)) /\
  pot_at ctx (p_tx (plan b)) (ld_pot (expected b)) /\
  reserve_at ctx (p_tx (plan b)) (ld_reserve (expected b)).
Proof.
  intros Hp Hv Ht Hdd0 Hres0 Hk Hfee Hb.
  pose proof (liquidate_finalizes pr v intent b Hp Hv Ht Hdd0 Hres0 Hk Hfee Hb) as Hfin.
  apply liquidate_ok_iff in Hb as (Hz & Hr%check_ratchet_ok & Hd & Hg & Hdz & Hlt & _ & Hband &
    Hres & Hdd & Hcap & Hpay & _ & Hsh & ->).
  destruct (range_pos _ (proj1 (proj1 Ht)) Hz) as [Hlo Hhi].
  pose proof (at_cr_bound (Obol.raw (lq_dd intent)) (OracleTick.hi (lq_tick intent)) K_RESERVE_SHARE
    ltac:(uint) Hhi ltac:(by vm_compute)) as Hsb.
  pose proof (cents_exact (lq_dd intent) (OracleTick.hi (lq_tick intent)) K_RESERVE_SHARE Hdd) as Hce.
  split_and!; try done. balance.
Qed.

(** The fee of a full liquidation comes out of the keeper's take, and only the
    transaction's balance bounds it. *)
Lemma full_liq_balanced pr v intent rf :
  protocol_wf pr -> vault_on_wf v -> u32 (Obol.raw (debt (state v))) ->
  Obol.raw (debt (state v)) < Obol.raw (ob_value (fl_keeper intent)) ->
  amount (Obol.raw (ob_value (fl_keeper intent))) -> 0 <= Sats.raw (fl_fee intent) ->
  u64_sat_sub (Sats.raw (oc_value v)) (Sats.raw (coll_at_cr (Obol.cents_or_max
    (debt (state v))) (OracleTick.hi (fl_tick intent)) K_PAR)) / 3 = rf ->
  0 <= rf <= Sats.raw (oc_value v) ->
  balanced (plan (full_liq_unchecked ctx pr v intent)) <->
  Sats.raw (fl_fee intent) <= Sats.raw (oc_value v) - rf.
Proof.
  intros Hp Hv Hd Hpay Hk Hfee Hrf Hrb. unfold balanced, full_liq_unchecked. cbv zeta.
  rewrite Hrf. clear Hrf. cbn [plan p_utxos p_tx output].
  split; [|intros Hf; balance].
  intros Hbal. specialize (Hbal (policy (ctx_params ctx))). pose proof policy_ne_obol as Hne.
  autorewrite with totals in Hbal.
  rewrite !(bool_decide_true (policy _ = policy _)), !(bool_decide_false (obol _ = policy _)) in Hbal
    by done.
  amounts.
Qed.

(** A full liquidation the builder accepts passes every covenant. *)
Lemma full_liq_finalizes (pr : ProtocolState) (v : OnChain VaultState) (intent : FullLiqIntent)
    (b : Built FullLiqDelta) :
  protocol_wf pr -> vault_on_wf v -> tick_signed pks (fl_tick intent) ->
  amount (Obol.raw (ob_value (fl_keeper intent))) -> 0 <= Sats.raw (fl_fee intent) ->
  full_liq ctx pr v intent = Ok b ->
  finalizes ctx (plan b).
Proof.
  intros Hp Hv Ht Hk Hfee Hb.
  apply full_liq_ok_iff in Hb as (Hz & Hr%check_ratchet_ok & Hd & Hband & Hpay & ->).
  destruct (range_pos _ (proj1 (proj1 Ht)) Hz) as [Hlo Hhi].
  assert (Hd32 : u32 (Obol.raw (debt (state v)))) by amounts.
  pose proof (at_cr_bound _ (OracleTick.hi (fl_tick intent)) K_PAR Hd32 Hhi ltac:(by vm_compute)) as Hsb.
  pose proof (cents_exact (debt (state v)) (OracleTick.hi (fl_tick intent)) K_PAR Hd) as Hce.
  remember ((Sats.raw (oc_value v) - at_cr (Obol.raw (debt (state v)))
    (OracleTick.hi (fl_tick intent)) K_PAR) / 3) as rf eqn:Erf.
  assert (Hrf : u64_sat_sub (Sats.raw (oc_value v)) (Sats.raw (coll_at_cr (Obol.cents_or_max
      (debt (state v))) (OracleTick.hi (fl_tick intent)) K_PAR)) / 3 = rf).
  { rewrite Hce, Erf. by rewrite u64_sat_sub_id by lia. }
  assert (Hrb : 0 <= rf <= Sats.raw (oc_value v)).
  { rewrite Erf. split; [apply Z.div_pos; lia|]. apply Z.div_le_upper_bound; lia. }
  clear Hce. apply accept_finalizes; [in_range|]. slots; [inflow|accumulate|].
  apply (slot_vault_arm _ _ _ (proj1 Hctx) (deploy_keys ctx Hctx) _ (Sats.raw (oc_value v)));
    [apply Hv|amounts|amounts|apply Ht|done|].
  intros cb _ Hcb. apply (full_liq_arm_ok (ctx_params ctx) (ctx_artifacts ctx)) with
    (s := state v) (coll := Sats.raw (oc_value v)) (rf := rf)
    (pin := Obol.raw (oc_value (pot pr))) (sin := Sats.raw (oc_value (reserve pr))); try side.
  + apply (deploy_keys ctx Hctx).
  + by eapply (locked_tick _ _ _ _ _ (deploy_keys ctx Hctx) Ht Hz).
Qed.

(** C8: A full liquidation the builder accepts finalizes and carries the announced pot and
    reserve coins; it balances exactly when the fee fits what the reserve's third leaves of
    the collateral, which the builder does not check. *)
Theorem full_liq_sound (pr : ProtocolState) (v : OnChain VaultState) (intent : FullLiqIntent)
    (b : Built FullLiqDelta) :
  protocol_wf pr -> vault_on_wf v -> tick_signed pks (fl_tick intent) ->
  amount (Obol.raw (ob_value (fl_keeper intent))) -> 0 <= Sats.raw (fl_fee intent) ->
  full_liq ctx pr v intent = Ok b ->
  let reserve_fee := (Sats.raw (oc_value v) -
    at_cr (Obol.raw (debt (state v))) (OracleTick.hi (fl_tick intent)) K_PAR) / 3 in
  finalizes ctx (plan b) /\
  (balanced (plan b) <-> Sats.raw (fl_fee intent) <= Sats.raw (oc_value v) - reserve_fee) /\
  pot_at ctx (p_tx (plan b)) (fd_pot (expected b)) /\
  reserve_at ctx (p_tx (plan b)) (fd_reserve (expected b)).
Proof.
  intros Hp Hv Ht Hk Hfee Hb. pose proof (full_liq_finalizes pr v intent b Hp Hv Ht Hk Hfee Hb) as Hfin.
  apply full_liq_ok_iff in Hb as (Hz & Hr%check_ratchet_ok & Hd & Hband & Hpay & ->).
  destruct (range_pos _ (proj1 (proj1 Ht)) Hz) as [Hlo Hhi].
  assert (Hd32 : u32 (Obol.raw (debt (state v)))) by amounts.
  pose proof (at_cr_bound _ (OracleTick.hi (fl_tick intent)) K_PAR Hd32 Hhi ltac:(by vm_compute)) as Hsb.
  pose proof (cents_exact (debt (state v)) (OracleTick.hi (fl_tick intent)) K_PAR Hd) as Hce.
  cbv zeta. remember ((Sats.raw (oc_value v) - at_cr (Obol.raw (debt (state v)))
    (OracleTick.hi (fl_tick intent)) K_PAR) / 3) as rf eqn:Erf.
  assert (Hrf : u64_sat_sub (Sats.raw (oc_value v)) (Sats.raw (coll_at_cr (Obol.cents_or_max
      (debt (state v))) (OracleTick.hi (fl_tick intent)) K_PAR)) / 3 = rf).
  { rewrite Hce, Erf. by rewrite u64_sat_sub_id by lia. }
  assert (Hrb : 0 <= rf <= Sats.raw (oc_value v)).
  { rewrite Erf. split; [apply Z.div_pos; lia|]. apply Z.div_le_upper_bound; lia. }
  clear Hce. split_and!; try done. by apply full_liq_balanced.
Qed.

(** A redemption the builder accepts finalizes without the owner, balances, and carries the
    announced vault, pot and reserve coins. *)
Theorem redeem_sound (pr : ProtocolState) (v : OnChain VaultState) (intent : RedeemIntent)
    (b : Built RedeemDelta) :
  protocol_wf pr -> vault_on_wf v -> u32 (Obol.raw (debt (state v))) ->
  tick_signed pks (rd_tick intent) -> 0 <= Obol.raw (rd_x intent) ->
  amount (Obol.raw (ob_value (rd_redeemer intent))) -> 0 <= Sats.raw (rd_fee intent) ->
  redeem ctx pr v intent = Ok b ->
  finalizes ctx (plan b) /\ balanced (plan b) /\
  vault_at ctx (p_tx (plan b)) (rdd_vault (expected b)) /\
  pot_at ctx (p_tx (plan b)) (rdd_pot (expected b)) /\
  reserve_at ctx (p_tx (plan b)) (rdd_reserve (expected b)).
Proof.
  intros Hp Hv Hd Ht Hx0 Hk Hfee Hb.
  apply redeem_ok_iff in Hb as (Hz & Hr%check_ratchet_ok & Hxz & Hxd & Hpay & Hx & Hw & _ & Hsh & ->).
  destruct (range_pos _ (proj1 (proj1 Ht)) Hz) as [Hlo Hhi].
  assert (Hx32 : u32 (Obol.raw (rd_x intent))) by uint.
  pose proof (at_cr_bound _ (OracleTick.hi (rd_tick intent)) K_FEE_HALF_PERCENT Hx32 Hhi
    ltac:(by vm_compute)) as Hsb.
  pose proof (cents_exact (rd_x intent) (OracleTick.hi (rd_tick intent)) K_FEE_HALF_PERCENT Hx) as Hce.
  pose proof (cents_exact (rd_x intent) (OracleTick.hi (rd_tick intent))
    (RatioK.min (OracleTick.backing_k (rd_tick intent)) K_PAR) Hx) as Hcw.
  split_and!; try done; [|balance].
  apply accept_finalizes; [in_range|]. slots; [inflow|accumulate|].
  apply (slot_vault_arm _ _ _ (proj1 Hctx) (deploy_keys ctx Hctx) _ (Sats.raw (oc_value v)));
    [apply Hv|amounts|amounts|split; [amounts|apply Ht]|done|].
  intros cb _ Hcb. apply (redeem_arm_ok (ctx_params ctx) (ctx_artifacts ctx)) with
    (coll := Sats.raw (oc_value v))
    (s' := mkVault (Obol.new (u64_sat_sub (Obol.raw (debt (state v))) (Obol.raw (rd_x intent))))
             (owner (state v)) (last_height (state v)))
    (pin := Obol.raw (oc_value (pot pr))) (sin := Sats.raw (oc_value (reserve pr)))
    (residual := u64_sat_sub (Sats.raw (oc_value v))
       (at_cr (Obol.raw (rd_x intent)) (OracleTick.hi (rd_tick intent))
          (RatioK.min (OracleTick.backing_k (rd_tick intent)) K_PAR))); try side.
  - apply (deploy_keys ctx Hctx).
  - by eapply (locked_tick _ _ _ _ _ (deploy_keys ctx Hctx) Ht Hz).
Qed.

(** A bad-debt close the builder accepts passes every covenant. *)
Lemma bad_debt_finalizes (pr : ProtocolState) (v : OnChain VaultState) (intent : BadDebtIntent)
    (b : Built BadDebtDelta) :
  protocol_wf pr -> vault_on_wf v -> tick_signed pks (bd_tick intent) ->
  amount (Obol.raw (ob_value (bd_keeper intent))) ->
  amount (Sats.raw (fc_value (bd_fee_coin intent))) -> 0 <= Sats.raw (bd_fee intent) ->
  bad_debt ctx pr v intent = Ok b ->
  finalizes ctx (plan b).
Proof.
  intros Hp Hv Ht Hk Hfc Hfee Hb.
  apply bad_debt_ok_iff in Hb as ([Hz Ha]%check_tick_ok & Hr%check_ratchet_ok & Hd & Hg & Hpay & Hf & ->).
  destruct (range_pos _ (proj1 (proj1 Ht)) Hz) as [Hlo Hhi].
  assert (Hd32 : u32 (Obol.raw (debt (state v)))) by amounts.
  pose proof (at_cr_bound _ (OracleTick.hi (bd_tick intent)) K_PAR Hd32 Hhi ltac:(by vm_compute)) as HbP.
  pose proof (at_cr_bound _ (OracleTick.hi (bd_tick intent)) K_RESERVE_SHARE Hd32 Hhi
    ltac:(by vm_compute)) as HbS.
  assert (Hdpos : 0 < Obol.raw (debt (state v)))
    by (apply (at_cr_pos_debt _ (OracleTick.hi (bd_tick intent)) K_PAR); amounts).
  pose proof (reserve_pay_bounds (Obol.raw (debt (state v))) (OracleTick.hi (bd_tick intent))
    (oc_value v) (oc_value (reserve pr)) ltac:(amounts) ltac:(lia) ltac:(amounts) ltac:(amounts)) as Hpr.
  pose proof (cents_or_max_ok (debt (state v)) _ (proj2 (covenant_cents_ok _ _) (conj Hd eq_refl)))
    as Hce.
  apply accept_finalizes; [in_range|]. slots; [inflow|..].
  - apply (slot_stability_ok _ _ _ (proj1 Hctx)); intros cb.
    rewrite <- Hce in Hpr. eapply (stability_bad_debt_ok (ctx_params ctx) (ctx_artifacts ctx));
      try reflexivity; amounts.
  - apply (slot_issuer_arm _ _ _ (proj1 Hctx) (deploy_keys ctx Hctx)); [apply Hp| |done|].
    { split_and!; try amounts; [apply Hv|apply Ht]. }
    intros cb Hcb.
    eapply (attest_arm_ok (ctx_params ctx) (ctx_artifacts ctx)) with (v := state v)
      (pin := Obol.raw (oc_value (pot pr))) (rin := Sats.raw (oc_value (reserve pr)))
      (coll := Sats.raw (oc_value v)) (kspk := bd_keeper_spk intent); try side.
    + apply (deploy_keys ctx Hctx).
    + by eapply (locked_tick _ _ _ _ _ (deploy_keys ctx Hctx) Ht Hz).
    + eapply out_coin_eq; [reflexivity|]. rewrite Hce, <- !sats_eta. amounts.
    + rewrite <- !sats_eta. amounts.
    + eapply out_coin_eq; [reflexivity|]. rewrite Hce, <- !sats_eta. amounts.
  - apply (slot_vault_arm _ _ _ (proj1 Hctx) (deploy_keys ctx Hctx) _ (Sats.raw (oc_value v)));
      [apply Hv|amounts|amounts|apply Ht|done|].
    intros cb _ Hcb. apply (bad_debt_arm_ok (ctx_params ctx) (ctx_artifacts ctx)) with
      (s := state v) (coll := Sats.raw (oc_value v)) (pin := Obol.raw (oc_value (pot pr))); try side.
    + apply (deploy_keys ctx Hctx).
    + by eapply (locked_tick _ _ _ _ _ (deploy_keys ctx Hctx) Ht Hz).
Qed.

(** C7: A bad-debt close the builder accepts finalizes: pot, reserve, issuer and vault
    covenants accept the same transaction, which balances and carries the announced pot,
    reserve and issuer coins. *)
Theorem bad_debt_sound (pr : ProtocolState) (v : OnChain VaultState) (intent : BadDebtIntent)
    (b : Built BadDebtDelta) :
  protocol_wf pr -> vault_on_wf v -> tick_signed pks (bd_tick intent) ->
  amount (Obol.raw (ob_value (bd_keeper intent))) ->
  amount (Sats.raw (fc_value (bd_fee_coin intent))) -> 0 <= Sats.raw (bd_fee intent) ->
  bad_debt ctx pr v intent = Ok b ->
  finalizes ctx (plan b) /\ balanced (plan b) /\
  pot_at ctx (p_tx (plan b)) (bdd_pot (expected b)) /\
  reserve_at ctx (p_tx (plan b)) (bdd_reserve (expected b)) /\
  issuer_at ctx (p_tx (plan b)) (bdd_issuer (expected b)).
Proof.
  intros Hp Hv Ht Hk Hfc Hfee Hb. pose proof (bad_debt_finalizes pr v intent b Hp Hv Ht Hk Hfc Hfee Hb) as Hfin.
  apply bad_debt_ok_iff in Hb as ([Hz Ha]%check_tick_ok & Hr%check_ratchet_ok & Hd & Hg & Hpay & Hf & ->).
  destruct (range_pos _ (proj1 (proj1 Ht)) Hz) as [Hlo Hhi].
  assert (Hd32 : u32 (Obol.raw (debt (state v)))) by amounts.
  pose proof (at_cr_bound _ (OracleTick.hi (bd_tick intent)) K_PAR Hd32 Hhi ltac:(by vm_compute)) as HbP.
  pose proof (at_cr_bound _ (OracleTick.hi (bd_tick intent)) K_RESERVE_SHARE Hd32 Hhi
    ltac:(by vm_compute)) as HbS.
  assert (Hdpos : 0 < Obol.raw (debt (state v)))
    by (apply (at_cr_pos_debt _ (OracleTick.hi (bd_tick intent)) K_PAR); amounts).
  pose proof (reserve_pay_bounds (Obol.raw (debt (state v))) (OracleTick.hi (bd_tick intent))
    (oc_value v) (oc_value (reserve pr)) ltac:(amounts) ltac:(lia) ltac:(amounts) ltac:(amounts)) as Hpr.
  pose proof (cents_or_max_ok (debt (state v)) _ (proj2 (covenant_cents_ok _ _) (conj Hd eq_refl)))
    as Hce.
  split_and!; try done. revert Hpr. rewrite <- Hce. intros Hpr. balance.
Qed.

End SoundKeeper.
