(* ===== verification/Testkit.v ===== *)
(** * The canonical scenarios ([styx-pset/src/testkit/mod.rs], [scenarios.rs])

    The fixed deploy of the prune tier and one accepting transaction per operation, the
    amounts as the code has them.  An [unwrap] or an [expect] that fails is [None].  The
    theorem at the end: whatever the hash functions and the signature scheme are, every one
    of these scenarios builds and every covenant accepts it. *)

From Stdlib Require Import ZArith Lia.
From stdpp Require Import base gmap strings option list.
From S2P Require Import Prelude Hex Units CrMath Elements Oracle Simf Domain Encode Artifacts.
From S2P Require Import Jets CovVault CovReserve CovIssuer Plan BuildOwner BuildKeeper Accept.
From S2P Require Import CovLemmas CovAccept Sound SoundOwner SoundKeeper.

Module Testkit.

Definition FEE : Sats.t := Sats.new 10000.
Definition SUPPLY : Obol.t := Obol.new 100000000.

Definition asset (b : Z) : AssetId := replicate 32 (byte_of_Z b).

(** A secret key of one byte. *)
Definition keypair (secret : Z) : bytes := replicate 31 Byte.x00 ++ [byte_of_Z secret].

Definition op_true_spk : Script := [byte_of_Z 0x51].

Definition synthetic_outpoint (n : Z) : OutPoint := mkOutPoint (replicate 32 (byte_of_Z n)) 0.

(** [TestDeploy]. *)
Record TestDeploy : Type := mkDeploy { td_ctx : Ctx; td_oracle_keys : list bytes }.

Definition test_oracle_keys : list bytes := [keypair 7; keypair 8; keypair 9; keypair 101; keypair 102].

Section Kit.
Context `{HL : Lib, HS : SigHash, HR : Redeemer, HC : Compiler}.

Definition test_params : Params :=
  mkParams (asset 0x01) (asset 0x02) (asset 0x03) (keypair_pk <$> test_oracle_keys).

Definition get : option TestDeploy :=
  artifacts ← ok (compile_artifacts test_params);
  Some (mkDeploy (mkCtx test_params artifacts (replicate 32 (byte_of_Z 0x42))) test_oracle_keys).

(** A quote of the [i]-th oracle. *)
Definition quote_by (d : TestDeploy) (i : Z) (payload : TickPayload) : option (OracleSlot.t * SignedQuote) :=
  slot ← ok (OracleSlot.new i);
  key ← td_oracle_keys d !! Z.to_nat i;
  Some (slot, sign_quote key payload).

Definition tick_diverging_bk (d : TestDeploy) (height : Z) (prices : Z * Z * Z) (k : RatioK.t)
    : option OracleTick.t :=
  let payload price := mkPayload (BlockHeight.new height) (Price.new price) k in
  q0 ← quote_by d 0 (payload prices.1.1);
  q1 ← quote_by d 1 (payload prices.1.2);
  q2 ← quote_by d 2 (payload prices.2);
  ok (OracleTick.new (BlockHeight.new height) k (q0, q1, q2)).

Definition tick_bk (d : TestDeploy) (height price : Z) (k : RatioK.t) : option OracleTick.t :=
  tick_diverging_bk d height (price, price, price) k.
Definition tick (d : TestDeploy) (height price : Z) : option OracleTick.t :=
  tick_bk d height price (RatioK.from_cr_percent 100).
Definition tick_diverging (d : TestDeploy) (height : Z) (prices : Z * Z * Z) : option OracleTick.t :=
  tick_diverging_bk d height prices (RatioK.from_cr_percent 100).

Definition protocol_state (pot_bal reserve_bal anchor : Z) : ProtocolState :=
  mkProtocol (mkOn thePot (synthetic_outpoint 0xA0) (Obol.new pot_bal))
    (mkOn theReserve (synthetic_outpoint 0xA1) (Sats.new reserve_bal))
    (mkOn (mkIssuer (BlockHeight.new anchor)) (synthetic_outpoint 0xA2) 1).

Definition poke_intent (tick : OracleTick.t) : PokeIntent :=
  mkPokeIntent tick (mkFunding (synthetic_outpoint 0xB0) (Sats.new 1000000) op_true_spk) op_true_spk FEE.

(** An open at exactly 150%, the funding exact. *)
Definition open_intent (tick : OracleTick.t) (principal : Obol.t) : option OpenIntent :=
  let '(lo, _) := OracleTick.price_range tick in
  debt_cents ← ok (Obol.covenant_cents principal);
  let collateral := coll_at_cr debt_cents lo K_OPEN_MIN in
  let borrow_fee := coll_at_cr debt_cents lo K_FEE_HALF_PERCENT in
  let funding_value := u64_wadd (u64_wadd (Sats.raw collateral) (Sats.raw borrow_fee)) (Sats.raw FEE) in
  Some (mkOpenIntent (keypair_pk (keypair 10)) principal collateral op_true_spk
    (mkFunding (synthetic_outpoint 0xB1) (Sats.new funding_value) op_true_spk) tick FEE).

Definition assert_accepts (d : TestDeploy) (plan : TxPlan) : option Transaction := ok (finalize (td_ctx d) plan).

Definition assert_rejects (d : TestDeploy) (plan : TxPlan) : option FinalizeError :=
  match finalize (td_ctx d) plan with Ok _ => None | Err e => Some e end.

Definition slot_verdict (d : TestDeploy) (plan : TxPlan) (input : Z) : option bool :=
  slot ← find (fun s => ws_input s =? input) (p_slots plan);
  Some (is_ok (slot_witness (td_ctx d) (p_tx plan) (p_utxos plan) slot)).

(** ** Scenarios *)

Record Scenario : Type := mkScenario {
  sc_plan : TxPlan;
  sc_tick : OracleTick.t;
  sc_amount : Obol.t;
  sc_owner : bytes;
  sc_vault : VaultState
}.

Definition DEBT : Z := 5000000.
Definition COLL : Z := 62500000.
Definition POT : Z := 95000000.
Definition LH : Z := 100.
Definition TIP : Z := 120.

Definition base_vault (debt : Z) : VaultState * bytes :=
  let owner := keypair 10 in
  (mkVault (Obol.new debt) (keypair_pk owner) (BlockHeight.new LH), owner).

Definition vault_on_chain (state : VaultState) (coll : Z) : OnChain VaultState :=
  mkOn state (synthetic_outpoint 0xC0) (Sats.new coll).
Definition pot_on_chain : OnChain PotState := mkOn thePot (synthetic_outpoint 0xA0) (Obol.new POT).
Definition obol_coin (n value : Z) : ObolCoin := mkObolCoin (synthetic_outpoint n) (Obol.new value) op_true_spk.
Definition fee_coin : FundingCoin := mkFunding (synthetic_outpoint 0xB3) (Sats.new 1000000) op_true_spk.

(** The first vault slot's operation, replaced. *)
Fixpoint replace_op (op : VaultOp) (slots : list WitnessSlot) : option (list WitnessSlot) :=
  match slots with
  | [] => None
  | slot :: slots =>
      match ws_kind slot with
      | KVault state _ => Some (mkSlot (ws_input slot) (KVault state op) :: slots)
      | _ => slots ← replace_op op slots; Some (slot :: slots)
      end
  end.

Definition set_vault_op (plan : TxPlan) (op : VaultOp) : option TxPlan :=
  slots ← replace_op op (p_slots plan); Some (mkPlan (p_tx plan) (p_utxos plan) slots).

Fixpoint replace_kind (input : Z) (kind : SlotKind) (slots : list WitnessSlot) : option (list WitnessSlot) :=
  match slots with
  | [] => None
  | slot :: slots =>
      if ws_input slot =? input then Some (mkSlot (ws_input slot) kind :: slots)
      else slots ← replace_kind input kind slots; Some (slot :: slots)
  end.

Definition set_slot_kind (plan : TxPlan) (input : Z) (kind : SlotKind) : option TxPlan :=
  slots ← replace_kind input kind (p_slots plan); Some (mkPlan (p_tx plan) (p_utxos plan) slots).

Definition owner_sig (owner digest : bytes) : Sig := mkSig (sign_schnorr owner digest).

Definition signed (d : TestDeploy) (plan : TxPlan) (owner : bytes) : option TxPlan :=
  ok (owner_sign (td_ctx d) plan owner).

Definition sign_owner_op (d : TestDeploy) (plan : TxPlan) (owner : bytes) (op : Sig -> VaultOp) : option TxPlan :=
  digest ← ok (vault_sighash (td_ctx d) plan);
  set_vault_op plan (op (owner_sig owner digest)).

Definition close (d : TestDeploy) : option Scenario :=
  let '(vault, owner) := base_vault DEBT in
  let intent := mkCloseIntent (obol_coin 0xB2 DEBT) op_true_spk op_true_spk FEE in
  built ← ok (BuildOwner.close (td_ctx d) pot_on_chain (vault_on_chain vault COLL) intent);
  plan ← signed d (plan built) owner;
  tick ← tick d TIP 120000;
  Some (mkScenario plan tick (Obol.new DEBT) owner vault).

Definition repay (d : TestDeploy) : option Scenario :=
  let '(vault, owner) := base_vault DEBT in
  let r := 2000000 in
  let intent := mkRepayIntent (Obol.new r) (obol_coin 0xB2 r) op_true_spk fee_coin op_true_spk FEE in
  built ← ok (BuildOwner.repay (td_ctx d) pot_on_chain (vault_on_chain vault COLL) intent);
  plan ← signed d (plan built) owner;
  tick ← tick d TIP 120000;
  Some (mkScenario plan tick (Obol.new r) owner vault).

Definition draw (d : TestDeploy) : option Scenario :=
  let '(vault, owner) := base_vault 3000000 in
  tick ← tick d TIP 120000;
  let intent := mkDrawIntent (Obol.new 1000000) op_true_spk tick FEE in
  built ← ok (BuildOwner.draw (td_ctx d) (protocol_state POT 0 LH) (vault_on_chain vault COLL) intent);
  plan ← signed d (plan built) owner;
  Some (mkScenario plan tick (Obol.new 1000000) owner vault).

Definition refresh (d : TestDeploy) : option Scenario :=
  let '(vault, owner) := base_vault DEBT in
  tick ← tick d TIP 120000;
  let intent := mkRefreshIntent tick fee_coin op_true_spk FEE in
  built ← ok (BuildOwner.refresh (td_ctx d) (vault_on_chain vault COLL) intent);
  Some (mkScenario (plan built) tick (Obol.new DEBT) owner vault).

Definition liquidate_intent (tick : OracleTick.t) : LiquidateIntent :=
  mkLiquidateIntent (Obol.new 1500000) (Sats.new 74000000) (obol_coin 0xB4 1500000) op_true_spk op_true_spk
    tick FEE.

Definition liquidate_with (d : TestDeploy) (tick : OracleTick.t) : option Scenario :=
  let '(vault, owner) := base_vault DEBT in
  let intent := liquidate_intent tick in
  built ← ok (BuildKeeper.liquidate (td_ctx d) (protocol_state POT 1000000 LH)
                (vault_on_chain vault 100000000) intent);
  Some (mkScenario (plan built) tick (lq_dd intent) owner vault).

Definition liquidate (d : TestDeploy) : option Scenario :=
  tick ← tick d TIP 63000; liquidate_with d tick.

Definition full_liq (d : TestDeploy) : option Scenario :=
  let '(vault, owner) := base_vault DEBT in
  tick ← tick d TIP 85000;
  let intent := mkFullLiqIntent (obol_coin 0xB4 (DEBT + 1000)) op_true_spk op_true_spk tick FEE in
  built ← ok (BuildKeeper.full_liq (td_ctx d) (protocol_state POT 1000000 LH) (vault_on_chain vault COLL) intent);
  Some (mkScenario (plan built) tick (Obol.new DEBT) owner vault).

Definition bad_debt_intent (tick : OracleTick.t) : BadDebtIntent :=
  mkBadDebtIntent (obol_coin 0xB4 DEBT) op_true_spk op_true_spk fee_coin op_true_spk tick FEE.

Definition bad_debt (d : TestDeploy) : option Scenario :=
  let '(vault, owner) := base_vault DEBT in
  tick ← tick d TIP 40000;
  built ← ok (BuildKeeper.bad_debt (td_ctx d) (protocol_state POT 30000000 LH) (vault_on_chain vault COLL)
                (bad_debt_intent tick));
  Some (mkScenario (plan built) tick (Obol.new DEBT) owner vault).

Definition redeem_at (d : TestDeploy) (backing_k : RatioK.t) : option Scenario :=
  let '(vault, owner) := base_vault DEBT in
  let x := 1000000 in
  tick ← tick_bk d TIP 120000 backing_k;
  let intent := mkRedeemIntent (Obol.new x) (obol_coin 0xB4 x) op_true_spk op_true_spk tick FEE in
  built ← ok (BuildKeeper.redeem (td_ctx d) (protocol_state POT 1000000 LH) (vault_on_chain vault COLL) intent);
  Some (mkScenario (plan built) tick (Obol.new x) owner vault).

Definition redeem (d : TestDeploy) : option Scenario := redeem_at d (RatioK.from_cr_percent 100).
Definition redeem_underbacked (d : TestDeploy) : option Scenario := redeem_at d (RatioK.new 160000000).

Definition open_plan (d : TestDeploy) : option TxPlan :=
  tick ← tick d TIP 120000;
  intent ← open_intent tick (Obol.new DEBT);
  built ← ok (BuildOwner.open (td_ctx d) (protocol_state 100000000 1000000 LH) intent);
  Some (plan built).

Definition liquidate_funded (d : TestDeploy) (intent : LiquidateIntent) : option TxPlan :=
  let '(vault, _) := base_vault DEBT in
  built ← ok (BuildKeeper.liquidate (td_ctx d) (protocol_state POT 1000000 LH)
                (vault_on_chain vault 100000000) intent);
  Some (plan built).

End Kit.
End Testkit.

(** ** Every canonical scenario is accepted

    The scenarios of [Testkit] for any hash functions, any correct signature scheme and any
    compiler: nothing in the numbers of the protocol keeps an operation from having a
    transaction that all its covenants accept. *)
Import Testkit.

Section Accepted.
Context `{HL : Lib, LS : !LibSpec HL, HS : SigHash, SS : !SigHashSpec HS, HR : Redeemer,
  RS : !RedeemerSpec HR, HC : Compiler}.

(** BIP340: the x-only key of a 32-byte secret is 32 bytes. *)
Definition keys_are_32 : Prop := forall kp, length kp = 32%nat -> length (keypair_pk kp) = 32%nat.

(** The tick of the first three oracles, each with its price. *)
Definition three_ticks (h : Z) (prices : Z * Z * Z) (k : RatioK.t) : OracleTick.t :=
  let quote i price :=
    Some (sign_quote (keypair i) (mkPayload (BlockHeight.new h) (Price.new price) k)) in
  OracleTick.mk (BlockHeight.new h) k
    [quote 7 prices.1.1; quote 8 prices.1.2; quote 9 prices.2; None; None].

Lemma get_some d :
  get = Some d -> keys_are_32 ->
  deploy_ok (td_ctx d) /\ ctx_params (td_ctx d) = test_params /\ td_oracle_keys d = test_oracle_keys.
Proof.
  intros Hg Hk. apply bind_Some in Hg as (a & Ha & [= <-]). split_and!; [|done..].
  split; [|split_and!; [done| |done..]].
  - apply compile_artifacts_ok. cbn. by destruct (compile_artifacts test_params) as [x|]; [injection Ha as ->|].
  - apply Forall_fmap. by repeat (apply Forall_cons; split; [by apply Hk|]).
Qed.

Lemma tick_made d h prices k :
  td_oracle_keys d = test_oracle_keys -> h < LOCK_TIME_HEIGHT_THRESHOLD ->
  tick_diverging_bk d h prices k = Some (three_ticks h prices k).
Proof.
  intros Hd Hh. unfold tick_diverging_bk, quote_by. rewrite Hd. cbn [OracleSlot.new ok mbind option_bind].
  unfold OracleTick.new. cbn [BlockHeight.raw]. by rewrite (proj2 (Z.leb_gt _ _) Hh).
Qed.

Lemma three_ticks_signed h prices k :
  0 <= h < LOCK_TIME_HEIGHT_THRESHOLD -> u32 (RatioK.raw k) ->
  u32 prices.1.1 -> u32 prices.1.2 -> u32 prices.2 ->
  tick_signed (oracle_pks test_params) (three_ticks h prices k).
Proof.
  intros Hh Hk H1 H2 H3. split; [split; [constructor|]|]; cbn;
    try done; [by repeat (apply Forall_cons; split; [done|])| |].
  { repeat (apply Forall_cons; split; [apply sign_length|]). done. }
  intros i pk q Hpk Hq. destruct i as [|[|[|[|[|i]]]]]; cbn in Hpk, Hq; simplify_eq; apply sign_verify.
Qed.

(** A plan every covenant accepts. *)
Definition accepted (d : TestDeploy) (plan : TxPlan) : Prop :=
  exists tx, assert_accepts d plan = Some tx /\ body tx = body (p_tx plan) /\ slots_accept (td_ctx d) tx plan.

Lemma finalizes_accepted d plan : finalizes (td_ctx d) plan -> accepted d plan.
Proof. intros (tx & Hf & Hb & Ha). exists tx. unfold assert_accepts. by rewrite Hf. Qed.

Definition scenario_ok (d : TestDeploy) (s : option Scenario) : Prop :=
  exists sc, s = Some sc /\ accepted d (sc_plan sc).

(** An owner operation: built, signed, accepted. *)
Lemma signed_ok d plan owner (k : TxPlan -> option Scenario) :
  owner_finalizes (td_ctx d) plan owner ->
  (forall plan', exists sc, k plan' = Some sc /\ sc_plan sc = plan') ->
  scenario_ok d (plan' ← signed d plan owner; k plan').
Proof.
  intros (plan' & Hs & _ & Hf) Hk. unfold signed. rewrite Hs. cbn [ok mbind option_bind].
  destruct (Hk plan') as (sc & -> & Hp). exists sc. split; [done|]. rewrite Hp. by apply finalizes_accepted.
Qed.

Section Deploy.
Context (d : TestDeploy) (Hd : deploy_ok (td_ctx d)) (Hp : ctx_params (td_ctx d) = test_params)
  (Hk : td_oracle_keys d = test_oracle_keys) (H32 : keys_are_32).

Abbreviation TICK price := (three_ticks TIP (price, price, price) (RatioK.from_cr_percent 100)) (only parsing).

Lemma signed_here h prices k :
  0 <= h < LOCK_TIME_HEIGHT_THRESHOLD -> u32 (RatioK.raw k) ->
  u32 prices.1.1 -> u32 prices.1.2 -> u32 prices.2 ->
  tick_signed (oracle_pks (ctx_params (td_ctx d))) (three_ticks h prices k).
Proof. rewrite Hp. apply three_ticks_signed. Qed.

Lemma vault_here debt coll : u64 debt -> 0 <= coll <= MAX_MONEY ->
  vault_on_wf (vault_on_chain (base_vault debt).1 coll).
Proof. intros ? ?. split; [|done]. split_and!; [done|by apply H32|done]. Qed.

Ltac named n := rewrite (surjective_pairing (base_vault n)); cbv beta iota zeta.
Ltac closed := vm_compute; repeat split; first [reflexivity|by intros [=]].
Ltac tick_here := rewrite tick_made by (done || reflexivity); cbn [mbind option_bind].

Lemma close_scenario : scenario_ok d (close d).
Proof.
  unfold close. named DEBT. set (intent := mkCloseIntent _ _ _ _).
  set (b := close_unchecked (td_ctx d) pot_on_chain (vault_on_chain (base_vault DEBT).1 COLL) intent).
  assert (Hb : BuildOwner.close (td_ctx d) pot_on_chain (vault_on_chain (base_vault DEBT).1 COLL) intent = Ok b)
    by (apply close_ok_iff; split_and!; [closed..|reflexivity]).
  rewrite Hb. cbn [ok mbind option_bind]. apply signed_ok.
  - refine (proj1 (close_sound _ Hd _ _ _ _ b _ _ _ _ _ _ Hb)); [apply vault_here; closed|closed..|reflexivity].
  - intros plan'. unfold tick, tick_bk. tick_here. by eexists.
Qed.

Lemma repay_scenario : scenario_ok d (repay d).
Proof.
  unfold repay. named DEBT. set (intent := mkRepayIntent _ _ _ _ _ _).
  set (b := repay_unchecked (td_ctx d) pot_on_chain (vault_on_chain (base_vault DEBT).1 COLL) intent).
  assert (Hb : BuildOwner.repay (td_ctx d) pot_on_chain (vault_on_chain (base_vault DEBT).1 COLL) intent = Ok b)
    by (apply repay_ok_iff; split_and!; [closed..|reflexivity]).
  rewrite Hb. cbn [ok mbind option_bind]. apply signed_ok.
  - refine (proj1 (repay_sound _ Hd _ _ _ _ b _ _ _ _ _ _ _ _ Hb)); [apply vault_here; closed|closed..|reflexivity].
  - intros plan'. unfold tick, tick_bk. tick_here. by eexists.
Qed.

Lemma draw_scenario : scenario_ok d (draw d).
Proof.
  unfold draw, tick, tick_bk. named 3000000. tick_here. set (intent := mkDrawIntent _ _ _ _).
  set (pr := protocol_state POT 0 LH). set (v := vault_on_chain (base_vault 3000000).1 COLL).
  assert (Hb : BuildOwner.draw (td_ctx d) pr v intent = Ok (draw_unchecked (td_ctx d) pr v intent))
    by (apply draw_ok_iff; split_and!; [closed..|reflexivity]).
  rewrite Hb. cbn [ok mbind option_bind]. apply signed_ok.
  - refine (proj1 (draw_sound _ Hd _ _ _ _ _ _ _ _ _ _ _ Hb)); [closed|apply vault_here; closed|apply signed_here; closed|closed..|reflexivity].
  - intros plan'. by eexists.
Qed.

Lemma refresh_scenario : scenario_ok d (refresh d).
Proof.
  unfold refresh, tick, tick_bk. named DEBT. tick_here. set (intent := mkRefreshIntent _ _ _ _).
  set (v := vault_on_chain (base_vault DEBT).1 COLL).
  assert (Hb : BuildOwner.refresh (td_ctx d) v intent = Ok (refresh_unchecked (td_ctx d) v intent))
    by (apply refresh_ok_iff; split_and!; [closed..|reflexivity]).
  rewrite Hb. cbn [ok mbind option_bind].
  eexists. split; [reflexivity|]. apply finalizes_accepted. cbn [sc_plan].
  refine (proj1 (refresh_sound (td_ctx d) Hd v intent _ _ _ _ _ Hb)); [apply vault_here; closed|apply signed_here; closed|closed..].
Qed.

Lemma liquidate_scenario : scenario_ok d (liquidate d).
Proof.
  unfold liquidate, liquidate_with, tick, tick_bk. tick_here. named DEBT.
  set (intent := liquidate_intent _). set (pr := protocol_state POT 1000000 LH).
  set (v := vault_on_chain (base_vault DEBT).1 100000000).
  assert (Hb : BuildKeeper.liquidate (td_ctx d) pr v intent = Ok (liquidate_unchecked (td_ctx d) pr v intent))
    by (apply liquidate_ok_iff; cbv zeta; split_and!; [closed..|reflexivity]).
  rewrite Hb. cbn [ok mbind option_bind].
  eexists. split; [reflexivity|]. apply finalizes_accepted. cbn [sc_plan].
  refine (liquidate_finalizes (td_ctx d) Hd pr v intent _ _ _ _ _ _ _ _ Hb); [closed|apply vault_here; closed|apply signed_here; closed|closed..].
Qed.

Lemma full_liq_scenario : scenario_ok d (full_liq d).
Proof.
  unfold full_liq, tick, tick_bk. named DEBT. tick_here.
  set (intent := mkFullLiqIntent _ _ _ _ _). set (pr := protocol_state POT 1000000 LH).
  set (v := vault_on_chain (base_vault DEBT).1 COLL).
  assert (Hb : BuildKeeper.full_liq (td_ctx d) pr v intent = Ok (full_liq_unchecked (td_ctx d) pr v intent))
    by (apply full_liq_ok_iff; cbv zeta; split_and!; [closed..|reflexivity]).
  rewrite Hb. cbn [ok mbind option_bind].
  eexists. split; [reflexivity|]. apply finalizes_accepted. cbn [sc_plan].
  refine (full_liq_finalizes (td_ctx d) Hd pr v intent _ _ _ _ _ _ Hb); [closed|apply vault_here; closed|apply signed_here; closed|closed..].
Qed.

Lemma bad_debt_scenario : scenario_ok d (bad_debt d).
Proof.
  unfold bad_debt, tick, tick_bk. named DEBT. tick_here.
  set (intent := bad_debt_intent _). set (pr := protocol_state POT 30000000 LH).
  set (v := vault_on_chain (base_vault DEBT).1 COLL).
  assert (Hb : BuildKeeper.bad_debt (td_ctx d) pr v intent = Ok (bad_debt_unchecked (td_ctx d) pr v intent))
    by (apply bad_debt_ok_iff; cbv zeta; split_and!; [closed..|reflexivity]).
  rewrite Hb. cbn [ok mbind option_bind].
  eexists. split; [reflexivity|]. apply finalizes_accepted. cbn [sc_plan].
  refine (bad_debt_finalizes (td_ctx d) Hd pr v intent _ _ _ _ _ _ _ Hb); [closed|apply vault_here; closed|apply signed_here; closed|closed..].
Qed.

(** A redemption at any backing whose worth covers the half percent and the fee. *)
Lemma redeem_scenario k :
  u32 (RatioK.raw k) ->
  let worth := at_cr 1000000 (Price.new 120000) (RatioK.min k K_PAR) in
  at_cr 1000000 (Price.new 120000) K_FEE_HALF_PERCENT + Sats.raw FEE < worth <= COLL ->
  scenario_ok d (redeem_at d k).
Proof.
  intros Hu worth [Hlo Hhi]. unfold redeem_at, tick_bk. named DEBT. tick_here.
  set (intent := mkRedeemIntent _ _ _ _ _ _). set (pr := protocol_state POT 1000000 LH).
  set (v := vault_on_chain (base_vault DEBT).1 COLL).
  assert (Hb : BuildKeeper.redeem (td_ctx d) pr v intent = Ok (redeem_unchecked (td_ctx d) pr v intent))
    by (apply redeem_ok_iff; cbv zeta; split_and!; [closed..|exact Hhi|closed|exact Hlo|reflexivity]).
  rewrite Hb. cbn [ok mbind option_bind].
  eexists. split; [reflexivity|]. apply finalizes_accepted. cbn [sc_plan].
  refine (proj1 (redeem_sound (td_ctx d) Hd pr v intent _ _ _ _ _ _ _ _ Hb));
    [closed|apply vault_here; closed|closed|apply signed_here; first [exact Hu|closed]|closed..].
Qed.

Lemma open_scenario : exists plan, open_plan d = Some plan /\ accepted d plan.
Proof.
  unfold open_plan, tick, tick_bk. tick_here.
  set (intent := mkOpenIntent (keypair_pk (keypair 10)) (Obol.new DEBT) (Sats.new 62500000) op_true_spk
    (mkFunding (synthetic_outpoint 0xB1) (Sats.new 62718333) op_true_spk) (TICK 120000) FEE).
  assert (Hi : open_intent (TICK 120000) (Obol.new DEBT) = Some intent) by reflexivity.
  rewrite Hi. cbn [mbind option_bind]. set (pr := protocol_state 100000000 1000000 LH).
  assert (Hb : exists b, BuildOwner.open (td_ctx d) pr intent = Ok b)
    by (eexists; apply open_ok_iff; split_and!; [closed..|reflexivity]).
  destruct Hb as [b Hb]. rewrite Hb. cbn [ok mbind option_bind].
  eexists. split; [reflexivity|]. apply finalizes_accepted.
  refine (open_finalizes (td_ctx d) Hd pr intent b _ _ _ _ _ _ _ Hb);
    [closed|apply signed_here; closed|by apply H32|closed..].
Qed.

Lemma poke_scenario :
  exists tk b, tick d TIP 120000 = Some tk /\
    BuildOwner.poke (td_ctx d) (issuer (protocol_state POT 0 LH)) (poke_intent tk) = Ok b /\
    accepted d (plan b).
Proof.
  unfold tick, tick_bk. tick_here. set (intent := poke_intent (TICK 120000)).
  assert (Hb : exists b, BuildOwner.poke (td_ctx d) (issuer (protocol_state POT 0 LH)) intent = Ok b)
    by (eexists; apply poke_ok_iff; split_and!; [closed..|reflexivity]).
  destruct Hb as [b Hb]. exists (TICK 120000), b. split; [done|]. split; [exact Hb|]. apply finalizes_accepted.
  refine (proj1 (poke_sound (td_ctx d) Hd _ intent b _ _ _ _ Hb)); [closed|apply signed_here; closed|closed..].
Qed.

(** Any liquidation intent the builder takes at the liquidation scenario's vault. *)
Lemma funded_scenario intent b :
  BuildKeeper.liquidate (td_ctx d) (protocol_state POT 1000000 LH)
    (vault_on_chain (base_vault DEBT).1 100000000) intent = Ok b ->
  liquidate_funded d intent = Some (plan b).
Proof. intros Hb. unfold liquidate_funded. named DEBT. by rewrite Hb. Qed.

End Deploy.

(** C39: Each canonical scenario of the test kit, with the numbers as they stand there, builds
    and is accepted by every covenant it spends, and its transaction is the plan's body, for
    any hash functions, any compiler and any signature scheme whose signatures verify: open,
    close, repay, draw, refresh, poke, partial and full liquidation, bad debt, and redemption
    at par and below. *)
Theorem scenarios_accept (d : TestDeploy) :
  keys_are_32 -> get = Some d ->
  (forall scenario, scenario ∈ [close; repay; draw; refresh; liquidate; full_liq; bad_debt; redeem;
                                redeem_underbacked] ->
     exists s, scenario d = Some s /\ accepted d (sc_plan s)) /\
  (exists plan, open_plan d = Some plan /\ accepted d plan) /\
  exists tk b, tick d TIP 120000 = Some tk /\
    BuildOwner.poke (td_ctx d) (issuer (protocol_state POT 0 LH)) (poke_intent tk) = Ok b /\
    accepted d (plan b).
Proof.
  intros H32 Hg. destruct (get_some d Hg H32) as (Hd & Hp & Hk). split; [|split; [by apply open_scenario|by apply poke_scenario]].
  apply Forall_forall. repeat (apply Forall_cons; split); [..|apply Forall_nil_2].
  - by apply close_scenario.
  - by apply repay_scenario.
  - by apply draw_scenario.
  - by apply refresh_scenario.
  - by apply liquidate_scenario.
  - by apply full_liq_scenario.
  - by apply bad_debt_scenario.
  - apply redeem_scenario; [done..| |]; by vm_compute.
  - apply redeem_scenario; [done..| |]; by vm_compute.
Qed.

End Accepted.
