(* ===== verification/Decide.v ===== *)
(** * The keeper's decision ladder ([styx-keeper/src/decide.rs])

    What one look at a vault and a tick obliges a keeper to do, and how it sizes a partial
    liquidation: a binary search for an edge of feasibility and a walk along it, both as
    the [while] loops of the source. *)

From Stdlib Require Import ZArith Lia.
From stdpp Require Import base gmap strings option list.
From S2P Require Import Prelude Units CrMath Elements Oracle Simf Encode Domain Artifacts Jets.
From S2P Require Import CovVault CovReserve CovIssuer Plan BuildOwner BuildKeeper Accept.
From S2P Require Import CovLemmas CovAccept Sound SoundOwner SoundKeeper.

Module Action.
Inductive t : Type :=
| Nothing
| Refresh
| Partial (dd : Obol.t) (residual : Sats.t)
| FullLiq
| BadDebt.
End Action.

(** [x as u32]. *)
Definition as_u32 (x : Z) : Z := x mod 4294967296.

(** ** [plan_partial]

    The closures [cap], [band] and [fits] of the source, over the variables they capture. *)

Definition cap (hi : Price.t) (dd : Z) : Z := Sats.raw (coll_at_cr (as_u32 dd) hi K_FULL_LIQ_CAP).

Definition band (debt : Obol.t) (hi : Price.t) (dd : Z) : Z * Z :=
  let rd := as_u32 (Obol.raw debt - dd) in
  (Sats.raw (coll_at_cr rd hi K_HEAL_LO), Sats.raw (coll_at_cr rd hi K_HEAL_HI)).

Definition fits (debt : Obol.t) (coll : Sats.t) (hi : Price.t) (dd : Z) : bool :=
  u64_sat_sub (Sats.raw coll) (cap hi dd) <=? (band debt hi dd).2.

(** [a.div_ceil(2)]. *)
Definition half_up (a : Z) : Z := (a + 1) / 2.

(** One iteration of the binary search over [(lo, hi_dd)]. *)
Definition search_step (ok_dd : Z -> bool) (s : Z * Z) : Z * Z :=
  let '(lo, hi_dd) := s in
  let mid := lo + half_up (hi_dd - lo) in
  if ok_dd mid then (mid, hi_dd) else (lo, mid - 1).

Definition search (ok_dd : Z -> bool) (lo hi_dd : Z) : Z * Z :=
  while (fun s => s.1 <? s.2) (search_step ok_dd) 64 (lo, hi_dd).

(** The walk: [while dd + 1 < debt && fits(dd + 1) { dd += 1 }].  The fuel covers every [u32]
    debt. *)
Definition walk_cond (ok_dd : Z -> bool) (debt dd : Z) : bool := (dd + 1 <? debt) && ok_dd (dd + 1).
Definition walk (ok_dd : Z -> bool) (debt dd : Z) : Z :=
  while (walk_cond ok_dd debt) Z.succ 4294967296 dd.

Definition plan_partial (debt : Obol.t) (coll : Sats.t) (hi : Price.t) (fee : Sats.t)
    : option (Obol.t * Sats.t) :=
  debt_cents ← ok (Obol.covenant_cents debt);
  if debt_cents <? 2 then None else
  let fits := fits debt coll hi in
  if negb (fits 1) then None else
  let dd := walk fits (Obol.raw debt) (search fits 1 (Obol.raw debt - 1)).1 in
  let '(band_lo, band_hi) := band debt hi dd in
  let residual := Z.max band_lo (u64_sat_sub (Sats.raw coll) (cap hi dd)) in
  if (band_hi <? residual) || (Sats.raw coll <? residual) then None else
  let extraction := Sats.raw coll - residual in
  let share := Sats.raw (coll_at_cr (as_u32 dd) hi K_RESERVE_SHARE) in
  if extraction <=? u64_wadd share (Sats.raw fee) then None else
  Some (Obol.new dd, Sats.new residual).

(** ** [decide] *)

Module Ladder.

Definition decide (vault : OnChain VaultState) (tick : OracleTick.t) (anchor : BlockHeight.t)
    (refresh_lag : Z) (fee : Sats.t) : Action.t :=
  if BlockHeight.raw (OracleTick.height tick) <=? BlockHeight.raw (last_height (state vault))
  then Action.Nothing else
  match Obol.covenant_cents (debt (state vault)) with
  | Err _ => Action.Nothing
  | Ok debt_cents =>
      if debt_cents =? 0 then Action.Nothing else
      let '(_, hi) := OracleTick.price_range tick in
      let floor := coll_at_cr debt_cents hi K_PAR in
      let cap := coll_at_cr debt_cents hi K_FULL_LIQ_CAP in
      let gate := coll_at_cr debt_cents hi K_HEALTH_GATE in
      if Sats.raw (oc_value vault) <? Sats.raw floor then
        if BlockHeight.raw (OracleTick.height tick) <? BlockHeight.raw anchor
        then Action.Nothing else Action.BadDebt
      else if Sats.raw (oc_value vault) <=? Sats.raw cap then Action.FullLiq
      else if Sats.raw (oc_value vault) <? Sats.raw gate then
        match plan_partial (debt (state vault)) (oc_value vault) hi fee with
        | Some (dd, residual) => Action.Partial dd residual
        | None => Action.Nothing
        end
      else if refresh_lag <? BlockHeight.raw (OracleTick.height tick) -
                               BlockHeight.raw (last_height (state vault))
      then Action.Refresh else Action.Nothing
  end.

End Ladder.

(** ** Lemmas: the two loops *)

Section Loops.
Context (ok_dd : Z -> bool).

Lemma half_up_bounds a : 0 < a -> 1 <= half_up a <= a /\ 2 * half_up a <= a + 1 /\ a <= 2 * half_up a.
Proof.
  intros. unfold half_up. pose proof (Z.div_mod (a + 1) 2 ltac:(lia)).
  pose proof (Z.mod_pos_bound (a + 1) 2 ltac:(lia)). lia.
Qed.

(** The search ends on one feasible point, with the point above it infeasible or at the end
    of the range. *)
Lemma search_spec lo hi_dd :
  ok_dd lo = true -> lo <= hi_dd -> hi_dd - lo < 18446744073709551616 ->
  exists x, search ok_dd lo hi_dd = (x, x) /\ lo <= x <= hi_dd /\ ok_dd x = true /\
    (x = hi_dd \/ ok_dd (x + 1) = false).
Proof.
  intros Hlo Hle Hw.
  set (P := fun s : Z * Z => lo <= s.1 <= s.2 /\ s.2 <= hi_dd /\ ok_dd s.1 = true /\
    (s.2 = hi_dd \/ ok_dd (s.2 + 1) = false)).
  assert (Hstep : forall s, P s -> (s.1 <? s.2) = true ->
    P (search_step ok_dd s) /\ 0 < s.2 - s.1 /\
    0 <= 2 * ((search_step ok_dd s).2 - (search_step ok_dd s).1) <= s.2 - s.1).
  { intros [a b] (H1 & H2 & H3 & H4) Hc. boolz. cbn in *.
    destruct (half_up_bounds (b - a)) as (? & ? & ?); [lia|]. unfold P.
    destruct (ok_dd (a + half_up (b - a))) eqn:E; cbn; split_and!; try done; try lia.
    right. by replace (a + half_up (b - a) - 1 + 1) with (a + half_up (b - a)) by lia. }
  assert (HP0 : P (lo, hi_dd)) by (unfold P; cbn; split_and!; auto; lia).
  assert (HP : P (search ok_dd lo hi_dd)).
  { apply (while_inv _ _ P); [|done]. intros s Hs Hc. by apply Hstep. }
  assert (Hend : ((search ok_dd lo hi_dd).1 <? (search ok_dd lo hi_dd).2) = false).
  { apply (while_halves (fun s : Z * Z => s.1 <? s.2) (search_step ok_dd) P) with
      (w := fun s => s.2 - s.1);
      [intros s Hs Hc; by apply Hstep..|done|cbn; lia]. }
  destruct (search ok_dd lo hi_dd) as [a b]. destruct HP as (? & ? & ? & Hb). cbn in *. boolz.
  assert (a = b) as <- by lia. exists a. split_and!; done || lia.
Qed.

(** The walk stops at the last of a run of feasible points. *)
Lemma walk_from fuel debt dd :
  ok_dd dd = true -> 1 <= dd < debt -> debt <= Zpos fuel ->
  let x := while (walk_cond ok_dd debt) Z.succ fuel dd in
  dd <= x < debt /\ ok_dd x = true /\ (x + 1 = debt \/ ok_dd (x + 1) = false).
Proof.
  intros Hok Hdd Hmax x.
  set (P := fun y => dd <= y < debt /\ ok_dd y = true).
  assert (Hstep : forall y, P y -> walk_cond ok_dd debt y = true -> P (Z.succ y)).
  { intros y [] Hc. unfold walk_cond in Hc. boolz. unfold P. rewrite <- Z.add_1_r. split; [lia|done]. }
  assert (HP : P x) by (apply (while_inv _ _ P Hstep); split; [lia|done]).
  assert (Hend : walk_cond ok_dd debt x = false).
  { apply (while_done _ _ P Hstep (fun y => debt - y)); [|split; [lia|done]|lia].
    intros y [] Hc. unfold walk_cond in Hc. boolz. lia. }
  destruct HP as [Hx Hf]. split_and!; try lia; [done|].
  unfold walk_cond in Hend. apply andb_false_iff in Hend as [Hlt%Z.ltb_ge|?]; [left; lia|by right].
Qed.

Lemma walk_spec debt dd :
  ok_dd dd = true -> 1 <= dd < debt -> debt <= U32_MAX ->
  dd <= walk ok_dd debt dd < debt /\ ok_dd (walk ok_dd debt dd) = true /\
  (walk ok_dd debt dd + 1 = debt \/ ok_dd (walk ok_dd debt dd + 1) = false).
Proof.
  intros Hok Hdd Hmax. unfold walk. apply walk_from; [done|done|]. unfold U32_MAX in Hmax. lia.
Qed.

End Loops.

(** From here on the loops are known by their specifications only. *)
#[local] Opaque walk search.

(** ** Lemmas: the arithmetic of feasibility *)

Lemma as_u32_id x : u32 x -> as_u32 x = x.
Proof. apply Z.mod_small. Qed.

Lemma at_cr_split d1 d2 p k :
  0 < Price.raw p ->
  at_cr d1 p k + at_cr d2 p k <= at_cr (d1 + d2) p k <= at_cr d1 p k + at_cr d2 p k + 1.
Proof. apply coll_at_cr_split. Qed.

(** Two ratios at least one sat per cent apart stay apart after truncation. *)
Lemma at_cr_gap n p k1 k2 :
  1 <= n -> 0 < Price.raw p -> RatioK.raw k1 + 200 * Price.raw p <= RatioK.raw k2 ->
  at_cr n p k1 + 1 <= at_cr n p k2.
Proof.
  intros Hn Hp Hk. unfold at_cr. rewrite !coll_at_cr_raw.
  rewrite <- Z.div_add by lia. apply Z.div_le_mono; nia.
Qed.

Lemma at_cr_mono_debt d1 d2 p k :
  0 <= Price.raw p -> 0 <= RatioK.raw k -> d1 <= d2 -> at_cr d1 p k <= at_cr d2 p k.
Proof. apply coll_at_cr_mono_debt. Qed.

(** [a(d) - b(d)] grows with the debt when the ratios are a sat per cent apart. *)
Lemma at_cr_gap_mono d1 d2 p k1 k2 :
  d1 <= d2 -> 0 < Price.raw p -> RatioK.raw k1 + 200 * Price.raw p <= RatioK.raw k2 ->
  at_cr d2 p k1 + at_cr d1 p k2 <= at_cr d1 p k1 + at_cr d2 p k2.
Proof.
  intros Hd Hp Hk. destruct (Z.eq_dec d1 d2) as [->|]; [lia|].
  pose proof (at_cr_gap (d2 - d1) p k1 k2 ltac:(lia) Hp Hk).
  pose proof (at_cr_split d1 (d2 - d1) p k1 Hp). pose proof (at_cr_split d1 (d2 - d1) p k2 Hp).
  replace (d1 + (d2 - d1)) with d2 in * by lia. lia.
Qed.

(** ** Admissible partial liquidations

    What the liquidate builder asks of the amounts, over integers. *)

Section Sizing.
Context (debt coll fee : Z) (hi : Price.t).

Record admissible (dd res : Z) : Prop := {
  ad_dd : 0 < dd < debt;
  ad_band : at_cr (debt - dd) hi K_HEAL_LO <= res <= at_cr (debt - dd) hi K_HEAL_HI;
  ad_coll : res <= coll;
  ad_cap : coll - res <= at_cr dd hi K_FULL_LIQ_CAP;
  ad_profit : at_cr dd hi K_RESERVE_SHARE + fee < coll - res
}.

Context (Hdebt : 0 <= debt <= U32_MAX) (Hhi : 0 < Price.raw hi) (Hcoll : 0 <= coll).

Lemma fits_iff dd : 0 < dd < debt ->
  fits (Obol.new debt) (Sats.new coll) hi dd = true <->
  coll <= at_cr dd hi K_FULL_LIQ_CAP + at_cr (debt - dd) hi K_HEAL_HI.
Proof.
  intros Hdd. unfold fits, cap, band, U32_MAX in *. cbn [Obol.raw Sats.raw snd].
  rewrite !as_u32_id by (unfold u32; lia). rewrite Z.leb_le. fold (at_cr dd hi K_FULL_LIQ_CAP).
  fold (at_cr (debt - dd) hi K_HEAL_HI).
  pose proof (at_cr_nonneg (debt - dd) hi K_HEAL_HI ltac:(lia) ltac:(lia) ltac:(by vm_compute)).
  uint.
Qed.

(** Below 220,000 USD per BTC one cent of debt moves the cap by at least one sat less than
    the band, so feasibility is monotone. *)
Lemma fits_mono d1 d2 :
  Price.raw hi <= 220000 -> 0 < d1 <= d2 -> d2 < debt ->
  fits (Obol.new debt) (Sats.new coll) hi d2 = true ->
  fits (Obol.new debt) (Sats.new coll) hi d1 = true.
Proof.
  intros Hp Hd1 Hd2. rewrite !fits_iff by lia. intros H2.
  destruct (Z.eq_dec d1 d2) as [->|Hne]; [done|].
  pose proof (at_cr_split d1 (d2 - d1) hi K_FULL_LIQ_CAP Hhi).
  pose proof (at_cr_split (debt - d2) (d2 - d1) hi K_HEAL_HI Hhi).
  replace (d1 + (d2 - d1)) with d2 in * by lia.
  replace (debt - d2 + (d2 - d1)) with (debt - d1) in * by lia.
  pose proof (at_cr_gap (d2 - d1) hi K_FULL_LIQ_CAP K_HEAL_HI ltac:(lia) Hhi) as Hg.
  change (RatioK.raw K_FULL_LIQ_CAP) with 230000000 in Hg.
  change (RatioK.raw K_HEAL_HI) with 274000000 in Hg. lia.
Qed.

Lemma admissible_fits dd res :
  admissible dd res -> fits (Obol.new debt) (Sats.new coll) hi dd = true.
Proof. intros []. apply fits_iff; [done|]. lia. Qed.

(** The repaid amount the two loops settle on. *)
Definition edge : Z :=
  let f := fits (Obol.new debt) (Sats.new coll) hi in walk f debt (search f 1 (debt - 1)).1.

Lemma edge_spec :
  2 <= debt -> fits (Obol.new debt) (Sats.new coll) hi 1 = true ->
  1 <= edge < debt /\ fits (Obol.new debt) (Sats.new coll) hi edge = true /\
  (edge + 1 = debt \/ fits (Obol.new debt) (Sats.new coll) hi (edge + 1) = false).
Proof.
  intros H2 H1. unfold edge. set (f := fits _ _ _) in *. unfold U32_MAX in *.
  destruct (search_spec f 1 (debt - 1) H1) as (x & -> & Hx & Hf & _); [lia|lia|]. cbn [fst].
  destruct (walk_spec f debt x Hf) as (Hw & ? & ?); [lia|uint|]. split_and!; [lia|lia|done|done].
Qed.

(** The residual paired with it, and the sizing as one equation over integers. *)
Definition edge_residual : Z :=
  Z.max (at_cr (debt - edge) hi K_HEAL_LO) (Z.max (coll - at_cr edge hi K_FULL_LIQ_CAP) 0).

Lemma plan_partial_eq :
  2 <= debt -> fits (Obol.new debt) (Sats.new coll) hi 1 = true -> 0 <= fee <= MAX_MONEY ->
  plan_partial (Obol.new debt) (Sats.new coll) hi (Sats.new fee) =
  if decide (edge_residual <= at_cr (debt - edge) hi K_HEAL_HI /\ edge_residual <= coll /\
             at_cr edge hi K_RESERVE_SHARE + fee < coll - edge_residual)
  then Some (Obol.new edge, Sats.new edge_residual) else None.
Proof.
  intros H2 H1 Hfee. destruct (edge_spec H2 H1) as (He & _ & _). unfold plan_partial, Obol.covenant_cents.
  cbn [Obol.raw Sats.raw]. rewrite (proj2 (Z.leb_le _ _)) by lia. cbn [ok mbind option_bind].
  rewrite (proj2 (Z.ltb_ge _ _)) by lia. rewrite H1. cbn [negb]. unfold band, cap. cbn [Obol.raw].
  fold edge. unfold U32_MAX in *. rewrite !(as_u32_id edge), !(as_u32_id (debt - edge)) by (unfold u32; lia).
  fold (at_cr edge hi K_FULL_LIQ_CAP) (at_cr edge hi K_RESERVE_SHARE)
    (at_cr (debt - edge) hi K_HEAL_LO) (at_cr (debt - edge) hi K_HEAL_HI).
  rewrite u64_sat_sub_eq. fold edge_residual.
  pose proof (at_cr_bound edge hi K_RESERVE_SHARE ltac:(unfold u32; lia) Hhi ltac:(by vm_compute)).
  rewrite u64_wadd_id by (unfold MAX_MONEY in *; lia).
  destruct (Z.ltb_spec (at_cr (debt - edge) hi K_HEAL_HI) edge_residual); cbn [orb];
    [rewrite decide_False by lia; done|].
  destruct (Z.ltb_spec coll edge_residual); [rewrite decide_False by lia; done|].
  destruct (Z.leb_spec (coll - edge_residual) (at_cr edge hi K_RESERVE_SHARE + fee));
    [rewrite decide_False by lia; done|]. by rewrite decide_True by lia.
Qed.

Lemma edge_admissible :
  2 <= debt -> fits (Obol.new debt) (Sats.new coll) hi 1 = true ->
  edge_residual <= at_cr (debt - edge) hi K_HEAL_HI -> edge_residual <= coll ->
  at_cr edge hi K_RESERVE_SHARE + fee < coll - edge_residual ->
  admissible edge edge_residual.
Proof.
  intros H2 H1 Hb Hc Hs. destruct (edge_spec H2 H1) as (He & _ & _).
  constructor; [lia| |done| |done]; unfold edge_residual in *; lia.
Qed.

(** Nothing admissible repays more than the edge, and if anything is admissible the edge is. *)
Lemma admissible_edge dd res :
  Price.raw hi <= 220000 -> admissible dd res ->
  2 <= debt /\ fits (Obol.new debt) (Sats.new coll) hi 1 = true /\
  dd <= edge /\ (dd = edge -> edge_residual <= res).
Proof.
  intros Hp Ha. pose proof (admissible_fits dd res Ha) as Hf. destruct Ha as [Hdd Hband Hc Hcap _].
  assert (H1 : fits (Obol.new debt) (Sats.new coll) hi 1 = true)
    by (apply (fits_mono 1 dd); [done|lia|lia|done]).
  assert (H2 : 2 <= debt) by lia. split_and!; [done|done|..].
  - destruct (edge_spec H2 H1) as (He & _ & [Hend|Hend]); [lia|].
    destruct (Z.le_gt_cases dd edge); [done|].
    rewrite (fits_mono (edge + 1) dd) in Hend; [done|done|lia|lia|done].
  - intros ->. unfold edge_residual.
    pose proof (at_cr_nonneg (debt - edge) hi K_HEAL_LO ltac:(lia) ltac:(lia) ltac:(by vm_compute)). lia.
Qed.

Lemma admissible_edge_pays dd res :
  Price.raw hi <= 220000 -> admissible dd res ->
  edge_residual <= at_cr (debt - edge) hi K_HEAL_HI /\ edge_residual <= coll /\
  at_cr edge hi K_RESERVE_SHARE + fee < coll - edge_residual.
Proof.
  intros Hp Ha. destruct (admissible_edge dd res Hp Ha) as (H2 & H1 & Hle & _).
  destruct (edge_spec H2 H1) as (He & Hfe & _). apply fits_iff in Hfe; [|lia].
  destruct Ha as [Hdd Hband Hc Hcap Hpr].
  pose proof (at_cr_nonneg (debt - edge) hi K_HEAL_LO ltac:(lia) ltac:(lia) ltac:(by vm_compute)).
  assert (at_cr (debt - edge) hi K_HEAL_LO <= at_cr (debt - edge) hi K_HEAL_HI)
    by (apply coll_at_cr_mono_k; [lia|lia|by vm_compute]).
  pose proof (at_cr_mono_debt (debt - edge) (debt - dd) hi K_HEAL_LO ltac:(lia) ltac:(by vm_compute)
    ltac:(lia)).
  pose proof (at_cr_gap_mono dd edge hi K_RESERVE_SHARE K_FULL_LIQ_CAP Hle Hhi) as Hg1.
  change (RatioK.raw K_RESERVE_SHARE) with 10000000 in Hg1.
  change (RatioK.raw K_FULL_LIQ_CAP) with 230000000 in Hg1. specialize (Hg1 ltac:(lia)).
  assert (Hg2 : at_cr edge hi K_RESERVE_SHARE + at_cr (debt - edge) hi K_HEAL_LO
    <= at_cr dd hi K_RESERVE_SHARE + at_cr (debt - dd) hi K_HEAL_LO).
  { destruct (Z.eq_dec dd edge) as [->|]; [lia|].
    pose proof (at_cr_split dd (edge - dd) hi K_RESERVE_SHARE Hhi).
    pose proof (at_cr_split (debt - edge) (edge - dd) hi K_HEAL_LO Hhi).
    replace (dd + (edge - dd)) with edge in * by lia.
    replace (debt - edge + (edge - dd)) with (debt - dd) in * by lia.
    pose proof (at_cr_gap (edge - dd) hi K_RESERVE_SHARE K_HEAL_LO ltac:(lia) Hhi) as Hg.
    change (RatioK.raw K_RESERVE_SHARE) with 10000000 in Hg.
    change (RatioK.raw K_HEAL_LO) with 264000000 in Hg. lia. }
  pose proof (at_cr_nonneg edge hi K_FULL_LIQ_CAP ltac:(lia) ltac:(lia) ltac:(by vm_compute)).
  unfold edge_residual. lia.
Qed.

End Sizing.

(** The cases of [plan_partial] before the loops. *)
Lemma plan_partial_none debt coll fee hi :
  0 <= debt <= U32_MAX -> debt < 2 \/ fits (Obol.new debt) (Sats.new coll) hi 1 = false ->
  plan_partial (Obol.new debt) (Sats.new coll) hi (Sats.new fee) = None.
Proof.
  intros Hd Hc. unfold plan_partial, Obol.covenant_cents. cbn [Obol.raw].
  rewrite (proj2 (Z.leb_le _ _)) by lia. cbn [ok mbind option_bind].
  destruct (Z.ltb_spec debt 2); [done|]. destruct Hc as [? | ->]; [lia|done].
Qed.

Lemma plan_partial_sound debt coll fee hi dd res :
  0 <= debt <= U32_MAX -> 0 < Price.raw hi -> 0 <= coll -> 0 <= fee <= MAX_MONEY ->
  plan_partial (Obol.new debt) (Sats.new coll) hi (Sats.new fee) = Some (dd, res) ->
  admissible debt coll fee hi (Obol.raw dd) (Sats.raw res).
Proof.
  intros Hd Hhi Hc Hfee Hpl. destruct (Z.le_gt_cases 2 debt) as [H2|H2].
  2: { rewrite plan_partial_none in Hpl; [done|done|by left]. }
  destruct (fits (Obol.new debt) (Sats.new coll) hi 1) eqn:H1.
  - rewrite (plan_partial_eq debt coll fee hi) in Hpl by done. case_decide as Hok; [|done].
    injection Hpl as <- <-. destruct Hok as (? & ? & ?). by apply edge_admissible.
  - rewrite plan_partial_none in Hpl; [done|done|by right].
Qed.

(** Nothing admissible is missed below 220,000 USD per BTC. *)
Lemma plan_partial_best debt coll fee hi :
  0 <= debt <= U32_MAX -> 0 < Price.raw hi <= 220000 -> 0 <= coll -> 0 <= fee <= MAX_MONEY ->
  forall dd' res', admissible debt coll fee hi dd' res' ->
  match plan_partial (Obol.new debt) (Sats.new coll) hi (Sats.new fee) with
  | Some (dd, res) => dd' <= Obol.raw dd /\ (dd' = Obol.raw dd -> Sats.raw res <= res')
  | None => False
  end.
Proof.
  intros Hd [Hhi Hp] Hc Hfee dd' res' Ha.
  pose proof Ha as Hpays. apply admissible_edge_pays in Hpays; [|done..].
  apply admissible_edge in Ha as (H2 & H1 & Hle & Hres); [|done..].
  rewrite (plan_partial_eq debt coll fee hi) by done. by rewrite decide_True.
Qed.

(** C18: The sizing of a partial liquidation is optimal: below 220,000 USD per BTC
    [plan_partial] finds an amount exactly when the builder would accept any, and the amount
    it finds is accepted, repays at least as much as every other acceptable liquidation, and
    leaves the vault the lowest residual the amount allows. *)
Theorem plan_partial_optimal (debt coll fee : Z) (hi : Price.t) :
  0 <= debt <= U32_MAX -> 0 < Price.raw hi <= 220000 -> 0 <= coll -> 0 <= fee <= MAX_MONEY ->
  match plan_partial (Obol.new debt) (Sats.new coll) hi (Sats.new fee) with
  | Some (dd, res) =>
      admissible debt coll fee hi (Obol.raw dd) (Sats.raw res) /\
      forall dd' res', admissible debt coll fee hi dd' res' ->
        dd' <= Obol.raw dd /\ (dd' = Obol.raw dd -> Sats.raw res <= res')
  | None => forall dd' res', ~ admissible debt coll fee hi dd' res'
  end.
Proof.
  intros Hd Hhi Hc Hfee. pose proof (plan_partial_best debt coll fee hi Hd Hhi Hc Hfee) as Hbest.
  destruct (plan_partial _ _ _ _) as [[dd res]|] eqn:E; [|done].
  split; [|done]. apply (plan_partial_sound debt coll fee hi) in E; [done|done|lia|done|done].
Qed.

(** ** Verdicts against the builders *)

Section Verdicts.
Context `{Lib} (ctx : Ctx) (pr : ProtocolState) (v : OnChain VaultState) (tick : OracleTick.t).

(** What each verdict promises the keeper. *)
Definition verdict_ok (fee : Sats.t) (a : Action.t) : Prop :=
  match a with
  | Action.Nothing => True
  | Action.Refresh => forall i, rf_tick i = tick ->
      Sats.raw (rf_fee i) < Sats.raw (fc_value (rf_fee_coin i)) ->
      refresh ctx v i = Ok (refresh_unchecked ctx v i)
  | Action.Partial dd residual => forall i, lq_tick i = tick -> lq_dd i = dd ->
      lq_residual i = residual -> lq_fee i = fee ->
      Obol.raw dd <= Obol.raw (ob_value (lq_keeper i)) ->
      liquidate ctx pr v i = Ok (liquidate_unchecked ctx pr v i)
  | Action.FullLiq => forall i, fl_tick i = tick ->
      Obol.raw (debt (state v)) < Obol.raw (ob_value (fl_keeper i)) ->
      full_liq ctx pr v i = Ok (full_liq_unchecked ctx pr v i)
  | Action.BadDebt => forall i, bd_tick i = tick ->
      Obol.raw (debt (state v)) <= Obol.raw (ob_value (bd_keeper i)) ->
      Sats.raw (bd_fee i) < Sats.raw (fc_value (bd_fee_coin i)) ->
      bad_debt ctx pr v i = Ok (bad_debt_unchecked ctx pr v i)
  end.

(** No liquidation of any kind passes its builder. *)
Definition idle_ok (fee : Sats.t) : Prop :=
  (forall i b, bd_tick i = tick -> bad_debt ctx pr v i <> Ok b) /\
  (forall i b, fl_tick i = tick -> full_liq ctx pr v i <> Ok b) /\
  (forall i b, lq_tick i = tick -> u64 (Obol.raw (lq_dd i)) -> lq_fee i = fee ->
    liquidate ctx pr v i <> Ok b).

Lemma liquidate_admissible i b :
  u64 (Obol.raw (lq_dd i)) -> liquidate ctx pr v i = Ok b ->
  admissible (Obol.raw (debt (state v))) (Sats.raw (oc_value v)) (Sats.raw (lq_fee i))
    (OracleTick.hi (lq_tick i)) (Obol.raw (lq_dd i)) (Sats.raw (lq_residual i)) /\
  Sats.raw (oc_value v) < at_cr (Obol.raw (debt (state v))) (OracleTick.hi (lq_tick i)) K_HEALTH_GATE /\
  Obol.raw (debt (state v)) <= U32_MAX.
Proof.
  intros Hu (_ & _ & Hd & Hg & Hz & Hlt & _ & Hb & Hc & _ & Hcap & _ & _ & Hs & _)%liquidate_ok_iff.
  split_and!; [constructor|..]; try done. uint.
Qed.

(** The ladder as nested integer comparisons. *)
Lemma decide_unfold anchor lag fee :
  Obol.raw (debt (state v)) <= U32_MAX ->
  BlockHeight.raw (last_height (state v)) < BlockHeight.raw (OracleTick.height tick) ->
  Obol.raw (debt (state v)) <> 0 ->
  let d := Obol.raw (debt (state v)) in
  let hi := OracleTick.hi tick in
  let coll := Sats.raw (oc_value v) in
  Ladder.decide v tick anchor lag fee =
  if coll <? at_cr d hi K_PAR then
    if BlockHeight.raw (OracleTick.height tick) <? BlockHeight.raw anchor
    then Action.Nothing else Action.BadDebt
  else if coll <=? at_cr d hi K_FULL_LIQ_CAP then Action.FullLiq
  else if coll <? at_cr d hi K_HEALTH_GATE then
    match plan_partial (debt (state v)) (oc_value v) hi fee with
    | Some (dd, residual) => Action.Partial dd residual
    | None => Action.Nothing
    end
  else if lag <? BlockHeight.raw (OracleTick.height tick) - BlockHeight.raw (last_height (state v))
  then Action.Refresh else Action.Nothing.
Proof.
  intros Hd Hr Hz. unfold Ladder.decide, OracleTick.hi, at_cr.
  rewrite (proj2 (Z.leb_gt _ _) Hr), (proj2 (covenant_cents_ok _ _) (conj Hd eq_refl)).
  rewrite (proj2 (Z.eqb_neq _ _) Hz). by destruct (OracleTick.price_range tick).
Qed.
End Verdicts.

Lemma decide_early v tick anchor lag fee :
  U32_MAX < Obol.raw (debt (state v)) \/
  BlockHeight.raw (OracleTick.height tick) <= BlockHeight.raw (last_height (state v)) \/
  Obol.raw (debt (state v)) = 0 ->
  Ladder.decide v tick anchor lag fee = Action.Nothing.
Proof.
  unfold Ladder.decide, Obol.covenant_cents. intros Hc. case_match; [done|]. boolz.
  destruct (Z.leb_spec (Obol.raw (debt (state v))) U32_MAX); [|done].
  by destruct (Z.eqb_spec (Obol.raw (debt (state v))) 0); [|lia].
Qed.

Section Agreement.
Context `{Lib} (ctx : Ctx) (pr : ProtocolState) (v : OnChain VaultState) (tick : OracleTick.t).
Context (fee : Sats.t) (Hv : vault_on_wf v) (Ht : tick_wf tick).
Context (Hz : check_zero_price tick = Ok tt) (Hfee : amount (Sats.raw fee)).

Lemma sizing_eta hi :
  plan_partial (debt (state v)) (oc_value v) hi fee =
  plan_partial (Obol.new (Obol.raw (debt (state v)))) (Sats.new (Sats.raw (oc_value v))) hi
    (Sats.new (Sats.raw fee)).
Proof. by destruct (debt (state v)), (oc_value v), fee. Qed.

(** When the ladder returns before looking at the price, every liquidation is refused. *)
Lemma idle_early :
  U32_MAX < Obol.raw (debt (state v)) \/
  BlockHeight.raw (OracleTick.height tick) <= BlockHeight.raw (last_height (state v)) \/
  Obol.raw (debt (state v)) = 0 ->
  0 < Sats.raw (oc_value v) -> idle_ok ctx pr v tick fee.
Proof.
  intros Hc Hpos. assert (Hzero : forall k, Obol.raw (debt (state v)) = 0 ->
    at_cr (Obol.raw (debt (state v))) (OracleTick.hi tick) k = 0).
  { intros k ->. unfold at_cr. by rewrite coll_at_cr_raw, Z.mul_0_l, Zdiv_0_l. }
  split_and!.
  - intros i b <- (_ & Hr%check_ratchet_ok & Hd & Hu & _)%bad_debt_ok_iff. cbv zeta in *.
    destruct Hc as [?|[?|E]]; [lia..|]. rewrite (Hzero _ E) in Hu. lia.
  - intros i b <- (_ & Hr%check_ratchet_ok & Hd & Hu & _)%full_liq_ok_iff. cbv zeta in *.
    destruct Hc as [?|[?|E]]; [lia..|]. rewrite !(Hzero _ E) in Hu. lia.
  - intros i b <- Hu _ Hb. pose proof Hb as (_ & Hr%check_ratchet_ok & Hd & _)%liquidate_ok_iff.
    apply liquidate_admissible in Hb as ([? _ _ _ _] & _); [|done].
    destruct Hc as [?|[?|E]]; lia.
Qed.

Context (Hd : Obol.raw (debt (state v)) <= U32_MAX).
Context (Hr : BlockHeight.raw (last_height (state v)) < BlockHeight.raw (OracleTick.height tick)).

Lemma debt_range : 0 <= Obol.raw (debt (state v)) <= U32_MAX.
Proof. destruct Hv as [(? & _) _]. unfold u64 in *. lia. Qed.

Lemma verdict_partial dd res :
  Sats.raw (oc_value v) < at_cr (Obol.raw (debt (state v))) (OracleTick.hi tick) K_HEALTH_GATE ->
  plan_partial (debt (state v)) (oc_value v) (OracleTick.hi tick) fee = Some (dd, res) ->
  verdict_ok ctx pr v tick fee (Action.Partial dd res).
Proof.
  intros Hg Hp. pose proof debt_range. destruct (range_pos _ Ht Hz) as [_ Hhi].
  rewrite sizing_eta in Hp. apply plan_partial_sound in Hp as [];
    [|done|done|apply Hv|unfold amount in Hfee; lia].
  intros i Hti <- <- Hfi Hpay. apply liquidate_ok_iff. rewrite Hti, Hfi. cbv zeta.
  pose proof (at_cr_bound (Obol.raw (lq_dd i)) (OracleTick.hi tick) K_RESERVE_SHARE
    ltac:(uint) Hhi ltac:(by vm_compute)).
  split_and!; try done; try (unfold amount, MAX_MONEY in *; uint). by apply check_ratchet_ok.
Qed.

Lemma idle_partial :
  Price.raw (OracleTick.hi tick) <= 220000 ->
  plan_partial (debt (state v)) (oc_value v) (OracleTick.hi tick) fee = None ->
  forall i b, lq_tick i = tick -> u64 (Obol.raw (lq_dd i)) -> lq_fee i = fee ->
    liquidate ctx pr v i <> Ok b.
Proof.
  intros Hp Hn i b Hti Hu Hfi Hb. pose proof debt_range. destruct (range_pos _ Ht Hz) as [_ Hhi].
  apply liquidate_admissible in Hb as (Ha & _); [|done]. rewrite Hti, Hfi in Ha.
  rewrite sizing_eta in Hn. apply plan_partial_best in Ha;
    [|done|lia|apply Hv|unfold amount in Hfee; lia]. by rewrite Hn in Ha.
Qed.

End Agreement.

(** C17: The keeper and the builders agree.  Every verdict of the ladder, on any vault and
    well-formed tick, is a transaction its checked builder accepts, whatever the rest of the
    intent, given a coin that covers the debt repaid (and the fee, where it has a coin of its
    own).  Conversely, when the ladder does nothing about a vault with collateral, at a price of
    at most 220,000 USD per BTC and with a tick not below the mint anchor, no liquidation of
    any kind, at the fee the ladder was asked for and of any 64-bit amount, passes its builder
    on that tick.  Beyond those bounds it does not hold: the sizing can miss a small feasible
    amount at a higher price, and under the anchor a bad debt could still be liquidated in
    part. *)
Theorem decide_agrees `{Lib} (ctx : Ctx) (pr : ProtocolState) (v : OnChain VaultState)
    (tick : OracleTick.t) (lag : Z) (fee : Sats.t) :
  vault_on_wf v -> tick_wf tick -> check_zero_price tick = Ok tt -> amount (Sats.raw fee) ->
  let verdict := Ladder.decide v tick (last_mint_height (state (issuer pr))) lag fee in
  verdict_ok ctx pr v tick fee verdict /\
  (verdict = Action.Nothing -> 0 < Sats.raw (oc_value v) ->
   Price.raw (OracleTick.hi tick) <= 220000 ->
   BlockHeight.raw (last_mint_height (state (issuer pr))) <= BlockHeight.raw (OracleTick.height tick) ->
   idle_ok ctx pr v tick fee).
Proof.
  intros Hv Ht Hz Hfee verdict. destruct (range_pos _ Ht Hz) as [_ Hhi].
  destruct (decide (U32_MAX < Obol.raw (debt (state v)) \/
    BlockHeight.raw (OracleTick.height tick) <= BlockHeight.raw (last_height (state v)) \/
    Obol.raw (debt (state v)) = 0)) as [He|He].
  { unfold verdict. rewrite decide_early by done. split; [done|]. intros. by apply idle_early. }
  assert (Hd : Obol.raw (debt (state v)) <= U32_MAX) by lia.
  assert (Hr : BlockHeight.raw (last_height (state v)) < BlockHeight.raw (OracleTick.height tick)) by lia.
  unfold verdict. rewrite decide_unfold by lia. clear He verdict. cbv zeta.
  set (d := Obol.raw (debt (state v))) in *. set (hi := OracleTick.hi tick) in *.
  destruct (Z.ltb_spec (Sats.raw (oc_value v)) (at_cr d hi K_PAR)) as [Hf|Hf].
  { destruct (Z.ltb_spec (BlockHeight.raw (OracleTick.height tick))
      (BlockHeight.raw (last_mint_height (state (issuer pr))))); [split; [done|lia]|].
    split; [|done]. intros i <- ??. apply bad_debt_ok_iff. cbv zeta. rewrite check_tick_ok, check_ratchet_ok.
    split_and!; done. }
  destruct (Z.leb_spec (Sats.raw (oc_value v)) (at_cr d hi K_FULL_LIQ_CAP)) as [Hc|Hc].
  { split; [|done]. intros i <- ?. apply full_liq_ok_iff. cbv zeta. rewrite check_ratchet_ok.
    split_and!; done. }
  assert (Hnb : forall i b, bd_tick i = tick -> bad_debt ctx pr v i <> Ok b).
  { intros i b Hti (_ & _ & _ & Hx & _)%bad_debt_ok_iff. rewrite Hti in Hx. fold d hi in Hx. lia. }
  assert (Hnf : forall i b, fl_tick i = tick -> full_liq ctx pr v i <> Ok b).
  { intros i b Hti (_ & _ & _ & Hx & _)%full_liq_ok_iff. rewrite Hti in Hx. fold d hi in Hx. lia. }
  destruct (Z.ltb_spec (Sats.raw (oc_value v)) (at_cr d hi K_HEALTH_GATE)) as [Hg|Hg].
  - destruct (plan_partial _ _ _ _) as [[dd res]|] eqn:Hp.
    + split; [by apply verdict_partial|done].
    + split; [done|]. intros _ _ Hpr _. split_and!; [done|done|by apply idle_partial].
  - assert (Hnl : forall i b, lq_tick i = tick -> u64 (Obol.raw (lq_dd i)) -> liquidate ctx pr v i <> Ok b).
    { intros i b Hti Hu Hb. apply liquidate_admissible in Hb as (_ & Hx & _); [|done].
      rewrite Hti in Hx. fold d hi in Hx. lia. }
    destruct (Z.ltb_spec lag (BlockHeight.raw (OracleTick.height tick) -
      BlockHeight.raw (last_height (state v)))).
    + split; [|done]. intros i <- ?. apply refresh_ok_iff. rewrite check_ratchet_ok. split_and!; done.
    + split; [done|]. intros. split_and!; auto.
Qed.
