(* ===== verification/Sockets.v ===== *)
(** * Socket addresses

    What [std::net] makes of the listeners' addresses: [SocketAddr::from_str], its [Display],
    [ip().is_loopback()] and [port()].  The parser is the standard library's: decimal octets
    without leading zeros, at most four hexadecimal digits per group, one [::], an IPv4 tail,
    a scope after [%]. *)

From Stdlib Require Import ZArith Lia.
From stdpp Require Import base strings pretty option list.
From S2P Require Import Prelude Hex Elements.

Inductive IpAddr : Type :=
| IpV4 (octets : list Z)
| IpV6 (segments : list Z).

Record SocketAddr : Type := mkSocket { sa_ip : IpAddr; sa_scope : Z; sa_port : Z }.

#[export] Instance ip_eq_dec : EqDecision IpAddr.
Proof. solve_decision. Defined.

Definition is_loopback (ip : IpAddr) : bool :=
  match ip with
  | IpV4 octets => bool_decide (head octets = Some 127)
  | IpV6 segments => bool_decide (segments = [0; 0; 0; 0; 0; 0; 0; 1])
  end.

(** ** Display *)

Definition show_dec (n : Z) : bytes := ascii_bytes (pretty (Z.to_N n)).

(** [{:x}] of a 16-bit group. *)
Definition show_hex16 (n : Z) : bytes :=
  let ds := [n / 4096; n / 256 mod 16; n / 16 mod 16; n mod 16] in
  let fix strip (l : list Z) : list Z :=
    match l with
    | 0 :: l' => match l' with [] => l | _ => strip l' end
    | _ => l
    end in
  hex_digit <$> strip ds.

Fixpoint join (sep : bytes) (l : list bytes) : bytes :=
  match l with
  | [] => []
  | [x] => x
  | x :: l => x ++ sep ++ join sep l
  end.

(** The longest run of zero groups, the first of equals: (start, length). *)
Fixpoint zero_span (segs : list Z) (i : nat) (current longest : nat * nat) : nat * nat :=
  match segs with
  | [] => longest
  | s :: segs =>
      if s =? 0 then
        let current := (if (current.2 =? 0)%nat then i else current.1, S current.2) in
        zero_span segs (S i) current (if (longest.2 <? current.2)%nat then current else longest)
      else zero_span segs (S i) (0%nat, 0%nat) longest
  end.

Definition show_segments (l : list Z) : bytes := join (ascii_bytes ":") (show_hex16 <$> l).

Definition show_v4 (octets : list Z) : bytes := join (ascii_bytes ".") (show_dec <$> octets).

Definition show_v6 (segs : list Z) : bytes :=
  match segs with
  | [0; 0; 0; 0; 0; 65535; a; b] =>
      ascii_bytes "::ffff:" ++ show_v4 [a / 256; a mod 256; b / 256; b mod 256]
  | _ =>
      let '(start, len) := zero_span segs 0 (0%nat, 0%nat) (0%nat, 0%nat) in
      if (1 <? len)%nat
      then show_segments (take start segs) ++ ascii_bytes "::" ++ show_segments (drop (start + len) segs)
      else show_segments segs
  end.

Definition show_socket (a : SocketAddr) : bytes :=
  match sa_ip a with
  | IpV4 octets => show_v4 octets ++ ascii_bytes ":" ++ show_dec (sa_port a)
  | IpV6 segs =>
      ascii_bytes "[" ++ show_v6 segs ++
      (if sa_scope a =? 0 then [] else ascii_bytes "%" ++ show_dec (sa_scope a)) ++
      ascii_bytes "]:" ++ show_dec (sa_port a)
  end.

(** ** Parsing

    A parser returns what it read and the rest of the text; [None] leaves the text as it
    was. *)

Definition Parser (A : Type) : Type := bytes -> option (A * bytes).

Definition given (c : Byte.byte) : Parser unit := fun l =>
  match l with b :: l => if bool_decide (b = c) then Some (tt, l) else None | [] => None end.

(** [to_digit(radix)], for radix 10 and 16. *)
Definition to_digit (radix : Z) (b : Byte.byte) : option Z :=
  d ← hex_value b; if d <? radix then Some d else None.

(** The digits of a number, with their count. *)
Fixpoint number (radix : Z) (l : bytes) (acc : Z) (n : nat) : Z * nat * bytes :=
  match l with
  | b :: l' =>
      match to_digit radix b with
      | Some d => number radix l' (radix * acc + d) (S n)
      | None => (acc, n, l)
      end
  | [] => (acc, n, [])
  end.

Definition leading_zero (l : bytes) : bool :=
  match l with Byte.x30 :: _ => true | _ => false end.

(** [read_number] into a type whose largest value is [top]. *)
Definition read_number (radix top : Z) (max_digits : option nat) (allow_zero_prefix : bool) : Parser Z :=
  fun l =>
    let '(x, n, rest) := number radix l 0 0 in
    if (match max_digits with Some m => (m <? n)%nat | None => false end) || (n =? 0)%nat ||
       (negb allow_zero_prefix && leading_zero l && (1 <? n)%nat) || (top <? x)
    then None else Some (x, rest).

(** [read_separator]: the separator before every item but the first. *)
Definition separated {A} (sep : Byte.byte) (index : nat) (p : Parser A) : Parser A := fun l =>
  if (0 <? index)%nat then '(_, l) ← given sep l; p l else p l.

Definition octet (i : nat) : Parser Z := separated Byte.x2e i (read_number 10 255 (Some 3%nat) false).

Definition read_v4 : Parser (list Z) := fun l =>
  '(a, l) ← octet 0 l; '(b, l) ← octet 1 l; '(c, l) ← octet 2 l; '(d, l) ← octet 3 l;
  Some ([a; b; c; d], l).

(** [read_groups]: at most [n] more groups from the [i]-th on, the groups read, and whether
    they end in an IPv4 address. *)
Fixpoint read_groups (n i : nat) (l : bytes) : list Z * bool * bytes :=
  match n with
  | O => ([], false, l)
  | S n' =>
      let group :=
        match separated Byte.x3a i (read_number 16 65535 (Some 4%nat) true) l with
        | Some (g, l) => let '(gs, v4, l) := read_groups n' (S i) l in (g :: gs, v4, l)
        | None => ([], false, l)
        end in
      if (1 <=? n')%nat then
        match separated Byte.x3a i read_v4 l with
        | Some ([a; b; c; d], l) => ([256 * a + b; 256 * c + d], true, l)
        | _ => group
        end
      else group
  end.

Definition read_v6 : Parser (list Z) := fun l =>
  let '(front, v4, l) := read_groups 8 0 l in
  if (length front =? 8)%nat then Some (front, l) else
  if v4 then None else
  '(_, l) ← given Byte.x3a l;
  '(_, l) ← given Byte.x3a l;
  let '(back, _, l) := read_groups (7 - length front) 0 l in
  Some (front ++ replicate (8 - length front - length back) 0 ++ back, l).

Definition read_port : Parser Z := fun l =>
  '(_, l) ← given Byte.x3a l; read_number 10 65535 None true l.

Definition read_scope (l : bytes) : Z * bytes :=
  match '(_, l) ← given Byte.x25 l; read_number 10 4294967295 None true l with
  | Some (s, l) => (s, l)
  | None => (0, l)
  end.

Definition read_socket_v4 : Parser SocketAddr := fun l =>
  '(ip, l) ← read_v4 l; '(port, l) ← read_port l; Some (mkSocket (IpV4 ip) 0 port, l).

Definition read_socket_v6 : Parser SocketAddr := fun l =>
  '(_, l) ← given Byte.x5b l;
  '(ip, l) ← read_v6 l;
  let '(scope, l) := read_scope l in
  '(_, l) ← given Byte.x5d l;
  '(port, l) ← read_port l;
  Some (mkSocket (IpV6 ip) scope port, l).

(** [SocketAddr::from_str]: the whole text. *)
Definition parse_socket (text : bytes) : option SocketAddr :=
  '(a, rest) ← match read_socket_v4 text with Some x => Some x | None => read_socket_v6 text end;
  match rest with [] => Some a | _ => None end.

Example parse_default : parse_socket (ascii_bytes "127.0.0.1:9780") = Some (mkSocket (IpV4 [127; 0; 0; 1]) 0 9780).
Proof. vm_compute. reflexivity. Qed.
Example parse_zeros : parse_socket (ascii_bytes "127.0.0.01:9780") = None.
Proof. vm_compute. reflexivity. Qed.
Example parse_v6 : show_socket <$> parse_socket (ascii_bytes "[0:0::0001]:0080") = Some (ascii_bytes "[::1]:80").
Proof. vm_compute. reflexivity. Qed.
Example parse_mapped :
  show_socket <$> parse_socket (ascii_bytes "[::FFFF:10.1.2.3%7]:80") = Some (ascii_bytes "[::ffff:10.1.2.3%7]:80").
Proof. vm_compute. reflexivity. Qed.
Example parse_span :
  show_socket <$> parse_socket (ascii_bytes "[2001:db8:0:0:1:0:0:1]:1") = Some (ascii_bytes "[2001:db8::1:0:0:1]:1").
Proof. vm_compute. reflexivity. Qed.
Example parse_none : parse_socket (ascii_bytes "[1:2:3:4:5:6:7:8:9]:1") = None /\ parse_socket (ascii_bytes "localhost:1") = None.
Proof. by vm_compute. Qed.
