(* ===== verification/OracleFeed.v ===== *)
(** * Price backends ([styx-oracle/src/feed.rs])

    The exchanges, their tickers and the sanity range.  A JSON value and its parser are
    serde's ([JsonValue]); the request itself is reqwest's (a body or a failure). *)

From Stdlib Require Import ZArith Lia SpecFloat.
From stdpp Require Import base strings option list.
From S2P Require Import Prelude Hex Units Elements Floats.

(** ** Backends *)

Inductive Backend : Type := Coinbase | Binance | Kraken | Bitstamp | Bitfinex | Okx.

#[export] Instance backend_eq_dec : EqDecision Backend.
Proof. solve_decision. Defined.

Inductive FeedError : Type :=
| FeedHttp
| FeedShape (backend detail : string)
| FeedInsane (backend : string) (price : f64).

Module Feed.

(** [FromStr]; the error's message is dropped. *)
Definition from_str (s : string) : option Backend :=
  if bool_decide (s = "coinbase"%string) then Some Coinbase else
  if bool_decide (s = "binance"%string) then Some Binance else
  if bool_decide (s = "kraken"%string) then Some Kraken else
  if bool_decide (s = "bitstamp"%string) then Some Bitstamp else
  if bool_decide (s = "bitfinex"%string) then Some Bitfinex else
  if bool_decide (s = "okx"%string) then Some Okx else None.

Definition name (b : Backend) : string :=
  match b with
  | Coinbase => "coinbase" | Binance => "binance" | Kraken => "kraken"
  | Bitstamp => "bitstamp" | Bitfinex => "bitfinex" | Okx => "okx"
  end.

Definition endpoint (b : Backend) : string :=
  match b with
  | Coinbase => "https://api.coinbase.com/v2/prices/BTC-USD/spot"
  | Binance => "https://api.binance.com/api/v3/ticker/price?symbol=BTCUSDT"
  | Kraken => "https://api.kraken.com/0/public/Ticker?pair=XBTUSD"
  | Bitstamp => "https://www.bitstamp.net/api/v2/ticker/btcusd/"
  | Bitfinex => "https://api-pub.bitfinex.com/v2/ticker/tBTCUSD"
  | Okx => "https://www.okx.com/api/v5/market/ticker?instId=BTC-USDT"
  end.

Definition MAX_SANE_PRICE : Z := 100000000.

Definition sane (backend : string) (raw : f64) : result FeedError Price.t :=
  match raw with
  | S754_finite false m e =>
      if at_least m e 1 && below m e MAX_SANE_PRICE
      then Ok (Price.new (f64_as_u32 (round_half_away m e)))
      else Err (FeedInsane backend raw)
  | _ => Err (FeedInsane backend raw)
  end.

End Feed.

(** [serde_json::Value]: parsing, indexing (an absent member is a null value), the accessors
    and the first entry of an object. *)
Class JsonValue (V : Type) : Type := {
  parse_value : bytes -> option V;
  index_key : V -> string -> V;
  index_at : V -> nat -> V;
  as_str : V -> option bytes;
  as_f64 : V -> option f64;
  as_object : V -> option (list (bytes * V))
}.

Section Parsing.
Context {V : Type} `{JsonValue V}.

(** [.as_str().ok_or(..)?.parse().map_err(..)?] *)
Definition number_text (backend missing bad : string) (v : V) : result FeedError f64 :=
  text ← ok_or (FeedShape backend missing) (as_str v);
  ok_or (FeedShape backend bad) (parse_f64 text).

Definition raw_price (b : Backend) (v : V) : result FeedError f64 :=
  let n := Feed.name b in
  match b with
  | Coinbase =>
      number_text n "data.amount missing" "data.amount not a number" (index_key (index_key v "data") "amount")
  | Binance => number_text n "price missing" "price not a number" (index_key v "price")
  | Kraken =>
      result ← ok_or (FeedShape n "result missing") (as_object (index_key v "result"));
      '(_, entry) ← ok_or (FeedShape n "result empty") (head result);
      number_text n "result.*.c[0] missing" "c[0] not a number" (index_at (index_key entry "c") 0)
  | Bitstamp => number_text n "last missing" "last not a number" (index_key v "last")
  | Bitfinex => ok_or (FeedShape n "ticker[6] missing") (as_f64 (index_at v 6))
  | Okx =>
      number_text n "data[0].last missing" "data[0].last not a number"
        (index_key (index_at (index_key v "data") 0) "last")
  end.

Definition parse_price (b : Backend) (body : bytes) : result FeedError Price.t :=
  v ← ok_or (FeedShape (Feed.name b) "json") (parse_value body);
  raw ← raw_price b v;
  Feed.sane (Feed.name b) raw.

(** One poll of an [HttpFeed]: the response's body, or a failed request. *)
Definition fetch (b : Backend) (response : option bytes) : result FeedError Price.t :=
  body ← ok_or FeedHttp response;
  parse_price b body.

End Parsing.

(** ** Lemmas *)

Lemma backend_name b : Feed.from_str (Feed.name b) = Some b.
Proof. by destruct b. Qed.

(** The whole of [sane]: the prices it passes, and that it passes every value in range. *)
Lemma sane_spec backend raw :
  match Feed.sane backend raw with
  | Ok p => exists m e, raw = S754_finite false m e /\
      at_least m e 1 = true /\ below m e 100000000 = true /\
      Price.raw p = round_half_away m e /\ 1 <= Price.raw p <= 100000000
  | Err err => err = FeedInsane backend raw /\
      forall m e, raw = S754_finite false m e -> at_least m e 1 && below m e 100000000 = false
  end.
Proof.
  unfold Feed.sane. destruct raw as [s|s| |[] m e]; try (by split).
  unfold Feed.MAX_SANE_PRICE. destruct (at_least m e 1 && below m e 100000000) eqn:Hr;
    [|split; [done|]; by intros ? ? [= <- <-]].
  apply andb_true_iff in Hr as [Hlo Hhi]. exists m, e. cbn [Price.raw].
  assert (Hb : 1 <= round_half_away m e <= 100000000).
  { unfold at_least, below in *. destruct (Z.leb_spec 0 e) as [He|He].
    - unfold round_half_away. rewrite (proj2 (Z.leb_le 0 e)) by lia. lia.
    - apply Z.leb_le in Hlo. apply Z.ltb_lt in Hhi. pose proof (round_half_away_spec m e He).
      assert (0 < 2 ^ (- e)) by (apply Z.pow_pos_nonneg; lia).
      set (d := 2 ^ (- e)) in *. set (q := round_half_away m e) in *. nia. }
  split_and!; try done; unfold f64_as_u32; lia.
Qed.

Example sane_half :
  (x ← ok_or FeedHttp (parse_f64 (ascii_bytes "104249.50")); Feed.sane "bitstamp" x) = Ok (Price.new 104250).
Proof. vm_compute. reflexivity. Qed.
Example sane_top :
  (x ← ok_or FeedHttp (parse_f64 (ascii_bytes "99999999.6")); Feed.sane "okx" x) = Ok (Price.new 100000000).
Proof. vm_compute. reflexivity. Qed.
