(* ===== verification/Pset.v ===== *)
(** * PSETs and out-of-process signing ([styx-pset/src/pset.rs], [signing.rs])

    The interop layer over plans: the PSET of a plan, key-spend signatures of funding
    inputs, finalization that takes them in, and the hex request an external owner signs.

    The taproot key-spend digest and the BIP341 key tweak are library functions, fields of
    [KeySpend] with the laws the code relies on in [KeySpendSpec]. *)

From Stdlib Require Import ZArith Lia.
From stdpp Require Import base gmap strings option list.
From S2P Require Import Prelude Units CrMath Elements Oracle Simf Encode Domain Artifacts Jets.
From S2P Require Import CovVault CovReserve CovIssuer Plan Accept Hex.

(** ** Library interface *)

Inductive SchnorrSighashType : Type :=
| ShDefault | ShAll | ShNone | ShSingle | ShAllAcp | ShNoneAcp | ShSingleAcp.

#[export] Instance SchnorrSighashType_eq_dec : EqDecision SchnorrSighashType.
Proof. solve_decision. Defined.

Class KeySpend : Type := {
  (** [taproot_key_spend_signature_hash tx input prevouts ty genesis] *)
  key_spend_hash : Transaction -> nat -> list TxOut -> SchnorrSighashType -> BlockHash ->
    option bytes;
  (** the keypair tweaked with the [TapTweakHash] of its key and no script tree *)
  key_tweak : bytes -> option bytes
}.

Class KeySpendSpec `{Lib, XOnlyParse} (K : KeySpend) : Prop := {
  (** a tweaked key signs for the tweaked output key *)
  key_tweak_pk (kp tweaked : bytes) :
    key_tweak kp = Some tweaked -> keypair_pk tweaked = tap_tweak (keypair_pk kp) None;
  (** which is a valid x-only key of 32 bytes *)
  key_tweak_valid (kp tweaked : bytes) :
    key_tweak kp = Some tweaked ->
    valid_xonly (keypair_pk tweaked) = true /\ length (keypair_pk tweaked) = 32%nat
}.

(** [SchnorrSig::to_vec]: 64 bytes, and the type byte unless it is the default. *)
Record SchnorrSig : Type := mkSchnorrSig { ss_sig : bytes; ss_hash_ty : SchnorrSighashType }.

Definition sighash_byte (ty : SchnorrSighashType) : bytes :=
  match ty with
  | ShDefault => [] | ShAll => [byte_of_Z 1] | ShNone => [byte_of_Z 2] | ShSingle => [byte_of_Z 3]
  | ShAllAcp => [byte_of_Z 0x81] | ShNoneAcp => [byte_of_Z 0x82] | ShSingleAcp => [byte_of_Z 0x83]
  end.
Definition sig_to_vec (s : SchnorrSig) : bytes := ss_sig s ++ sighash_byte (ss_hash_ty s).

(** ** The PSET *)

#[export] Instance ControlBlock_eq_dec : EqDecision ControlBlock.
Proof. solve_decision. Defined.

Record PsetInput : Type := mkPsetInput {
  witness_utxo : option TxOut;
  tap_internal_key : option XOnlyPublicKey;
  tap_scripts : list (ControlBlock * (Script * Z));
  tap_key_sig : option SchnorrSig
}.

Record Pset : Type := mkPset { ps_tx : Transaction; ps_inputs : list PsetInput }.

Inductive PsetError : Type :=
| NonExplicitOutput (index : Z)
| NonAllSighash (input : Z) (found : SchnorrSighashType)
| InvalidFundingSignature (input : Z)
| SighashFailed
| TweakFailed
| Prune (e : FinalizeError)
| PsetPanicked.

Definition is_explicit_value (v : CValue) : bool :=
  match v with VExplicit _ => true | _ => false end.
Definition is_explicit_asset (a : CAsset) : bool :=
  match a with AExplicit _ => true | _ => false end.

Fixpoint validate_outputs (index : Z) (outs : list TxOut) : result PsetError unit :=
  match outs with
  | [] => Ok tt
  | out :: outs =>
      if negb (is_explicit_value (to_value out)) || negb (is_explicit_asset (to_asset out))
      then Err (NonExplicitOutput index) else validate_outputs (index + 1) outs
  end.

Definition validate_explicit (tx : Transaction) : result PsetError unit :=
  validate_outputs 0 (output tx).

(** [BTreeMap::insert]: the new pair replaces one under the same key. *)
Definition tap_insert (cb : ControlBlock) (s : Script * Z) (l : list (ControlBlock * (Script * Z))) :=
  (cb, s) :: filter (fun p => p.1 <> cb) l.

(** [PartiallySignedTransaction::from_tx]: one bare entry per input. *)
Definition from_tx (tx : Transaction) : Pset :=
  mkPset tx ((fun _ => mkPsetInput None None [] None) <$> input tx).

Definition prevout (u : ElementsUtxo) : TxOut :=
  mkTxOut (utxo_value u) (utxo_spk u) (utxo_asset u) NNull.

Definition prevouts (plan : TxPlan) : list TxOut := prevout <$> p_utxos plan.

(** [pset.inputs_mut()[i]]: out of range panics. *)
Definition alter_input (i : nat) (f : PsetInput -> PsetInput) (ps : Pset) : result PsetError Pset :=
  match ps_inputs ps !! i with
  | Some inp => Ok (mkPset (ps_tx ps) (<[i := f inp]> (ps_inputs ps)))
  | None => Err PsetPanicked
  end.

Definition set_utxo (u : ElementsUtxo) (i : PsetInput) : PsetInput :=
  mkPsetInput (Some (prevout u)) (tap_internal_key i) (tap_scripts i) (tap_key_sig i).
Definition set_leaf (cb : ControlBlock) (s : Script * Z) (i : PsetInput) : PsetInput :=
  mkPsetInput (witness_utxo i) (Some nums_key) (tap_insert cb s (tap_scripts i)) (tap_key_sig i).
Definition set_key_sig (s : SchnorrSig) (i : PsetInput) : PsetInput :=
  mkPsetInput (witness_utxo i) (tap_internal_key i) (tap_scripts i) (Some s).

Fixpoint fill_utxos (i : nat) (us : list ElementsUtxo) (ps : Pset) : result PsetError Pset :=
  match us with
  | [] => Ok ps
  | u :: us => ps ← alter_input i (set_utxo u) ps; fill_utxos (S i) us ps
  end.

Section Pset.
Context `{Lib, XOnlyParse, SigHash, Redeemer, KeySpend}.

Fixpoint fill_slots (ctx : Ctx) (slots : list WitnessSlot) (ps : Pset) : result PsetError Pset :=
  match slots with
  | [] => Ok ps
  | slot :: slots =>
      let '(prog, cb, _) := slot_program (ctx_artifacts ctx) (ws_kind slot) in
      cb ← ok_or PsetPanicked cb;
      ps ← alter_input (Z.to_nat (ws_input slot))
             (set_leaf cb (cmr_script prog, simplicity_leaf_version)) ps;
      fill_slots ctx slots ps
  end.

Definition to_pset (ctx : Ctx) (plan : TxPlan) : result PsetError Pset :=
  _ ← validate_explicit (p_tx plan);
  ps ← fill_utxos 0 (p_utxos plan) (from_tx (p_tx plan));
  fill_slots ctx (p_slots plan) ps.

Definition funding_sighash (ctx : Ctx) (plan : TxPlan) (i : nat) : result PsetError bytes :=
  ok_or SighashFailed (key_spend_hash (p_tx plan) i (prevouts plan) ShAll (ctx_genesis ctx)).

Definition sign_funding (ctx : Ctx) (plan : TxPlan) (ps : Pset) (i : nat) (keypair : bytes)
    : result PsetError Pset :=
  tweaked ← ok_or TweakFailed (key_tweak keypair);
  digest ← funding_sighash ctx plan i;
  alter_input i (set_key_sig (mkSchnorrSig (sign_schnorr tweaked digest) ShAll)) ps.

(** One signed input of [finalize_pset]. *)
Definition finalize_input (ctx : Ctx) (plan : TxPlan) (i : nat) (sig : SchnorrSig)
    (tx : Transaction) : result PsetError Transaction :=
  if bool_decide (ss_hash_ty sig <> ShAll)
  then Err (NonAllSighash (Z.of_nat i) (ss_hash_ty sig)) else
  u ← ok_or PsetPanicked (p_utxos plan !! i);
  let spk := utxo_spk u in
  let bad := InvalidFundingSignature (Z.of_nat i) in
  if bool_decide (length spk <> 34%nat) || bool_decide (take 2 spk <> [byte_of_Z 0x51; byte_of_Z 0x20])
  then Err bad else
  let output_key := drop 2 spk in
  if negb (valid_xonly output_key) then Err bad else
  digest ← funding_sighash ctx plan i;
  if negb (verify_schnorr output_key digest (ss_sig sig)) then Err bad else
  map_err (fun _ => PsetPanicked) (set_witness tx (Z.of_nat i) [sig_to_vec sig]).

Fixpoint finalize_inputs (ctx : Ctx) (plan : TxPlan) (i : nat) (inputs : list PsetInput)
    (tx : Transaction) : result PsetError Transaction :=
  match inputs with
  | [] => Ok tx
  | inp :: inputs =>
      tx ← match tap_key_sig inp with
           | Some sig => finalize_input ctx plan i sig tx
           | None => Ok tx
           end;
      finalize_inputs ctx plan (S i) inputs tx
  end.

Definition finalize_pset (ctx : Ctx) (plan : TxPlan) (ps : Pset) : result PsetError Transaction :=
  tx ← map_err Prune (finalize ctx plan);
  finalize_inputs ctx plan 0 (ps_inputs ps) tx.

End Pset.

(** ** Out-of-process owner signing ([signing.rs]) *)

Inductive SigningError : Type :=
| SSighash (e : FinalizeError)
| NoOwnerOp
| SigEncoding (what : string)
| BadSignature.

(** A Rust string as its UTF-8 bytes. *)
Record OwnerSigningRequest : Type := mkRequest {
  rq_txid : bytes; rq_sighash : bytes; rq_owner : bytes
}.

Fixpoint decode_pairs (s : bytes) : result SigningError bytes :=
  match s with
  | a :: b :: s =>
      x ← ok_or (SigEncoding "not hex") (from_hex_pair a b);
      rest ← decode_pairs s;
      Ok (byte_of_Z x :: rest)
  | _ => Ok []
  end.

Definition decode_64 (s : bytes) : result SigningError bytes :=
  if negb (is_ascii s) || bool_decide (length s <> 128%nat)
  then Err (SigEncoding "expected 128 hex chars") else decode_pairs s.

Fixpoint find_owner (slots : list WitnessSlot) : option XOnlyPublicKey :=
  match slots with
  | [] => None
  | slot :: slots =>
      match ws_kind slot with
      | KVault state op => if is_owner_op op then Some (owner state) else find_owner slots
      | _ => find_owner slots
      end
  end.

Section Signing.
Context `{Lib, SigHash, Redeemer}.

(** [Txid::to_string]: the bytes in display order. *)
Definition txid_string (t : Txid) : bytes := hex (rev t).

Definition owner_signing_request (ctx : Ctx) (plan : TxPlan)
    : result SigningError OwnerSigningRequest :=
  owner ← ok_or NoOwnerOp (find_owner (p_slots plan));
  digest ← map_err SSighash (vault_sighash ctx plan);
  Ok (mkRequest (txid_string (plan_txid plan)) (hex digest) (hex owner)).

(** [Signature::from_slice] takes any 64 bytes, which [decode_64] has checked. *)
Definition apply_owner_sig (ctx : Ctx) (plan : TxPlan) (sig_hex : bytes)
    : result SigningError TxPlan :=
  owner ← ok_or NoOwnerOp (find_owner (p_slots plan));
  sig ← decode_64 sig_hex;
  digest ← map_err SSighash (vault_sighash ctx plan);
  if negb (verify_schnorr owner digest sig) then Err BadSignature
  else Ok (install_owner_sig plan (mkSig sig)).

End Signing.

(** ** Lemmas: hex *)

Lemma decode_pairs_hex l : decode_pairs (hex l) = Ok l.
Proof.
  induction l as [|b l IH]; [done|]. rewrite hex_cons. cbn [decode_pairs].
  rewrite from_hex_pair_digits. cbn [ok_or mbind result_bind]. rewrite IH.
  cbn [mbind result_bind]. by rewrite byte_of_to_Z.
Qed.

Lemma decode_64_hex l : length l = 64%nat -> decode_64 (hex l) = Ok l.
Proof.
  intros Hl. unfold decode_64. rewrite is_ascii_hex, bool_decide_false by (rewrite length_hex; lia).
  apply decode_pairs_hex.
Qed.

Lemma decode_pairs_length s l : decode_pairs s = Ok l -> length s = 128%nat -> length l = 64%nat.
Proof.
  intros Hd Hs. assert (G : forall n s l, decode_pairs s = Ok l -> length s = (2 * n)%nat -> length l = n).
  { clear. induction n as [|n IH]; intros [|a [|b s]] l Hd Hn; cbn in Hn; try lia.
    - by injection Hd as <-.
    - cbn [decode_pairs] in Hd. peel Hd. subst l. cbn [length]. f_equal. eapply IH; [done|lia]. }
  by apply (G 64%nat s l).
Qed.

(** ** Lemmas: the digest and the installed signature *)

Section SigningLemmas.
Context `{HL : Lib, HS : SigHash, R : Redeemer}.

Lemma find_vault_install sig slots :
  find_vault_slot (install_slot sig <$> slots) = find_vault_slot slots.
Proof. induction slots as [|[i []] slots IH]; cbn; done. Qed.

Lemma before_slots_install ctx utxos sig slots stop s tx :
  find_vault_slot slots = Some (stop, s) ->
  before_slots ctx utxos tx (install_slot sig <$> slots) stop = before_slots ctx utxos tx slots stop.
Proof.
  revert tx. induction slots as [|[i k] slots IH]; [done|]. intros tx Hf. cbn [fmap list_fmap before_slots].
  assert (Hi : ws_input (install_slot sig (mkSlot i k)) = i) by (by destruct k).
  rewrite Hi. cbn [ws_input]. destruct (Z.eqb_spec i stop); [done|].
  destruct k; cbn in Hf; try (by injection Hf).
  all: cbn [install_slot ws_kind]; destruct (slot_witness _ _ _ _) as [w|]; cbn; [|done];
    destruct (set_witness _ _ _); cbn; [|done]; by apply IH.
Qed.

Lemma vault_sighash_install ctx plan sig :
  vault_sighash ctx (install_owner_sig plan sig) = vault_sighash ctx plan.
Proof.
  unfold vault_sighash, tx_before_slot, install_owner_sig. cbn [p_slots p_tx p_utxos].
  rewrite find_vault_install. destruct (find_vault_slot (p_slots plan)) as [[i s]|] eqn:Hf; [|done].
  cbn [ok_or mbind result_bind]. by rewrite (before_slots_install _ _ _ _ _ s).
Qed.

End SigningLemmas.

(** ** Theorems: owner signing *)

Section SigningTheorems.
Context `{HL : Lib, !LibSpec HL, HS : SigHash, R : Redeemer}.

Lemma apply_signature ctx plan kp digest :
  find_owner (p_slots plan) = Some (keypair_pk kp) -> vault_sighash ctx plan = Ok digest ->
  apply_owner_sig ctx plan (hex (sign_schnorr kp digest))
  = Ok (install_owner_sig plan (mkSig (sign_schnorr kp digest))).
Proof.
  intros Hf Hd. unfold apply_owner_sig. rewrite Hf. cbn [ok_or mbind result_bind].
  rewrite decode_64_hex by apply sign_length. rewrite Hd. cbn [map_err mbind result_bind].
  by rewrite sign_verify.
Qed.

(** External signing and in-process signing give the same plan: the request exports the
    digest and the owner key, and applying the hex of the key's signature over that digest
    installs what [owner_sign] installs. *)
Theorem external_sign_agrees (ctx : Ctx) (plan plan' : TxPlan) (kp : bytes) :
  find_owner (p_slots plan) = Some (keypair_pk kp) ->
  owner_sign ctx plan kp = Ok plan' ->
  exists digest,
    owner_signing_request ctx plan =
      Ok (mkRequest (txid_string (plan_txid plan)) (hex digest) (hex (keypair_pk kp))) /\
    apply_owner_sig ctx plan (hex (sign_schnorr kp digest)) = Ok plan'.
Proof.
  intros Hf Hs. unfold owner_sign in Hs. apply bind_ok in Hs as (digest & Hd & [= <-]). exists digest.
  split; [|by apply apply_signature].
  unfold owner_signing_request. by rewrite Hf, Hd.
Qed.

(** An applied signature is a valid one: 64 bytes that verify under the vault owner over
    the digest of the plan, which installing them leaves unchanged along with the
    transaction and its claimed inputs. *)
Theorem apply_owner_sig_safe (ctx : Ctx) (plan plan' : TxPlan) (sig_hex : bytes) :
  apply_owner_sig ctx plan sig_hex = Ok plan' ->
  exists owner digest sig,
    find_owner (p_slots plan) = Some owner /\ length sig = 64%nat /\
    vault_sighash ctx plan = Ok digest /\ verify_schnorr owner digest sig = true /\
    plan' = install_owner_sig plan (mkSig sig) /\ vault_sighash ctx plan' = Ok digest /\
    p_tx plan' = p_tx plan /\ p_utxos plan' = p_utxos plan.
Proof.
  unfold apply_owner_sig. intros Ha.
  apply bind_ok in Ha as (o & Ho%ok_or_ok & Ha). apply bind_ok in Ha as (sig & Hsig & Ha).
  apply bind_ok in Ha as (digest & Hd%map_err_ok & Ha). pass_guard Ha. injection Ha as <-. boolz.
  unfold decode_64 in Hsig. pass_guard Hsig. boolz.
  exists o, digest, sig. rewrite vault_sighash_install. split_and!; try done.
  eapply decode_pairs_length; [done|]. by apply dec_stable.
Qed.

End SigningTheorems.

(** ** Theorems: funding signatures *)

Section FundingLemmas.
Context `{HL : Lib, XP : XOnlyParse, HS : SigHash, R : Redeemer, K : KeySpend}.

Lemma set_witness_spec tx i w tx' :
  set_witness tx i w = Ok tx' ->
  body tx' = body tx /\
  (exists t, input tx' !! Z.to_nat i = Some t /\ script_witness t = w) /\
  (forall j, j <> Z.to_nat i -> input tx' !! j = input tx !! j).
Proof.
  intros Hs. assert (Hr : is_Some (input tx !! Z.to_nat i))
    by (unfold set_witness in Hs; by destruct (input tx !! Z.to_nat i)).
  destruct (set_witness_ok tx i w Hr) as (t & Ht & Hb). rewrite Hs in Ht. injection Ht as <-.
  split; [done|]. destruct Hr as [inp Hi]. unfold set_witness in Hs. rewrite Hi in Hs.
  injection Hs as <-. cbn [input]. split.
  - eexists. rewrite list_lookup_insert_eq by (by eapply lookup_lt_Some). done.
  - intros j Hj. by rewrite list_lookup_insert_ne.
Qed.

Lemma finalize_slots_body ctx utxos tx slots tx' :
  finalize_slots ctx utxos tx slots = Ok tx' -> body tx' = body tx.
Proof.
  revert tx. induction slots as [|slot slots IH]; intros tx Hf; cbn in Hf; [by injection Hf as ->|].
  apply bind_ok in Hf as (w & _ & Hf). apply bind_ok in Hf as (t & [Hb _]%set_witness_spec & Hf).
  apply IH in Hf. congruence.
Qed.

(** What a signed key-spend input guarantees. *)
Definition funding_signed (ctx : Ctx) (plan : TxPlan) (i : nat) (sig : SchnorrSig) : Prop :=
  ss_hash_ty sig = ShAll /\
  exists u key digest,
    p_utxos plan !! i = Some u /\
    utxo_spk u = byte_of_Z 0x51 :: byte_of_Z 0x20 :: key /\ length key = 32%nat /\
    funding_sighash ctx plan i = Ok digest /\ verify_schnorr key digest (ss_sig sig) = true.

Lemma finalize_input_ok ctx plan i sig tx tx' :
  finalize_input ctx plan i sig tx = Ok tx' ->
  funding_signed ctx plan i sig /\ set_witness tx (Z.of_nat i) [sig_to_vec sig] = Ok tx'.
Proof.
  unfold finalize_input. intros Hf. pass_guard Hf.
  apply bind_ok in Hf as (u & Hu%ok_or_ok & Hf). do 2 pass_guard Hf.
  apply bind_ok in Hf as (d & Hd & Hf). pass_guard Hf. apply map_err_ok in Hf. boolz.
  split; [|done]. split; [by apply dec_stable|]. exists u, (drop 2 (utxo_spk u)), d.
  assert (Hl : length (utxo_spk u) = 34%nat) by (by apply dec_stable).
  assert (Ht : take 2 (utxo_spk u) = [byte_of_Z 0x51; byte_of_Z 0x20]) by (by apply dec_stable).
  split_and!; try done; [|rewrite length_drop; lia].
  by rewrite <- (take_drop 2 (utxo_spk u)) at 1; rewrite Ht.
Qed.

Lemma finalize_inputs_ok ctx plan k inputs tx0 tx :
  finalize_inputs ctx plan k inputs tx0 = Ok tx ->
  body tx = body tx0 /\
  (forall j inp sig, inputs !! j = Some inp -> tap_key_sig inp = Some sig ->
     funding_signed ctx plan (k + j) sig /\
     exists t, input tx !! (k + j)%nat = Some t /\ script_witness t = [sig_to_vec sig]) /\
  (forall i, (forall j inp, inputs !! j = Some inp -> i = (k + j)%nat -> tap_key_sig inp = None) ->
     input tx !! i = input tx0 !! i).
Proof.
  revert k tx0. induction inputs as [|inp inputs IH]; intros k tx0 Hf; cbn [finalize_inputs] in Hf.
  { injection Hf as <-. done. }
  apply bind_ok in Hf as (tx1 & H1 & Hf). apply IH in Hf as (Hb & Hs & Hu). clear IH.
  assert (Hlast : forall i, (i < S k)%nat -> input tx !! i = input tx1 !! i).
  { intros i Hi. apply Hu. intros j ? _ ->. lia. }
  destruct (tap_key_sig inp) as [sig0|] eqn:Hk.
  - apply finalize_input_ok in H1 as [Hg (Hb1 & (t & Ht & Hw) & Hrest)%set_witness_spec].
    rewrite Nat2Z.id in *. split; [congruence|]. split.
    + intros [|j] i sig Hj Hsig.
      * injection Hj as <-. rewrite Hk in Hsig. injection Hsig as <-. rewrite Nat.add_0_r.
        split; [done|]. exists t. rewrite Hlast by lia. done.
      * rewrite <- Nat.add_succ_comm. by eapply Hs.
    + intros i Hi. rewrite Hu; [apply Hrest|].
      * intros ->. specialize (Hi 0%nat inp eq_refl ltac:(lia)). congruence.
      * intros j x Hj ->. apply (Hi (S j) x Hj). lia.
  - injection H1 as ->. split; [done|]. split.
    + intros [|j] i sig Hj Hsig; [cbn in Hj; congruence|].
      rewrite <- Nat.add_succ_comm. by eapply Hs.
    + intros i Hi. apply Hu. intros j x Hj ->. apply (Hi (S j) x Hj). lia.
Qed.

(** C9: E-5: a finalized PSET carries the planned body; every key-spend signature it took in is
    SIGHASH_ALL and verifies against its input's output key over the digest of all outputs;
    and the inputs without a signature are those of [finalize]. *)
Theorem finalize_pset_safe (ctx : Ctx) (plan : TxPlan) (ps : Pset) (tx : Transaction) :
  finalize_pset ctx plan ps = Ok tx ->
  exists tx0, finalize ctx plan = Ok tx0 /\ body tx = body (p_tx plan) /\
  (forall i inp sig, ps_inputs ps !! i = Some inp -> tap_key_sig inp = Some sig ->
     funding_signed ctx plan i sig /\
     exists t, input tx !! i = Some t /\ script_witness t = [ss_sig sig ++ [byte_of_Z 1]]) /\
  (forall i, (forall inp, ps_inputs ps !! i = Some inp -> tap_key_sig inp = None) ->
     input tx !! i = input tx0 !! i).
Proof.
  intros Hf. apply bind_ok in Hf as (tx0 & Hf0%map_err_ok & Hf). exists tx0. split; [done|].
  apply finalize_inputs_ok in Hf as (Hb & Hs & Hu). apply finalize_slots_body in Hf0.
  split_and!; [congruence| |].
  - intros i inp sig Hi Hk. destruct (Hs i inp sig Hi Hk) as [Hg (t & Ht & Hw)]. split; [done|].
    exists t. split; [done|]. rewrite Hw. unfold sig_to_vec. by rewrite (proj1 Hg).
  - intros i Hi. apply Hu. intros j inp Hj ->. by apply Hi.
Qed.

End FundingLemmas.

Section FundingTheorems.
Context `{HL : Lib, !LibSpec HL, XP : XOnlyParse, HS : SigHash, R : Redeemer, K : KeySpend,
  !KeySpendSpec K}.

(** The verdict on a signature does not depend on the witnesses already in place. *)
Lemma finalize_input_any ctx plan i sig tx tx' tx2 :
  finalize_input ctx plan i sig tx = Ok tx' -> body tx2 = body tx ->
  exists tx2', finalize_input ctx plan i sig tx2 = Ok tx2' /\ body tx2' = body tx2.
Proof.
  intros Hf Hb. pose proof (proj2 (finalize_input_ok _ _ _ _ _ _ Hf)) as Hs. revert Hf.
  unfold finalize_input. case_match; [done|]. destruct (p_utxos plan !! i); cbn; [|done].
  case_match; [done|]. case_match; [done|]. destruct (funding_sighash ctx plan i); cbn; [|done].
  case_match; [done|]. intros _.
  destruct (set_witness_ok tx2 (Z.of_nat i) [sig_to_vec sig]) as (tx2' & -> & ?); [|by exists tx2'].
  eapply (body_in_range tx); [done|]. unfold set_witness in Hs. by destruct (input tx !! _).
Qed.

Lemma finalize_inputs_total ctx plan k inputs tx0 :
  (forall j inp sig, inputs !! j = Some inp -> tap_key_sig inp = Some sig ->
     exists t, finalize_input ctx plan (k + j) sig tx0 = Ok t) ->
  exists tx, finalize_inputs ctx plan k inputs tx0 = Ok tx.
Proof.
  revert k tx0. induction inputs as [|inp inputs IH]; intros k tx0 Hall; cbn [finalize_inputs]; [eauto|].
  assert (H1 : exists t, match tap_key_sig inp with
      Some sig => finalize_input ctx plan k sig tx0 | None => Ok tx0 end = Ok t /\ body t = body tx0).
  { destruct (tap_key_sig inp) as [sig|] eqn:E; [|eauto].
    destruct (Hall 0%nat inp sig eq_refl E) as [t Ht]. rewrite Nat.add_0_r in Ht.
    by eapply finalize_input_any. }
  destruct H1 as (t & -> & Hb). cbn [mbind result_bind]. apply IH. intros j i sig Hj Hs.
  destruct (Hall (S j) i sig Hj Hs) as [t' Ht']. rewrite <- Nat.add_succ_comm in Ht'.
  destruct (finalize_input_any _ _ _ _ _ _ t Ht' Hb) as (? & ? & _). eauto.
Qed.

Lemma finalize_inputs_step ctx plan k inputs tx0 tx :
  finalize_inputs ctx plan k inputs tx0 = Ok tx ->
  forall j inp sig, inputs !! j = Some inp -> tap_key_sig inp = Some sig ->
  exists t, finalize_input ctx plan (k + j) sig tx0 = Ok t.
Proof.
  revert k tx0. induction inputs as [|inp inputs IH]; intros k tx0 Hf [|j] x sig Hj Hs; try done;
    cbn [finalize_inputs] in Hf; apply bind_ok in Hf as (t & H1 & Hf).
  - injection Hj as <-. rewrite Hs in H1. rewrite Nat.add_0_r. eauto.
  - destruct (IH _ _ Hf j x sig Hj Hs) as [t' Ht']. rewrite <- Nat.add_succ_comm.
    assert (Hb : body tx0 = body t).
    { destruct (tap_key_sig inp); [|by injection H1 as ->].
      apply finalize_input_ok in H1 as [_ (? & _)%set_witness_spec]. done. }
    destruct (finalize_input_any _ _ _ _ _ _ tx0 Ht' Hb) as (? & ? & _). eauto.
Qed.

(** A wallet's own signature is taken in: signing a key-path p2tr coin of the plan with the
    wallet's internal key keeps a finalizable PSET finalizable. *)
Theorem sign_funding_finalizes (ctx : Ctx) (plan : TxPlan) (ps ps' : Pset) (i : nat) (kp : bytes)
    (u : ElementsUtxo) (tx : Transaction) :
  finalize_pset ctx plan ps = Ok tx ->
  p_utxos plan !! i = Some u ->
  utxo_spk u = byte_of_Z 0x51 :: byte_of_Z 0x20 :: tap_tweak (keypair_pk kp) None ->
  is_Some (input (p_tx plan) !! i) ->
  sign_funding ctx plan ps i kp = Ok ps' ->
  exists tx', finalize_pset ctx plan ps' = Ok tx'.
Proof.
  intros Hf Hu Hspk Hr Hs. unfold finalize_pset in *.
  apply bind_ok in Hf as (tx0 & Hf0 & Hf). rewrite Hf0. cbn [mbind result_bind].
  apply map_err_ok, finalize_slots_body in Hf0.
  unfold sign_funding in Hs. apply bind_ok in Hs as (tw & Htw%ok_or_ok & Hs).
  apply bind_ok in Hs as (d & Hd & Hs). unfold alter_input in Hs.
  destruct (ps_inputs ps !! i) as [inp|] eqn:Hi; [|done]. injection Hs as <-. cbn [ps_inputs].
  apply finalize_inputs_total. intros j x sig Hj Hsig. cbn [Nat.add].
  destruct (decide (j = i)) as [-> | Hne].
  - rewrite list_lookup_insert_eq in Hj by (by eapply lookup_lt_Some). injection Hj as <-.
    injection Hsig as <-. unfold finalize_input. cbn [ss_hash_ty ss_sig].
    rewrite bool_decide_false by auto. rewrite Hu. cbn [ok_or mbind result_bind]. rewrite Hspk.
    destruct (key_tweak_valid _ _ Htw) as [Hval Hlen]. rewrite <- (key_tweak_pk _ _ Htw). cbn [length firstn skipn]. rewrite take_0, drop_0.
    rewrite Hlen, Hval, !bool_decide_false by auto. cbn [orb negb].
    rewrite Hd. cbn [mbind result_bind]. rewrite sign_verify. cbn [negb].
    destruct (set_witness_ok tx0 (Z.of_nat i) [sig_to_vec (mkSchnorrSig (sign_schnorr tw d) ShAll)])
      as (t & -> & _); [|by exists t].
    rewrite Nat2Z.id. eapply (body_in_range (p_tx plan)); [congruence|done].
  - rewrite list_lookup_insert_ne in Hj by done.
    destruct (finalize_inputs_step _ _ _ _ _ _ Hf j x sig Hj Hsig) as [t Ht]. eauto.
Qed.

End FundingTheorems.
