(* ===== verification/Protocol.v ===== *)
(** * The protocol as a transition system

    The live coins of a deploy (pot, reserve, issuer token, vaults) and one transition per
    operation: a checked builder of [styx-pset/src/build] succeeded on a well-formed intent
    and its transaction confirmed.  The builder's delta is the next state. *)

From Stdlib Require Import ZArith Lia.
From stdpp Require Import base gmap strings option list fin_maps.
From S2P Require Import Prelude Units CrMath Elements Oracle Simf Encode Domain Artifacts Jets.
From S2P Require Import CovVault CovReserve CovIssuer Plan BuildOwner BuildKeeper Accept.
From S2P Require Import CovLemmas CovAccept Sound SoundOwner SoundKeeper Pset.

Record Sys : Type := mkSys {
  sys_protocol : ProtocolState;
  sys_vaults : gmap OutPoint (OnChain VaultState)
}.

(** The outpoint of a live protocol coin. *)
Definition live (s : Sys) (op : OutPoint) : Prop :=
  op = outpoint (pot (sys_protocol s)) \/ op = outpoint (reserve (sys_protocol s)) \/
  op = outpoint (issuer (sys_protocol s)) \/ is_Some (sys_vaults s !! op).

(** All OBOL is either in the pot or owed by a vault. *)
Definition total_debt (vs : gmap OutPoint (OnChain VaultState)) : Z :=
  map_fold (fun _ v acc => Obol.raw (debt (state v)) + acc) 0 vs.
Definition supply (s : Sys) : Z :=
  Obol.raw (oc_value (pot (sys_protocol s))) + total_debt (sys_vaults s).

Record vault_live (op : OutPoint) (v : OnChain VaultState) : Prop := {
  vl_outpoint : outpoint v = op;
  vl_wf : vault_on_wf v;
  vl_debt : u32 (Obol.raw (debt (state v)))
}.

Record sys_wf (s : Sys) : Prop := {
  sw_protocol : protocol_wf (sys_protocol s);
  sw_issuer : oc_value (issuer (sys_protocol s)) = 1;
  sw_vaults op v : sys_vaults s !! op = Some v -> vault_live op v;
  sw_supply : supply s <= MAX_MONEY;
  sw_distinct : NoDup [outpoint (pot (sys_protocol s)); outpoint (reserve (sys_protocol s));
                       outpoint (issuer (sys_protocol s))];
  sw_pot_vault : sys_vaults s !! outpoint (pot (sys_protocol s)) = None;
  sw_reserve_vault : sys_vaults s !! outpoint (reserve (sys_protocol s)) = None;
  sw_issuer_vault : sys_vaults s !! outpoint (issuer (sys_protocol s)) = None
}.

(** ** Transitions *)

Section Steps.
Context `{Lib} (ctx : Ctx).
Abbreviation pks := (oracle_pks (ctx_params ctx)).

(** A confirmed transaction has a new txid and outputs within the money range. *)
Record confirmed (s : Sys) (pl : TxPlan) : Prop := {
  cf_fresh op : live s op -> op_txid op <> plan_txid pl;
  cf_money o v : o ∈ output (p_tx pl) -> to_value o = VExplicit v -> v <= MAX_MONEY
}.

Definition replace_vault (v v' : OnChain VaultState) (vs : gmap OutPoint (OnChain VaultState)) :=
  <[outpoint v' := v']> (delete (outpoint v) vs).

Inductive step (s : Sys) : TxPlan -> Sys -> Prop :=
| step_poke intent b :
    tick_signed pks (pk_tick intent) ->
    amount (Sats.raw (fc_value (pk_funding intent))) -> 0 <= Sats.raw (pk_fee intent) ->
    ~ live s (fc_outpoint (pk_funding intent)) ->
    poke ctx (issuer (sys_protocol s)) intent = Ok b -> confirmed s (plan b) ->
    step s (plan b)
      (mkSys (mkProtocol (pot (sys_protocol s)) (reserve (sys_protocol s)) (pkd_issuer (expected b)))
         (sys_vaults s))
| step_open intent b :
    tick_signed pks (op_tick intent) -> length (op_owner intent) = 32%nat ->
    0 <= Obol.raw (op_principal intent) -> amount (Sats.raw (fc_value (op_funding intent))) ->
    0 <= Sats.raw (op_collateral intent) -> 0 <= Sats.raw (op_fee intent) ->
    ~ live s (fc_outpoint (op_funding intent)) ->
    open ctx (sys_protocol s) intent = Ok b -> confirmed s (plan b) ->
    step s (plan b)
      (mkSys (mkProtocol (od_pot (expected b)) (od_reserve (expected b)) (od_issuer (expected b)))
         (<[outpoint (od_vault (expected b)) := od_vault (expected b)]> (sys_vaults s)))
| step_draw v intent b :
    sys_vaults s !! outpoint v = Some v ->
    tick_signed pks (dr_tick intent) ->
    0 <= Obol.raw (dr_amount intent) -> 0 <= Sats.raw (dr_fee intent) ->
    draw ctx (sys_protocol s) v intent = Ok b -> confirmed s (plan b) ->
    step s (plan b)
      (mkSys (mkProtocol (dd_pot (expected b)) (reserve (sys_protocol s)) (dd_issuer (expected b)))
         (replace_vault v (dd_vault (expected b)) (sys_vaults s)))
| step_repay v intent b :
    sys_vaults s !! outpoint v = Some v ->
    amount (Obol.raw (ob_value (rp_payer intent))) ->
    amount (Sats.raw (fc_value (rp_fee_coin intent))) -> 0 <= Sats.raw (rp_fee intent) ->
    0 <= Obol.raw (rp_amount intent) ->
    ~ live s (ob_outpoint (rp_payer intent)) -> ~ live s (fc_outpoint (rp_fee_coin intent)) ->
    repay ctx (pot (sys_protocol s)) v intent = Ok b -> confirmed s (plan b) ->
    step s (plan b)
      (mkSys (mkProtocol (rpd_pot (expected b)) (reserve (sys_protocol s)) (issuer (sys_protocol s)))
         (replace_vault v (rpd_vault (expected b)) (sys_vaults s)))
| step_close v intent b :
    sys_vaults s !! outpoint v = Some v ->
    amount (Obol.raw (ob_value (cl_payer intent))) -> 0 <= Sats.raw (cl_fee intent) ->
    ~ live s (ob_outpoint (cl_payer intent)) ->
    close ctx (pot (sys_protocol s)) v intent = Ok b -> confirmed s (plan b) ->
    step s (plan b)
      (mkSys (mkProtocol (cd_pot (expected b)) (reserve (sys_protocol s)) (issuer (sys_protocol s)))
         (delete (outpoint v) (sys_vaults s)))
| step_refresh v intent b :
    sys_vaults s !! outpoint v = Some v ->
    tick_signed pks (rf_tick intent) ->
    amount (Sats.raw (fc_value (rf_fee_coin intent))) -> 0 <= Sats.raw (rf_fee intent) ->
    ~ live s (fc_outpoint (rf_fee_coin intent)) ->
    refresh ctx v intent = Ok b -> confirmed s (plan b) ->
    step s (plan b)
      (mkSys (sys_protocol s) (replace_vault v (rfd_vault (expected b)) (sys_vaults s)))
| step_liquidate v intent b :
    sys_vaults s !! outpoint v = Some v ->
    tick_signed pks (lq_tick intent) ->
    0 <= Obol.raw (lq_dd intent) -> 0 <= Sats.raw (lq_residual intent) ->
    amount (Obol.raw (ob_value (lq_keeper intent))) -> 0 <= Sats.raw (lq_fee intent) ->
    ~ live s (ob_outpoint (lq_keeper intent)) ->
    liquidate ctx (sys_protocol s) v intent = Ok b -> confirmed s (plan b) ->
    step s (plan b)
      (mkSys (mkProtocol (ld_pot (expected b)) (ld_reserve (expected b)) (issuer (sys_protocol s)))
         (replace_vault v (ld_vault (expected b)) (sys_vaults s)))
| step_full_liq v intent b :
    sys_vaults s !! outpoint v = Some v ->
    tick_signed pks (fl_tick intent) ->
    amount (Obol.raw (ob_value (fl_keeper intent))) -> 0 <= Sats.raw (fl_fee intent) ->
    ~ live s (ob_outpoint (fl_keeper intent)) ->
    full_liq ctx (sys_protocol s) v intent = Ok b -> confirmed s (plan b) ->
    step s (plan b)
      (mkSys (mkProtocol (fd_pot (expected b)) (fd_reserve (expected b)) (issuer (sys_protocol s)))
         (delete (outpoint v) (sys_vaults s)))
| step_bad_debt v intent b :
    sys_vaults s !! outpoint v = Some v ->
    tick_signed pks (bd_tick intent) ->
    amount (Obol.raw (ob_value (bd_keeper intent))) ->
    amount (Sats.raw (fc_value (bd_fee_coin intent))) -> 0 <= Sats.raw (bd_fee intent) ->
    ~ live s (ob_outpoint (bd_keeper intent)) -> ~ live s (fc_outpoint (bd_fee_coin intent)) ->
    bad_debt ctx (sys_protocol s) v intent = Ok b -> confirmed s (plan b) ->
    step s (plan b)
      (mkSys (mkProtocol (bdd_pot (expected b)) (bdd_reserve (expected b)) (bdd_issuer (expected b)))
         (delete (outpoint v) (sys_vaults s)))
| step_redeem v intent b :
    sys_vaults s !! outpoint v = Some v ->
    tick_signed pks (rd_tick intent) -> 0 <= Obol.raw (rd_x intent) ->
    amount (Obol.raw (ob_value (rd_redeemer intent))) -> 0 <= Sats.raw (rd_fee intent) ->
    ~ live s (ob_outpoint (rd_redeemer intent)) ->
    redeem ctx (sys_protocol s) v intent = Ok b -> confirmed s (plan b) ->
    step s (plan b)
      (mkSys (mkProtocol (rdd_pot (expected b)) (rdd_reserve (expected b)) (issuer (sys_protocol s)))
         (replace_vault v (rdd_vault (expected b)) (sys_vaults s))).

(** A chain of confirmed operations. *)
Inductive steps (s : Sys) : list TxPlan -> Sys -> Prop :=
| steps_nil : steps s [] s
| steps_cons pl s1 pls s' : step s pl s1 -> steps s1 pls s' -> steps s (pl :: pls) s'.

End Steps.

(** ** Lemmas: sums of debts *)

Lemma total_debt_insert k v vs :
  vs !! k = None -> total_debt (<[k := v]> vs) = Obol.raw (debt (state v)) + total_debt vs.
Proof. intros Hk. unfold total_debt. rewrite map_fold_insert_L; [done| |done]. intros; lia. Qed.

Lemma total_debt_delete k v vs :
  vs !! k = Some v -> total_debt vs = Obol.raw (debt (state v)) + total_debt (delete k vs).
Proof. intros Hk. unfold total_debt. rewrite (map_fold_delete_L _ _ k v); [done| |done]. intros; lia. Qed.

Lemma total_debt_nonneg vs :
  (forall k v, vs !! k = Some v -> 0 <= Obol.raw (debt (state v))) -> 0 <= total_debt vs.
Proof.
  induction vs as [|k v vs Hk IH] using map_ind; intros Hd; [done|].
  rewrite total_debt_insert by done. pose proof (Hd k v (lookup_insert_eq _ _ _)).
  assert (0 <= total_debt vs); [|lia]. apply IH. intros k' v' Hv. apply (Hd k' v').
  rewrite lookup_insert_ne; [done|]. by intros ->; rewrite Hk in Hv.
Qed.

Lemma total_debt_replace v v' vs :
  vs !! outpoint v = Some v -> vs !! outpoint v' = None ->
  total_debt (replace_vault v v' vs) =
    total_debt vs - Obol.raw (debt (state v)) + Obol.raw (debt (state v')).
Proof.
  intros Hv Hv'. unfold replace_vault. rewrite total_debt_insert by (by apply lookup_delete_None; right).
  rewrite (total_debt_delete _ _ _ Hv). lia.
Qed.

(** The guards a successful builder passed. *)
Ltac guards :=
  match goal with
  | Hb : poke _ _ _ = Ok _ |- _ => apply poke_ok_iff in Hb as ([? ?]%check_tick_ok & ? & ->)
  | Hb : open _ _ _ = Ok _ |- _ =>
      apply open_ok_iff in Hb as ([? ?]%check_tick_ok & ? & ? & ? & ? & ? & ? & ? & ->)
  | Hb : draw _ _ _ _ = Ok _ |- _ =>
      apply draw_ok_iff in Hb as ([? ?]%check_tick_ok & ?%check_ratchet_ok & ? & ? & ? & ? & ? & ? & ->)
  | Hb : repay _ _ _ _ = Ok _ |- _ => apply repay_ok_iff in Hb as (? & ? & ? & ->)
  | Hb : close _ _ _ _ = Ok _ |- _ => apply close_ok_iff in Hb as (? & ? & ->)
  | Hb : refresh _ _ _ = Ok _ |- _ =>
      apply refresh_ok_iff in Hb as (? & ?%check_ratchet_ok & ? & ? & ? & ->)
  | Hb : liquidate _ _ _ _ = Ok _ |- _ =>
      apply liquidate_ok_iff in Hb as
        (? & ?%check_ratchet_ok & ? & ? & ? & ? & ? & ? & ? & ? & ? & ? & ? & ? & ->)
  | Hb : full_liq _ _ _ _ = Ok _ |- _ =>
      apply full_liq_ok_iff in Hb as (? & ?%check_ratchet_ok & ? & ? & ? & ->)
  | Hb : bad_debt _ _ _ _ = Ok _ |- _ =>
      apply bad_debt_ok_iff in Hb as ([? ?]%check_tick_ok & ?%check_ratchet_ok & ? & ? & ? & ? & ->)
  | Hb : redeem _ _ _ _ = Ok _ |- _ =>
      apply redeem_ok_iff in Hb as (? & ?%check_ratchet_ok & ? & ? & ? & ? & ? & ? & ? & ->)
  end.

Section StepLemmas.
Context `{HLib : Lib} (ctx : Ctx).

Lemma fresh_vault s pl vout :
  confirmed s pl -> sys_vaults s !! mkOutPoint (plan_txid pl) vout = None.
Proof.
  intros Hc. destruct (sys_vaults s !! _) as [v|] eqn:E; [|done].
  destruct (cf_fresh _ _ Hc (mkOutPoint (plan_txid pl) vout)); [|done]. do 3 right. by eexists.
Qed.

Lemma vault_debt_le s v :
  sys_wf s -> sys_vaults s !! outpoint v = Some v ->
  0 <= Obol.raw (debt (state v)) <= total_debt (sys_vaults s).
Proof.
  intros Hs Hv. pose proof (vl_debt _ _ (sw_vaults s Hs _ _ Hv)) as Hd. split; [apply Hd|].
  rewrite (total_debt_delete _ _ _ Hv).
  assert (0 <= total_debt (delete (outpoint v) (sys_vaults s))); [|lia].
  apply total_debt_nonneg. intros k w [_ Hw]%lookup_delete_Some. apply (vl_debt _ _ (sw_vaults s Hs _ _ Hw)).
Qed.

Lemma debts_nonneg s : sys_wf s -> 0 <= total_debt (sys_vaults s).
Proof. intros Hs. apply total_debt_nonneg. intros k w Hw. apply (vl_debt _ _ (sw_vaults s Hs _ _ Hw)). Qed.

Lemma step_supply s pl s' : sys_wf s -> step ctx s pl s' -> supply s' = supply s.
Proof.
  intros Hs Hstep. pose proof (sw_supply s Hs) as HS. pose proof (debts_nonneg s Hs).
  pose proof (sw_protocol s Hs) as Hp. unfold supply in *.
  destruct Hstep;
    try match goal with Hv : sys_vaults _ !! outpoint ?v = Some ?v |- _ =>
      pose proof (vault_debt_le _ v Hs Hv) end;
    guards; cbn [sys_protocol sys_vaults].
  all: try (rewrite total_debt_insert by (by apply fresh_vault)).
  all: try (rewrite total_debt_replace by (done || by apply fresh_vault)).
  all: try match goal with Hv : sys_vaults _ !! outpoint ?v = Some ?v |- _ =>
      pose proof (total_debt_delete _ _ _ Hv) end.
  all: cbn -[total_debt u64_sat_add u64_sat_sub Z.add Z.sub];
    rewrite ?u64_wadd_id by amounts; amounts.
Qed.

(** Confirmed outputs stay in the money range. *)
Lemma money_at s pl i v spk asset :
  confirmed s pl -> output (p_tx pl) !! i = Some (txout v spk asset) -> v <= MAX_MONEY.
Proof. intros Hc Ho. eapply (cf_money _ _ Hc); [by eapply list_elem_of_lookup_2|done]. Qed.

Lemma money_sum s pl i x y spk asset :
  confirmed s pl -> output (p_tx pl) !! i = Some (txout (u64_sat_add x y) spk asset) ->
  x + y <= MAX_MONEY.
Proof. intros Hc Ho. pose proof (money_at _ _ _ _ _ _ Hc Ho). unfold MAX_MONEY in *. uint. Qed.

(** A coin of a confirmed transaction is none of the live ones. *)
Lemma fresh_ne s pl op vout : confirmed s pl -> live s op -> mkOutPoint (plan_txid pl) vout <> op.
Proof. intros Hc Hl <-. by apply (cf_fresh _ _ Hc _ Hl). Qed.

Lemma live_pot s : live s (outpoint (pot (sys_protocol s))).
Proof. by left. Qed.
Lemma live_reserve s : live s (outpoint (reserve (sys_protocol s))).
Proof. by right; left. Qed.
Lemma live_issuer s : live s (outpoint (issuer (sys_protocol s))).
Proof. by do 2 right; left. Qed.

Lemma tick_height_u32 pks t : tick_signed pks t -> u32 (BlockHeight.raw (OracleTick.height t)).
Proof. intros [[Hw _] _]. pose proof (wf_height _ Hw). unfold LOCK_TIME_HEIGHT_THRESHOLD in *. uint. Qed.

(** Fees and payouts at a signed price are no amounts below zero. *)
Lemma tick_prices pks t : tick_signed pks t ->
  0 <= Price.raw (OracleTick.lo t) /\ 0 <= Price.raw (OracleTick.hi t).
Proof. intros [[Hw _] _]. destruct (range_u32 t Hw) as (Hl & Hh & _). uint. Qed.

Lemma cents_nonneg d : 0 <= Obol.raw d -> 0 <= Obol.cents_or_max d.
Proof.
  intros Hd. unfold Obol.cents_or_max. destruct (Obol.covenant_cents d) eqn:E; [|done].
  apply covenant_cents_ok in E as [_ ->]. done.
Qed.

Ltac fees :=
  try match goal with Ht : tick_signed _ _ |- _ => destruct (tick_prices _ _ Ht) end;
  repeat match goal with
  | |- context [at_cr ?d ?p ?k] =>
      assert_fails (assert (0 <= at_cr d p k) by assumption);
      assert (0 <= at_cr d p k) by (apply at_cr_nonneg; [lia|done|by vm_compute])
  | |- context [coll_at_cr (Obol.cents_or_max ?d) ?p ?k] =>
      assert_fails (assert (0 <= Sats.raw (coll_at_cr (Obol.cents_or_max d) p k)) by assumption);
      assert (0 <= Sats.raw (coll_at_cr (Obol.cents_or_max d) p k))
        by (apply coll_at_cr_nonneg; [apply cents_nonneg; lia|done|by vm_compute])
  | |- context [bad_debt_reserve_pay (Obol.cents_or_max ?d) ?p ?c ?r] =>
      assert_fails (assert (0 <= Sats.raw (bad_debt_reserve_pay (Obol.cents_or_max d) p c r))
        by assumption);
      assert (0 <= Sats.raw (bad_debt_reserve_pay (Obol.cents_or_max d) p c r))
        by (eapply reserve_pay_bounds; [apply cents_nonneg; lia|done|amounts|amounts])
  end;
  repeat match goal with
  | |- context [?x / 3] => assert_fails (assert (0 <= x / 3) by assumption);
      assert (0 <= x / 3) by (apply Z.div_pos; uint)
  end.

(** The singletons after a step are in range. *)
Lemma step_protocol_wf s pl s' :
  sys_wf s -> step ctx s pl s' ->
  protocol_wf (sys_protocol s') /\ oc_value (issuer (sys_protocol s')) = 1.
Proof.
  intros Hs Hstep. pose proof (sw_supply s Hs) as HS. pose proof (debts_nonneg s Hs).
  pose proof (sw_protocol s Hs) as Hp. pose proof (sw_issuer s Hs). unfold supply in *.
  destruct Hstep;
    try match goal with Hv : sys_vaults _ !! outpoint ?v = Some ?v |- _ =>
      pose proof (vault_debt_le _ v Hs Hv) end;
    try match goal with Ht : tick_signed _ _ |- _ => pose proof (tick_height_u32 _ _ Ht) end;
    guards.
  all: try match goal with Hc : confirmed _ (plan (open_unchecked _ _ _ _)) |- _ =>
      pose proof (money_sum _ _ 3 _ _ _ _ Hc eq_refl); clear Hc end.
  all: try match goal with Hc : confirmed _ (plan (liquidate_unchecked _ _ _ _)) |- _ =>
      pose proof (money_sum _ _ 3 _ _ _ _ Hc eq_refl); clear Hc end.
  all: try match goal with Hc : confirmed _ (plan (full_liq_unchecked _ _ _ _)) |- _ =>
      pose proof (money_sum _ _ 3 _ _ _ _ Hc eq_refl); clear Hc end.
  all: try match goal with Hc : confirmed _ (plan (redeem_unchecked _ _ _ _)) |- _ =>
      pose proof (money_sum _ _ 3 _ _ _ _ Hc eq_refl); clear Hc end.
  all: split; [|done].
  all: unfold protocol_wf in *; destruct_and?; split_and!; try done.
  all: cbn -[u64_sat_add u64_sat_sub u64_wadd Z.add Z.sub Z.div]; rewrite ?u64_wadd_id by amounts.
  all: try match goal with Hv : sys_vaults _ !! _ = Some _ |- _ =>
      pose proof (vl_wf _ _ (sw_vaults _ Hs _ _ Hv)) end.
  all: try amounts; fees; amounts.
Qed.

(** The vaults after a step are live ones. *)
Lemma lookup_replace v v' vs op x :
  replace_vault v v' vs !! op = Some x ->
  (op = outpoint v' /\ x = v') \/ (op <> outpoint v /\ vs !! op = Some x).
Proof.
  unfold replace_vault. intros [[<- <-] | [? [? ?]%lookup_delete_Some]]%lookup_insert_Some; [by left|].
  right. split; [congruence|done].
Qed.

Lemma step_vaults s pl s' :
  sys_wf s -> step ctx s pl s' ->
  forall op v, sys_vaults s' !! op = Some v -> vault_live op v.
Proof.
  intros Hs Hstep. pose proof (sw_vaults s Hs) as HV.
  destruct Hstep;
    try match goal with Hv : sys_vaults _ !! outpoint ?v = Some ?v |- _ =>
      pose proof (vl_wf _ _ (HV _ _ Hv)); pose proof (vl_debt _ _ (HV _ _ Hv)) end;
    try match goal with Ht : tick_signed _ _ |- _ => pose proof (tick_height_u32 _ _ Ht) end;
    guards; cbn [sys_vaults]; intros op' x Hx;
    try (apply lookup_replace in Hx as [[-> ->] | [_ Hx]]);
    try (apply lookup_insert_Some in Hx as [[<- <-] | [_ Hx]]);
    try (apply lookup_delete_Some in Hx as [_ Hx]); try (by apply HV).
  all: unfold vault_on_wf, vault_wf in *; destruct_and?.
  all: match goal with Hc : confirmed _ _ |- _ => pose proof (money_at _ _ 0 _ _ _ Hc eq_refl) end.
  all: split; [done|split; [split_and!|]|]; cbn -[u64_sat_add u64_sat_sub Z.add Z.sub]; try done.
  all: amounts.
Qed.

Lemma NoDup3 {A} (x y z : A) : NoDup [x; y; z] <-> x <> y /\ x <> z /\ y <> z.
Proof.
  rewrite !NoDup_cons, !not_elem_of_cons. split; [naive_solver|]. intros (? & ? & ?).
  split_and!; try done; try apply not_elem_of_nil; apply NoDup_nil_2.
Qed.

Lemma step_distinct s pl s' :
  sys_wf s -> step ctx s pl s' ->
  NoDup [outpoint (pot (sys_protocol s')); outpoint (reserve (sys_protocol s'));
         outpoint (issuer (sys_protocol s'))].
Proof.
  intros Hs Hstep. pose proof (proj1 (NoDup3 _ _ _) (sw_distinct s Hs)) as (? & ? & ?).
  pose proof (live_pot s). pose proof (live_reserve s). pose proof (live_issuer s).
  apply NoDup3. destruct Hstep; guards; cbn [sys_protocol pot reserve issuer]; split_and!; try done.
  all: try (by apply (fresh_ne s); done).
  all: try (apply not_eq_sym; by apply (fresh_ne s)).
Qed.

Lemma step_not_vault s pl s' :
  sys_wf s -> step ctx s pl s' ->
  sys_vaults s' !! outpoint (pot (sys_protocol s')) = None /\
  sys_vaults s' !! outpoint (reserve (sys_protocol s')) = None /\
  sys_vaults s' !! outpoint (issuer (sys_protocol s')) = None.
Proof.
  intros Hs Hstep. pose proof (sw_pot_vault s Hs). pose proof (sw_reserve_vault s Hs).
  pose proof (sw_issuer_vault s Hs).
  pose proof (live_pot s). pose proof (live_reserve s). pose proof (live_issuer s).
  destruct Hstep; guards; cbn [sys_protocol sys_vaults pot reserve issuer]; unfold replace_vault;
    rewrite ?lookup_insert_None, ?lookup_delete_None; split_and!; try done;
    try (by right); try (right; by apply (fresh_vault s)); try (by apply (fresh_vault s));
    by apply (fresh_ne s).
Qed.

Lemma step_wf s pl s' : sys_wf s -> step ctx s pl s' -> sys_wf s'.
Proof.
  intros Hs Hstep. destruct (step_protocol_wf s pl s' Hs Hstep) as [Hp Hi].
  destruct (step_not_vault s pl s' Hs Hstep) as (? & ? & ?).
  pose proof (step_supply s pl s' Hs Hstep). pose proof (sw_supply s Hs).
  split; try done; [by apply (step_vaults s pl)|lia|by apply (step_distinct s pl)].
Qed.

End StepLemmas.

(** ** Theorems *)

Section StepTheorems.
Context `{HLib : Lib} (ctx : Ctx).

Lemma steps_wf s pls s' : steps ctx s pls s' -> sys_wf s -> sys_wf s' /\ supply s' = supply s.
Proof.
  intros Hsteps. induction Hsteps as [s|s pl s1 pls s' Hstep _ IH]; intros Hs; [done|].
  pose proof (step_supply ctx s pl s1 Hs Hstep). destruct (IH (step_wf ctx _ _ _ Hs Hstep)) as [? ?].
  split; [done|congruence].
Qed.

(** C2: Along any chain of confirmed operations the OBOL in the pot and the debt of all vaults
    sum to a constant: nothing is minted without debt and no debt disappears unpaid.
    Amounts, addresses and the singletons stay well formed. *)
Theorem supply_conserved (s : Sys) (pls : list TxPlan) (s' : Sys) :
  sys_wf s -> steps ctx s pls s' -> sys_wf s' /\ supply s' = supply s.
Proof. intros Hs Hsteps. by eapply steps_wf. Qed.

(** Freshness only moves forward and vaults keep their owner: an operation never lowers the
    mint anchor, and each vault it leaves behind is either untouched, or newly opened at the
    new anchor, or continues a vault of the same owner at no lower freshness height. *)
Theorem step_ratchets (s : Sys) (pl : TxPlan) (s' : Sys) :
  sys_wf s -> step ctx s pl s' ->
  BlockHeight.raw (last_mint_height (state (issuer (sys_protocol s)))) <=
    BlockHeight.raw (last_mint_height (state (issuer (sys_protocol s')))) /\
  forall op v', sys_vaults s' !! op = Some v' ->
    sys_vaults s !! op = Some v' \/
    last_height (state v') = last_mint_height (state (issuer (sys_protocol s'))) \/
    exists v, sys_vaults s !! outpoint v = Some v /\ owner (state v') = owner (state v) /\
      BlockHeight.raw (last_height (state v)) <= BlockHeight.raw (last_height (state v')).
Proof.
  intros Hs Hstep. destruct Hstep; guards; cbn [sys_protocol sys_vaults]; (split; [done|]);
    intros op' x Hx;
    try (apply lookup_replace in Hx as [[-> ->] | [_ Hx]]);
    try (apply lookup_insert_Some in Hx as [[<- <-] | [_ Hx]]);
    try (apply lookup_delete_Some in Hx as [_ Hx]); try (by left).
  all: right; first [by left | right; exists v; split_and!; try done; cbn; lia].
Qed.

(** What is left of a vault's coin after an operation: collateral and debt of the coin at
    output 0, none when the vault was closed. *)
Definition left_of (s' : Sys) (pl : TxPlan) : Z * Z :=
  match sys_vaults s' !! mkOutPoint (plan_txid pl) 0 with
  | Some v => (Sats.raw (oc_value v), Obol.raw (debt (state v)))
  | None => (0, 0)
  end.

Lemma left_of_replace s pr v v' pl :
  outpoint v' = mkOutPoint (plan_txid pl) 0 ->
  left_of (mkSys pr (replace_vault v v' (sys_vaults s))) pl =
    (Sats.raw (oc_value v'), Obol.raw (debt (state v'))).
Proof. intros Ho. unfold left_of, replace_vault. cbn. by rewrite <- Ho, lookup_insert_eq. Qed.

Lemma left_of_delete s pr (v : OnChain VaultState) pl :
  confirmed s pl -> left_of (mkSys pr (delete (outpoint v) (sys_vaults s))) pl = (0, 0).
Proof.
  intros Hc. unfold left_of. cbn.
  by rewrite (proj2 (lookup_delete_None _ _ _) (or_intror (fresh_vault s pl 0 Hc))).
Qed.

Lemma ratio_min_le k1 k2 : RatioK.raw (RatioK.min k1 k2) <= RatioK.raw k2.
Proof. unfold RatioK.min. destruct (Z.ltb_spec (RatioK.raw k2) (RatioK.raw k1)); lia. Qed.

Lemma at_cr_mono_k d p k1 k2 :
  0 <= d -> 0 <= Price.raw p -> RatioK.raw k1 <= RatioK.raw k2 -> at_cr d p k1 <= at_cr d p k2.
Proof. apply coll_at_cr_mono_k. Qed.

(** The vault an operation consumed is the one it named. *)
Lemma spent_vault s v w vs' :
  sys_vaults s !! outpoint v = Some v -> sys_vaults s !! outpoint w = Some w ->
  vs' = delete (outpoint w) (sys_vaults s) \/ (exists w', vs' = replace_vault w w' (sys_vaults s)) ->
  vs' !! outpoint v = None -> w = v.
Proof.
  intros Hv Hw Hs Hn. assert (Ho : outpoint v = outpoint w); [|congruence].
  destruct Hs as [-> | [w' ->]].
  - apply lookup_delete_None in Hn as [? | ?]; congruence.
  - unfold replace_vault in Hn. apply lookup_insert_None in Hn as [Hn _].
    apply lookup_delete_None in Hn as [? | ?]; congruence.
Qed.

(** C3: Without the owner's signature, a vault loses at most 115% of the debt it is relieved
    of, valued at the highest price of a signed tick. *)
Theorem permissionless_take_bounded (s : Sys) (pl : TxPlan) (s' : Sys) (v : OnChain VaultState) :
  sys_wf s -> step ctx s pl s' -> find_owner (p_slots pl) = None ->
  sys_vaults s !! outpoint v = Some v -> sys_vaults s' !! outpoint v = None ->
  exists t, tick_signed (oracle_pks (ctx_params ctx)) t /\
    let '(coll', debt') := left_of s' pl in
    Sats.raw (oc_value v) - coll' <=
      at_cr (Obol.raw (debt (state v)) - debt') (OracleTick.hi t) K_FULL_LIQ_CAP.
Proof.
  intros Hs Hstep Hf Hv Hv'. pose proof (sw_vaults s Hs _ _ Hv) as HV.
  pose proof (vl_wf _ _ HV) as Hwf. pose proof (vl_debt _ _ HV) as Hd.
  destruct Hstep; guards; try (by cbn in Hf); cbn [sys_vaults] in Hv'.
  all: try congruence.
  all: try (by apply lookup_insert_None in Hv' as [? _]; congruence).
  all: match goal with
    | Hv : sys_vaults _ !! outpoint ?v = Some ?v, Hw : sys_vaults _ !! outpoint ?w = Some ?w,
      Hn : _ !! outpoint ?v = None |- _ =>
        assert (w = v) as -> by (eapply spent_vault; [exact Hv|exact Hw| |exact Hn]; eauto) end.
  all: match goal with Ht : tick_signed _ ?t |- _ => exists t; split; [done|] end.
  all: first [rewrite left_of_replace by done | rewrite left_of_delete by done].
  all: match goal with Ht : tick_signed _ _ |- _ => destruct (tick_prices _ _ Ht) end.
  all: cbn [oc_value state debt Obol.raw Sats.raw expected refresh_unchecked liquidate_unchecked
    redeem_unchecked rfd_vault ld_vault rdd_vault].
  - rewrite !Z.sub_diag. by apply at_cr_nonneg.
  - by replace (_ - u64_sat_sub _ _) with (Obol.raw (lq_dd intent)) by amounts.
  - rewrite !Z.sub_0_r. lia.
  - rewrite !Z.sub_0_r. pose proof (at_cr_mono_k (Obol.raw (debt (state v)))
      (OracleTick.hi (bd_tick intent)) K_PAR K_FULL_LIQ_CAP
      ltac:(amounts) ltac:(done) ltac:(by vm_compute)). amounts.
  - replace (_ - u64_sat_sub (Obol.raw _) _) with (Obol.raw (rd_x intent)) by amounts.
    rewrite cents_exact by done.
    pose proof (at_cr_mono_k (Obol.raw (rd_x intent)) (OracleTick.hi (rd_tick intent))
      (RatioK.min (OracleTick.backing_k (rd_tick intent)) K_PAR) K_FULL_LIQ_CAP ltac:(amounts)
      ltac:(done) ltac:(etransitivity; [apply ratio_min_le|by vm_compute])). amounts.
Qed.

End StepTheorems.
