(* ===== verification/Effects.v ===== *)
(** * Effectful computations

    A computation over a mutable world that can fail: Rust's [&mut self] methods returning
    [Result].  An error keeps the changes made before it, so the world is returned beside
    the result, not inside it. *)

From Stdlib Require Import ZArith Lia.
From stdpp Require Import base list.
From S2P Require Import Prelude.

Definition Eff (S E A : Type) : Type := S -> result E A * S.

#[export] Instance eff_ret S E : MRet (Eff S E) := fun A a s => (Ok a, s).
#[export] Instance eff_bind S E : MBind (Eff S E) := fun A B f m s =>
  match m s with
  | (Ok a, s') => f a s'
  | (Err e, s') => (Err e, s')
  end.
#[export] Instance eff_fmap S E : FMap (Eff S E) := fun A B f m s =>
  match m s with
  | (Ok a, s') => (Ok (f a), s')
  | (Err e, s') => (Err e, s')
  end.

Section Operations.
Context {S E : Type}.

Definition throw {A} (e : E) : Eff S E A := fun s => (Err e, s).
(** A pure fallible call: [expr?]. *)
Definition lift {A} (r : result E A) : Eff S E A := fun s => (r, s).
Definition gets {A} (f : S -> A) : Eff S E A := fun s => (Ok (f s), s).
Definition update (f : S -> S) : Eff S E unit := fun s => (Ok tt, f s).
(** The result as a value: [match expr { Ok(..) => .., Err(..) => .. }]. *)
Definition try {F A} (m : Eff S F A) : Eff S E (result F A) :=
  fun s => let '(r, s') := m s in (Ok r, s').

End Operations.

(** The [From] conversion of [?] to a wider error type. *)
Definition map_error {S E F A} (f : E -> F) (m : Eff S E A) : Eff S F A :=
  fun s => let '(r, s') := m s in (map_err f r, s').

(** A computation on a part of the world. *)
Definition zoom {S T E A} (view : T -> S) (put : S -> T -> T) (m : Eff S E A) : Eff T E A :=
  fun t => let '(r, s') := m (view t) in (r, put s' t).

(** ** Lemmas *)

Lemma eff_bind_ok {S E A B} (m : Eff S E A) (f : A -> Eff S E B) s b s' :
  (m ≫= f) s = (Ok b, s') <-> exists a s1, m s = (Ok a, s1) /\ f a s1 = (Ok b, s').
Proof.
  unfold mbind, eff_bind. destruct (m s) as [[a|e] s1]; split.
  - intros H. by exists a, s1.
  - by intros (a' & s1' & [= <- <-] & H).
  - done.
  - by intros (? & ? & ? & _).
Qed.

Lemma eff_bind_err {S E A B} (m : Eff S E A) (f : A -> Eff S E B) s e s' :
  (m ≫= f) s = (Err e, s') <->
  m s = (Err e, s') \/ exists a s1, m s = (Ok a, s1) /\ f a s1 = (Err e, s').
Proof.
  unfold mbind, eff_bind. destruct (m s) as [[a|e'] s1]; split.
  - intros H. right. by exists a, s1.
  - by intros [?|(a' & s1' & [= <- <-] & H)].
  - intros [= <- <-]. by left.
  - by intros [[= <- <-]|(? & ? & ? & _)].
Qed.

Lemma eff_bind_inv {S E A B} (m : Eff S E A) (f : A -> Eff S E B) s r s' :
  (m ≫= f) s = (r, s') ->
  (exists a s1, m s = (Ok a, s1) /\ f a s1 = (r, s')) \/ (exists e, m s = (Err e, s') /\ r = Err e).
Proof.
  unfold mbind, eff_bind. destruct (m s) as [[a|e] s1].
  - intros H. left. by exists a, s1.
  - intros [= <- <-]. right. by exists e.
Qed.

(** A bind whose first computation is known. *)
Lemma eff_bind_run {S E A B} (m : Eff S E A) (f : A -> Eff S E B) s r s1 :
  m s = (r, s1) -> (m ≫= f) s = match r with Ok a => f a s1 | Err e => (Err e, s1) end.
Proof. intros Hm. unfold mbind, eff_bind. rewrite Hm. by destruct r. Qed.

Lemma lift_inv {S E A} (r : result E A) (s : S) x s' : lift r s = (x, s') <-> r = x /\ s' = s.
Proof. unfold lift. split; [by intros [= -> ->]|by intros [-> ->]]. Qed.

Lemma map_error_ok {S E F A} (f : E -> F) (m : Eff S E A) s a s' :
  map_error f m s = (Ok a, s') <-> m s = (Ok a, s').
Proof. unfold map_error. destruct (m s) as [[b|e] s1]; cbn; split; congruence. Qed.

(** [eff_peel H] walks a run that succeeds, one bind at a time: the calls become hypotheses. *)
Ltac eff_peel_step H :=
  let x := fresh "x" in let s := fresh "s" in let Hx := fresh "Hx" in
  apply eff_bind_ok in H as (x & s & Hx & H); try apply map_error_ok in Hx;
  try (apply lift_inv in Hx as [Hx ->]).
Ltac eff_peel H := repeat (eff_peel_step H; cbv zeta beta in H).

(** ** Triples

    [triple m Φ]: from a world in [I], every run of [m] moves the world along [R], whatever
    it returns, and a value it returns satisfies [Φ]. *)

Section Triples.
Context {S : Type} (I : S -> Prop) (R : S -> S -> Prop).

Definition triple {E A} (m : Eff S E A) (Φ : A -> Prop) : Prop :=
  forall s, I s -> R s (m s).2 /\ forall a, (m s).1 = Ok a -> Φ a.

Context `{!PreOrder R} (HI : forall s s', I s -> R s s' -> I s').

Lemma triple_ret {E A} (a : A) (Φ : A -> Prop) : Φ a -> triple (mret a : Eff S E A) Φ.
Proof. intros Ha s _. split; [reflexivity|]. by intros ? [= <-]. Qed.
Lemma triple_throw {E A} (e : E) (Φ : A -> Prop) : triple (throw e : Eff S E A) Φ.
Proof. intros s _. split; [reflexivity|done]. Qed.
Lemma triple_lift {E A} (r : result E A) (Φ : A -> Prop) :
  (forall a, r = Ok a -> Φ a) -> triple (lift r : Eff S E A) Φ.
Proof. intros Hr s _. split; [reflexivity|exact Hr]. Qed.
Lemma triple_gets {E A} (f : S -> A) (Φ : A -> Prop) :
  (forall s, I s -> Φ (f s)) -> triple (gets f : Eff S E A) Φ.
Proof. intros Hf s Hs. split; [reflexivity|]. intros a [= <-]. by apply Hf. Qed.
Lemma triple_update {E} (f : S -> S) (Φ : unit -> Prop) :
  (forall s, I s -> R s (f s)) -> Φ tt -> triple (update f : Eff S E unit) Φ.
Proof. intros Hf Ht s Hs. split; [by apply Hf|]. by intros [] _. Qed.
Lemma triple_conseq {E A} (m : Eff S E A) (Φ Ψ : A -> Prop) :
  triple m Φ -> (forall a, Φ a -> Ψ a) -> triple m Ψ.
Proof. intros Hm HΦ s Hs. destruct (Hm s Hs) as [? Ha]. split; [done|]. eauto. Qed.
Lemma triple_any {E A} (m : Eff S E A) (Φ : A -> Prop) : triple m Φ -> triple m (fun _ => True).
Proof. intros Hm. by eapply triple_conseq. Qed.
Lemma triple_bind {E A B} (m : Eff S E A) (f : A -> Eff S E B) (Φ : A -> Prop) (Ψ : B -> Prop) :
  triple m Φ -> (forall a, Φ a -> triple (f a) Ψ) -> triple (m ≫= f) Ψ.
Proof.
  intros Hm Hf s Hs. destruct (Hm s Hs) as [Hr Ha]. unfold mbind, eff_bind.
  destruct (m s) as [[a|e] s1]; cbn in *; [|by split].
  destruct (Hf a (Ha a eq_refl) s1 (HI s s1 Hs Hr)) as [Hr1 Hb]. split; [by etrans|done].
Qed.
Lemma triple_fmap {E A B} (f : A -> B) (m : Eff S E A) (Φ : B -> Prop) :
  triple m (fun a => Φ (f a)) -> triple (f <$> m) Φ.
Proof.
  intros Hm s Hs. destruct (Hm s Hs) as [Hr Ha]. unfold fmap, eff_fmap.
  destruct (m s) as [[a|e] s1]; (split; [done|]); [|done]. intros b [= <-]. by apply Ha.
Qed.
Lemma triple_try {E F A} (m : Eff S F A) (Φ : A -> Prop) :
  triple m Φ -> triple (try m : Eff S E _) (fun r => forall a, r = Ok a -> Φ a).
Proof.
  intros Hm s Hs. destruct (Hm s Hs) as [Hr Ha]. unfold try. destruct (m s) as [r s1].
  split; [done|]. intros x [= <-]. exact Ha.
Qed.
Lemma triple_map_error {E F A} (f : E -> F) (m : Eff S E A) (Φ : A -> Prop) :
  triple m Φ -> triple (map_error f m) Φ.
Proof.
  intros Hm s Hs. destruct (Hm s Hs) as [Hr Ha]. unfold map_error. destruct (m s) as [[a|e] s1];
    (split; [done|]); [|done].
  intros b [= <-]. by apply Ha.
Qed.
End Triples.

(** A part of the world, when the whole moves along with it. *)
Lemma triple_zoom {S T E A} (view : T -> S) (put : S -> T -> T) (I : S -> Prop) (R : S -> S -> Prop)
    (IT : T -> Prop) (RT : T -> T -> Prop) (m : Eff S E A) (Φ : A -> Prop) :
  triple I R m Φ -> (forall t, IT t -> I (view t)) ->
  (forall t s, IT t -> R (view t) s -> RT t (put s t)) ->
  triple IT RT (zoom view put m) Φ.
Proof.
  intros Hm HI HR t Ht. destruct (Hm (view t) (HI t Ht)) as [Hr Ha]. unfold zoom.
  destruct (m (view t)) as [r s]. split; [by apply HR|exact Ha].
Qed.
