(* ===== verification/Node.v ===== *)
(** * The node connection ([styx-node/src/client.rs], [scan.rs], [lib.rs])

    The node itself is outside the repository: [Rpc] is its interface, a state [N] and one
    reply per call, decoded (the JSON of a reply is serde's; its BTC amounts are floats).
    Modelled here is what the client makes of the replies: the broadcast verdicts, the
    asset-filtered scans and the single-UTXO protocol scan. *)

From Stdlib Require Import ZArith Lia.
From stdpp Require Import base gmap strings option list.
From S2P Require Import Prelude Units Elements Floats Simf Domain Artifacts Effects.
From S2P Require Import Jets CovVault CovReserve CovIssuer Plan.

(** ** Errors ([lib.rs]) *)

Inductive NodeError : Type :=
| RpcFailed (method message : string)
| Shape (context : string)
| Funding (what : string).

Inductive BroadcastError : Type :=
| Conflict (message : string)
| Rejected (message : string)
| BroadcastNode (e : NodeError).

Inductive ScanError : Type :=
| PotFragmented (count : nat)
| ReserveFragmented (count : nat)
| Missing (role : string)
| ScanNode (e : NodeError).

(** The standard transaction fee. *)
Definition FEE : Sats.t := Sats.new 10000.

(** ** The node *)

Record Block : Type := mkBlock { prev_blockhash : BlockHash; txdata : list Transaction }.

(** One entry of [scantxoutset]'s [unspents]; a field is absent when the reply's does not
    decode. *)
Record Unspent : Type := mkUnspent {
  un_asset : option AssetId;
  un_txid : option Txid;
  un_vout : option Z;
  un_amount : option f64
}.

Class Rpc (N : Type) : Type := {
  getblockcount : N -> result NodeError Z * N;
  getblockhash : Z -> N -> result NodeError BlockHash * N;
  getblock : BlockHash -> N -> result NodeError Block * N;
  sendrawtransaction : Transaction -> N -> result NodeError Txid * N;
  scantxoutset : Script -> N -> result NodeError (list Unspent) * N;
  (** [getnetworkinfo]'s relay fee in BTC/kvB, if it decodes *)
  relayfee : N -> result NodeError (option f64) * N
}.

(** ** Broadcast *)

Definition contains (needle s : string) : bool :=
  match String.index 0 needle s with Some _ => true | None => false end.

Inductive BroadcastVerdict : Type := VConflict | VAlreadyKnown | VRejected.

Definition classify_broadcast (message : string) : BroadcastVerdict :=
  if contains "missingorspent" message || contains "txn-mempool-conflict" message ||
     contains "insufficient fee, rejecting replacement" message || contains "conflict" message
  then VConflict
  else if contains "already in block chain" message || contains "already known" message ||
          contains "already-known" message || contains "txn-already-in-mempool" message
  then VAlreadyKnown else VRejected.

Section Client.
Context `{Lib} {N : Type} `{Rpc N}.

Abbreviation NodeM := (Eff N) (only parsing).

Definition height : NodeM NodeError Z := getblockcount.
Definition block_hash (h : Z) : NodeM NodeError BlockHash := getblockhash h.
Definition block (hash : BlockHash) : NodeM NodeError Block := getblock hash.

Definition relay_feerate_sat_per_kvb : Eff N NodeError (option Z) :=
  fun n => match relayfee n with
           | (Ok r, n') => (Ok (sats_of_btc <$> r), n')
           | (Err _, n') => (Ok None, n')
           end.

Definition send (tx : Transaction) : NodeM BroadcastError Txid := fun n =>
  match sendrawtransaction tx n with
  | (Ok txid, n') => (Ok txid, n')
  | (Err (RpcFailed _ message), n') =>
      (match classify_broadcast message with
       | VConflict => Err (Conflict message)
       | VAlreadyKnown => Ok (txid_of tx)
       | VRejected => Err (Rejected message)
       end, n')
  | (Err e, n') => (Err (BroadcastNode e), n')
  end.

(** ** Scans ([scan.rs]) *)

Definition busy (r : result NodeError (list Unspent)) : bool :=
  match r with
  | Err (RpcFailed _ message) => contains "Scan already in progress" message
  | _ => false
  end.

(** The bounded wait for a scan that another client holds: at most [n] further calls. *)
Fixpoint scan_retry (n : nat) (spk : Script) (r : result NodeError (list Unspent))
    : NodeM NodeError (list Unspent) := fun s =>
  match n with
  | O => (r, s)
  | S n => if busy r then let '(r', s') := scantxoutset spk s in scan_retry n spk r' s' else (r, s)
  end.

(** The unspents of the asset, in reply order. *)
Fixpoint of_asset (asset : AssetId) (unspents : list Unspent)
    : result NodeError (list (OutPoint * Z)) :=
  match unspents with
  | [] => Ok []
  | u :: unspents =>
      a ← ok_or (Shape "scantxoutset asset") (un_asset u);
      if bool_decide (a <> asset) then of_asset asset unspents else
      txid ← ok_or (Shape "scantxoutset txid") (un_txid u);
      vout ← ok_or (Shape "scantxoutset vout") (un_vout u);
      amount ← ok_or (Shape "scantxoutset amount") (un_amount u);
      rest ← of_asset asset unspents;
      Ok ((mkOutPoint txid (vout mod 4294967296), sats_of_btc amount) :: rest)
  end.

Definition scan_spk (spk : Script) (asset : AssetId) : NodeM ScanError (list (OutPoint * Z)) :=
  map_error ScanNode (fun s =>
    let '(r, s1) := scantxoutset spk s in
    let '(r, s2) := scan_retry 40 spk r s1 in
    (unspents ← r; of_asset asset unspents, s2)).

Definition scan_protocol (ctx : Ctx) (expected_issuer : IssuerState) : NodeM ScanError ProtocolState :=
  let a := ctx_artifacts ctx in
  let p := ctx_params ctx in
  pots ← scan_spk (pot_spk a) (obol p);
  if (1 <? length pots)%nat then throw (PotFragmented (length pots)) else
  '(pot_op, pot_val) ← lift (ok_or (Missing "pot") (head pots));
  reserves ← scan_spk (stability_spk a) (policy p);
  if (1 <? length reserves)%nat then throw (ReserveFragmented (length reserves)) else
  '(reserve_op, reserve_val) ← lift (ok_or (Missing "reserve") (head reserves));
  issuers ← scan_spk (issuer_spk a expected_issuer) (issuer_token p);
  '(issuer_op, _) ← lift (ok_or (Missing "issuer") (head issuers));
  mret (mkProtocol (mkOn thePot pot_op (Obol.new pot_val))
          (mkOn theReserve reserve_op (Sats.new reserve_val))
          (mkOn expected_issuer issuer_op 1)).

(** [find_issuer] over the inclusive range of [n] heights from [h]. *)
Fixpoint find_issuer (ctx : Ctx) (h : Z) (n : nat) : NodeM ScanError (OnChain IssuerState) :=
  match n with
  | O => throw (Missing "issuer")
  | S n =>
      let state := mkIssuer (BlockHeight.new h) in
      coins ← scan_spk (issuer_spk (ctx_artifacts ctx) state) (issuer_token (ctx_params ctx));
      match head coins with
      | Some (outpoint, _) => mret (mkOn state outpoint 1)
      | None => find_issuer ctx (h + 1) n
      end
  end.

End Client.
