(* ===== verification/Funding.v ===== *)
(** * Funding from the node's own wallet ([styx-node/src/client.rs])

    The setup half of the client: fresh addresses, coins of the node's wallet, payments, the
    wait for a confirmation.  The node's wallet is [WalletRpc]: one decoded reply per call; a
    field is absent when the reply's does not decode.  Addresses, transaction encodings and
    the clock are outside too.  Durations are in nanoseconds. *)

From Stdlib Require Import ZArith Lia SpecFloat.
From stdpp Require Import base gmap strings option list.
From S2P Require Import Prelude Hex Units Elements Floats Simf Domain Artifacts Effects.
From S2P Require Import Jets CovVault CovReserve CovIssuer Plan Node.

Definition FEE_RPC : Z := 100000.
Definition PREVOUT : Z := 100000.

(** ** What the client calls *)

(** [elements::Address]. *)
Class Addresses (A : Type) : Type := {
  parse_address : bytes -> option A;
  show_address : A -> bytes;
  script_pubkey : A -> Script;
  from_script : Script -> AddressParams -> option A
}.

(** [encode::serialize] and [encode::deserialize], and the hex of [elements::hex]. *)
Class TxCodec : Type := {
  serialize_tx : Transaction -> bytes;
  deserialize_tx : bytes -> option Transaction;
  unhex : bytes -> option bytes
}.

(** One entry of [rawissueasset]'s second argument. *)
Record IssueDetail : Type := mkIssue {
  is_amount : f64;
  is_address : bytes;
  is_blind : bool;
  is_contract_hash : bytes
}.

(** [J]: a JSON value; [text_value] makes one of a string. *)
Class WalletRpc (N J : Type) : Type := {
  text_value : bytes -> J;
  getnewaddress : N -> result NodeError (option bytes) * N;
  generatetoaddress : Z -> bytes -> N -> result NodeError unit * N;
  getblockchaininfo_chain : N -> result NodeError (option string) * N;
  (** [None]: the reply is not an array *)
  listunspent : N -> result NodeError (option (list Unspent)) * N;
  gettransaction_hex : Txid -> N -> result NodeError (option bytes) * N;
  signrawtransaction_hex : J -> N -> result NodeError (option bytes) * N;
  (** without the mempool; whether the reply is null *)
  gettxout_null : OutPoint -> N -> result NodeError bool * N;
  createrawtransaction : list OutPoint -> list (bytes * f64) -> N -> result NodeError J * N;
  (** the [hex] of each entry of the reply, if that is an array *)
  rawissueasset : J -> list IssueDetail -> N -> result NodeError (option (list (option bytes))) * N
}.

(** [Instant::now] and [thread::sleep]. *)
Class Clock (N : Type) : Type := {
  instant : N -> Z;
  sleep : Z -> N -> N
}.

(** [checked_sub]: the change of a coin worth [have]. *)
Definition change_after (have spend : Z) (what : string) : result NodeError Z :=
  ok_or (Funding what) (u64_checked_sub have spend).

Inductive Confirm : Type := SelfMine | Await (timeout : Z).
Definition await_default : Confirm := Await 300000000000.

Definition op_true : Script := [byte_of_Z 0x51].

(** [Display] of the two errors. *)
Definition node_text (e : NodeError) : string :=
  match e with
  | RpcFailed method message => "rpc " ++ method ++ ": " ++ message
  | Shape context => "unexpected rpc shape in " ++ context
  | Funding what => "wallet funding: " ++ what
  end.
Definition broadcast_text (e : BroadcastError) : string :=
  match e with
  | Conflict message => "input conflict: " ++ message
  | Rejected message => "rejected: " ++ message
  | BroadcastNode e => node_text e
  end.

(** The amounts of [createrawtransaction]: one object per pair. *)
Definition out_array (pairs : list (bytes * Z)) : list (bytes * f64) :=
  (fun p => (p.1, btc_of_sats p.2)) <$> pairs.

(** [Iterator::sum] of [u64] values wraps. *)
Definition u64_sum (l : list Z) : Z := foldl u64_wadd 0 l.

(** ** Coins *)

(** [a["amount"].as_f64().unwrap_or(0.0)]. *)
Definition amount_or_zero (u : Unspent) : f64 := default (S754_zero false) (un_amount u).

(** [partial_cmp], equal when it is undefined: anything but [Greater]. *)
Definition amount_le (a b : Unspent) : bool :=
  match SFcompare (amount_or_zero a) (amount_or_zero b) with Some Gt => false | _ => true end.

(** An entry of the asset with all its fields, as [filter_map] keeps it. *)
Definition policy_coin (policy : AssetId) (u : Unspent) : option (OutPoint * Z) :=
  asset ← un_asset u;
  if bool_decide (asset <> policy) then None else
  txid ← un_txid u;
  vout ← un_vout u;
  amount ← un_amount u;
  Some (mkOutPoint txid (vout mod 4294967296), sats_of_btc amount).

(** Coins in order until their total covers [need]. *)
Fixpoint take_coins (need : Z) (what : string) (coins : list (OutPoint * Z)) (picked : list OutPoint)
    (total : Z) : result NodeError (list OutPoint * Z) :=
  match coins with
  | [] => Err (Funding what)
  | (op, sats) :: coins =>
      let picked := picked ++ [op] in
      let total := u64_wadd total sats in
      if need <=? total then Ok (picked, total) else take_coins need what coins picked total
  end.

(** The first output of [value] to [spk]. *)
Definition paying (spk : Script) (value : Z) (o : TxOut) : Prop :=
  to_value o = VExplicit value /\ to_spk o = spk.
#[export] Instance paying_dec spk value o : Decision (paying spk value o).
Proof. unfold paying. apply _. Defined.

Section Wallet.
Context `{Lib, TxCodec} {A N J : Type} `{Addresses A, Rpc N, !WalletRpc N J, Clock N}.

Abbreviation NodeM := (Eff N NodeError) (only parsing).

Definition genesis : NodeM BlockHash := block_hash 0.

Definition chain : NodeM string :=
  info ← getblockchaininfo_chain; lift (ok_or (Shape "getblockchaininfo chain") info).

Definition new_address : NodeM A :=
  s ← getnewaddress; lift (ok_or (Shape "getnewaddress") (parse_address (default [] s))).

Definition mine : NodeM unit := a ← new_address; generatetoaddress 1 (show_address a).

Definition send_and_mine (tx : Transaction) : Eff N BroadcastError Txid :=
  txid ← send tx; _ ← map_error BroadcastNode mine; mret txid.

(** ** Confirmations *)

Definition confirmed (op : OutPoint) : NodeM bool := null ← gettxout_null op; mret (negb null).

Definition unconfirmed : NodeError := RpcFailed "confirm_outpoint" "unconfirmed".

(** The polling loop; [fuel] further sleeps at most. *)
Fixpoint await_confirmed (fuel : nat) (op : OutPoint) (deadline : Z) : NodeM unit :=
  c ← confirmed op;
  if c : bool then mret tt else
  t ← gets instant;
  if deadline <=? t then throw unconfirmed else
  match fuel with
  | O => throw unconfirmed
  | S fuel => _ ← update (sleep 500000000); await_confirmed fuel op deadline
  end.

(** Sleeps that reach past any deadline. *)
Definition polls (timeout : Z) : nat := S (Z.to_nat (timeout / 500000000)).

Definition confirm_outpoint (op : OutPoint) (mode : Confirm) : NodeM unit :=
  match mode with
  | SelfMine =>
      _ ← mine;
      c ← confirmed op;
      if c : bool then mret tt else throw (Shape "confirm_outpoint: absent after self-mine")
  | Await timeout =>
      now ← gets instant;
      await_confirmed (polls timeout) op (now + timeout)
  end.

(** ** Transactions of the wallet *)

Definition get_tx (txid : Txid) : NodeM Transaction :=
  hex ← gettransaction_hex txid;
  hex ← lift (ok_or (Shape "gettransaction") hex);
  bytes ← lift (ok_or (Shape "gettransaction hex") (unhex hex));
  lift (ok_or (Shape "gettransaction tx") (deserialize_tx bytes)).

Definition find_out (txid : Txid) (spk : Script) (value : Z) : NodeM OutPoint :=
  tx ← get_tx txid;
  '(vout, _) ← lift (ok_or (Shape "find: output not present") (list_find (paying spk value) (output tx)));
  mret (mkOutPoint txid (Z.of_nat vout mod 4294967296)).

Definition biggest_coin : NodeM (OutPoint * Z * AssetId) :=
  u ← listunspent;
  list ← lift (ok_or (Shape "listunspent") u);
  c ← lift (ok_or (Shape "listunspent empty") (max_by amount_le list));
  txid ← lift (ok_or (Shape "listunspent txid") (un_txid c));
  asset ← lift (ok_or (Shape "listunspent asset") (un_asset c));
  mret (mkOutPoint txid (default 0 (un_vout c) mod 4294967296), sats_of_btc (amount_or_zero c), asset).

Definition policy_coins (policy : AssetId) : NodeM (list (OutPoint * Z)) :=
  u ← listunspent;
  list ← lift (ok_or (Shape "listunspent") u);
  mret (sort_by (fun a b => b.2 <=? a.2) (omap (policy_coin policy) list)).

Definition spendable (policy : AssetId) : NodeM Z :=
  coins ← policy_coins policy; mret (u64_sum coins.*2).

Definition select (policy : AssetId) (need : Z) (what : string) : NodeM (list OutPoint * Z) :=
  coins ← policy_coins policy; lift (take_coins need what coins [] 0).

(** ** Payments *)

Definition sign_and_send_hex (raw : J) : NodeM Txid :=
  hex ← signrawtransaction_hex raw;
  hex ← lift (ok_or (Shape "sign hex") hex);
  bytes ← lift (ok_or (Shape "sign hex") (unhex hex));
  tx ← lift (ok_or (Shape "sign tx") (deserialize_tx bytes));
  r ← try (send tx);
  match r with
  | Ok t => mret t
  | Err e => throw (RpcFailed "send" (broadcast_text e))
  end.

Definition sign_and_send (tx : Transaction) : NodeM Txid :=
  sign_and_send_hex (text_value (hex (serialize_tx tx))).

Definition setup_tx (inputs : list OutPoint) (outputs : list TxOut) : Transaction :=
  mkTx 2 LOCKTIME_ZERO (txin <$> inputs) outputs.

Definition pay (policy : AssetId) (outs : list (Script * Z)) (what : string) : NodeM Txid :=
  let spend := u64_wadd (u64_sum outs.*2) (Sats.raw FEE) in
  '(inputs, total) ← select policy spend what;
  let output := (fun o => txout o.2 o.1 policy) <$> outs in
  let change := u64_wsub total spend in
  output ← (if 0 <? change
            then a ← new_address; mret (output ++ [txout change (script_pubkey a) policy])
            else mret output : NodeM (list TxOut));
  sign_and_send (setup_tx inputs (output ++ [fee_out FEE policy])).

Definition split_two (policy : AssetId) : NodeM (OutPoint * Z * (OutPoint * Z)) :=
  a ← new_address;
  b ← new_address;
  txid ← pay policy [(script_pubkey a, PREVOUT); (script_pubkey b, PREVOUT)] "split_two";
  first ← find_out txid (script_pubkey a) PREVOUT;
  second ← find_out txid (script_pubkey b) PREVOUT;
  mret ((first, PREVOUT), (second, PREVOUT)).

Definition fund_optrue (policy : AssetId) (values : list Z) : NodeM (list OutPoint) :=
  '(op, sats, _) ← biggest_coin;
  change ← lift (change_after sats (u64_wadd (u64_sum values) (Sats.raw FEE)) "fund_optrue");
  a ← new_address;
  let output := ((fun v => txout v op_true policy) <$> values) ++
    [txout change (script_pubkey a) policy; fee_out FEE policy] in
  txid ← sign_and_send (setup_tx [op] output);
  mret ((fun i => mkOutPoint txid (Z.of_nat i mod 4294967296)) <$> seq 0 (length values)).

(** At most [n] payments, half a second after each that finds no coins. *)
Fixpoint fund_retry (n : nat) (policy : AssetId) (spk : Script) (value : Z) (last : option NodeError)
    : NodeM OutPoint :=
  match n with
  | O => throw (default (Shape "fund_address: no coins") last)
  | S n =>
      r ← try (pay policy [(spk, value)] "fund_address");
      match r with
      | Ok txid => find_out txid spk value
      | Err (Funding what) =>
          _ ← update (sleep 500000000); fund_retry n policy spk value (Some (Funding what))
      | Err e => throw e
      end
  end.

Definition fund_address (policy : AssetId) (spk : Script) (value : Z) : NodeM OutPoint :=
  fund_retry 120 policy spk value None.

Definition merge_obol (policy obol : AssetId) (parts : list (OutPoint * Z)) : NodeM OutPoint :=
  let total := u64_sum parts.*2 in
  '(wc, wsats, _) ← biggest_coin;
  change ← lift (change_after wsats (Sats.raw FEE) "merge_obol");
  a ← new_address;
  txid ← sign_and_send (setup_tx (wc :: parts.*1)
    [txout total op_true obol; txout change (script_pubkey a) policy; fee_out FEE policy]);
  find_out txid op_true total.

End Wallet.
