(* ===== verification/FundingSpec.v ===== *)
(** * What the node's wallet funds

    Payments balance to the sat and select no more coins than they need; the wait for a
    confirmation ends; an outpoint that [find] returns is an output the wallet reports. *)

From Stdlib Require Import ZArith Lia SpecFloat.
From stdpp Require Import base gmap strings option list.
From S2P Require Import Prelude Hex Units Elements Floats Simf Domain Artifacts Effects.
From S2P Require Import Jets CovVault CovReserve CovIssuer Plan Node Funding.

(** ** Sums *)

Definition zsum (l : list Z) : Z := foldr Z.add 0 l.

Lemma zsum_app l1 l2 : zsum (l1 ++ l2) = zsum l1 + zsum l2.
Proof. induction l1 as [|x l1 IH]; cbn; [done|]. fold (zsum (l1 ++ l2)) (zsum l1). lia. Qed.

Lemma zsum_nonneg l : Forall (Z.le 0) l -> 0 <= zsum l.
Proof. induction 1 as [|x l Hx _ IH]; cbn; [done|]. fold (zsum l). lia. Qed.

(** The wrapping sum is the sum when that fits. *)
Lemma u64_sum_exact l acc :
  0 <= acc -> Forall (Z.le 0) l -> acc + zsum l < 18446744073709551616 ->
  foldl u64_wadd acc l = acc + zsum l.
Proof.
  revert acc. induction l as [|x l IH]; intros acc Ha Hl Hs; cbn in *; [lia|]. fold (zsum l) in *.
  apply Forall_cons in Hl as [Hx Hl]. pose proof (zsum_nonneg l Hl).
  rewrite (u64_wadd_id acc x) by lia. rewrite IH by (done || lia). lia.
Qed.

(** ** Selection *)

Lemma take_coins_spec need what coins picked total :
  0 <= total < need -> Forall (Z.le 0) coins.*2 -> total + zsum coins.*2 < 18446744073709551616 ->
  match take_coins need what coins picked total with
  | Ok (ins, t) => exists front c rest, coins = front ++ c :: rest /\ ins = picked ++ (front ++ [c]).*1 /\
      t = total + zsum (front ++ [c]).*2 /\ total + zsum front.*2 < need <= t
  | Err e => e = Funding what /\ total + zsum coins.*2 < need
  end.
Proof.
  revert picked total. induction coins as [|[op sats] coins IH]; intros picked total Ht Hc Hs; cbn [take_coins].
  { cbn in *. split; [done|lia]. }
  cbn in Hc, Hs |- *. fold (zsum coins.*2) in *. apply Forall_cons in Hc as [Hp Hc].
  pose proof (zsum_nonneg _ Hc). rewrite (u64_wadd_id total sats) by lia.
  destruct (Z.leb_spec need (total + sats)).
  - exists [], (op, sats), coins. cbn. split_and!; [done|done|lia|lia|lia].
  - specialize (IH (picked ++ [op]) (total + sats) ltac:(lia) Hc ltac:(lia)).
    destruct (take_coins _ _ _ _ _) as [[ins t]|e].
    + destruct IH as (front & c & rest & -> & -> & -> & Hlt & Hge).
      exists ((op, sats) :: front), c, rest. cbn in *. rewrite <- app_assoc. fold (zsum (front ++ [c]).*2) in *.
      fold (zsum front.*2) in *. split_and!; [done|done|lia|lia|lia].
    + destruct IH as [-> IH]. split; [done|lia].
Qed.

Section Spec.
Context `{HL : Lib, TC : TxCodec} {A N J : Type} `{AD : Addresses A, RP : Rpc N, WR : !WalletRpc N J, CK : Clock N}.

(** ** The wait *)

(** The clock does not run backwards while a reply is awaited, and a sleep lasts. *)
Class ClockSpec : Prop := {
  poll_clock (op : OutPoint) (n : N) : instant n <= instant (gettxout_null op n).2;
  sleep_clock d (n : N) : instant n + d <= instant (sleep d n)
}.

(** The polling loop as the source writes it. *)
Inductive waits (op : OutPoint) (deadline : Z) : N -> result NodeError unit -> N -> Prop :=
| waits_seen n n1 : gettxout_null op n = (Ok false, n1) -> waits op deadline n (Ok tt) n1
| waits_failed n e n1 : gettxout_null op n = (Err e, n1) -> waits op deadline n (Err e) n1
| waits_late n n1 :
    gettxout_null op n = (Ok true, n1) -> deadline <= instant n1 -> waits op deadline n (Err unconfirmed) n1
| waits_again n n1 r n2 :
    gettxout_null op n = (Ok true, n1) -> instant n1 < deadline ->
    waits op deadline (sleep 500000000 n1) r n2 -> waits op deadline n r n2.

Lemma await_unfold fuel op deadline n :
  await_confirmed fuel op deadline n =
  match gettxout_null op n with
  | (Err e, n1) => (Err e, n1)
  | (Ok false, n1) => (Ok tt, n1)
  | (Ok true, n1) =>
      if deadline <=? instant n1 then (Err unconfirmed, n1) else
      match fuel with
      | O => (Err unconfirmed, n1)
      | S fuel => await_confirmed fuel op deadline (sleep 500000000 n1)
      end
  end.
Proof.
  destruct fuel as [|fuel]; cbn [await_confirmed]; unfold confirmed, mbind, eff_bind, gets, update, mret, eff_ret, throw;
    destruct (gettxout_null op n) as [[[]|e] n1]; cbn [negb]; try done; by destruct (deadline <=? instant n1).
Qed.

Lemma await_waits `{!ClockSpec} fuel op deadline n :
  deadline <= instant n + 500000000 * Z.of_nat fuel ->
  waits op deadline n (await_confirmed fuel op deadline n).1 (await_confirmed fuel op deadline n).2.
Proof.
  revert n. induction fuel as [|fuel IH]; intros n Hn; rewrite await_unfold;
    pose proof (poll_clock op n) as Hp; destruct (gettxout_null op n) as [[[]|e] n1] eqn:E; cbn in Hp;
    try (by apply waits_seen); try (by apply waits_failed);
    destruct (Z.leb_spec deadline (instant n1)); try (by apply waits_late); [lia|].
  eapply waits_again; [exact E|done|]. apply IH. pose proof (sleep_clock 500000000 n1). lia.
Qed.

Lemma waits_fun op deadline n r1 n1 r2 n2 :
  waits op deadline n r1 n1 -> waits op deadline n r2 n2 -> r1 = r2 /\ n1 = n2.
Proof.
  intros H1. revert r2 n2. induction H1 as [n n1 E|n e n1 E|n n1 E Hl|n n1 r n3 E Hl _ IH]; intros r2 n2 H2;
    inversion H2 as [? ? E'|? ? ? E'|? ? E' Hl'|? ? ? ? E' Hl' Hw]; subst;
    rewrite E in E'; injection E' as; subst; try done; try lia. by apply IH.
Qed.

(** The wait for a confirmation ends.  On any node whose clock runs, the polls the model
    allows are enough: its result is the one the unbounded loop of the source reaches, and
    that is the only one.  Success means the node reported the coin without its mempool; the
    timeout is only reported once the deadline has passed. *)
Theorem confirm_ends `{!ClockSpec} (op : OutPoint) (timeout : Z) (n n' : N) (r : result NodeError unit) :
  0 <= timeout -> confirm_outpoint op (Await timeout) n = (r, n') ->
  waits op (instant n + timeout) n r n' /\
  (forall r2 n2, waits op (instant n + timeout) n r2 n2 -> r2 = r /\ n2 = n') /\
  (r = Ok tt -> exists n1, gettxout_null op n1 = (Ok false, n')) /\
  (is_ok r = false -> (exists e n1, gettxout_null op n1 = (Err e, n') /\ r = Err e) \/
     r = Err unconfirmed /\ instant n + timeout <= instant n').
Proof.
  intros Ht Hc. assert (Hw : waits op (instant n + timeout) n r n').
  { unfold confirm_outpoint, mbind, eff_bind, gets in Hc.
    pose proof (await_waits (polls timeout) op (instant n + timeout) n) as Hw. rewrite Hc in Hw. apply Hw.
    unfold polls. pose proof (Z.mul_succ_div_gt timeout 500000000 ltac:(lia)).
    pose proof (Z.div_pos timeout 500000000 ltac:(lia) ltac:(lia)). lia. }
  split_and!; [done| |..].
  - intros r2 n2 H2. by eapply waits_fun.
  - clear Hc Ht. revert Hw. generalize (instant n + timeout). intros deadline Hw.
    induction Hw as [m n1 E|m e n1 E|m n1 E Hl|m n1 r n3 E Hl _ IH]; intros Hr; try done; [eauto|by apply IH].
  - clear Hc Ht. revert Hw. generalize (instant n + timeout). intros deadline Hw.
    induction Hw as [m n1 E|m e n1 E|m n1 E Hl|m n1 r n3 E Hl _ IH]; intros Hr; try done; [left; eauto|by right|by apply IH].
Qed.

(** Success in either mode. *)
Lemma confirm_seen op mode n n' :
  confirm_outpoint op mode n = (Ok tt, n') -> exists n1, gettxout_null op n1 = (Ok false, n').
Proof.
  destruct mode as [|timeout]; cbn [confirm_outpoint]; intros Hc.
  - eff_peel_step Hc. eff_peel_step Hc. unfold confirmed in *. destruct x0; [|done]. injection Hc as <-.
    eff_peel_step Hx0. injection Hx0 as Hx0 <-. destruct x0; [done|]. eauto.
  - apply eff_bind_ok in Hc as (now & s & Hg & Hc). injection Hg as <- <-. revert Hc.
    generalize (instant n + timeout) as deadline. generalize (polls timeout) as fuel. intros fuel deadline.
    revert n. induction fuel as [|fuel IH]; intros n Hc; rewrite await_unfold in Hc;
      destruct (gettxout_null op n) as [[[]|e] n1] eqn:E; try done; try (injection Hc as <-; eauto);
      destruct (deadline <=? instant n1); try done. by apply IH in Hc.
Qed.

(** ** Payments *)

Lemma policy_coins_sorted policy n coins n1 :
  policy_coins policy n = (Ok coins, n1) ->
  (exists us, listunspent n = (Ok (Some us), n1) /\ coins ≡ₚ omap (policy_coin policy) us) /\
  forall i j x y, (i < j)%nat -> coins !! i = Some x -> coins !! j = Some y -> y.2 <= x.2.
Proof.
  intros Hc. unfold policy_coins in Hc. eff_peel_step Hc. eff_peel_step Hc. apply ok_or_ok in Hx0 as ->.
  injection Hc as <- <-. split; [eexists; split; [exact Hx|apply sort_by_perm]|].
  intros i j y z Hij Hy Hz. apply Z.leb_le.
  refine (sort_by_sorted (fun a b : OutPoint * Z => b.2 <=? a.2) _ _ _ i j y z Hij Hy Hz).
  - intros a b. lia.
  - intros a b d. lia.
Qed.

Lemma policy_coins_nonneg policy n coins n1 :
  policy_coins policy n = (Ok coins, n1) -> Forall (Z.le 0) coins.*2.
Proof.
  intros Hc. apply policy_coins_sorted in Hc as [(us & _ & Hp) _]. rewrite Hp.
  apply Forall_fmap, Forall_forall. intros c (u & _ & Hu)%list_elem_of_omap. unfold policy_coin in Hu.
  repeat (case_match || apply bind_Some in Hu as (? & ? & Hu)); try done. injection Hu as <-.
  apply sats_of_btc_range.
Qed.

(** A payment from the node's wallet balances to the sat.  It spends the largest coins of
    the policy asset, one by one until they cover outputs and fee and no further; it asks the
    wallet to sign exactly the requested outputs in order, change to a fresh address when
    there is any, and the fee; inputs and outputs add up.  When all coins together are too
    small nothing is signed or sent. *)
Theorem pay_funds (policy : AssetId) (outs : list (Script * Z)) (what : string) (n n1 n' : N)
    (coins : list (OutPoint * Z)) (r : result NodeError Txid) :
  policy_coins policy n = (Ok coins, n1) -> zsum coins.*2 < 18446744073709551616 ->
  Forall (Z.le 0) outs.*2 ->
  zsum outs.*2 + Sats.raw FEE < 18446744073709551616 ->
  pay policy outs what n = (r, n') ->
  let need := zsum outs.*2 + Sats.raw FEE in
  (exists us, listunspent n = (Ok (Some us), n1) /\ coins ≡ₚ omap (policy_coin policy) us) /\
  (forall i j x y, (i < j)%nat -> coins !! i = Some x -> coins !! j = Some y -> y.2 <= x.2) /\
  if zsum coins.*2 <? need then r = Err (Funding what) /\ n' = n1 else
  exists front c rest, coins = front ++ c :: rest /\ zsum front.*2 < need /\
    let used := front ++ [c] in
    let change := zsum used.*2 - need in
    let asks tail n2 :=
      let tx := setup_tx used.*1 (((fun o => txout o.2 o.1 policy) <$> outs) ++ tail ++ [fee_out FEE policy]) in
      total_out policy (output tx) = zsum used.*2 /\ sign_and_send tx n2 = (r, n') in
    0 <= change /\
    if change =? 0 then asks [] n1 else
    match new_address n1 with
    | (Ok a, n2) => asks [txout change (script_pubkey a) policy] n2
    | (Err e, n2) => r = Err e /\ n' = n2
    end.
Proof.
  intros Hcoins Hcs Ho Hos Hpay need. pose proof (policy_coins_nonneg _ _ _ _ Hcoins) as Hc. pose proof (policy_coins_sorted _ _ _ _ Hcoins) as [Hl Hsrt].
  split; [exact Hl|]. split; [exact Hsrt|]. unfold pay in Hpay. cbv zeta in Hpay.
  assert (Es : u64_sum outs.*2 = zsum outs.*2) by (unfold u64_sum; rewrite u64_sum_exact; [lia|lia|done|cbn in Hos; lia]).
  pose proof (zsum_nonneg _ Ho) as Hz. rewrite Es, u64_wadd_id in Hpay by (cbn in *; lia).
  fold need in Hpay. assert (Hsel : select policy need what n = (take_coins need what coins [] 0, n1))
    by exact (eff_bind_run _ _ _ _ _ Hcoins).
  rewrite (eff_bind_run _ _ _ _ _ Hsel) in Hpay.
  pose proof (take_coins_spec need what coins [] 0 ltac:(unfold need; cbn; lia) Hc ltac:(lia)) as Ht.
  destruct (take_coins need what coins [] 0) as [[ins t]|e].
  2: { destruct Ht as [-> Ht]. rewrite (proj2 (Z.ltb_lt _ _)) by lia. by injection Hpay as <- <-. }
  destruct Ht as (front & c & rest & -> & -> & -> & Hlt & Hge).
  assert (EU : zsum (front ++ [c]).*2 = zsum front.*2 + c.2) by (rewrite fmap_app, zsum_app; cbn; lia).
  assert (EC : zsum (front ++ c :: rest).*2 = zsum front.*2 + c.2 + zsum rest.*2)
    by (rewrite fmap_app, zsum_app; cbn; fold (zsum rest.*2); lia).
  rewrite fmap_app in Hc. apply Forall_app in Hc as [Hf Hc]. cbn in Hc. apply Forall_cons in Hc as [Hc0 Hr].
  pose proof (zsum_nonneg _ Hf). pose proof (zsum_nonneg _ Hr).
  rewrite EC in Hcs |- *. rewrite (proj2 (Z.ltb_ge _ _)) by lia.
  exists front, c, rest. split; [done|]. split; [lia|]. cbv zeta. rewrite Z.add_0_l in Hpay, Hge.
  set (U := zsum (front ++ [c]).*2) in *. rewrite u64_wsub_id in Hpay by lia.
  set (change := U - need) in *. split; [lia|].
  assert (Htot : forall tail, total_out policy (((fun o => txout o.2 o.1 policy) <$> outs) ++ tail ++ [fee_out FEE policy])
    = need + total_out policy tail).
  { intros tail. rewrite !total_out_app. cbn. rewrite bool_decide_true by done. unfold need. cbn.
    assert (E : total_out policy ((fun o => txout o.2 o.1 policy) <$> outs) = zsum outs.*2); [|lia].
    clear. induction outs as [|o outs IH]; cbn; [done|]. rewrite bool_decide_true by done.
    fold (zsum outs.*2). unfold total_out in IH. lia. }
  destruct (Z.eqb_spec change 0) as [Hz0|Hz0].
  - rewrite (proj2 (Z.ltb_ge _ _)) in Hpay by lia. cbn in Hpay.
    split; [cbn [output setup_tx]; rewrite Htot; cbn; lia|]. exact Hpay.
  - rewrite (proj2 (Z.ltb_lt _ _)) in Hpay by lia. unfold mbind at 1 2, eff_bind at 1 2 in Hpay.
    destruct (new_address n1) as [[a|e] n2]; [|by injection Hpay as <- <-].
    cbn in Hpay. rewrite <- app_assoc in Hpay. split; [|exact Hpay].
    cbn [output setup_tx]. rewrite Htot. cbn. rewrite bool_decide_true by done. lia.
Qed.

(** ** Outputs the wallet reports *)

(** What the wallet says a transaction is, the same at every call; fewer outputs than 2^32. *)
Record wallet_reports (tx_at : Txid -> option Transaction) : Prop := {
  wr_tx txid n hex n' b tx :
    gettransaction_hex txid n = (Ok (Some hex), n') -> unhex hex = Some b -> deserialize_tx b = Some tx ->
    tx_at txid = Some tx;
  wr_outputs txid tx : tx_at txid = Some tx -> Z.of_nat (length (output tx)) < 4294967296
}.

(** An outpoint whose transaction the wallet reports, with its output. *)
Definition pays (tx_at : Txid -> option Transaction) (spk : Script) (value : Z) (op : OutPoint) : Prop :=
  exists tx vout o, tx_at (op_txid op) = Some tx /\ op_vout op = Z.of_nat vout /\ output tx !! vout = Some o /\
    to_value o = VExplicit value /\ to_spk o = spk.

Lemma find_out_pays tx_at txid spk value n op n' :
  wallet_reports tx_at -> find_out txid spk value n = (Ok op, n') ->
  pays tx_at spk value op /\ op_txid op = txid.
Proof.
  intros Hw Hf. unfold find_out in Hf. eff_peel_step Hf. unfold get_tx in Hx. eff_peel Hx.
  apply ok_or_ok in Hx1 as ->, Hx2. apply lift_inv in Hx as [Hx ->]. apply ok_or_ok in Hx.
  pose proof (wr_tx _ Hw _ _ _ _ _ _ Hx0 Hx2 Hx) as Htx. eff_peel_step Hf. destruct x0 as [vout o].
  apply ok_or_ok in Hx1. injection Hf as <- <-. apply list_find_Some in Hx1 as (Ho & [Hv Hs] & _).
  pose proof (wr_outputs _ Hw _ _ Htx). pose proof (lookup_lt_Some _ _ _ Ho).
  split; [|done]. exists x, vout, o. cbn. split_and!; try done. rewrite Z.mod_small; lia.
Qed.

Lemma fund_address_pays tx_at policy spk value n op n' :
  wallet_reports tx_at -> fund_address policy spk value n = (Ok op, n') -> pays tx_at spk value op.
Proof.
  intros Hw. unfold fund_address. generalize (None (A := NodeError)) as last. generalize 120%nat as k.
  intros k. revert n. induction k as [|k IH]; intros n last Hf; cbn [fund_retry] in Hf; [done|].
  apply eff_bind_ok in Hf as (r & s & _ & Hf). destruct r as [txid|[| |what]]; try done.
  - by apply find_out_pays with (tx_at := tx_at) in Hf as [? _].
  - apply eff_bind_ok in Hf as (? & ? & _ & Hf). by apply IH in Hf.
Qed.

(** Two outputs of different value or script are different coins. *)
Lemma pays_ne tx_at spk1 v1 op1 spk2 v2 op2 :
  pays tx_at spk1 v1 op1 -> pays tx_at spk2 v2 op2 -> spk1 <> spk2 \/ v1 <> v2 -> op1 <> op2.
Proof.
  intros (tx1 & i1 & o1 & Ht1 & Hi1 & Ho1 & Hv1 & Hs1) (tx2 & i2 & o2 & Ht2 & Hi2 & Ho2 & Hv2 & Hs2) Hne <-.
  rewrite Ht1 in Ht2. injection Ht2 as <-. assert (i1 = i2) as <- by lia.
  rewrite Ho1 in Ho2. injection Ho2 as <-. destruct Hne; congruence.
Qed.

End Spec.
