(* ===== verification/Ceremony.v ===== *)
(** * The deployment ceremony ([styx-node/src/ceremony.rs])

    Two non-reissuable issuances in one transaction, the artifacts compiled against the real
    asset ids, and the seeded reserve.  The asset id of an issuance ([AssetId::new_issuance])
    is the consensus rule of the elements crate. *)

From Stdlib Require Import ZArith Lia.
From stdpp Require Import base gmap strings option list.
From S2P Require Import Prelude Hex Units Elements Floats Simf Domain Artifacts Effects.
From S2P Require Import Jets CovVault CovReserve CovIssuer Plan Node Funding.

Definition SUPPLY : Z := 100000000.

Inductive CeremonyError : Type :=
| CNode (e : NodeError)
| CDeploy (e : DeployError)
| CBroadcast (e : BroadcastError)
| CShape (what : string).

(** [AssetId::new_issuance prevout contract_hash]. *)
Class IssuanceId : Type := new_issuance : OutPoint -> bytes -> AssetId.

Definition zero_contract : bytes := replicate 32 Byte.x00.

Section Ceremony.
Context `{Lib, Compiler, TxCodec, IssuanceId}.
Context {A N J : Type} `{Addresses A, Rpc N, !WalletRpc N J, Clock N}.

Abbreviation CM := (Eff N CeremonyError) (only parsing).

(** The [From] conversions of [?]. *)
Definition on_node {X} (m : Eff N NodeError X) : CM X := map_error CNode m.

(** What the whole wallet must cover: the reserve, two prevouts and three fees. *)
Definition ceremony_need (reserve_seed : Z) : Z :=
  u64_wadd (u64_wadd (u64_wadd reserve_seed (2 * PREVOUT)) FEE_RPC) (2 * Sats.raw FEE).

(** The context of a deploy whose prevouts are [issue_in] and [token_in]. *)
Definition deploy_ctx (genesis : BlockHash) (policy : AssetId) (oracle_pks : list XOnlyPublicKey)
    (issue_in token_in : OutPoint) : result DeployError Ctx :=
  let params := mkParams (new_issuance issue_in zero_contract) (new_issuance token_in zero_contract)
                  policy oracle_pks in
  artifacts ← compile_artifacts params;
  Ok (mkCtx params artifacts genesis).

(** The two issuances, as [rawissueasset] takes them. *)
Definition issue_details (pot_addr issuer_addr : A) : list IssueDetail :=
  let contract := hex zero_contract in
  [mkIssue (btc_of_sats SUPPLY) (show_address pot_addr) false contract;
   mkIssue (btc_of_sats 1) (show_address issuer_addr) false contract].

(** The issuance transaction, signed by the node's wallet. *)
Definition issuance (ctx : Ctx) (issuer_state : IssuerState) (issue_in : OutPoint) (issue_sats : Z)
    (token_in : OutPoint) (token_sats : Z) : CM Transaction :=
  chain ← on_node chain;
  let net := address_params chain in
  pot_addr ← lift (ok_or (CShape "pot address") (from_script (pot_spk (ctx_artifacts ctx)) net));
  issuer_addr ← lift (ok_or (CShape "issuer address")
    (from_script (issuer_spk (ctx_artifacts ctx) issuer_state) net));
  issue_change ← on_node (lift (change_after (u64_wadd issue_sats token_sats) FEE_RPC "issuance change"));
  a ← on_node new_address;
  raw ← on_node (createrawtransaction [issue_in; token_in]
    (out_array [(ascii_bytes "fee", FEE_RPC); (show_address a, issue_change)]));
  issued ← on_node (rawissueasset raw (issue_details pot_addr issuer_addr));
  hex ← lift (ok_or (CShape "rawissueasset hex") (entries ← issued; mjoin (last entries)));
  signed ← on_node (signrawtransaction_hex (text_value hex));
  bytes ← lift (ok_or (CShape "issuance sign hex") (h ← signed; unhex h));
  lift (ok_or (CShape "issuance tx") (deserialize_tx bytes)).

Definition ceremony (oracle_pks : list XOnlyPublicKey) (reserve_seed : Z) (confirm : Confirm)
    : CM (Ctx * ProtocolState) :=
  genesis ← on_node genesis;
  '(_, _, policy) ← on_node biggest_coin;
  let need := ceremony_need reserve_seed in
  have ← on_node (spendable policy);
  if have <? need then throw (CNode (Funding "ceremony preflight")) else
  '((issue_in, issue_sats), (token_in, token_sats)) ← on_node (split_two policy);
  ctx ← lift (map_err CDeploy (deploy_ctx genesis policy oracle_pks issue_in token_in));
  ih0 ← on_node height;
  let issuer_state := mkIssuer (BlockHeight.new ih0) in
  tx ← issuance ctx issuer_state issue_in issue_sats token_in token_sats;
  txid ← map_error CBroadcast (send tx);
  let a := ctx_artifacts ctx in
  pot_op ← on_node (find_out txid (pot_spk a) SUPPLY);
  issuer_op ← on_node (find_out txid (issuer_spk a issuer_state) 1);
  _ ← on_node (confirm_outpoint pot_op confirm);
  reserve_op ← on_node (fund_address policy (stability_spk a) reserve_seed);
  _ ← on_node (confirm_outpoint reserve_op confirm);
  mret (ctx, mkProtocol (mkOn thePot pot_op (Obol.new SUPPLY))
               (mkOn theReserve reserve_op (Sats.new reserve_seed))
               (mkOn issuer_state issuer_op 1)).

End Ceremony.
