(* ===== verification/CeremonySpec.v ===== *)
(** * What the ceremony founds

    A ceremony that succeeds leaves a compiled deploy and three coins, reported by the node's
    wallet, at the deploy's addresses: the state every run of the protocol starts from.  One
    that cannot be paid for stops before its first transaction. *)

From Stdlib Require Import ZArith Lia.
From stdpp Require Import base gmap strings option list.
From S2P Require Import Prelude Hex Units CrMath Elements Floats Oracle Simf Encode Domain Artifacts Effects.
From S2P Require Import Jets CovVault CovReserve CovIssuer Plan BuildOwner BuildKeeper Accept CovLemmas.
From S2P Require Import CovAccept Sound SoundOwner SoundKeeper Protocol Node Funding FundingSpec Ceremony.

Section Spec.
Context `{HL : Lib, CP : Compiler, TC : TxCodec, II : IssuanceId}.
Context {A N J : Type} `{AD : Addresses A, RP : Rpc N, WR : !WalletRpc N J, CK : Clock N}.

(** The widths of what the node and the elements crate return. *)
Class WalletTyped : Prop := {
  typed_asset (n : N) us n' u a :
    listunspent n = (Ok (Some us), n') -> u ∈ us -> un_asset u = Some a -> length a = 32%nat;
  typed_count (n : N) h n' : getblockcount n = (Ok h, n') -> u32 h;
  typed_issuance op contract : length (new_issuance op contract) = 32%nat
}.

Lemma biggest_coin_typed `{!WalletTyped} n op v policy n' :
  biggest_coin n = (Ok (op, v, policy), n') -> length policy = 32%nat.
Proof.
  intros Hb. unfold biggest_coin in Hb. eff_peel Hb. injection Hb as _ _ <- <-.
  apply ok_or_ok in Hx0 as ->, Hx1, Hx3. apply max_by_elem in Hx1. by eapply typed_asset.
Qed.

Lemma deploy_ctx_ok g policy pks issue_in token_in ctx :
  deploy_ctx g policy pks issue_in token_in = Ok ctx ->
  compile_artifacts (ctx_params ctx) = Ok (ctx_artifacts ctx) /\ ctx_genesis ctx = g /\
  Domain.oracle_pks (ctx_params ctx) = pks /\ obol (ctx_params ctx) = new_issuance issue_in zero_contract /\
  issuer_token (ctx_params ctx) = new_issuance token_in zero_contract /\ Domain.policy (ctx_params ctx) = policy.
Proof.
  unfold deploy_ctx. intros (a & Ha & [= <-])%bind_ok. done.
Qed.

(** Everything a successful ceremony went through. *)
Lemma ceremony_inv oracle_pks seed mode n ctx p n' :
  ceremony oracle_pks seed mode n = (Ok (ctx, p), n') ->
  let a := ctx_artifacts ctx in
  (exists n1, genesis n = (Ok (ctx_genesis ctx), n1)) /\
  (exists big s s', biggest_coin s = (Ok (big, policy (ctx_params ctx)), s')) /\
  (exists issue_in token_in, deploy_ctx (ctx_genesis ctx) (policy (ctx_params ctx)) oracle_pks issue_in token_in = Ok ctx) /\
  (exists ih s s', height s = (Ok ih, s') /\ state (issuer p) = mkIssuer (BlockHeight.new ih)) /\
  (exists txid s s', find_out txid (pot_spk a) SUPPLY s = (Ok (outpoint (pot p)), s')) /\
  (exists txid s s', find_out txid (issuer_spk a (state (issuer p))) 1 s = (Ok (outpoint (issuer p)), s')) /\
  (exists s s', fund_address (policy (ctx_params ctx)) (stability_spk a) seed s = (Ok (outpoint (reserve p)), s')) /\
  (exists s s', confirm_outpoint (outpoint (pot p)) mode s = (Ok tt, s')) /\
  (exists s, confirm_outpoint (outpoint (reserve p)) mode s = (Ok tt, n')) /\
  p = mkProtocol (mkOn thePot (outpoint (pot p)) (Obol.new SUPPLY))
        (mkOn theReserve (outpoint (reserve p)) (Sats.new seed))
        (mkOn (state (issuer p)) (outpoint (issuer p)) 1).
Proof.
  intros Hc. unfold ceremony, on_node in Hc. eff_peel Hc. destruct x0 as [[big bigv] pol]. eff_peel_step Hc.
  destruct (x0 <? ceremony_need seed); [done|]. eff_peel_step Hc.
  destruct x1 as [[issue_in issue_sats] [token_in token_sats]]. eff_peel_step Hc.
  apply map_err_ok in Hx3. pose proof (deploy_ctx_ok _ _ _ _ _ _ Hx3) as (_ & Eg & _ & _ & _ & Ep).
  eff_peel_step Hc. eff_peel_step Hc. eff_peel Hc. injection Hc as -> <- <-.
  repeat match goal with u : unit |- _ => destruct u end.
  cbn [pot reserve issuer outpoint state]. rewrite Eg, Ep. split_and!; eauto 10.
Qed.

Lemma need_exact seed :
  0 <= seed <= MAX_MONEY -> ceremony_need seed = seed + 320000.
Proof.
  intros Hs. unfold ceremony_need, MAX_MONEY, PREVOUT, FEE_RPC in *. cbn [Sats.raw FEE].
  rewrite (u64_wadd_id seed) by lia. rewrite (u64_wadd_id (seed + _)) by lia. rewrite u64_wadd_id by lia. lia.
Qed.

(** The deploy a ceremony returns. *)
Lemma ceremony_deploy `{!WalletTyped} oracle_pks seed mode n ctx p n' :
  ceremony oracle_pks seed mode n = (Ok (ctx, p), n') ->
  let pp := ctx_params ctx in
  artifacts_of pp (ctx_artifacts ctx) /\ Domain.oracle_pks pp = oracle_pks /\
  length (obol pp) = 32%nat /\ length (issuer_token pp) = 32%nat /\ length (policy pp) = 32%nat /\
  exists issue_in token_in, obol pp = new_issuance issue_in zero_contract /\
    issuer_token pp = new_issuance token_in zero_contract.
Proof.
  intros Hc. apply ceremony_inv in Hc. cbv zeta in Hc |- *.
  destruct Hc as (_ & ([big bigv] & sb & sb' & Hbig) & (issue_in & token_in & Hctx) & _).
  apply deploy_ctx_ok in Hctx as (Hart%compile_artifacts_ok & _ & Epk & Eob & Etok & _).
  apply biggest_coin_typed in Hbig. rewrite Eob, Etok.
  split_and!; try done; [apply typed_issuance..|]. by exists issue_in, token_in.
Qed.

(** C35: The ceremony founds the protocol.  When it succeeds, the deploy is compiled against
    the ids of the two issuances, which differ from each other and from the policy asset; pot,
    issuer and reserve are three distinct coins the wallet reports at exactly the addresses,
    values and anchor of the state returned, pot and reserve seen confirmed; and that state is
    well formed with the whole fixed supply in the pot, so that in every later state the pot
    and the debts of all vaults still make one million OBOL. *)
Theorem ceremony_founds `{!WalletTyped} (tx_at : Txid -> option Transaction) (oracle_pks : list XOnlyPublicKey)
    (seed : Z) (mode : Confirm) (n n' : N) (ctx : Ctx) (p : ProtocolState) :
  wallet_reports (N := N) tx_at ->
  length oracle_pks = 5%nat -> Forall (fun k => length k = 32%nat) oracle_pks -> 0 <= seed <= MAX_MONEY ->
  ceremony oracle_pks seed mode n = (Ok (ctx, p), n') ->
  let a := ctx_artifacts ctx in
  stability_spk a <> pot_spk a -> stability_spk a <> issuer_spk a (state (issuer p)) ->
  deploy_ok ctx /\ Domain.oracle_pks (ctx_params ctx) = oracle_pks /\
  (exists issue_in token_in, obol (ctx_params ctx) = new_issuance issue_in zero_contract /\
     issuer_token (ctx_params ctx) = new_issuance token_in zero_contract) /\
  NoDup [obol (ctx_params ctx); issuer_token (ctx_params ctx); policy (ctx_params ctx)] /\
  pays tx_at (pot_spk a) SUPPLY (outpoint (pot p)) /\
  pays tx_at (stability_spk a) seed (outpoint (reserve p)) /\
  pays tx_at (issuer_spk a (state (issuer p))) 1 (outpoint (issuer p)) /\
  (exists n1 n2, gettxout_null (outpoint (pot p)) n1 = (Ok false, n2)) /\
  (exists n1, gettxout_null (outpoint (reserve p)) n1 = (Ok false, n')) /\
  sys_wf (mkSys p ∅) /\
  forall pls s', steps ctx (mkSys p ∅) pls s' -> sys_wf s' /\ supply s' = SUPPLY.
Proof.
  intros Hw Hlen Hpks Hseed Hc a Hs1 Hs2.
  pose proof (ceremony_deploy _ _ _ _ _ _ _ Hc) as (Hart & Epk & Lob & Ltok & Lpol & Hiss0).
  apply ceremony_inv in Hc. cbv zeta in Hc. fold a in Hc.
  destruct Hc as (_ & _ & _ & (ih0 & sh & sh' & Hih & Eih) &
    (tx1 & s1 & s1' & Hpot) & (tx2 & s2 & s2' & Hiss) & (s3 & s3' & Hres) & (s4 & s4' & Hc1) & (s5 & Hc2) & Ep).
  apply typed_count in Hih.
  apply (find_out_pays tx_at) in Hpot as [Hpot _]; [|done]. apply (find_out_pays tx_at) in Hiss as [Hiss _]; [|done].
  apply (fund_address_pays tx_at) in Hres; [|done]. apply confirm_seen in Hc1 as [? Hc1], Hc2 as [? Hc2].
  destruct (preflight_assets _ (ao_preflight _ _ Hart)) as (Hd1 & Hd2 & Hd3).
  assert (Hsup : supply (mkSys p ∅) = SUPPLY).
  { rewrite Ep. unfold supply, total_debt. cbn. by rewrite map_fold_empty. }
  assert (Hwf : sys_wf (mkSys p ∅)).
  { split; [| | |rewrite Hsup; unfold SUPPLY, MAX_MONEY; lia| |by apply lookup_empty..].
    - rewrite Ep. split_and!; [split; unfold SUPPLY, MAX_MONEY; cbn; lia|done|]. cbn. by rewrite Eih.
    - by rewrite Ep.
    - intros op v Hv. cbn in Hv. by rewrite lookup_empty in Hv.
    - apply NoDup3. split_and!.
      + eapply (pays_ne tx_at); [exact Hpot|exact Hres|left; congruence].
      + eapply (pays_ne tx_at); [exact Hpot|exact Hiss|by right].
      + eapply (pays_ne tx_at); [exact Hres|exact Hiss|by left]. }
  split_and!; try done.
  - split; [done|]. split_and!; congruence || done.
  - by apply NoDup3.
  - eauto.
  - eauto.
  - intros pls s' Hsteps. destruct (steps_wf ctx _ _ _ Hsteps Hwf) as [? E]. split; [done|]. by rewrite E.
Qed.

(** A ceremony that the wallet cannot pay for leaves nothing on the chain.  When the coins
    of the policy asset make less than the reserve, the two prevouts and the three fees, it
    stops with a funding error after three reads of the node, before any call that signs,
    mines or sends. *)
Theorem preflight_stops (oracle_pks : list XOnlyPublicKey) (seed : Z) (mode : Confirm) (n n1 n2 n3 : N)
    (g : BlockHash) (big : OutPoint * Z) (policy : AssetId) (coins : list (OutPoint * Z)) :
  genesis n = (Ok g, n1) -> biggest_coin n1 = (Ok (big, policy), n2) ->
  policy_coins policy n2 = (Ok coins, n3) ->
  zsum coins.*2 < 18446744073709551616 -> 0 <= seed <= MAX_MONEY ->
  zsum coins.*2 < seed + 2 * PREVOUT + FEE_RPC + 2 * Sats.raw FEE ->
  ceremony oracle_pks seed mode n = (Err (CNode (Funding "ceremony preflight")), n3).
Proof.
  intros Hg Hb Hc Hfit Hseed Hlt. pose proof (policy_coins_nonneg _ _ _ _ Hc) as Hnn. unfold ceremony.
  assert (Hnode : forall X (m : Eff N NodeError X) s r s1, m s = (r, s1) -> on_node m s = (map_err CNode r, s1)).
  { intros X m s r s1 Hm. unfold on_node, map_error. by rewrite Hm. }
  rewrite (eff_bind_run _ _ _ _ _ (Hnode _ _ _ _ _ Hg)). cbn [map_err].
  rewrite (eff_bind_run _ _ _ _ _ (Hnode _ _ _ _ _ Hb)). cbn [map_err]. destruct big as [op v].
  assert (Hs : spendable policy n2 = (Ok (zsum coins.*2), n3)).
  { unfold spendable. rewrite (eff_bind_run _ _ _ _ _ Hc). unfold u64_sum. by rewrite u64_sum_exact by (done || lia). }
  rewrite (eff_bind_run _ _ _ _ _ (Hnode _ _ _ _ _ Hs)). cbn [map_err].
  rewrite need_exact by done. unfold PREVOUT, FEE_RPC in Hlt. cbn [Sats.raw FEE] in Hlt.
  by rewrite (proj2 (Z.ltb_lt _ _)) by lia.
Qed.

End Spec.
