(* ===== verification/Index.v ===== *)
(** * The chain indexer ([styx-watch/src/index.rs])

    Protocol state inferred from the layout of transactions: [apply_tx] takes transactions
    in chain order and moves the singletons and the tracked vaults.  Every helper is a
    computation over the index state and the events emitted so far, in the state monad
    [Ix]; the deploy, the candidate owners, the block height and the transaction are
    section variables. *)

From Stdlib Require Import ZArith Lia.
From stdpp Require Import base gmap strings option list.
From S2P Require Import Prelude Units CrMath Elements Oracle Simf Encode Domain Artifacts Jets.
From S2P Require Import CovVault CovReserve CovIssuer Plan.

Record TrackedVault : Type := mkTracked {
  tv_debt : Obol.t;
  tv_last_height : BlockHeight.t;
  tv_value : Sats.t;
  tv_owner : option XOnlyPublicKey;
  tv_spk : Script
}.

(** The builder-consumable form, available once the owner is resolved. *)
Definition known (v : TrackedVault) (outpoint : OutPoint) : option (OnChain VaultState) :=
  owner ← tv_owner v;
  Some (mkOn (mkVault (tv_debt v) owner (tv_last_height v)) outpoint (tv_value v)).

Record Lost : Type := mkLost { lo_txid : Txid; lo_reason : string }.

Inductive Event : Type :=
| PotBorn (outpoint : OutPoint) (value : Obol.t)
| ReserveBorn (outpoint : OutPoint) (value : Sats.t)
| IssuerBorn (outpoint : OutPoint) (anchor : BlockHeight.t)
| Poked (anchor : BlockHeight.t)
| Opened (vault : OutPoint) (debt : Obol.t) (value : Sats.t) (last_height : BlockHeight.t)
    (owner : option XOnlyPublicKey)
| Repaid (vault successor : OutPoint) (amount : Obol.t)
| Drawn (vault successor : OutPoint) (amount : Obol.t)
| Refreshed (vault successor : OutPoint) (last_height : BlockHeight.t)
| Deleveraged (vault successor : OutPoint) (amount : Obol.t)
| Closed (vault : OutPoint)
| FullyLiquidated (vault : OutPoint)
| BadDebtClosed (vault : OutPoint)
| VaultLost (vault : OutPoint) (reason : string)
| PotGrew (value : Obol.t)
| ReserveGrew (value : Sats.t)
| Fragment (role : string)
| Anomaly (what : string).

Record Notice : Type := mkNotice { n_height : Z; n_txid : Txid; n_event : Event }.

Record IndexState : Type := mkIndex {
  ix_height : Z;
  ix_tip : BlockHash;
  ix_pot : option (OnChain PotState);
  ix_reserve : option (OnChain ReserveState);
  ix_issuer : option (OnChain IssuerState);
  ix_vaults : gmap OutPoint TrackedVault;
  ix_lost : gmap OutPoint Lost
}.

Definition at_height (height : Z) (tip : BlockHash) : IndexState :=
  mkIndex height tip None None None ∅ ∅.
Definition genesis (tip : BlockHash) : IndexState := at_height 0 tip.

Definition protocol (st : IndexState) : option ProtocolState :=
  pot ← ix_pot st; reserve ← ix_reserve st; issuer ← ix_issuer st;
  Some (mkProtocol pot reserve issuer).

Definition seal (st : IndexState) (height : Z) (hash : BlockHash) : IndexState :=
  mkIndex height hash (ix_pot st) (ix_reserve st) (ix_issuer st) (ix_vaults st) (ix_lost st).

(** Field updates. *)
Definition with_pot (p : option (OnChain PotState)) (st : IndexState) : IndexState :=
  mkIndex (ix_height st) (ix_tip st) p (ix_reserve st) (ix_issuer st) (ix_vaults st) (ix_lost st).
Definition with_reserve (r : option (OnChain ReserveState)) (st : IndexState) : IndexState :=
  mkIndex (ix_height st) (ix_tip st) (ix_pot st) r (ix_issuer st) (ix_vaults st) (ix_lost st).
Definition with_issuer (i : option (OnChain IssuerState)) (st : IndexState) : IndexState :=
  mkIndex (ix_height st) (ix_tip st) (ix_pot st) (ix_reserve st) i (ix_vaults st) (ix_lost st).
Definition with_vaults (f : gmap OutPoint TrackedVault -> gmap OutPoint TrackedVault)
    (st : IndexState) : IndexState :=
  mkIndex (ix_height st) (ix_tip st) (ix_pot st) (ix_reserve st) (ix_issuer st)
    (f (ix_vaults st)) (ix_lost st).
Definition with_lost (f : gmap OutPoint Lost -> gmap OutPoint Lost) (st : IndexState) : IndexState :=
  mkIndex (ix_height st) (ix_tip st) (ix_pot st) (ix_reserve st) (ix_issuer st) (ix_vaults st)
    (f (ix_lost st)).

(** ** Layout helpers *)

Fixpoint position (outpoint : OutPoint) (l : list TxIn) : option nat :=
  match l with
  | [] => None
  | i :: l => if bool_decide (previous_output i = outpoint) then Some 0%nat
              else S <$> position outpoint l
  end.
Definition input_index (tx : Transaction) (outpoint : OutPoint) : option nat :=
  position outpoint (input tx).

Definition explicit (out : TxOut) (asset : AssetId) : option Z :=
  match to_asset out, to_value out with
  | AExplicit a, VExplicit v => if bool_decide (a = asset) then Some v else None
  | _, _ => None
  end.

(** The outputs paying (spk, asset), with their index. *)
Fixpoint hits_from (vout : Z) (outs : list TxOut) (spk : Script) (asset : AssetId)
    : list (Z * Z) :=
  match outs with
  | [] => []
  | o :: outs =>
      match (if bool_decide (to_spk o = spk) then explicit o asset else None) with
      | Some v => (vout, v) :: hits_from (vout + 1) outs spk asset
      | None => hits_from (vout + 1) outs spk asset
      end
  end.

Definition locate_counted (tx : Transaction) (spk : Script) (asset : AssetId)
    : option (Z * Z * bool) :=
  match hits_from 0 (output tx) spk asset with
  | [] => None
  | (vout, value) :: more => Some (vout, value, negb (bool_decide (more = [])))
  end.

Definition locate (tx : Transaction) (spk : Script) (asset : AssetId) : option (Z * Z) :=
  '(vout, value, _) ← locate_counted tx spk asset; Some (vout, value).

Definition spk_at_output0 (tx : Transaction) (spk : Script) (asset : AssetId) : bool :=
  match output tx with
  | o :: _ => bool_decide (to_spk o = spk) && bool_decide (is_Some (explicit o asset))
  | [] => false
  end.

(** Descending search over [n] candidate heights from [h]. *)
Fixpoint scan_down {A} (f : Z -> option A) (h : Z) (n : nat) : option A :=
  match n with
  | O => None
  | S n => match f h with Some a => Some a | None => scan_down f (h - 1) n end
  end.
(** The candidates [hi], [hi - 1], ..., [lo]. *)
Definition scan_range {A} (f : Z -> option A) (lo hi : Z) : option A :=
  scan_down f hi (Z.to_nat (hi - lo + 1)).

Definition OWNER_SCAN_MAX_ELEMENT : nat := 4096.

(** One 256-bit window of a witness element, [shift] bits into byte [byte]. *)
Definition window_byte (element : bytes) (shift : Z) (k : nat) : Byte.byte :=
  let at_ i := byte_to_Z (default Byte.x00 (element !! i)) in
  let hi := Z.shiftl (at_ k) shift mod 256 in
  let lo := if shift =? 0 then 0 else Z.shiftr (at_ (S k)) (8 - shift) in
  byte_of_Z (Z.lor hi lo).
Definition window (element : bytes) (bit : nat) : bytes :=
  (fun i => window_byte element (Z.of_nat (Nat.modulo bit 8)) (Nat.div bit 8 + i)) <$> seq 0 32.

(** The first success over a list. *)
Fixpoint find_some {A B} (f : A -> option B) (l : list A) : option B :=
  match l with
  | [] => None
  | a :: l => match f a with Some b => Some b | None => find_some f l end
  end.

Section ScanOwner.
Context `{XOnlyParse}.

Definition scan_element (matches : XOnlyPublicKey -> bool) (element : bytes)
    : option XOnlyPublicKey :=
  if (32 <=? length element)%nat && (length element <=? OWNER_SCAN_MAX_ELEMENT)%nat then
    find_some (fun bit =>
        let w := window element bit in
        if valid_xonly w && matches w then Some w else None)
      (seq 0 (length element * 8 - 256 + 1))
  else None.

Definition scan_witness_for_owner (tx : Transaction) (i : nat) (matches : XOnlyPublicKey -> bool)
    : option XOnlyPublicKey :=
  t ← input tx !! i;
  find_some (scan_element matches) (script_witness t).

End ScanOwner.

(** ** The index monad *)

Record World : Type := mkWorld { w_state : IndexState; w_out : list Notice }.

Definition Ix (A : Type) : Type := World -> A * World.
#[export] Instance ix_ret : MRet Ix := fun A a w => (a, w).
#[export] Instance ix_bind : MBind Ix := fun A B f m w => let '(a, w) := m w in f a w.

Definition get {A} (f : IndexState -> A) : Ix A := fun w => (f (w_state w), w).
Definition modify (f : IndexState -> IndexState) : Ix unit :=
  fun w => (tt, mkWorld (f (w_state w)) (w_out w)).
(** [if let]: run a computation only when there is a value. *)
Definition when (b : bool) (m : Ix unit) : Ix unit := if b then m else mret tt.

(** What an OPEN commits about its newborn vault. *)
Record Birth : Type := mkBirth {
  bi_issuer_input : nat; bi_debt : Obol.t; bi_last_height : BlockHeight.t
}.

Section Apply.
Context `{Lib, XOnlyParse} (ctx : Ctx) (owners : list XOnlyPublicKey) (height : Z) (tx : Transaction).

Abbreviation txid := (txid_of tx).
Abbreviation a := (ctx_artifacts ctx).
Abbreviation p := (ctx_params ctx).

Definition push (e : Event) : Ix unit :=
  fun w => (tt, mkWorld (w_state w) (w_out w ++ [mkNotice height txid e])).

Definition mark_lost (vop : OutPoint) (reason : string) : Ix unit :=
  modify (with_vaults (delete vop));;
  modify (with_lost (<[vop := mkLost txid reason]>));;
  push (VaultLost vop reason).

(** *** Singleton following *)

Definition follow_pot : Ix (option (OutPoint * Obol.t)) :=
  match locate_counted tx (pot_spk a) (obol p) with
  | Some (vout, value, extra) =>
      when extra (push (Fragment "pot"));;
      let op := mkOutPoint txid vout in
      modify (with_pot (Some (mkOn thePot op (Obol.new value))));;
      mret (Some (op, Obol.new value))
  | None =>
      modify (with_pot None);;
      push (Anomaly "pot spent without a successor at its spk");;
      mret None
  end.

Definition follow_reserve : Ix (option (OutPoint * Sats.t)) :=
  match locate_counted tx (stability_spk a) (policy p) with
  | Some (vout, value, extra) =>
      when extra (push (Fragment "reserve"));;
      let op := mkOutPoint txid vout in
      modify (with_reserve (Some (mkOn theReserve op (Sats.new value))));;
      mret (Some (op, Sats.new value))
  | None =>
      modify (with_reserve None);;
      push (Anomaly "reserve spent without a successor at its spk");;
      mret None
  end.

Definition follow_singletons (pot_in reserve_in : option nat) : Ix unit :=
  when (bool_decide (is_Some pot_in)) (follow_pot;; mret tt);;
  when (bool_decide (is_Some reserve_in)) (follow_reserve;; mret tt).

(** The pot delta of minting ops: old value minus the successor's. *)
Definition pot_delta_shrink : Ix (option Obol.t) :=
  pot ← get ix_pot;
  match pot with
  | None => mret None
  | Some old =>
      new ← follow_pot;
      match new with
      | None => mret None
      | Some (_, new) =>
          match Obol.checked_sub (oc_value old) new with
          | Ok d => if 0 <? Obol.raw d then mret (Some d)
                    else push (Anomaly "mint op without a pot shrink");; mret None
          | Err _ => push (Anomaly "mint op without a pot shrink");; mret None
          end
      end
  end.

(** The pot delta of repayment ops: the successor's value minus the old. *)
Definition pot_delta_grow : Ix (option Obol.t) :=
  pot ← get ix_pot;
  match pot with
  | None => mret None
  | Some old =>
      new ← follow_pot;
      match new with
      | None => mret None
      | Some (_, new) =>
          match Obol.checked_sub new (oc_value old) with
          | Ok d => if 0 <? Obol.raw d then mret (Some d)
                    else push (Anomaly "repayment op without a pot grow");; mret None
          | Err _ => push (Anomaly "repayment op without a pot grow");; mret None
          end
      end
  end.

(** *** Births and successors *)

Definition vault_born (b : Birth) : Ix unit :=
  match output tx with
  | [] => push (Anomaly "OPEN without outputs")
  | out0 :: _ =>
      match explicit out0 (policy p) with
      | None => push (Anomaly "OPEN vault output not explicit policy")
      | Some value =>
          let matches cand :=
            bool_decide (vault_spk a (mkVault (bi_debt b) cand (bi_last_height b)) = to_spk out0) in
          let owner :=
            match find_some (fun c => if matches c then Some c else None) owners with
            | Some c => Some c
            | None => scan_witness_for_owner tx (bi_issuer_input b) matches
            end in
          let vault := mkOutPoint txid 0 in
          modify (with_vaults (<[vault := mkTracked (bi_debt b) (bi_last_height b)
            (Sats.new value) owner (to_spk out0)]>));;
          push (Opened vault (bi_debt b) (Sats.new value) (bi_last_height b) owner)
      end
  end.

Definition vault_successor (vop : OutPoint) (next : TrackedVault) (event : OutPoint -> Event)
    : Ix unit :=
  match output tx with
  | [] => mark_lost vop "vault transition without outputs"
  | out0 :: _ =>
      match explicit out0 (policy p) with
      | None => mark_lost vop "vault successor not explicit policy"
      | Some value =>
          let mismatch :=
            match tv_owner next with
            | Some owner => bool_decide
                (vault_spk a (mkVault (tv_debt next) owner (tv_last_height next)) <> to_spk out0)
            | None => false
            end in
          if mismatch then mark_lost vop "successor spk mismatch"
          else
            let successor := mkOutPoint txid 0 in
            modify (with_vaults (<[successor := mkTracked (tv_debt next) (tv_last_height next)
              (Sats.new value) (tv_owner next) (to_spk out0)]>));;
            push (event successor)
      end
  end.

(** [TrackedVault { debt, last_height, ..v }] *)
Definition tracked_with (v : TrackedVault) (debt : Obol.t) (h : BlockHeight.t) : TrackedVault :=
  mkTracked debt h (tv_value v) (tv_owner v) (tv_spk v).

(** *** Issuer-gated ops *)

(** The arm of an issuer spend, by the successor output of the token. *)
Definition issuer_arm (idx : nat) (pot_in reserve_in : option nat)
    (vault_in : list (nat * OutPoint)) (anchor : BlockHeight.t) (vout : Z) : Ix unit :=
  let anomaly what := push (Anomaly what);; follow_singletons pot_in reserve_in in
  let pot_before := bool_decide (idx = 0%nat) || bool_decide (pot_in <> Some (idx - 1)%nat) in
  if vout =? 0 then
    if negb (bool_decide (idx = 0%nat)) then anomaly "POKE-shaped issuer spend off input 0"%string
    else push (Poked anchor)
  else if vout =? 4 then
    if pot_before || bool_decide (reserve_in <> Some 3%nat)
    then anomaly "OPEN-shaped issuer spend without pot/reserve pins"%string
    else
      minted ← pot_delta_shrink;
      match minted with
      | None => mret tt
      | Some minted => follow_reserve;; vault_born (mkBirth idx minted anchor)
      end
  else if vout =? 3 then
    match reserve_in with
    | None =>
        match vault_in with
        | (0%nat, vop) :: _ =>
            if pot_before
            then anomaly "DRAW-shaped issuer spend without vault/pot pins"%string
            else
              amount ← pot_delta_shrink;
              match amount with
              | None => mret tt
              | Some amount =>
                  v ← get (fun st => ix_vaults st !! vop);
                  modify (with_vaults (delete vop));;
                  match v with
                  | None => mret tt
                  | Some v =>
                      vault_successor vop
                        (tracked_with v (Obol.new (u64_sat_add (Obol.raw (tv_debt v)) (Obol.raw amount)))
                           anchor)
                        (fun successor => Drawn vop successor amount)
                  end
              end
        | _ => anomaly "DRAW-shaped issuer spend without vault/pot pins"%string
        end
    | Some r =>
        match vault_in with
        | (0%nat, vop) :: _ =>
            if negb (bool_decide (idx = 4%nat)) || bool_decide (pot_in <> Some 1%nat) ||
               negb (bool_decide (r = 3%nat))
            then anomaly "ATTEST-shaped issuer spend without pins"%string
            else
              follow_pot;; follow_reserve;;
              modify (with_vaults (delete vop));;
              push (BadDebtClosed vop)
        | _ => anomaly "ATTEST-shaped issuer spend without pins"%string
        end
    end
  else anomaly "issuer token at an unpinned successor output"%string.

(** The candidate anchor whose issuer address the transaction pays one token to. *)
Definition issuer_candidate (h : Z) : option (BlockHeight.t * Z) :=
  match locate tx (issuer_spk a (mkIssuer (BlockHeight.new h))) (issuer_token p) with
  | Some (vout, 1) => Some (BlockHeight.new h, vout)
  | _ => None
  end.

Definition issuer_op (idx : nat) (pot_in reserve_in : option nat)
    (vault_in : list (nat * OutPoint)) : Ix unit :=
  issuer ← get ix_issuer;
  match issuer with
  | None => mret tt
  | Some prev =>
      let floor := BlockHeight.raw (last_mint_height (state prev)) in
      let cap := Z.min (lock_time tx) height in
      match scan_range issuer_candidate floor cap with
      | None =>
          modify (with_issuer None);;
          push (Anomaly "issuer successor not found at any candidate anchor")
      | Some (anchor, vout) =>
          modify (with_issuer (Some (mkOn (mkIssuer anchor) (mkOutPoint txid vout) 1)));;
          issuer_arm idx pot_in reserve_in vault_in anchor vout
      end
  end.

(** *** Vault ops without the issuer *)

(** The freshness height a resolved vault's REFRESH committed. *)
Definition refresh_height (v : TrackedVault) (owner : XOnlyPublicKey) (out0 : TxOut) (cap : Z)
    : option Z :=
  scan_range (fun h =>
      if bool_decide (vault_spk a (mkVault (tv_debt v) owner (BlockHeight.new h)) = to_spk out0)
      then Some h else None)
    (u32_sat_add (BlockHeight.raw (tv_last_height v)) 1) cap.

Definition vault_op (vop : OutPoint) (pot_in reserve_in : option nat) : Ix unit :=
  v ← get (fun st => ix_vaults st !! vop);
  match v with
  | None => mret tt
  | Some v =>
      let after amount := Obol.new (u64_sat_sub (Obol.raw (tv_debt v)) (Obol.raw amount)) in
      match length (input tx), pot_in, reserve_in with
      | 2%nat, None, None =>
          let cap := Z.min (lock_time tx) height in
          modify (with_vaults (delete vop));;
          let refreshed h :=
            vault_successor vop (tracked_with v (tv_debt v) h)
              (fun successor => Refreshed vop successor h) in
          match tv_owner v, output tx with
          | Some owner, out0 :: _ =>
              match refresh_height v owner out0 cap with
              | None => mark_lost vop "successor spk mismatch"
              | Some h => refreshed (BlockHeight.new h)
              end
          | _, _ => refreshed (BlockHeight.new cap)
          end
      | 3%nat, Some 1%nat, None =>
          follow_pot;;
          modify (with_vaults (delete vop));;
          push (Closed vop)
      | 4%nat, Some 1%nat, None =>
          amount ← pot_delta_grow;
          match amount with
          | None => mark_lost vop "REPAY-shaped spend without a pot successor"
          | Some amount =>
              modify (with_vaults (delete vop));;
              vault_successor vop (tracked_with v (after amount) (tv_last_height v))
                (fun successor => Repaid vop successor amount)
          end
      | 4%nat, Some 1%nat, Some 3%nat =>
          amount ← pot_delta_grow;
          match amount with
          | None => mark_lost vop "liq-shaped spend without a pot successor"
          | Some amount =>
              follow_reserve;;
              modify (with_vaults (delete vop));;
              let removed :=
                match tv_owner v with
                | Some owner => negb (spk_at_output0 tx
                    (vault_spk a (mkVault (after amount) owner (tv_last_height v))) (policy p))
                | None => bool_decide (amount = tv_debt v)
                end in
              if removed then
                if bool_decide (amount <> tv_debt v)
                then mark_lost vop "liq-family spend with no successor and a surviving debt"
                else push (FullyLiquidated vop)
              else
                vault_successor vop (tracked_with v (after amount) (tv_last_height v))
                  (fun successor => Deleveraged vop successor amount)
          end
      | _, _, _ =>
          mark_lost vop "vault spent outside any covenant layout";;
          follow_singletons pot_in reserve_in
      end
  end.

(** *** Non-protocol transactions *)

(** The inner loop of [issuer_birth] over one issuance of the token. *)
Definition birth_anchor (out : TxOut) : option Z :=
  scan_range (fun h =>
      if bool_decide (issuer_spk a (mkIssuer (BlockHeight.new h)) = to_spk out) then Some h else None)
    0 height.

Fixpoint issuer_birth (vout : Z) (outs : list TxOut) : Ix unit :=
  match outs with
  | [] => mret tt
  | out :: outs =>
      if bool_decide (explicit out (issuer_token p) <> Some 1) then issuer_birth (vout + 1) outs
      else
        match birth_anchor out with
        | Some h =>
            let outpoint := mkOutPoint txid vout in
            modify (with_issuer (Some (mkOn (mkIssuer (BlockHeight.new h)) outpoint 1)));;
            push (IssuerBorn outpoint (BlockHeight.new h))
        | None =>
            push (Anomaly "issuer token issued at an underivable spk");;
            issuer_birth (vout + 1) outs
        end
  end.

Definition pot_payment : Ix unit :=
  pot ← get ix_pot;
  match pot, locate tx (pot_spk a) (obol p) with
  | None, Some (vout, value) =>
      let outpoint := mkOutPoint txid vout in
      modify (with_pot (Some (mkOn thePot outpoint (Obol.new value))));;
      push (PotBorn outpoint (Obol.new value))
  | Some _, Some _ => push (Fragment "pot")
  | _, None => mret tt
  end.

Definition reserve_payment : Ix unit :=
  reserve ← get ix_reserve;
  match reserve, locate tx (stability_spk a) (policy p) with
  | None, Some (vout, value) =>
      let outpoint := mkOutPoint txid vout in
      modify (with_reserve (Some (mkOn theReserve outpoint (Sats.new value))));;
      push (ReserveBorn outpoint (Sats.new value))
  | Some _, Some _ => push (Fragment "reserve")
  | _, None => mret tt
  end.

Definition issuer_payment : Ix unit :=
  issuer ← get ix_issuer;
  match issuer with
  | Some issuer =>
      when (bool_decide (is_Some (locate tx (issuer_spk a (state issuer)) (issuer_token p))))
        (push (Fragment "issuer"))
  | None => issuer_birth 0 (output tx)
  end.

Definition non_protocol_tx : Ix unit := pot_payment;; reserve_payment;; issuer_payment.

(** *** One transaction *)

Fixpoint tracked_inputs (n : nat) (vaults : gmap OutPoint TrackedVault) (l : list TxIn)
    : list (nat * OutPoint) :=
  match l with
  | [] => []
  | i :: l =>
      let rest := tracked_inputs (S n) vaults l in
      match vaults !! previous_output i with
      | Some _ => (n, previous_output i) :: rest
      | None => rest
      end
  end.

Fixpoint lose_all (l : list (nat * OutPoint)) : Ix unit :=
  match l with
  | [] => mret tt
  | (_, op) :: l => mark_lost op "vault spent outside any covenant layout";; lose_all l
  end.

Definition apply_body : Ix unit :=
  issuer ← get ix_issuer; pot ← get ix_pot; reserve ← get ix_reserve; vaults ← get ix_vaults;
  let issuer_in := i ← issuer; input_index tx (outpoint i) in
  let pot_in := q ← pot; input_index tx (outpoint q) in
  let reserve_in := r ← reserve; input_index tx (outpoint r) in
  let vault_in := tracked_inputs 0 vaults (input tx) in
  match issuer_in, pot_in, reserve_in, vault_in with
  | None, None, None, [] => non_protocol_tx
  | Some idx, _, _, _ => issuer_op idx pot_in reserve_in vault_in
  | None, _, _, (vidx, vop) :: more =>
      if negb (bool_decide (more = [])) || negb (bool_decide (vidx = 0%nat))
      then lose_all vault_in;; follow_singletons pot_in reserve_in
      else vault_op vop pot_in reserve_in
  | None, _, _, [] =>
      when (bool_decide (is_Some pot_in))
        (r ← follow_pot; match r with Some (_, v) => push (PotGrew v) | None => mret tt end);;
      when (bool_decide (is_Some reserve_in))
        (r ← follow_reserve; match r with Some (_, v) => push (ReserveGrew v) | None => mret tt end)
  end.

Definition apply_tx (st : IndexState) : IndexState * list Notice :=
  let '(_, w) := apply_body (mkWorld st []) in (w_state w, w_out w).

End Apply.
