(* ===== verification/IndexSpec.v ===== *)
(** * What the index promises

    [tracks]: every singleton and every vault the index holds is an output of a transaction
    it was given, at the address its recorded state derives and with its recorded value.
    [apply_tx] keeps it on every layout.  Computations are checked piecewise with [keeps],
    the index monad's Hoare triple for this invariant. *)

From Stdlib Require Import ZArith Lia.
From stdpp Require Import base gmap strings option list.
From S2P Require Import Prelude Units CrMath Elements Oracle Simf Encode Domain Artifacts Jets.
From S2P Require Import CovVault CovReserve CovIssuer Plan Index.

(** ** Outputs found by the layout helpers *)

(** The output [op] of one of the transactions pays (spk, asset) this value. *)
Definition paid `{Lib} (txs : list Transaction) (op : OutPoint) (value : Z) (spk : Script)
    (asset : AssetId) : Prop :=
  exists tx o, tx ∈ txs /\ op_txid op = txid_of tx /\ 0 <= op_vout op /\
    output tx !! Z.to_nat (op_vout op) = Some o /\ to_spk o = spk /\ explicit o asset = Some value.

Lemma hits_from_sound k outs spk asset vout value :
  (vout, value) ∈ hits_from k outs spk asset ->
  k <= vout /\ exists o, outs !! Z.to_nat (vout - k) = Some o /\ to_spk o = spk /\
    explicit o asset = Some value.
Proof.
  revert k. induction outs as [|o outs IH]; intros k; cbn [hits_from]; [by intros ?%not_elem_of_nil|].
  assert (Htl : (vout, value) ∈ hits_from (k + 1) outs spk asset ->
    k <= vout /\ exists o', (o :: outs) !! Z.to_nat (vout - k) = Some o' /\ to_spk o' = spk /\
      explicit o' asset = Some value).
  { intros (Hk & o' & Ho & ?)%IH. split; [lia|]. exists o'.
    by replace (Z.to_nat (vout - k)) with (S (Z.to_nat (vout - (k + 1)))) by lia. }
  case_bool_decide; [|done]. destruct (explicit o asset) as [v|] eqn:He; [|done].
  rewrite elem_of_cons. intros [[= -> ->] | ?]; [|by apply Htl].
  split; [lia|]. exists o. by rewrite Z.sub_diag.
Qed.

Lemma locate_counted_sound tx spk asset vout value extra :
  locate_counted tx spk asset = Some (vout, value, extra) ->
  0 <= vout /\ exists o, output tx !! Z.to_nat vout = Some o /\ to_spk o = spk /\
    explicit o asset = Some value.
Proof.
  unfold locate_counted. destruct (hits_from _ _ _ _) as [|[v x] more] eqn:E; [done|].
  intros [= -> -> _]. destruct (hits_from_sound 0 (output tx) spk asset vout value) as [? Ho].
  - rewrite E. apply elem_of_cons. by left.
  - by rewrite Z.sub_0_r in Ho.
Qed.

Lemma locate_sound tx spk asset vout value :
  locate tx spk asset = Some (vout, value) ->
  0 <= vout /\ exists o, output tx !! Z.to_nat vout = Some o /\ to_spk o = spk /\
    explicit o asset = Some value.
Proof.
  unfold locate. destruct (locate_counted tx spk asset) as [[[v x] e]|] eqn:E; [|done].
  cbn. intros [= -> ->]. by eapply locate_counted_sound.
Qed.

Lemma scan_down_sound {A} (f : Z -> option A) h n a :
  scan_down f h n = Some a -> exists i, h - Z.of_nat n < i <= h /\ f i = Some a.
Proof.
  revert h. induction n as [|n IH]; intros h; cbn [scan_down]; [done|].
  destruct (f h) as [x|] eqn:E; [intros [= ->]; exists h; split; [lia|done]|].
  intros (i & ? & ?)%IH. exists i. split; [lia|done].
Qed.

Lemma scan_range_sound {A} (f : Z -> option A) lo hi a :
  scan_range f lo hi = Some a -> exists i, lo <= i <= hi /\ f i = Some a.
Proof. intros (i & ? & ?)%scan_down_sound. exists i. split; [lia|done]. Qed.

Lemma find_some_sound {A B} (f : A -> option B) l b : find_some f l = Some b -> exists a, f a = Some b.
Proof.
  induction l as [|a l IH]; cbn [find_some]; [done|]. destruct (f a) eqn:E; [|done].
  intros [= ->]. eauto.
Qed.

(** ** The invariant *)

Section Tracks.
Context `{Lib} (ctx : Ctx).
Abbreviation a := (ctx_artifacts ctx).
Abbreviation p := (ctx_params ctx).

Definition vault_tracked (txs : list Transaction) (op : OutPoint) (v : TrackedVault) : Prop :=
  op_vout op = 0 /\ paid txs op (Sats.raw (tv_value v)) (tv_spk v) (policy p) /\
  forall o, tv_owner v = Some o ->
    tv_spk v = vault_spk a (mkVault (tv_debt v) o (tv_last_height v)).

Record tracks (txs : list Transaction) (st : IndexState) : Prop := {
  tr_pot q : ix_pot st = Some q ->
    paid txs (outpoint q) (Obol.raw (oc_value q)) (pot_spk a) (obol p);
  tr_reserve r : ix_reserve st = Some r ->
    paid txs (outpoint r) (Sats.raw (oc_value r)) (stability_spk a) (policy p);
  tr_issuer i : ix_issuer st = Some i ->
    oc_value i = 1 /\ paid txs (outpoint i) 1 (issuer_spk a (state i)) (issuer_token p);
  tr_vaults op v : ix_vaults st !! op = Some v -> vault_tracked txs op v
}.

Lemma paid_mono txs txs' op v spk asset :
  txs ⊆ txs' -> paid txs op v spk asset -> paid txs' op v spk asset.
Proof. intros Hs (tx & o & Hin & ?). exists tx, o. split; [by apply Hs|done]. Qed.

Lemma tracks_mono txs txs' st : txs ⊆ txs' -> tracks txs st -> tracks txs' st.
Proof.
  intros Hs [Hp Hr Hi Hv]. split.
  - intros q Hq. eapply paid_mono; eauto.
  - intros q Hq. eapply paid_mono; eauto.
  - intros q Hq. destruct (Hi q Hq). split; [done|]. eapply paid_mono; eauto.
  - intros op v Hov. destruct (Hv op v Hov) as (? & ? & ?). split_and!; [done| |done].
    eapply paid_mono; eauto.
Qed.

End Tracks.

(** ** Keeping it, computation by computation *)

Section Keeps.
Context `{Lib, XOnlyParse} (ctx : Ctx) (owners : list XOnlyPublicKey) (height : Z) (tx : Transaction).
Context (txs : list Transaction) (Hin : tx ∈ txs).
Abbreviation a := (ctx_artifacts ctx).
Abbreviation p := (ctx_params ctx).

Definition keeps {A} (m : Ix A) : Prop :=
  forall w, tracks ctx txs (w_state w) -> tracks ctx txs (w_state (m w).2).

Lemma keeps_ret {A} (x : A) : keeps (mret x).
Proof. by intros w. Qed.
Lemma keeps_bind {A B} (m : Ix A) (f : A -> Ix B) : keeps m -> (forall x, keeps (f x)) -> keeps (m ≫= f).
Proof.
  intros Hm Hf w Hw. specialize (Hm w Hw). unfold mbind, ix_bind. destruct (m w) as [x w'].
  by apply Hf.
Qed.
Lemma keeps_get {A} (f : IndexState -> A) : keeps (get f).
Proof. by intros w. Qed.
Lemma keeps_push e : keeps (push height tx e).
Proof. by intros w. Qed.
Lemma keeps_when b m : keeps m -> keeps (when b m).
Proof. intros Hm. destruct b; [done|apply keeps_ret]. Qed.
Lemma keeps_modify f :
  (forall st, tracks ctx txs st -> tracks ctx txs (f st)) -> keeps (modify f).
Proof. intros Hf w Hw. by apply Hf. Qed.

(** An output of this transaction is paid by one of the transactions. *)
Lemma paid_here vout o spk asset value :
  0 <= vout -> output tx !! Z.to_nat vout = Some o -> to_spk o = spk ->
  explicit o asset = Some value -> paid txs (mkOutPoint (txid_of tx) vout) value spk asset.
Proof. intros ? ? ? ?. exists tx, o. done. Qed.

Lemma keeps_pot q :
  (forall x, q = Some x -> paid txs (outpoint x) (Obol.raw (oc_value x)) (pot_spk a) (obol p)) ->
  keeps (modify (with_pot q)).
Proof. intros Hq. apply keeps_modify. intros st []. by split. Qed.
Lemma keeps_reserve q :
  (forall x, q = Some x -> paid txs (outpoint x) (Sats.raw (oc_value x)) (stability_spk a) (policy p)) ->
  keeps (modify (with_reserve q)).
Proof. intros Hq. apply keeps_modify. intros st []. by split. Qed.
Lemma keeps_issuer q :
  (forall x, q = Some x -> oc_value x = 1 /\
     paid txs (outpoint x) 1 (issuer_spk a (state x)) (issuer_token p)) ->
  keeps (modify (with_issuer q)).
Proof. intros Hq. apply keeps_modify. intros st []. by split. Qed.
Lemma keeps_delete op : keeps (modify (with_vaults (delete op))).
Proof.
  apply keeps_modify. intros st []. split; [done..|]. cbn. intros op' v Hv.
  apply lookup_delete_Some in Hv as [? ?]. auto.
Qed.
Lemma keeps_insert op v :
  vault_tracked ctx txs op v -> keeps (modify (with_vaults (<[op := v]>))).
Proof.
  intros Ht. apply keeps_modify. intros st []. split; [done..|]. cbn. intros op' v' Hv.
  apply lookup_insert_Some in Hv as [[<- <-] | [? ?]]; auto.
Qed.
Lemma keeps_with_lost f : keeps (modify (with_lost f)).
Proof. apply keeps_modify. intros st []. by split. Qed.

Create HintDb ix.
Hint Resolve keeps_ret keeps_get keeps_push keeps_when keeps_delete keeps_with_lost : ix.
Ltac keeps :=
  repeat first
    [ progress auto with ix
    | apply keeps_bind; [|intros ?]
    | match goal with |- context [match ?x with _ => _ end] => destruct x eqn:? end ].

Lemma keeps_mark_lost op r : keeps (mark_lost height tx op r).
Proof. unfold mark_lost. keeps. Qed.
Lemma keeps_follow_pot : keeps (follow_pot ctx height tx).
Proof.
  unfold follow_pot. destruct (locate_counted _ _ _) as [[[v x] e]|] eqn:E.
  - apply locate_counted_sound in E as (? & o & ? & ? & ?). keeps.
    apply keeps_pot. intros ? [= <-]. by eapply paid_here.
  - keeps. by apply keeps_pot.
Qed.
Lemma keeps_follow_reserve : keeps (follow_reserve ctx height tx).
Proof.
  unfold follow_reserve. destruct (locate_counted _ _ _) as [[[v x] e]|] eqn:E.
  - apply locate_counted_sound in E as (? & o & ? & ? & ?). keeps.
    apply keeps_reserve. intros ? [= <-]. by eapply paid_here.
  - keeps. by apply keeps_reserve.
Qed.
Hint Resolve keeps_mark_lost keeps_follow_pot keeps_follow_reserve : ix.

Lemma keeps_follow_singletons pi ri : keeps (follow_singletons ctx height tx pi ri).
Proof. unfold follow_singletons. keeps; apply keeps_when; keeps. Qed.
Lemma keeps_shrink : keeps (pot_delta_shrink ctx height tx).
Proof. unfold pot_delta_shrink. keeps. Qed.
Lemma keeps_grow : keeps (pot_delta_grow ctx height tx).
Proof. unfold pot_delta_grow. keeps. Qed.
Hint Resolve keeps_follow_singletons keeps_shrink keeps_grow : ix.

Lemma keeps_vault_successor op next e : keeps (vault_successor ctx height tx op next e).
Proof.
  unfold vault_successor. destruct (output tx) as [|o outs] eqn:Ho; [keeps|].
  destruct (explicit o (policy p)) as [v|] eqn:He; [|keeps].
  assert (Hp : paid txs (mkOutPoint (txid_of tx) 0) v (to_spk o) (policy p))
    by (eapply paid_here; [done|by rewrite Ho|done|done]).
  destruct (match tv_owner next with Some _ => _ | None => _ end) eqn:Hm; keeps.
  apply keeps_insert. split_and!; [done..|]. cbn. intros k Hk. rewrite Hk in Hm.
  apply bool_decide_eq_false_1, dec_stable in Hm. done.
Qed.

Lemma keeps_vault_born b : keeps (vault_born ctx owners height tx b).
Proof.
  unfold vault_born. destruct (output tx) as [|o outs] eqn:Ho; [keeps|].
  destruct (explicit o (policy p)) as [v|] eqn:He; [|keeps].
  apply keeps_bind; [apply keeps_insert|intros _; apply keeps_push].
  split_and!; [done|by eapply paid_here; [|rewrite Ho|..]|]. cbn [tv_owner tv_spk tv_debt tv_last_height].
  intros k Hk. symmetry. destruct (find_some _ owners) as [c0|] eqn:Hf.
  - injection Hk as ->. apply find_some_sound in Hf as [c Hc]. case_bool_decide; [|done]. by simplify_eq.
  - unfold scan_witness_for_owner in Hk. destruct (input tx !! _); [|done]. cbn in Hk.
    apply find_some_sound in Hk as [el Hk]. unfold scan_element in Hk.
    destruct (_ && _); [|done]. apply find_some_sound in Hk as [bit Hk].
    destruct (_ && _) eqn:Hg; [|done]. boolz. by simplify_eq.
Qed.
Hint Resolve keeps_vault_successor keeps_vault_born : ix.

Lemma keeps_issuer_arm idx pi ri vi anchor vout :
  keeps (issuer_arm ctx owners height tx idx pi ri vi anchor vout).
Proof. unfold issuer_arm. keeps. Qed.
Hint Resolve keeps_issuer_arm : ix.

Lemma keeps_issuer_op idx pi ri vi : keeps (issuer_op ctx owners height tx idx pi ri vi).
Proof.
  unfold issuer_op. apply keeps_bind; [keeps|]. intros [prev|]; [|keeps].
  destruct (scan_range _ _ _) as [[anchor vout]|] eqn:E.
  - apply scan_range_sound in E as (i & _ & Hc). unfold issuer_candidate in Hc.
    destruct (locate _ _ _) as [[v x]|] eqn:El; [|done].
    apply locate_sound in El as (? & o & ? & ? & ?).
    assert (x = 1 /\ anchor = BlockHeight.new i /\ vout = v) as (-> & -> & ->)
      by (destruct x as [|[]|]; naive_solver).
    keeps. apply keeps_issuer. intros ? [= <-]. split; [done|]. by eapply paid_here.
  - keeps. by apply keeps_issuer.
Qed.

Lemma keeps_vault_op op pi ri : keeps (vault_op ctx height tx op pi ri).
Proof. unfold vault_op. keeps. Qed.

Lemma keeps_issuer_birth vout outs :
  0 <= vout -> (forall i, outs !! i = output tx !! (Z.to_nat vout + i)%nat) ->
  keeps (issuer_birth ctx height tx vout outs).
Proof.
  revert vout. induction outs as [|o outs IH]; intros vout Hv Ho; cbn [issuer_birth]; [keeps|].
  assert (Hn : keeps (issuer_birth ctx height tx (vout + 1) outs)).
  { apply IH; [lia|]. intros i. transitivity ((o :: outs) !! S i); [done|]. rewrite (Ho (S i)).
    f_equal. lia. }
  case_bool_decide as He; [done|].
  destruct (birth_anchor ctx height o) as [h|] eqn:Hb; [|keeps].
  apply scan_range_sound in Hb as (i & _ & Hi). case_bool_decide; [|done]. injection Hi as ->.
  keeps. apply keeps_issuer. intros ? [= <-]. split; [done|].
  apply (paid_here vout o); [done| |done|done].
  rewrite <- (Nat.add_0_r (Z.to_nat vout)), <- Ho. done.
Qed.

Lemma keeps_non_protocol : keeps (non_protocol_tx ctx height tx).
Proof.
  unfold non_protocol_tx, pot_payment, reserve_payment, issuer_payment.
  apply keeps_bind; [|intros _; apply keeps_bind; [|intros _]].
  - keeps. apply keeps_pot. intros ? [= <-]. cbn.
    match goal with E : locate _ _ _ = Some _ |- _ => apply locate_sound in E as (? & ? & ? & ? & ?) end.
    by eapply paid_here.
  - keeps. apply keeps_reserve. intros ? [= <-]. cbn.
    match goal with E : locate _ _ _ = Some _ |- _ => apply locate_sound in E as (? & ? & ? & ? & ?) end.
    by eapply paid_here.
  - keeps. by apply keeps_issuer_birth.
Qed.

Lemma keeps_lose_all l : keeps (lose_all height tx l).
Proof. induction l as [|[n op] l IH]; cbn [lose_all]; keeps. Qed.
Hint Resolve keeps_issuer_op keeps_vault_op keeps_non_protocol keeps_lose_all : ix.

Lemma keeps_apply_body : keeps (apply_body ctx owners height tx).
Proof. unfold apply_body. keeps; apply keeps_when; keeps. Qed.

End Keeps.

(** C4: Nothing false enters the index: when all it holds is paid for by the transactions seen
    so far, applying one more transaction, whatever its layout, leaves every singleton at
    its address with its value, and every vault with a resolved owner at the address its
    debt, owner and freshness height derive. *)
Theorem apply_tx_tracks `{Lib, XOnlyParse} (ctx : Ctx) (owners : list XOnlyPublicKey) (height : Z)
    (tx : Transaction) (txs : list Transaction) (st : IndexState) :
  tracks ctx txs st -> tracks ctx (tx :: txs) (apply_tx ctx owners height tx st).1.
Proof.
  intros Ht. unfold apply_tx.
  pose proof (keeps_apply_body ctx owners height tx (tx :: txs) ltac:(by apply elem_of_cons; left)
    (mkWorld st [])) as Hk.
  destruct (apply_body _ _ _ _ _) as [u w]. apply Hk. cbn. eapply tracks_mono; [|exact Ht].
  by intros t ?; apply elem_of_cons; right.
Qed.
