(* ===== verification/IndexSim.v ===== *)
(** * The indexer follows the builders

    [index_follows]: an index in step with the protocol stays in step when it is given the
    transaction a builder produced, whatever witnesses finalization put in it.  [run]
    evaluates a computation of the index monad up to the notices it emits. *)

From Stdlib Require Import ZArith Lia.
From stdpp Require Import base gmap strings option list fin_maps.
From S2P Require Import Prelude Units CrMath Elements Oracle Simf Encode Domain Artifacts Jets.
From S2P Require Import CovVault CovReserve CovIssuer Plan BuildOwner BuildKeeper Accept.
From S2P Require Import CovLemmas CovAccept Sound SoundOwner SoundKeeper Pset Protocol Index.
From S2P Require Import IndexSpec.

(** The vault's successor is where the indexer looks for it. *)
Lemma spk_at_output0_txout tx v spk asset outs :
  output tx = txout v spk asset :: outs -> spk_at_output0 tx spk asset = true.
Proof.
  intros Ho. unfold spk_at_output0. rewrite Ho. cbn [to_spk txout].
  apply andb_true_iff. split; apply bool_decide_eq_true_2; [done|].
  unfold explicit. cbn. rewrite bool_decide_true by done. by eexists.
Qed.

(** ** Evaluating index computations *)

Definition run {A} (m : Ix A) (st : IndexState) (x : A) (st' : IndexState) : Prop :=
  forall out, exists out', m (mkWorld st out) = (x, mkWorld st' out').

Lemma run_ret {A} (x : A) st : run (mret x) st x st.
Proof. intros out. by exists out. Qed.
Lemma run_bind {A B} (m : Ix A) (f : A -> Ix B) st x st1 y st2 :
  run m st x st1 -> run (f x) st1 y st2 -> run (m ≫= f) st y st2.
Proof.
  intros Hm Hf out. destruct (Hm out) as [out1 E]. unfold mbind, ix_bind. rewrite E. apply Hf.
Qed.
Lemma run_get {A} (f : IndexState -> A) st : run (get f) st (f st) st.
Proof. intros out. by exists out. Qed.
Lemma run_modify f st : run (modify f) st tt (f st).
Proof. intros out. by exists out. Qed.
Lemma run_push height tx e st `{Lib} : run (push height tx e) st tt st.
Proof. intros out. by eexists. Qed.
Lemma run_when_push b height tx e st `{Lib} : run (when b (push height tx e)) st tt st.
Proof. destruct b; [apply run_push|apply run_ret]. Qed.

(** ** Locating outputs *)

Lemma explicit_txout v spk x asset :
  explicit (txout v spk x) asset = if bool_decide (x = asset) then Some v else None.
Proof. done. Qed.
Lemma explicit_fee v x asset :
  explicit (fee_out v x) asset = if bool_decide (x = asset) then Some (Sats.raw v) else None.
Proof. done. Qed.

Lemma hits_skip k o outs spk asset :
  to_spk o <> spk \/ explicit o asset = None ->
  hits_from k (o :: outs) spk asset = hits_from (k + 1) outs spk asset.
Proof. cbn [hits_from]. case_bool_decide; [|done]. by intros [? | ->]. Qed.

Lemma hits_hit k v outs spk asset :
  hits_from k (txout v spk asset :: outs) spk asset = (k, v) :: hits_from (k + 1) outs spk asset.
Proof. cbn [hits_from to_spk txout]. rewrite explicit_txout, !bool_decide_true; done. Qed.

Lemma hits_locate tx spk asset vout v more :
  hits_from 0 (output tx) spk asset = (vout, v) :: more ->
  exists e, locate_counted tx spk asset = Some (vout, v, e).
Proof. intros E. unfold locate_counted. rewrite E. eauto. Qed.

Lemma hits_complete k outs i v spk asset :
  outs !! i = Some (txout v spk asset) -> (k + Z.of_nat i, v) ∈ hits_from k outs spk asset.
Proof.
  revert k i. induction outs as [|o outs IH]; intros k [|i] E; [done..| |].
  - injection E as ->. rewrite hits_hit, Z.add_0_r. apply elem_of_cons. by left.
  - replace (k + Z.of_nat (S i)) with (k + 1 + Z.of_nat i) by lia. apply (IH (k + 1)) in E.
    cbn [hits_from]. case_match; [apply elem_of_cons; by right|done].
Qed.

(** An address paid once is found where it is paid. *)
Lemma unique_hit outs i v spk asset :
  (length (hits_from 0 outs spk asset) <= 1)%nat -> outs !! i = Some (txout v spk asset) ->
  hits_from 0 outs spk asset = [(Z.of_nat i, v)].
Proof.
  intros Hl Hi%(hits_complete 0). destruct (hits_from 0 outs spk asset) as [|x [|y l]]; cbn in Hl; [|..|lia].
  - by apply not_elem_of_nil in Hi.
  - apply list_elem_of_singleton in Hi. by rewrite <- Hi.
Qed.

Lemma scan_range_first {A} (f : Z -> option A) lo hi x :
  lo <= hi -> f hi = Some x -> scan_range f lo hi = Some x.
Proof.
  intros Hl Hf. unfold scan_range. destruct (Z.to_nat (hi - lo + 1)) eqn:E; [lia|]. cbn. by rewrite Hf.
Qed.

Lemma find_some_some {A B} (f : A -> option B) l y :
  find_some f l = Some y -> exists x, x ∈ l /\ f x = Some y.
Proof.
  induction l as [|x l IH]; cbn; [done|]. destruct (f x) as [y'|] eqn:E.
  - intros [= ->]. exists x. split; [apply list_elem_of_here|done].
  - intros (x' & Hx' & ?)%IH. exists x'. split; [by apply list_elem_of_further|done].
Qed.

Lemma find_some_hit {A B} (f : A -> option B) l x : x ∈ l -> is_Some (f x) -> is_Some (find_some f l).
Proof.
  induction l as [|x' l IH]; cbn; [by intros ?%not_elem_of_nil|]. intros [-> | Hx]%elem_of_cons Hf.
  - destruct Hf as [y ->]. eauto.
  - destruct (f x'); [eauto|by apply IH].
Qed.

(** ** Transactions with one body *)

Section SameBody.
Context `{HLib : Lib, !LibSpec HLib} (tx tx0 : Transaction) (Hb : body tx = body tx0).

Lemma same_output : output tx = output tx0.
Proof. by injection Hb. Qed.
Lemma same_lock : lock_time tx = lock_time tx0.
Proof. by injection Hb. Qed.
Lemma same_txid : txid_of tx = txid_of tx0.
Proof. by apply txid_body. Qed.
Lemma same_prevs : previous_output <$> input tx = previous_output <$> input tx0.
Proof.
  apply (f_equal input) in Hb. cbn in Hb. apply (f_equal (fmap previous_output)) in Hb.
  by rewrite <- !list_fmap_compose in Hb.
Qed.
Lemma same_inputs : length (input tx) = length (input tx0).
Proof. by apply body_length_input. Qed.

End SameBody.

Lemma position_prevs op l1 l2 :
  previous_output <$> l1 = previous_output <$> l2 -> position op l1 = position op l2.
Proof.
  revert l2. induction l1 as [|i l1 IH]; intros [|j l2] E; try done. injection E as Hi E. cbn.
  by rewrite Hi, (IH l2 E).
Qed.

Lemma tracked_prevs n vs l1 l2 :
  previous_output <$> l1 = previous_output <$> l2 -> tracked_inputs n vs l1 = tracked_inputs n vs l2.
Proof.
  revert n l2. induction l1 as [|i l1 IH]; intros n [|j l2] E; try done. injection E as Hi E. cbn.
  by rewrite Hi, (IH (S n) l2 E).
Qed.

Lemma tracked_none n vs l :
  Forall (fun i => vs !! previous_output i = None) l -> tracked_inputs n vs l = [].
Proof. revert n. induction l as [|i l IH]; intros n; [done|]. intros [Hi Hl]%Forall_cons. cbn. by rewrite Hi, IH. Qed.

(** ** Runs of the indexer's helpers *)

Section Runs.
Context `{HLib : Lib, XP : XOnlyParse} (ctx : Ctx) (owners : list XOnlyPublicKey) (height : Z)
  (tx : Transaction).
Abbreviation a := (ctx_artifacts ctx).
Abbreviation p := (ctx_params ctx).

Definition pot_moved (vout v : Z) (st : IndexState) : IndexState :=
  with_pot (Some (mkOn thePot (mkOutPoint (txid_of tx) vout) (Obol.new v))) st.
Definition reserve_moved (vout v : Z) (st : IndexState) : IndexState :=
  with_reserve (Some (mkOn theReserve (mkOutPoint (txid_of tx) vout) (Sats.new v))) st.

Lemma run_follow_pot st vout v more :
  hits_from 0 (output tx) (pot_spk a) (obol p) = (vout, v) :: more ->
  run (follow_pot ctx height tx) st (Some (mkOutPoint (txid_of tx) vout, Obol.new v))
    (pot_moved vout v st).
Proof.
  intros [e E]%hits_locate. unfold follow_pot. rewrite E.
  eapply run_bind; [apply run_when_push|]. eapply run_bind; [apply run_modify|apply run_ret].
Qed.

Lemma run_follow_reserve st vout v more :
  hits_from 0 (output tx) (stability_spk a) (policy p) = (vout, v) :: more ->
  run (follow_reserve ctx height tx) st (Some (mkOutPoint (txid_of tx) vout, Sats.new v))
    (reserve_moved vout v st).
Proof.
  intros [e E]%hits_locate. unfold follow_reserve. rewrite E.
  eapply run_bind; [apply run_when_push|]. eapply run_bind; [apply run_modify|apply run_ret].
Qed.

Lemma run_shrink st q vout v more :
  ix_pot st = Some q -> hits_from 0 (output tx) (pot_spk a) (obol p) = (vout, v) :: more ->
  v < Obol.raw (oc_value q) ->
  run (pot_delta_shrink ctx height tx) st (Some (Obol.new (Obol.raw (oc_value q) - v)))
    (pot_moved vout v st).
Proof.
  intros Hq Hh Hlt. eapply run_bind; [apply run_get|]. rewrite Hq.
  eapply run_bind; [by apply (run_follow_pot st vout v more)|].
  unfold Obol.checked_sub, u64_checked_sub. cbn [Obol.raw].
  rewrite (proj2 (Z.leb_le _ _)) by (by apply Z.lt_le_incl).
  cbn [fmap option_fmap option_map ok_or Obol.raw].
  rewrite (proj2 (Z.ltb_lt _ _)) by (by apply Z.lt_0_sub). apply run_ret.
Qed.

Lemma run_grow st q vout v more :
  ix_pot st = Some q -> hits_from 0 (output tx) (pot_spk a) (obol p) = (vout, v) :: more ->
  Obol.raw (oc_value q) < v ->
  run (pot_delta_grow ctx height tx) st (Some (Obol.new (v - Obol.raw (oc_value q))))
    (pot_moved vout v st).
Proof.
  intros Hq Hh Hlt. eapply run_bind; [apply run_get|]. rewrite Hq.
  eapply run_bind; [by apply (run_follow_pot st vout v more)|].
  unfold Obol.checked_sub, u64_checked_sub. cbn [Obol.raw].
  rewrite (proj2 (Z.leb_le _ _)) by (by apply Z.lt_le_incl).
  cbn [fmap option_fmap option_map ok_or Obol.raw].
  rewrite (proj2 (Z.ltb_lt _ _)) by (by apply Z.lt_0_sub). apply run_ret.
Qed.

Lemma run_grow_none st q vout v more :
  ix_pot st = Some q -> hits_from 0 (output tx) (pot_spk a) (obol p) = (vout, v) :: more ->
  v = Obol.raw (oc_value q) ->
  run (pot_delta_grow ctx height tx) st None (pot_moved vout v st).
Proof.
  intros Hq Hh ->. eapply run_bind; [apply run_get|]. rewrite Hq.
  eapply run_bind; [by eapply run_follow_pot|].
  unfold Obol.checked_sub, u64_checked_sub. cbn [Obol.raw]. rewrite Z.leb_refl, Z.sub_diag.
  cbn [fmap option_fmap option_map ok_or Obol.raw Z.ltb Z.compare].
  eapply run_bind; [apply run_push|apply run_ret].
Qed.

Lemma run_mark_lost st vop reason :
  run (mark_lost height tx vop reason) st tt
    (with_lost (<[vop := mkLost (txid_of tx) reason]>) (with_vaults (delete vop) st)).
Proof. eapply run_bind; [apply run_modify|]. eapply run_bind; [apply run_modify|apply run_push]. Qed.

Definition vault_moved (v : TrackedVault) (st : IndexState) : IndexState :=
  with_vaults (<[mkOutPoint (txid_of tx) 0 := v]>) st.

Lemma run_successor st vop next e v spk outs o :
  output tx = txout v spk (policy p) :: outs -> tv_owner next = Some o ->
  vault_spk a (mkVault (tv_debt next) o (tv_last_height next)) = spk ->
  run (vault_successor ctx height tx vop next e) st tt
    (vault_moved (mkTracked (tv_debt next) (tv_last_height next) (Sats.new v) (Some o) spk) st).
Proof.
  intros Ho Hw Hs. unfold vault_successor. rewrite Ho, explicit_txout, bool_decide_true by done.
  rewrite Hw, Hs. cbn [to_spk txout]. rewrite bool_decide_false by auto.
  eapply run_bind; [apply run_modify|apply run_push].
Qed.

Lemma run_issuer_op st i idx pi ri vi h vout more st' :
  ix_issuer st = Some i -> lock_time tx = BlockHeight.raw h -> BlockHeight.raw h <= height ->
  BlockHeight.raw (last_mint_height (state i)) <= BlockHeight.raw h ->
  hits_from 0 (output tx) (issuer_spk a (mkIssuer h)) (issuer_token p) = (vout, 1) :: more ->
  run (issuer_arm ctx owners height tx idx pi ri vi h vout)
    (with_issuer (Some (mkOn (mkIssuer h) (mkOutPoint (txid_of tx) vout) 1)) st) tt st' ->
  run (issuer_op ctx owners height tx idx pi ri vi) st tt st'.
Proof.
  intros Hi Hl Hh Ha [e E]%hits_locate Hr. eapply run_bind; [apply run_get|]. rewrite Hi, Hl.
  cbv beta iota zeta. rewrite (scan_range_first _ _ _ (h, vout)).
  - eapply run_bind; [apply run_modify|exact Hr].
  - lia.
  - rewrite Z.min_l by done. unfold issuer_candidate, locate. rewrite <- (height_eta h), E. done.
Qed.

End Runs.

(** ** Dispatch *)

Section Dispatch.
Context `{HLib : Lib, XP : XOnlyParse} (ctx : Ctx) (owners : list XOnlyPublicKey) (height : Z)
  (tx : Transaction).

Definition pot_in (st : IndexState) : option nat := q ← ix_pot st; input_index tx (outpoint q).
Definition reserve_in (st : IndexState) : option nat := q ← ix_reserve st; input_index tx (outpoint q).
Definition issuer_in (st : IndexState) : option nat := q ← ix_issuer st; input_index tx (outpoint q).

Lemma run_apply_issuer st idx st' :
  issuer_in st = Some idx ->
  run (issuer_op ctx owners height tx idx (pot_in st) (reserve_in st)
         (tracked_inputs 0 (ix_vaults st) (input tx))) st tt st' ->
  run (apply_body ctx owners height tx) st tt st'.
Proof.
  intros Hi Hr. unfold apply_body. do 4 (eapply run_bind; [apply run_get|]).
  fold (issuer_in st) (pot_in st) (reserve_in st). by rewrite Hi.
Qed.

Lemma run_apply_vault st vop st' :
  issuer_in st = None -> tracked_inputs 0 (ix_vaults st) (input tx) = [(0%nat, vop)] ->
  run (vault_op ctx height tx vop (pot_in st) (reserve_in st)) st tt st' ->
  run (apply_body ctx owners height tx) st tt st'.
Proof.
  intros Hi Hv Hr. unfold apply_body. do 4 (eapply run_bind; [apply run_get|]).
  fold (issuer_in st) (pot_in st) (reserve_in st). rewrite Hi, Hv.
  rewrite !bool_decide_true by done. cbn [negb orb].
  destruct (pot_in st), (reserve_in st); exact Hr.
Qed.

Lemma run_apply_tx st st' :
  run (apply_body ctx owners height tx) st tt st' -> (apply_tx ctx owners height tx st).1 = st'.
Proof. intros Hr. unfold apply_tx. destruct (Hr []) as [out ->]. done. Qed.

End Dispatch.

(** ** In step *)

Definition tracked_of `{Lib} (ctx : Ctx) (v : OnChain VaultState) : TrackedVault :=
  mkTracked (debt (state v)) (last_height (state v)) (oc_value v) (Some (owner (state v)))
    (vault_spk (ctx_artifacts ctx) (state v)).

Record synced `{Lib} (ctx : Ctx) (s : Sys) (st : IndexState) : Prop := {
  sy_pot : ix_pot st = Some (pot (sys_protocol s));
  sy_reserve : ix_reserve st = Some (reserve (sys_protocol s));
  sy_issuer : ix_issuer st = Some (issuer (sys_protocol s));
  sy_vaults : ix_vaults st = tracked_of ctx <$> sys_vaults s
}.

(** What the indexer takes for granted of a transaction: the reserve address is paid once, a
    wallet payout at output 0 is at no vault address, and a vault liquidated in full owed
    something. *)
Record indexable `{Lib} (ctx : Ctx) (s' : Sys) (pl : TxPlan) : Prop := {
  ia_reserve : (length (hits_from 0 (output (p_tx pl)) (stability_spk (ctx_artifacts ctx))
    (policy (ctx_params ctx))) <= 1)%nat;
  ia_payout o x : output (p_tx pl) !! 0%nat = Some o ->
    to_spk o = vault_spk (ctx_artifacts ctx) x ->
    is_Some (sys_vaults s' !! mkOutPoint (plan_txid pl) 0);
  ia_amount sl : sl ∈ p_slots pl ->
    match ws_kind sl with
    | KVault x (VFullLiq _) => Obol.raw (debt x) <> 0
    | _ => True
    end
}.

(** The plan repays an amount of zero. *)
Definition repays_nothing (pl : TxPlan) : bool :=
  existsb (fun sl => match ws_kind sl with KVault _ (VRepay _ x) => Obol.raw x =? 0 | _ => false end)
    (p_slots pl).

(** Out of step by one vault: [v] lives on in [s'], at its successor, but the index lists it
    as lost and tracks it no more. *)
Record misses `{Lib} (ctx : Ctx) (s s' : Sys) (v : OnChain VaultState) (st : IndexState) : Prop := {
  mi_live : sys_vaults s !! outpoint v = Some v;
  mi_successor : exists v', sys_vaults s' = replace_vault v v' (sys_vaults s) /\ state v' = state v;
  mi_pot : ix_pot st = Some (pot (sys_protocol s'));
  mi_reserve : ix_reserve st = Some (reserve (sys_protocol s'));
  mi_issuer : ix_issuer st = Some (issuer (sys_protocol s'));
  mi_vaults : ix_vaults st = tracked_of ctx <$> delete (outpoint v) (sys_vaults s);
  mi_lost : is_Some (ix_lost st !! outpoint v)
}.

(** A key some 256-bit window of the witness of input [i] spells, as the indexer scans it. *)
Definition shown `{XOnlyParse} (tx : Transaction) (i : nat) (k : XOnlyPublicKey) : Prop :=
  exists t element bit, input tx !! i = Some t /\ element ∈ script_witness t /\
    (32 <= length element <= OWNER_SCAN_MAX_ELEMENT)%nat /\ (bit <= length element * 8 - 256)%nat /\
    window element bit = k /\ valid_xonly k = true.

(** The owner of a newborn vault can be told: it is one of the candidates, or the issuer
    input's witness shows it; and no other key among those derives the vault's address. *)
Definition owner_resolves `{Lib, XOnlyParse} (ctx : Ctx) (owners : list XOnlyPublicKey)
    (tx : Transaction) (v : OnChain VaultState) : Prop :=
  let candidate c := c ∈ owners \/ shown tx 1 c in
  candidate (owner (state v)) /\
  forall c, candidate c ->
    vault_spk (ctx_artifacts ctx) (mkVault (debt (state v)) c (last_height (state v))) =
      vault_spk (ctx_artifacts ctx) (state v) -> c = owner (state v).

(** The vault an operation gives birth to. *)
Definition newborn (s s' : Sys) (v : OnChain VaultState) : Prop :=
  sys_vaults s !! outpoint v = None /\ sys_vaults s' = <[outpoint v := v]> (sys_vaults s).

Section InStep.
Context `{HLib : Lib, !LibSpec HLib, XP : XOnlyParse, !Compiler} (ctx : Ctx) (Hctx : deploy_ok ctx).
Context (owners : list XOnlyPublicKey) (height : Z).
Context (s : Sys) (st : IndexState) (Hs : sys_wf s) (Hsy : synced ctx s st).
Abbreviation a := (ctx_artifacts ctx).
Abbreviation p := (ctx_params ctx).

Lemma not_live_ne op : ~ live s op ->
  op <> outpoint (pot (sys_protocol s)) /\ op <> outpoint (reserve (sys_protocol s)) /\
  op <> outpoint (issuer (sys_protocol s)) /\ sys_vaults s !! op = None.
Proof.
  unfold live. intros Hn. split_and!; [by intros ->; apply Hn; auto..|].
  destruct (sys_vaults s !! op) eqn:E; [|done]. destruct Hn. do 3 right. by eexists.
Qed.

Lemma vault_ne (v : OnChain VaultState) : sys_vaults s !! outpoint v = Some v ->
  outpoint v <> outpoint (pot (sys_protocol s)) /\ outpoint v <> outpoint (reserve (sys_protocol s)) /\
  outpoint v <> outpoint (issuer (sys_protocol s)).
Proof.
  intros Hv. pose proof (sw_pot_vault s Hs). pose proof (sw_reserve_vault s Hs).
  pose proof (sw_issuer_vault s Hs). split_and!; congruence.
Qed.

Lemma assets_ne : obol p <> policy p /\ issuer_token p <> policy p /\ issuer_token p <> obol p.
Proof.
  destruct Hctx as [HA _]. destruct (preflight_assets _ (ao_preflight _ _ HA)) as (? & ? & ?).
  split_and!; congruence.
Qed.

(** Distinct outpoints and assets, from the hypotheses in sight. *)
Ltac facts :=
  destruct assets_ne as (? & ? & ?);
  destruct (proj1 (NoDup3 _ _ _) (sw_distinct s Hs)) as (? & ? & ?);
  repeat match goal with
  | Hn : ~ live s _ |- _ => apply not_live_ne in Hn as (? & ? & ? & ?)
  end;
  try match goal with
  | Hv : sys_vaults s !! outpoint ?v = Some ?v |- _ => destruct (vault_ne v Hv) as (? & ? & ?)
  end.

(** The index of a coin among the inputs of a layout. *)
Ltac positions Hb :=
  unfold issuer_in, pot_in, reserve_in;
  rewrite ?(sy_issuer _ _ _ Hsy), ?(sy_pot _ _ _ Hsy), ?(sy_reserve _ _ _ Hsy);
  cbn [mbind option_bind]; unfold input_index; rewrite !(position_prevs _ _ _ (same_prevs _ _ Hb));
  layout; cbn [plan p_tx input position previous_output txin fmap option_fmap option_map];
  repeat (case_bool_decide; try congruence); try done.

Ltac tracked Hb :=
  rewrite (tracked_prevs _ _ _ _ (same_prevs _ _ Hb)), (sy_vaults _ _ _ Hsy); layout;
  cbn [plan p_tx input tracked_inputs previous_output txin]; rewrite !lookup_fmap;
  repeat match goal with E : sys_vaults s !! _ = _ |- _ => rewrite E end;
  rewrite ?(sw_pot_vault s Hs), ?(sw_reserve_vault s Hs), ?(sw_issuer_vault s Hs); done.

(** The first output at an address, by its asset. *)
Ltac first_hit Hb :=
  rewrite (same_output _ _ Hb); layout; cbn [plan p_tx output app];
  repeat (rewrite hits_skip by (right; rewrite ?explicit_txout, ?explicit_fee, bool_decide_false by congruence; done));
  apply hits_hit.

Ltac amount_eq :=
  cbn -[u64_sat_add u64_sat_sub u64_wadd Z.add Z.sub]; f_equal; rewrite ?u64_wadd_id by amounts; amounts.

(** The protocol's side of [synced], coin by coin. *)
Lemma pot_is (x : OnChain PotState) op value :
  outpoint x = op -> oc_value x = value -> Some (mkOn thePot op value) = Some x.
Proof. destruct x as [[] ? ?]. cbn. by intros -> ->. Qed.
Lemma reserve_is (x : OnChain ReserveState) op value :
  outpoint x = op -> oc_value x = value -> Some (mkOn theReserve op value) = Some x.
Proof. destruct x as [[] ? ?]. cbn. by intros -> ->. Qed.
Lemma issuer_is (x : OnChain IssuerState) i op :
  state x = i -> outpoint x = op -> oc_value x = 1 -> Some (mkOn i op 1) = Some x.
Proof. destruct x as [? ? ?]. cbn. by intros -> -> ->. Qed.

Lemma vaults_replaced tx v v' T :
  outpoint v' = mkOutPoint (txid_of tx) 0 -> T = tracked_of ctx v' ->
  <[mkOutPoint (txid_of tx) 0 := T]> (delete (outpoint v) (ix_vaults st)) =
    tracked_of ctx <$> replace_vault v v' (sys_vaults s).
Proof.
  intros Ho ->. unfold replace_vault. by rewrite (sy_vaults _ _ _ Hsy), fmap_insert, fmap_delete, Ho.
Qed.

Lemma vaults_deleted (v : OnChain VaultState) :
  delete (outpoint v) (ix_vaults st) = tracked_of ctx <$> delete (outpoint v) (sys_vaults s).
Proof. by rewrite (sy_vaults _ _ _ Hsy), fmap_delete. Qed.

Ltac in_step Hb :=
  split; cbn [ix_pot ix_reserve ix_issuer ix_vaults pot_moved reserve_moved vault_moved with_pot
    with_reserve with_issuer with_vaults sys_protocol sys_vaults pot reserve issuer];
  first
    [ apply (sy_pot _ _ _ Hsy) | apply (sy_reserve _ _ _ Hsy) | apply (sy_issuer _ _ _ Hsy)
    | apply pot_is; [rewrite (same_txid _ _ Hb); reflexivity|amount_eq]
    | apply reserve_is; [rewrite (same_txid _ _ Hb); reflexivity|amount_eq]
    | apply issuer_is; [reflexivity|rewrite (same_txid _ _ Hb); reflexivity|reflexivity]
    | apply vaults_deleted
    | apply vaults_replaced; [rewrite (same_txid _ _ Hb); reflexivity|]
    | idtac ].

(** The bounds an operation on a vault starts from. *)
Ltac numbers :=
  pose proof (sw_protocol s Hs); pose proof (sw_supply s Hs); pose proof (debts_nonneg s Hs);
  unfold supply in *;
  try match goal with Hv : sys_vaults s !! outpoint ?v = Some ?v |- _ =>
    pose proof (vault_debt_le s v Hs Hv); pose proof (vl_wf _ _ (sw_vaults s Hs _ _ Hv)) end.

(** A vault spent without the issuer: dispatch to its arm. *)
Ltac vault_spent Hb Hv :=
  erewrite (run_apply_tx ctx owners height _ st);
  [|eapply run_apply_vault; [positions Hb|tracked Hb|];
    eapply run_bind; [apply run_get|]; rewrite (sy_vaults _ _ _ Hsy), lookup_fmap, Hv;
    cbn [fmap option_fmap option_map]; rewrite (same_inputs _ _ Hb)].

Ltac successor Hb :=
  eapply run_successor; [rewrite (same_output _ _ Hb); reflexivity|reflexivity|];
  cbn [tracked_with tv_debt tv_last_height tracked_of]; do 3 f_equal;
  cbn -[u64_sat_add u64_sat_sub Z.sub Z.add]; amounts.
Ltac tracked_eq := cbn; unfold tracked_of; cbn; f_equal; first [amount_eq | by rewrite <- sats_eta].

(** A repayment of nothing: the pot moves, no growth is seen, and the vault is dropped. *)
Lemma repay_misses v intent b tx :
  sys_vaults s !! outpoint v = Some v -> Obol.raw (rp_amount intent) = 0 ->
  ~ live s (ob_outpoint (rp_payer intent)) -> ~ live s (fc_outpoint (rp_fee_coin intent)) ->
  repay ctx (pot (sys_protocol s)) v intent = Ok b -> body tx = body (p_tx (plan b)) ->
  misses ctx s
    (mkSys (mkProtocol (rpd_pot (expected b)) (reserve (sys_protocol s)) (issuer (sys_protocol s)))
       (replace_vault v (rpd_vault (expected b)) (sys_vaults s))) v
    (apply_tx ctx owners height tx st).1.
Proof.
  intros Hv Hx0 Hl1 Hl2 Hbld Hb. apply repay_ok_iff in Hbld as (Hd & Hk & Hf & ->). facts. numbers.
  assert (Hpi : pot_in tx st = Some 1%nat) by positions Hb.
  assert (Hri : reserve_in tx st = None) by positions Hb.
  vault_spent Hb Hv.
  2: { rewrite Hpi, Hri. cbn [length input p_tx plan repay_unchecked].
    eapply run_bind; [eapply run_grow_none; [apply (sy_pot _ _ _ Hsy)|first_hit Hb|amounts]|].
    apply run_mark_lost. }
  split; cbn [ix_pot ix_reserve ix_issuer ix_vaults ix_lost pot_moved with_pot with_vaults with_lost
    sys_protocol sys_vaults pot reserve issuer].
  - done.
  - eexists. split; [done|]. cbn. destruct v as [[d o h] ? ?]. cbn in *. f_equal.
    rewrite Hx0. rewrite (obol_eta d). f_equal. amounts.
  - apply pot_is; [rewrite (same_txid _ _ Hb); reflexivity|amount_eq].
  - apply (sy_reserve _ _ _ Hsy).
  - apply (sy_issuer _ _ _ Hsy).
  - apply vaults_deleted.
  - rewrite lookup_insert_eq. eauto.
Qed.

Lemma repay_follows v intent b tx :
  sys_vaults s !! outpoint v = Some v ->
  0 <= Obol.raw (rp_amount intent) -> Obol.raw (rp_amount intent) <> 0 ->
  ~ live s (ob_outpoint (rp_payer intent)) -> ~ live s (fc_outpoint (rp_fee_coin intent)) ->
  repay ctx (pot (sys_protocol s)) v intent = Ok b -> body tx = body (p_tx (plan b)) ->
  synced ctx
    (mkSys (mkProtocol (rpd_pot (expected b)) (reserve (sys_protocol s)) (issuer (sys_protocol s)))
       (replace_vault v (rpd_vault (expected b)) (sys_vaults s)))
    (apply_tx ctx owners height tx st).1.
Proof.
  intros Hv Hx0 Hxz Hl1 Hl2 Hbld Hb. apply repay_ok_iff in Hbld as (Hd & Hk & Hf & ->). facts. numbers.
  assert (Hpi : pot_in tx st = Some 1%nat) by positions Hb.
  assert (Hri : reserve_in tx st = None) by positions Hb.
  vault_spent Hb Hv.
  2: { rewrite Hpi, Hri. cbn [length input p_tx plan repay_unchecked].
    eapply run_bind; [eapply run_grow; [apply (sy_pot _ _ _ Hsy)|first_hit Hb|amounts]|].
    eapply run_bind; [apply run_modify|]. successor Hb. }
  in_step Hb. tracked_eq.
Qed.

Lemma close_follows v intent b tx :
  sys_vaults s !! outpoint v = Some v ->
  ~ live s (ob_outpoint (cl_payer intent)) ->
  close ctx (pot (sys_protocol s)) v intent = Ok b -> body tx = body (p_tx (plan b)) ->
  synced ctx
    (mkSys (mkProtocol (cd_pot (expected b)) (reserve (sys_protocol s)) (issuer (sys_protocol s)))
       (delete (outpoint v) (sys_vaults s)))
    (apply_tx ctx owners height tx st).1.
Proof.
  intros Hv Hl1 Hbld Hb. apply close_ok_iff in Hbld as (Hk & Hf & ->). facts. numbers.
  assert (Hpi : pot_in tx st = Some 1%nat) by positions Hb.
  assert (Hri : reserve_in tx st = None) by positions Hb.
  vault_spent Hb Hv.
  2: { rewrite Hpi, Hri. cbn [length input p_tx plan close_unchecked].
    eapply run_bind; [eapply run_follow_pot; first_hit Hb|].
    eapply run_bind; [apply run_modify|apply run_push]. }
  in_step Hb.
Qed.

Lemma refresh_follows v intent b tx :
  sys_vaults s !! outpoint v = Some v ->
  ~ live s (fc_outpoint (rf_fee_coin intent)) ->
  lock_time (p_tx (plan b)) <= height ->
  refresh ctx v intent = Ok b -> body tx = body (p_tx (plan b)) ->
  synced ctx (mkSys (sys_protocol s) (replace_vault v (rfd_vault (expected b)) (sys_vaults s)))
    (apply_tx ctx owners height tx st).1.
Proof.
  intros Hv Hl1 Hh Hbld Hb. apply refresh_ok_iff in Hbld as (Hz & Hr%check_ratchet_ok & Hd & Hg & Hf & ->).
  facts. numbers.
  assert (Hpi : pot_in tx st = None) by positions Hb.
  assert (Hri : reserve_in tx st = None) by positions Hb.
  vault_spent Hb Hv.
  2: { rewrite Hpi, Hri. cbn [length input p_tx plan refresh_unchecked].
    eapply run_bind; [apply run_modify|]. rewrite (same_output _ _ Hb), (same_lock _ _ Hb).
    cbn [output lock_time p_tx plan refresh_unchecked tv_owner tracked_of] in Hh |- *.
    unfold refresh_height. rewrite Z.min_l by done.
    rewrite (scan_range_first _ _ _ (BlockHeight.raw (OracleTick.height (rf_tick intent)))).
    - rewrite <- height_eta. successor Hb.
    - cbn [tv_last_height tracked_of]. uint.
    - rewrite <- height_eta. by rewrite bool_decide_true. }
  in_step Hb. tracked_eq.
Qed.

(** The liquidation family spends pot and reserve and moves both. *)
Lemma run_liq_family tx vop (v : TrackedVault) o n vout_pot vout_res q pot' res' more st' :
  ix_vaults st !! vop = Some v -> tv_owner v = Some o ->
  length (input tx) = 4%nat -> pot_in tx st = Some 1%nat -> reserve_in tx st = Some 3%nat ->
  ix_pot st = Some q ->
  hits_from 0 (output tx) (pot_spk a) (obol p) = (vout_pot, pot') :: more ->
  hits_from 0 (output tx) (stability_spk a) (policy p) = [(vout_res, res')] ->
  n = pot' - Obol.raw (oc_value q) -> 0 < n ->
  let after := Obol.new (u64_sat_sub (Obol.raw (tv_debt v)) n) in
  let moved := with_vaults (delete vop) (reserve_moved tx vout_res res' (pot_moved tx vout_pot pot' st)) in
  (if spk_at_output0 tx (vault_spk a (mkVault after o (tv_last_height v))) (policy p)
   then run (vault_successor ctx height tx vop (tracked_with v after (tv_last_height v))
          (fun successor => Deleveraged vop successor (Obol.new n))) moved tt st'
   else Obol.raw (tv_debt v) = n /\ st' = moved) ->
  run (vault_op ctx height tx vop (pot_in tx st) (reserve_in tx st)) st tt st'.
Proof.
  intros Hv Ho Hlen Hpi Hri Hq Hh Hr -> Hn after moved Hk.
  eapply run_bind; [apply run_get|]. rewrite Hv, Hlen, Hpi, Hri. cbv beta iota zeta.
  eapply run_bind; [by eapply run_grow; [done..|lia]|].
  eapply run_bind; [by eapply run_follow_reserve|]. eapply run_bind; [apply run_modify|].
  cbv beta iota zeta. rewrite Ho. cbn [Obol.raw]. fold after. fold moved.
  destruct (spk_at_output0 _ _ _); cbn [negb]; [exact Hk|]. destruct Hk as [Hd ->].
  rewrite bool_decide_false; [apply run_push|]. rewrite <- Hd. intros Hne. apply Hne.
  by destruct (tv_debt v).
Qed.

Lemma liquidate_follows v intent b tx :
  sys_vaults s !! outpoint v = Some v ->
  0 <= Obol.raw (lq_dd intent) -> ~ live s (ob_outpoint (lq_keeper intent)) ->
  (length (hits_from 0 (output (p_tx (plan b))) (stability_spk a) (policy p)) <= 1)%nat ->
  liquidate ctx (sys_protocol s) v intent = Ok b -> body tx = body (p_tx (plan b)) ->
  synced ctx
    (mkSys (mkProtocol (ld_pot (expected b)) (ld_reserve (expected b)) (issuer (sys_protocol s)))
       (replace_vault v (ld_vault (expected b)) (sys_vaults s)))
    (apply_tx ctx owners height tx st).1.
Proof.
  intros Hv Hx0 Hl1 Hone Hbld Hb.
  apply liquidate_ok_iff in Hbld as (_ & _ & _ & _ & Hxz & Hxd & _ & _ & _ & _ & _ & _ & _ & _ & ->).
  facts. numbers. erewrite (run_apply_tx ctx owners height tx st);
    [|eapply run_apply_vault; [positions Hb|tracked Hb|] ].
  2: { eapply (run_liq_family tx (outpoint v) (tracked_of ctx v) _ (Obol.raw (lq_dd intent)));
      [by rewrite (sy_vaults _ _ _ Hsy), lookup_fmap, Hv|reflexivity|by rewrite (same_inputs _ _ Hb)
      |positions Hb|positions Hb|apply (sy_pot _ _ _ Hsy)|first_hit Hb
      |rewrite (same_output _ _ Hb); by apply (unique_hit _ 3)|amounts|lia|].
    erewrite spk_at_output0_txout by (rewrite (same_output _ _ Hb); reflexivity). successor Hb. }
  in_step Hb. tracked_eq.
Qed.

Lemma redeem_follows v intent b tx :
  sys_vaults s !! outpoint v = Some v ->
  0 <= Obol.raw (rd_x intent) -> ~ live s (ob_outpoint (rd_redeemer intent)) ->
  (length (hits_from 0 (output (p_tx (plan b))) (stability_spk a) (policy p)) <= 1)%nat ->
  redeem ctx (sys_protocol s) v intent = Ok b -> body tx = body (p_tx (plan b)) ->
  synced ctx
    (mkSys (mkProtocol (rdd_pot (expected b)) (rdd_reserve (expected b)) (issuer (sys_protocol s)))
       (replace_vault v (rdd_vault (expected b)) (sys_vaults s)))
    (apply_tx ctx owners height tx st).1.
Proof.
  intros Hv Hx0 Hl1 Hone Hbld Hb.
  apply redeem_ok_iff in Hbld as (_ & _ & Hxz & Hxd & _ & _ & _ & _ & _ & ->).
  facts. numbers. erewrite (run_apply_tx ctx owners height tx st);
    [|eapply run_apply_vault; [positions Hb|tracked Hb|] ].
  2: { eapply (run_liq_family tx (outpoint v) (tracked_of ctx v) _ (Obol.raw (rd_x intent)));
      [by rewrite (sy_vaults _ _ _ Hsy), lookup_fmap, Hv|reflexivity|by rewrite (same_inputs _ _ Hb)
      |positions Hb|positions Hb|apply (sy_pot _ _ _ Hsy)|first_hit Hb
      |rewrite (same_output _ _ Hb); by apply (unique_hit _ 3)|amounts|lia|].
    erewrite spk_at_output0_txout by (rewrite (same_output _ _ Hb); reflexivity). successor Hb. }
  in_step Hb. tracked_eq.
Qed.

Lemma full_liq_follows v intent b tx :
  sys_vaults s !! outpoint v = Some v -> Obol.raw (debt (state v)) <> 0 ->
  ~ live s (ob_outpoint (fl_keeper intent)) ->
  (length (hits_from 0 (output (p_tx (plan b))) (stability_spk a) (policy p)) <= 1)%nat ->
  (forall x, fl_keeper_spk intent <> vault_spk a x) ->
  full_liq ctx (sys_protocol s) v intent = Ok b -> body tx = body (p_tx (plan b)) ->
  synced ctx
    (mkSys (mkProtocol (fd_pot (expected b)) (fd_reserve (expected b)) (issuer (sys_protocol s)))
       (delete (outpoint v) (sys_vaults s)))
    (apply_tx ctx owners height tx st).1.
Proof.
  intros Hv Hdz Hl1 Hone Hpay Hbld Hb. apply full_liq_ok_iff in Hbld as (_ & _ & _ & _ & _ & ->).
  facts. numbers. erewrite (run_apply_tx ctx owners height tx st);
    [|eapply run_apply_vault; [positions Hb|tracked Hb|] ].
  2: { eapply (run_liq_family tx (outpoint v) (tracked_of ctx v) _ (Obol.raw (debt (state v))));
      [by rewrite (sy_vaults _ _ _ Hsy), lookup_fmap, Hv|reflexivity|by rewrite (same_inputs _ _ Hb)
      |positions Hb|positions Hb|apply (sy_pot _ _ _ Hsy)|first_hit Hb
      |rewrite (same_output _ _ Hb); by apply (unique_hit _ 3)|amounts|lia|].
    unfold spk_at_output0. rewrite (same_output _ _ Hb).
    cbn [output p_tx plan full_liq_unchecked to_spk txout]. rewrite bool_decide_false by apply Hpay.
    split; reflexivity. }
  in_step Hb.
Qed.

(** A spend of the issuer token: dispatch to its arm. *)
Ltac issuer_spent Hb Hh n :=
  erewrite (run_apply_tx ctx owners height _ st);
  [|eapply run_apply_issuer; [positions Hb|];
    eapply (run_issuer_op ctx owners height) with (vout := n); [apply (sy_issuer _ _ _ Hsy)|rewrite (same_lock _ _ Hb); reflexivity
      |exact Hh|done|first_hit Hb|];
    unfold issuer_arm; cbv beta zeta; cbn [Z.eqb Pos.eqb]].

Lemma poke_follows intent b tx :
  ~ live s (fc_outpoint (pk_funding intent)) -> lock_time (p_tx (plan b)) <= height ->
  poke ctx (issuer (sys_protocol s)) intent = Ok b -> body tx = body (p_tx (plan b)) ->
  synced ctx
    (mkSys (mkProtocol (pot (sys_protocol s)) (reserve (sys_protocol s)) (pkd_issuer (expected b)))
       (sys_vaults s)) (apply_tx ctx owners height tx st).1.
Proof.
  intros Hl1 Hh Hbld Hb. apply poke_ok_iff in Hbld as ([_ Ha]%check_tick_ok & _ & ->). facts.
  issuer_spent Hb Hh 0.
  2: { rewrite bool_decide_true by done. cbn [negb]. apply run_push. }
  in_step Hb. apply (sy_vaults _ _ _ Hsy).
Qed.

Lemma draw_follows v intent b tx :
  sys_vaults s !! outpoint v = Some v ->
  0 <= Obol.raw (dr_amount intent) -> lock_time (p_tx (plan b)) <= height ->
  draw ctx (sys_protocol s) v intent = Ok b -> body tx = body (p_tx (plan b)) ->
  synced ctx
    (mkSys (mkProtocol (dd_pot (expected b)) (reserve (sys_protocol s)) (dd_issuer (expected b)))
       (replace_vault v (dd_vault (expected b)) (sys_vaults s)))
    (apply_tx ctx owners height tx st).1.
Proof.
  intros Hv Hx0 Hh Hbld Hb.
  apply draw_ok_iff in Hbld as ([_ Ha]%check_tick_ok & _ & Hxz & Hf & Hxp & _ & Hxd & _ & ->).
  facts. numbers.
  assert (Hpi : pot_in tx st = Some 1%nat) by positions Hb.
  assert (Hri : reserve_in tx st = None) by positions Hb.
  assert (Hti : tracked_inputs 0 (ix_vaults st) (input tx) = [(0%nat, outpoint v)]) by tracked Hb.
  issuer_spent Hb Hh 3.
  2: { rewrite Hpi, Hri, Hti. rewrite !bool_decide_false by auto. cbn [orb].
    eapply run_bind; [eapply run_shrink; [apply (sy_pot _ _ _ Hsy)|first_hit Hb|amounts]|].
    eapply run_bind; [apply run_get|]. eapply run_bind; [apply run_modify|].
    cbn [ix_vaults pot_moved with_pot with_issuer]. rewrite (sy_vaults _ _ _ Hsy), lookup_fmap, Hv.
    cbn [fmap option_fmap option_map]. successor Hb. }
  in_step Hb. tracked_eq.
Qed.

Lemma bad_debt_follows v intent b tx :
  sys_vaults s !! outpoint v = Some v ->
  ~ live s (ob_outpoint (bd_keeper intent)) -> ~ live s (fc_outpoint (bd_fee_coin intent)) ->
  (length (hits_from 0 (output (p_tx (plan b))) (stability_spk a) (policy p)) <= 1)%nat ->
  lock_time (p_tx (plan b)) <= height ->
  bad_debt ctx (sys_protocol s) v intent = Ok b -> body tx = body (p_tx (plan b)) ->
  synced ctx
    (mkSys (mkProtocol (bdd_pot (expected b)) (bdd_reserve (expected b)) (bdd_issuer (expected b)))
       (delete (outpoint v) (sys_vaults s)))
    (apply_tx ctx owners height tx st).1.
Proof.
  intros Hv Hl1 Hl2 Hone Hh Hbld Hb. apply bad_debt_ok_iff in Hbld as ([_ Ha]%check_tick_ok & _ & _ & _ & _ & _ & ->).
  facts. numbers.
  assert (Hpi : pot_in tx st = Some 1%nat) by positions Hb.
  assert (Hri : reserve_in tx st = Some 3%nat) by positions Hb.
  assert (Hti : tracked_inputs 0 (ix_vaults st) (input tx) = [(0%nat, outpoint v)]) by tracked Hb.
  issuer_spent Hb Hh 3.
  2: { rewrite Hpi, Hri, Hti. rewrite !(bool_decide_true (_ = _)) by done.
    rewrite bool_decide_false by auto. cbn [negb orb].
    eapply run_bind; [eapply run_follow_pot; first_hit Hb|].
    eapply run_bind; [eapply run_follow_reserve; rewrite (same_output _ _ Hb); by apply (unique_hit _ 2)|].
    eapply run_bind; [apply run_modify|apply run_push]. }
  in_step Hb.
Qed.

(** A witness window found by the scan is a key the witness shows, and the other way around. *)
Lemma scan_element_some (P : XOnlyPublicKey -> bool) element k :
  scan_element P element = Some k ->
  (32 <= length element <= OWNER_SCAN_MAX_ELEMENT)%nat /\ P k = true /\ valid_xonly k = true /\
  exists bit, (bit <= length element * 8 - 256)%nat /\ window element bit = k.
Proof.
  unfold scan_element. destruct (_ && _)%bool eqn:El; [|done]. apply andb_true_iff in El as [H1%Nat.leb_le H2%Nat.leb_le].
  intros Hf. apply find_some_some in Hf as (bit & Hb%elem_of_seq & Hf). cbv zeta in Hf.
  destruct (_ && _)%bool eqn:E; [|done]. injection Hf as <-. apply andb_true_iff in E as [Hv HP].
  split_and!; [done..|]. exists bit. split; [lia|done].
Qed.

Lemma scan_element_hit (P : XOnlyPublicKey -> bool) element bit :
  (32 <= length element <= OWNER_SCAN_MAX_ELEMENT)%nat -> (bit <= length element * 8 - 256)%nat ->
  valid_xonly (window element bit) = true -> P (window element bit) = true -> is_Some (scan_element P element).
Proof.
  intros [H1 H2] Hb Hv HP. unfold scan_element. rewrite (proj2 (Nat.leb_le _ _) H1), (proj2 (Nat.leb_le _ _) H2).
  apply find_some_hit with bit; [apply elem_of_seq; lia|]. cbv zeta. by rewrite Hv, HP.
Qed.

Lemma scan_finds tx (P : XOnlyPublicKey -> bool) k :
  shown tx 1 k -> P k = true -> (forall c, shown tx 1 c -> P c = true -> c = k) ->
  scan_witness_for_owner tx 1 P = Some k.
Proof.
  intros (t & el & bit & Ht & Hel & Hl & Hb & <- & Hv) HP Hu. unfold scan_witness_for_owner. rewrite Ht.
  cbn [mbind option_bind].
  destruct (find_some_hit (scan_element P) (script_witness t) el Hel) as [k' Hk'];
    [by eapply scan_element_hit|].
  rewrite Hk'. f_equal. apply find_some_some in Hk' as (el' & Hel' & Hsc).
  apply scan_element_some in Hsc as (Hl' & HP' & Hv' & bit' & Hb' & Hw). apply Hu; [|done].
  by exists t, el', bit'.
Qed.

Lemma run_born tx st0 bi v k outs :
  output tx = txout v (vault_spk a (mkVault (bi_debt bi) k (bi_last_height bi))) (policy p) :: outs ->
  bi_issuer_input bi = 1%nat ->
  owner_resolves ctx owners tx
    (mkOn (mkVault (bi_debt bi) k (bi_last_height bi)) (mkOutPoint (txid_of tx) 0) (Sats.new v)) ->
  run (vault_born ctx owners height tx bi) st0 tt
    (vault_moved tx (mkTracked (bi_debt bi) (bi_last_height bi) (Sats.new v) (Some k)
       (vault_spk a (mkVault (bi_debt bi) k (bi_last_height bi)))) st0).
Proof.
  intros Ho Hix [Hin Hu]. cbn in Hin, Hu. unfold vault_born. rewrite Ho, explicit_txout, bool_decide_true by done.
  cbn [to_spk txout]. rewrite Hix. cbv zeta. set (P := fun cand => bool_decide (_ = _)).
  assert (HP : forall c, c ∈ owners \/ shown tx 1 c -> P c = true -> c = k).
  { intros c Hc Hm%bool_decide_eq_true_1. by apply Hu. }
  assert (Hk : P k = true) by (by apply bool_decide_eq_true_2).
  assert (Hfound : match find_some (fun c => if P c then Some c else None) owners with
    | Some c => Some c | None => scan_witness_for_owner tx 1 P end = Some k).
  { destruct (find_some _ owners) as [c|] eqn:Ef.
    - apply find_some_some in Ef as (c' & Hc' & E). destruct (P c') eqn:EP; [|done]. injection E as ->.
      f_equal. apply HP; [by left|done].
    - destruct Hin as [Hin|Hsh].
      + destruct (find_some_hit (fun c => if P c then Some c else None) owners k Hin) as [c Hc]; [by rewrite Hk|].
        congruence.
      + apply scan_finds; [done..|]. intros c Hc. apply HP. by right. }
  subst P. cbv beta in *. rewrite Hfound. eapply run_bind; [apply run_modify|apply run_push].
Qed.

Lemma open_follows intent b tx :
  0 <= Obol.raw (op_principal intent) -> ~ live s (fc_outpoint (op_funding intent)) ->
  (length (hits_from 0 (output (p_tx (plan b))) (stability_spk a) (policy p)) <= 1)%nat ->
  owner_resolves ctx owners tx (od_vault (expected b)) -> lock_time (p_tx (plan b)) <= height ->
  open ctx (sys_protocol s) intent = Ok b -> body tx = body (p_tx (plan b)) ->
  synced ctx
    (mkSys (mkProtocol (od_pot (expected b)) (od_reserve (expected b)) (od_issuer (expected b)))
       (<[outpoint (od_vault (expected b)) := od_vault (expected b)]> (sys_vaults s)))
    (apply_tx ctx owners height tx st).1.
Proof.
  intros Hx0 Hl1 Hone How Hh Hbld Hb.
  apply open_ok_iff in Hbld as ([_ Ha]%check_tick_ok & Hxz & _ & _ & Hxp & _ & _ & _ & ->). facts. numbers.
  assert (Hpi : pot_in tx st = Some 0%nat) by positions Hb.
  assert (Hri : reserve_in tx st = Some 3%nat) by positions Hb.
  issuer_spent Hb Hh 4.
  2: { rewrite Hpi, Hri, !bool_decide_false by auto. cbn [orb].
    eapply run_bind; [eapply run_shrink; [apply (sy_pot _ _ _ Hsy)|first_hit Hb|amounts]|].
    eapply run_bind; [eapply run_follow_reserve; rewrite (same_output _ _ Hb); by apply (unique_hit _ 3)|].
    assert (Hm : Obol.new (Obol.raw (oc_value (pot (sys_protocol s))) -
      u64_sat_sub (Obol.raw (oc_value (pot (sys_protocol s)))) (Obol.raw (op_principal intent))) =
      op_principal intent) by (rewrite (obol_eta (op_principal intent)); cbn [Obol.raw]; f_equal; amounts).
    rewrite Hm. eapply run_born with (k := op_owner intent)
      (v := Sats.raw (op_collateral intent)); cbn [bi_debt bi_last_height].
    - rewrite (same_output _ _ Hb). reflexivity.
    - reflexivity.
    - exact How. }
  in_step Hb. rewrite (same_txid _ _ Hb), fmap_insert, <- (sy_vaults _ _ _ Hsy).
  unfold tracked_of. cbn. by rewrite <- sats_eta.
Qed.

End InStep.

(** One operation, by cases on it. *)
Lemma step_indexed `{HLib : Lib, !LibSpec HLib, XP : XOnlyParse, !Compiler} (ctx : Ctx)
    (owners : list XOnlyPublicKey) (height : Z) (s : Sys) (pl : TxPlan) (s' : Sys)
    (st : IndexState) (tx : Transaction) :
  deploy_ok ctx -> sys_wf s -> synced ctx s st -> step ctx s pl s' -> indexable ctx s' pl ->
  (forall v, newborn s s' v -> owner_resolves ctx owners tx v) ->
  body tx = body (p_tx pl) -> lock_time (p_tx pl) <= height ->
  let st' := (apply_tx ctx owners height tx st).1 in
  if repays_nothing pl then exists v, misses ctx s s' v st' else synced ctx s' st'.
Proof.
  intros Hctx Hs Hsy Hstep [Hone Hpay Ham] How Hb Hh. cbv zeta. destruct Hstep as
    [| intent b Ht Hl Hp Hf Hc Hfee Hlv Hop Hconf |v intent b Hv|v intent b Hv Hk Hfc Hf Hx Hl1 Hl2 Hrp
    |v intent b Hv|v intent b Hv|v intent b Hv
    |v intent b Hv Ht Hk Hf Hl1 Hfl|v intent b Hv|v intent b Hv].
  4: { assert (Hbld := Hrp). apply repay_ok_iff in Hbld as (_ & _ & _ & E).
    replace (repays_nothing (plan b)) with (Obol.raw (rp_amount intent) =? 0)
      by (rewrite E; cbn; by rewrite orb_false_r). clear E.
    destruct (Z.eqb_spec (Obol.raw (rp_amount intent)) 0).
    - exists v. by apply repay_misses with (intent := intent).
    - by apply repay_follows with (intent := intent). }
  all: replace (repays_nothing (plan b)) with false by (guards; reflexivity).
  - by apply poke_follows with (s := s) (intent := intent).
  - apply open_follows with (s := s) (intent := intent); try done. apply How. split; [|done].
    apply open_ok_iff in Hop as (_ & _ & _ & _ & _ & _ & _ & _ & ->). by apply (fresh_vault s).
  - by apply draw_follows with (s := s) (intent := intent).
  - by apply close_follows with (intent := intent).
  - by apply refresh_follows with (intent := intent).
  - by apply liquidate_follows with (intent := intent).
  - assert (Hbld := Hfl). apply full_liq_ok_iff in Hbld as (_ & _ & _ & _ & _ & ->).
    apply full_liq_follows with (intent := intent); try done.
    + apply (Ham (mkSlot 0 (KVault (state v) (VFullLiq (fl_tick intent))))). set_solver.
    + intros x Hx. destruct (Hpay _ x eq_refl Hx) as [w Hw].
      cbn [sys_vaults] in Hw. apply lookup_delete_Some in Hw as [_ Hw]. by rewrite (fresh_vault s _ 0) in Hw.
  - by apply bad_debt_follows with (intent := intent).
  - by apply redeem_follows with (intent := intent).
Qed.

(** A transaction that spends no live coin leaves the index alone, whatever it pays. *)
Lemma foreign_follows `{HLib : Lib, XP : XOnlyParse} (ctx : Ctx) (owners : list XOnlyPublicKey)
    (height : Z) (s : Sys) (st : IndexState) (tx : Transaction) :
  synced ctx s st -> (forall i, i ∈ input tx -> ~ live s (previous_output i)) ->
  (apply_tx ctx owners height tx st).1 = st.
Proof.
  intros Hsy Hf. apply run_apply_tx. unfold apply_body. do 4 (eapply run_bind; [apply run_get|]).
  assert (Hn : forall op, live s op -> input_index tx op = None).
  { intros op Hop. unfold input_index. revert Hf. induction (input tx) as [|i l IH]; [done|].
    intros Hf. cbn. rewrite bool_decide_false.
    - rewrite IH; [done|]. intros i' Hi'. apply Hf. by right.
    - intros E. apply (Hf i); [left|]. by rewrite E. }
  rewrite (sy_pot _ _ _ Hsy), (sy_reserve _ _ _ Hsy), (sy_issuer _ _ _ Hsy). cbn [mbind option_bind].
  rewrite !Hn by (unfold live; eauto). rewrite tracked_none.
  2: { apply Forall_forall. intros i Hi. rewrite (sy_vaults _ _ _ Hsy), lookup_fmap.
       destruct (sys_vaults s !! previous_output i) as [v|] eqn:E; [|done].
       exfalso. apply (Hf i Hi). unfold live. rewrite E. eauto. }
  unfold non_protocol_tx. eapply run_bind; [|eapply run_bind].
  - unfold pot_payment. eapply run_bind; [apply run_get|]. rewrite (sy_pot _ _ _ Hsy).
    destruct (locate _ _ _) as [[]|]; [apply run_push|apply run_ret].
  - unfold reserve_payment. eapply run_bind; [apply run_get|]. rewrite (sy_reserve _ _ _ Hsy).
    destruct (locate _ _ _) as [[]|]; [apply run_push|apply run_ret].
  - unfold issuer_payment. eapply run_bind; [apply run_get|]. rewrite (sy_issuer _ _ _ Hsy).
    apply run_when_push.
Qed.

(** C1: The indexer follows the protocol.  Given the transaction of any of the ten operations,
    with whatever witnesses, in a block no earlier than its lock time, an index in step with
    the live coins is in step with the coins the builder announced; but for a repayment of
    zero, which passes builder and covenant: then the index follows the pot, lists the vault
    as lost and misses its live successor.  Granted that the transaction pays the reserve
    address once and no wallet payout at output 0 is at a vault address, that a vault
    liquidated in full owed something, and that the owner of a vault it opens is a candidate
    or shown in the issuer input's witness, and is the only such key that derives the
    vault's address. *)
Theorem index_follows `{HLib : Lib, !LibSpec HLib, XP : XOnlyParse, !Compiler} (ctx : Ctx)
    (owners : list XOnlyPublicKey) (height : Z) (s : Sys) (pl : TxPlan) (s' : Sys)
    (st : IndexState) (tx : Transaction) :
  deploy_ok ctx -> sys_wf s -> synced ctx s st -> step ctx s pl s' -> indexable ctx s' pl ->
  (forall v, newborn s s' v -> owner_resolves ctx owners tx v) ->
  body tx = body (p_tx pl) -> lock_time (p_tx pl) <= height ->
  let st' := (apply_tx ctx owners height tx st).1 in
  if repays_nothing pl then exists v, misses ctx s s' v st' else synced ctx s' st'.
Proof. apply step_indexed. Qed.
