(* ===== verification/Sync.v ===== *)
(** * The catch-up scan ([styx-watch/src/sync.rs])

    Blocks from the indexed height to the node's tip, through [apply_tx], each checked to
    extend the sealed tip.  The state is sealed per block, so whatever stops the scan, the
    state is the replay of a prefix of the chain and the next scan continues from there. *)

From Stdlib Require Import ZArith Lia.
From stdpp Require Import base gmap strings option list.
From S2P Require Import Prelude Units CrMath Elements Oracle Simf Encode Domain Artifacts Jets.
From S2P Require Import CovVault CovReserve CovIssuer Plan BuildOwner BuildKeeper Accept.
From S2P Require Import CovLemmas CovAccept Sound SoundOwner SoundKeeper Pset Protocol.
From S2P Require Import Effects Node Index IndexSpec IndexSim.

Inductive SyncError : Type :=
| SyncNode (e : NodeError)
| Reorg (height : Z).

(** The transactions of a block, in order. *)
Fixpoint apply_txs `{Lib, XOnlyParse} (ctx : Ctx) (owners : list XOnlyPublicKey) (h : Z)
    (txs : list Transaction) (st : IndexState) : IndexState * list Notice :=
  match txs with
  | [] => (st, [])
  | tx :: txs =>
      let '(st1, ns1) := apply_tx ctx owners h tx st in
      let '(st2, ns2) := apply_txs ctx owners h txs st1 in
      (st2, ns1 ++ ns2)
  end.

Section Sync.
Context `{Lib, XOnlyParse} {N : Type} `{Rpc N} (ctx : Ctx) (owners : list XOnlyPublicKey).

Abbreviation SyncM := (Eff (N * IndexState) SyncError) (only parsing).

Definition on_node {A} (m : Eff N NodeError A) : SyncM A :=
  map_error SyncNode (zoom fst (fun n w => (n, w.2)) m).

(** One iteration of the [for] loop: block [h], checked, applied and sealed. *)
Definition scan_block (h : Z) : SyncM (list Notice) :=
  hash ← on_node (block_hash h);
  b ← on_node (block hash);
  st ← gets snd;
  if negb (bool_decide (prev_blockhash b = ix_tip st)) then throw (Reorg h) else
  let '(st', notices) := apply_txs ctx owners h (txdata b) st in
  _ ← update (fun w => (w.1, seal st' h hash));
  mret notices.

(** The blocks [h], [h + 1], ... ([n] of them). *)
Fixpoint scan_blocks (n : nat) (h : Z) : SyncM (list Notice) :=
  match n with
  | O => mret []
  | S n =>
      notices ← scan_block h;
      rest ← scan_blocks n (h + 1);
      mret (notices ++ rest)
  end.

Definition catch_up : SyncM (list Notice) :=
  tip ← on_node height;
  st ← gets snd;
  scan_blocks (Z.to_nat (tip - ix_height st)) (ix_height st + 1).

End Sync.

(** ** Replay: what the scan is meant to compute *)

Definition replay_block `{Lib, XOnlyParse} (ctx : Ctx) (owners : list XOnlyPublicKey) (h : Z)
    (hb : BlockHash * Block) (st : IndexState) : IndexState * list Notice :=
  let '(st', ns) := apply_txs ctx owners h (txdata hb.2) st in (seal st' h hb.1, ns).

Fixpoint replay `{Lib, XOnlyParse} (ctx : Ctx) (owners : list XOnlyPublicKey) (h : Z)
    (blocks : list (BlockHash * Block)) (st : IndexState) : IndexState * list Notice :=
  match blocks with
  | [] => (st, [])
  | hb :: blocks =>
      let '(st1, ns1) := replay_block ctx owners h hb st in
      let '(st2, ns2) := replay ctx owners (h + 1) blocks st1 in
      (st2, ns1 ++ ns2)
  end.

(** The node's blocks, when it replies at all, are those of one chain; how much of it there
    is to see may change from call to call, and calls may fail at any time. *)
Record replies {N : Type} `{Rpc N} (chain : list (BlockHash * Block)) : Prop := {
  sv_hash h n hash n' : getblockhash h n = (Ok hash, n') -> 0 <= h ->
    exists b, chain !! Z.to_nat h = Some (hash, b);
  sv_block h hash b b' n n' : chain !! h = Some (hash, b) ->
    getblock hash n = (Ok b', n') -> b' = b
}.
(** The whole chain is there to see. *)
Record serves {N : Type} `{Rpc N} (chain : list (BlockHash * Block)) : Prop := {
  sv_replies : replies chain;
  sv_height n h n' : getblockcount n = (Ok h, n') -> h = Z.of_nat (length chain) - 1
}.

(** ** Lemmas *)

(** The indexed height never goes back, whatever the node answers. *)
Section Heights.
Context `{HLib : Lib, XP : XOnlyParse} {N : Type} `{HN : Rpc N} (ctx : Ctx) (owners : list XOnlyPublicKey).

Lemma scan_block_height h (w : N * IndexState) :
  let '(r, w') := scan_block ctx owners h w in
  match r with Ok _ => ix_height w'.2 = h | Err _ => ix_height w'.2 = ix_height w.2 end.
Proof.
  unfold scan_block, mbind, eff_bind, on_node, map_error, zoom.
  destruct (block_hash h w.1) as [[hash|e] n1]; cbn; [|done].
  destruct (block hash n1) as [[b|e] n2]; cbn; [|done].
  case_bool_decide; cbn; [|done]. by destruct (apply_txs _ _ _ _ _).
Qed.

Lemma catch_up_height (w : N * IndexState) :
  ix_height w.2 <= ix_height (catch_up ctx owners w).2.2.
Proof.
  assert (G : forall n h (w : N * IndexState), ix_height w.2 < h ->
    ix_height w.2 <= ix_height (scan_blocks ctx owners n h w).2.2).
  { clear w. induction n as [|n IH]; intros h w Hh; cbn [scan_blocks]; [cbn; lia|].
    unfold mbind at 1, eff_bind. pose proof (scan_block_height h w) as Hb.
    destruct (scan_block ctx owners h w) as [[ns|e] w1]; [|cbn; lia].
    unfold mbind, eff_bind. specialize (IH (h + 1) w1 ltac:(lia)).
    destruct (scan_blocks ctx owners n (h + 1) w1) as [[rest|e] w2]; cbn in *; lia. }
  unfold catch_up, mbind, eff_bind, on_node, map_error, zoom.
  destruct (height w.1) as [[tip|e] n]; cbn [gets fst snd map_err]; [|cbn; lia].
  apply (G _ _ (n, w.2)). cbn. lia.
Qed.

End Heights.

Section SyncLemmas.
Context `{HLib : Lib, XP : XOnlyParse} {N : Type} `{HN : Rpc N} (ctx : Ctx) (owners : list XOnlyPublicKey).
Context (chain : list (BlockHash * Block)) (Hserves : replies chain).

Lemma replay_app h l1 l2 st :
  replay ctx owners h (l1 ++ l2) st =
  let '(st1, ns1) := replay ctx owners h l1 st in
  let '(st2, ns2) := replay ctx owners (h + Z.of_nat (length l1)) l2 st1 in
  (st2, ns1 ++ ns2).
Proof.
  revert h st. induction l1 as [|hb l1 IH]; intros h st; cbn [app replay length].
  - rewrite Z.add_0_r. by destruct (replay ctx owners h l2 st).
  - destruct (replay_block ctx owners h hb st) as [st1 ns1]. rewrite IH.
    destruct (replay ctx owners (h + 1) l1 st1) as [st2 ns2].
    replace (h + 1 + Z.of_nat (length l1)) with (h + Z.of_nat (S (length l1))) by lia.
    destruct (replay ctx owners _ l2 st2) as [st3 ns3]. by rewrite app_assoc.
Qed.

Lemma replay_block_sealed h hb st st' ns :
  replay_block ctx owners h hb st = (st', ns) -> ix_height st' = h /\ ix_tip st' = hb.1.
Proof. unfold replay_block. destruct (apply_txs _ _ _ _ _). by intros [= <- _]. Qed.

Lemma replay_height h blocks st st' ns :
  replay ctx owners h blocks st = (st', ns) -> ix_height st = h - 1 ->
  ix_height st' = h - 1 + Z.of_nat (length blocks).
Proof.
  revert h st st' ns. induction blocks as [|hb blocks IH]; intros h st st' ns Hr Hh; cbn in Hr.
  - injection Hr as <- _. cbn. lia.
  - destruct (replay_block ctx owners h hb st) as [st1 ns1] eqn:E1.
    destruct (replay ctx owners (h + 1) blocks st1) as [st2 ns2] eqn:E2. injection Hr as <- _.
    apply IH in E2; [|apply replay_block_sealed in E1; lia]. cbn [length]. lia.
Qed.

(** One block: applied and sealed, or the state untouched. *)
Lemma scan_block_spec h n st r n' st' :
  0 <= h -> scan_block (N := N) ctx owners h (n, st) = (r, (n', st')) ->
  match r with
  | Ok ns => exists hb, chain !! Z.to_nat h = Some hb /\ prev_blockhash hb.2 = ix_tip st /\
      replay_block ctx owners h hb st = (st', ns)
  | Err (Reorg h') => st' = st /\ h' = h /\ exists hb, chain !! Z.to_nat h = Some hb /\
      prev_blockhash hb.2 <> ix_tip st
  | Err (SyncNode _) => st' = st
  end.
Proof.
  intros Hh. unfold scan_block, on_node, map_error, zoom, mbind, eff_bind. cbn [fst snd].
  unfold block_hash. destruct (getblockhash h n) as [[hash|e] n1] eqn:E1; cbn; [|by intros [= <- _ <-]].
  unfold block. destruct (getblock hash n1) as [[b|e] n2] eqn:E2; cbn; [|by intros [= <- _ <-]].
  destruct (sv_hash _ Hserves _ _ _ _ E1 Hh) as [b' Hb].
  rewrite (sv_block _ Hserves _ _ _ _ _ _ Hb E2) in *.
  case_bool_decide as Hp; cbn.
  - destruct (apply_txs ctx owners h (txdata b') st) as [st1 ns] eqn:Ea. intros [= <- _ <-].
    exists (hash, b'). unfold replay_block. cbn. by rewrite Ea.
  - intros [= <- _ <-]. split_and!; [done..|]. by exists (hash, b').
Qed.

Lemma scan_blocks_spec m h n st r n' st' :
  0 <= h -> ix_height st = h - 1 ->
  scan_blocks (N := N) ctx owners m h (n, st) = (r, (n', st')) ->
  exists k ns, (k <= m)%nat /\ replay ctx owners h (take k (drop (Z.to_nat h) chain)) st = (st', ns) /\
    (k <= length (drop (Z.to_nat h) chain))%nat /\
    match r with
    | Ok ns' => ns' = ns /\ k = m
    | Err (Reorg h') => h' = ix_height st' + 1 /\ exists hb, chain !! Z.to_nat h' = Some hb /\
        prev_blockhash hb.2 <> ix_tip st'
    | Err (SyncNode _) => True
    end.
Proof.
  revert h n st r n' st'. induction m as [|m IH]; intros h n st r n' st' Hh Hst Hr.
  { cbn in Hr. injection Hr as <- _ <-. exists 0%nat, []. cbn. split_and!; done || lia. }
  cbn [scan_blocks] in Hr. unfold mbind at 1, eff_bind in Hr.
  destruct (scan_block ctx owners h (n, st)) as [[ns1|e] [n1 st1]] eqn:E1;
    pose proof (scan_block_spec _ _ _ _ _ _ Hh E1) as HS.
  - destruct HS as (hb & Hhb & _ & Hrep). destruct (replay_block_sealed _ _ _ _ _ Hrep) as [Hh1 _].
    unfold mbind, eff_bind in Hr.
    destruct (scan_blocks ctx owners m (h + 1) (n1, st1)) as [r2 [n2 st2]] eqn:E2.
    apply IH in E2 as (k & ns & Hk & Hrp & Hlen & Hm); [|lia..].
    rewrite (drop_S chain hb (Z.to_nat h) Hhb). rewrite Z2Nat.inj_add in Hrp, Hlen by lia.
    replace (Z.to_nat h + Z.to_nat 1)%nat with (S (Z.to_nat h)) in * by lia.
    exists (S k), (ns1 ++ ns). cbn [take replay length]. rewrite Hrep, Hrp.
    destruct r2 as [ns2|e]; cbn in Hr; injection Hr as <- _ <-.
    + destruct Hm as [-> ->]. split_and!; done || lia.
    + split_and!; done || lia.
  - injection Hr as <- _ <-. exists 0%nat, []. destruct e as [e|h'].
    + subst st1. split_and!; [lia|done|lia|done].
    + destruct HS as (-> & -> & HS). split_and!; [lia|done|lia|lia|done].
Qed.

End SyncLemmas.

(** ** Blocks of protocol operations *)

(** The transactions of block [h] take the live coins from [s] to [s']: each is an operation
    the index can read (no repayment of zero, the owner of a newborn vault to be told), or
    spends no live coin. *)
Inductive evolves `{Lib, XOnlyParse, Compiler} (ctx : Ctx) (owners : list XOnlyPublicKey) (h : Z) (s : Sys)
    : list Transaction -> Sys -> Prop :=
| evolves_nil : evolves ctx owners h s [] s
| evolves_step pl s1 tx txs s' :
    step ctx s pl s1 -> indexable ctx s1 pl -> repays_nothing pl = false ->
    (forall v, newborn s s1 v -> owner_resolves ctx owners tx v) ->
    body tx = body (p_tx pl) -> lock_time (p_tx pl) <= h ->
    evolves ctx owners h s1 txs s' -> evolves ctx owners h s (tx :: txs) s'
| evolves_foreign tx txs s' :
    (forall i, i ∈ input tx -> ~ live s (previous_output i)) ->
    evolves ctx owners h s txs s' -> evolves ctx owners h s (tx :: txs) s'.

Inductive chain_evolves `{Lib, XOnlyParse, Compiler} (ctx : Ctx) (owners : list XOnlyPublicKey) (h : Z) (s : Sys)
    : list (BlockHash * Block) -> Sys -> Prop :=
| chain_nil : chain_evolves ctx owners h s [] s
| chain_block hb blocks s1 s' :
    evolves ctx owners h s (txdata hb.2) s1 ->
    chain_evolves ctx owners (h + 1) s1 blocks s' ->
    chain_evolves ctx owners h s (hb :: blocks) s'.

Section Following.
Context `{HLib : Lib, !LibSpec HLib, XP : XOnlyParse, !Compiler} (ctx : Ctx).
Context (Hctx : deploy_ok ctx) (owners : list XOnlyPublicKey).

Lemma txs_follow h s txs s' st :
  evolves ctx owners h s txs s' -> sys_wf s -> synced ctx s st ->
  sys_wf s' /\ synced ctx s' (apply_txs ctx owners h txs st).1.
Proof.
  intros He. revert st. induction He as [|s pl s1 tx txs s' Hstep Hix Hno How Hb Hl He IH
    |s tx txs s' Hf He IH]; intros st Hs Hsy; [done| |];
    cbn; destruct (apply_tx ctx owners h tx st) as [st1 ns1] eqn:E1.
  - destruct (IH st1) as [? Hsy']; [by eapply step_wf| |].
    { pose proof (step_indexed ctx owners h s pl s1 st tx Hctx Hs Hsy Hstep Hix How Hb Hl) as Hsy1.
      cbv zeta in Hsy1. by rewrite Hno, E1 in Hsy1. }
    split; [done|]. by destruct (apply_txs ctx owners h txs st1).
  - assert (st1 = st) as ->.
    { change st1 with (st1, ns1).1. rewrite <- E1. by eapply foreign_follows. }
    destruct (IH st Hs Hsy) as [? ?]. split; [done|]. by destruct (apply_txs ctx owners h txs st).
Qed.

Lemma replay_follows h s blocks s' st :
  chain_evolves ctx owners h s blocks s' -> sys_wf s -> synced ctx s st ->
  synced ctx s' (replay ctx owners h blocks st).1.
Proof.
  intros He. revert st. induction He as [|h s hb blocks s1 s' Hb He IH]; intros st Hs Hsy; [done|].
  destruct (txs_follow _ _ _ _ _ Hb Hs Hsy) as [Hs1 Hsy1]. cbn. unfold replay_block.
  destruct (apply_txs ctx owners h (txdata hb.2) st) as [st1 ns1].
  assert (Hx : synced ctx s' (replay ctx owners (h + 1) blocks (seal st1 h hb.1)).1).
  { apply IH; [done|]. by destruct Hsy1. }
  by destruct (replay ctx owners (h + 1) blocks (seal st1 h hb.1)).
Qed.

End Following.

Section CatchUp.
Context `{HLib : Lib, XP : XOnlyParse} {N : Type} `{HN : Rpc N} (ctx : Ctx) (owners : list XOnlyPublicKey).
Context (chain : list (BlockHash * Block)) (Hserves : serves chain).

(** The blocks an index has not seen. *)
Definition unseen (st : IndexState) : list (BlockHash * Block) := drop (Z.to_nat (ix_height st + 1)) chain.

Lemma catch_up_spec n st r n' st' :
  0 <= ix_height st < Z.of_nat (length chain) ->
  catch_up (N := N) ctx owners (n, st) = (r, (n', st')) ->
  exists k ns, replay ctx owners (ix_height st + 1) (take k (unseen st)) st = (st', ns) /\
    (k <= length (unseen st))%nat /\ ix_height st' = ix_height st + Z.of_nat k /\
    match r with
    | Ok ns' => ns' = ns /\ k = length (unseen st)
    | Err (Reorg h') => h' = ix_height st' + 1 /\ exists hb, chain !! Z.to_nat h' = Some hb /\
        prev_blockhash hb.2 <> ix_tip st'
    | Err (SyncNode _) => True
    end.
Proof.
  intros Hst. unfold catch_up, on_node, map_error, zoom, mbind, eff_bind. cbn [fst snd gets].
  unfold height. destruct (getblockcount n) as [[tip|e] n1] eqn:E1; cbn.
  - pose proof (sv_height _ Hserves _ _ _ E1) as ->. intros Hr.
    apply (scan_blocks_spec ctx owners chain (sv_replies _ Hserves)) in Hr as (k & ns & Hk & Hrp & Hlen & Hm); [|lia..].
    exists k, ns. fold (unseen st) in Hrp, Hlen. split_and!; [done|done| |].
    + apply replay_height in Hrp; [|lia]. rewrite length_take in Hrp. lia.
    + destruct r as [ns'|[e|h']]; [|done..]. destruct Hm as [-> ->]. split; [done|].
      unfold unseen. rewrite length_drop. lia.
  - intros [= <- _ <-]. exists 0%nat, []. split_and!; done || lia.
Qed.

(** C13: A catch-up scan can stop anywhere (the node dies, the chain reorganizes): the state
    is the replay of a prefix of the chain, whole exactly when the scan succeeded; a reorg
    verdict means a block that does not extend the indexed tip; and a later scan from there
    ends in the state of one uninterrupted scan and returns its remaining notices [ns2],
    those of the prefix ([ns]) having gone with the error. *)
Theorem catch_up_resumes n st r n' st' :
  0 <= ix_height st < Z.of_nat (length chain) ->
  catch_up (N := N) ctx owners (n, st) = (r, (n', st')) ->
  exists k ns, replay ctx owners (ix_height st + 1) (take k (unseen st)) st = (st', ns) /\
    match r with
    | Ok ns' => ns' = ns /\ k = length (unseen st)
    | Err (Reorg h') => h' = ix_height st' + 1 /\ exists hb, chain !! Z.to_nat h' = Some hb /\
        prev_blockhash hb.2 <> ix_tip st'
    | Err (SyncNode _) => True
    end /\
    forall m ns2 m' st2, catch_up (N := N) ctx owners (m, st') = (Ok ns2, (m', st2)) ->
      replay ctx owners (ix_height st + 1) (unseen st) st = (st2, ns ++ ns2).
Proof.
  intros Hst Hr. destruct (catch_up_spec _ _ _ _ _ Hst Hr) as (k & ns & Hrp & Hk & Hh & Hm).
  exists k, ns. split_and!; [done|done|]. intros m ns2 m' st2 Hr2.
  assert (Hl : length (unseen st) = (length chain - Z.to_nat (ix_height st + 1))%nat)
    by apply length_drop.
  apply catch_up_spec in Hr2 as (k2 & ns2' & Hrp2 & _ & _ & -> & ->); [|lia].
  rewrite firstn_all in Hrp2. rewrite <- (take_drop k (unseen st)), replay_app, Hrp.
  rewrite length_take_le by done. replace (ix_height st + 1 + Z.of_nat k) with (ix_height st' + 1) by lia.
  replace (drop k (unseen st)) with (unseen st'); [by rewrite Hrp2|].
  unfold unseen. rewrite drop_drop. f_equal. lia.
Qed.

(** C12: The indexer and the protocol, composed over blocks: an index in step with the live
    coins that catches up, from a node serving one chain, over blocks of protocol operations
    (in any number and order, each in a block no earlier than its lock time, mixed with
    transactions that touch no live coin) is in step with the coins they leave.  The
    operations are those of C1 that the index can read: none repays zero, none pays the
    reserve address twice or a vault address by a wallet payout, none liquidates in full a
    vault without debt, and the owner of each vault opened is a candidate or shown in the
    opening transaction, as the only such key that derives the vault's address. *)
Theorem catch_up_follows `{!LibSpec HLib, !Compiler} n st ns n' st' s s' :
  deploy_ok ctx -> sys_wf s -> synced ctx s st ->
  0 <= ix_height st < Z.of_nat (length chain) ->
  chain_evolves ctx owners (ix_height st + 1) s (unseen st) s' ->
  catch_up (N := N) ctx owners (n, st) = (Ok ns, (n', st')) ->
  synced ctx s' st'.
Proof.
  intros Hctx Hs Hsy Hst He Hr. destruct (catch_up_spec _ _ _ _ _ Hst Hr) as (k & ns' & Hrp & _ & _ & _ & ->).
  rewrite firstn_all in Hrp. change st' with (st', ns').1. rewrite <- Hrp. by eapply replay_follows.
Qed.

End CatchUp.
