(* ===== verification/Snapshot.v ===== *)
(** * The snapshot file ([styx-watch/src/snapshot.rs])

    The indexed state as a document, its way back, and the atomic write.  Outside the
    repository, and parameters here: the text forms of hashes, keys and scripts
    ([Display]), the JSON of a document ([Json]) and the file system ([Disk], the target
    file and its sibling [.tmp]).  Their laws are the documented ones: a text form reads
    back, writing the sibling leaves the target alone, a rename is all or nothing. *)

From Stdlib Require Import ZArith Lia.
From stdpp Require Import base gmap strings option list.
From S2P Require Import Prelude Units CrMath Elements Oracle Simf Encode Domain Artifacts Jets.
From S2P Require Import CovVault CovReserve CovIssuer Plan Index.

(** ** [BTreeMap] iteration *)

(** The derived order of [OutPoint]: the order of hashes is the library's. *)
Class OutPointOrder : Type := op_le : OutPoint -> OutPoint -> bool.

Definition btree_iter `{OutPointOrder} {A} (m : gmap OutPoint A) : list (OutPoint * A) :=
  sort_by (fun x y => op_le x.1 y.1) (map_to_list m).

Lemma btree_iter_perm `{OutPointOrder} {A} (m : gmap OutPoint A) : btree_iter m ≡ₚ map_to_list m.
Proof. apply sort_by_perm. Qed.

Lemma btree_iter_elem `{OutPointOrder} {A} (m : gmap OutPoint A) op a :
  (op, a) ∈ btree_iter m <-> m !! op = Some a.
Proof. by rewrite btree_iter_perm, elem_of_map_to_list. Qed.

Lemma btree_iter_map `{OutPointOrder} {A} (m : gmap OutPoint A) : list_to_map (btree_iter m) = m.
Proof.
  rewrite <- (list_to_map_to_list m) at 2. apply list_to_map_proper; [|apply btree_iter_perm].
  rewrite btree_iter_perm. apply NoDup_fst_map_to_list.
Qed.

(** ** The document *)

Inductive SnapshotError : Type :=
| SnapIo (message : string)
| SnapJson (message : string)
| SnapField (field : string) (value : bytes)
| SnapVersion (version : Z).

Definition VERSION : Z := 1.

Record OutPointDoc : Type := mkOutPointDoc { od_txid : bytes; od_vout : Z }.
Record SingletonDoc : Type := mkSingletonDoc { sd_outpoint : OutPointDoc; sd_value : Z }.
Record IssuerDoc : Type := mkIssuerDoc { id_outpoint : OutPointDoc; id_anchor : Z }.
Record VaultDoc : Type := mkVaultDoc {
  vd_outpoint : OutPointDoc;
  vd_debt : Z;
  vd_last_height : Z;
  vd_value : Z;
  vd_owner : option bytes;
  vd_spk : bytes
}.
Record LostDoc : Type := mkLostDoc { ld_vault : OutPointDoc; ld_txid : bytes; ld_reason : string }.

Record Doc : Type := mkDoc {
  dc_version : Z;
  dc_height : Z;
  dc_tip : bytes;
  dc_pot : option SingletonDoc;
  dc_reserve : option SingletonDoc;
  dc_issuer : option IssuerDoc;
  dc_vaults : list VaultDoc;
  dc_lost : list LostDoc
}.

(** [Display] and [FromStr] of [Txid] and [BlockHash] (one 32-byte form), of
    [XOnlyPublicKey], and [ToHex]/[FromHex]. *)
Class Display : Type := {
  show_hash : bytes -> bytes;
  parse_hash : bytes -> option bytes;
  show_pk : XOnlyPublicKey -> bytes;
  parse_pk : bytes -> option XOnlyPublicKey;
  show_hex : bytes -> bytes;
  parse_hex : bytes -> option bytes
}.

Class DisplaySpec `{XOnlyParse} (D : Display) : Prop := {
  parse_show_hash h : length h = 32%nat -> parse_hash (show_hash h) = Some h;
  parse_show_pk k : valid_xonly k = true -> parse_pk (show_pk k) = Some k;
  parse_show_hex b : parse_hex (show_hex b) = Some b
}.

Section Documents.
Context `{Display, OutPointOrder}.

Definition op_doc (op : OutPoint) : OutPointDoc := mkOutPointDoc (show_hash (op_txid op)) (op_vout op).

Definition op_parse (d : OutPointDoc) : result SnapshotError OutPoint :=
  txid ← ok_or (SnapField "txid" (od_txid d)) (parse_hash (od_txid d));
  Ok (mkOutPoint txid (od_vout d)).

Definition vault_doc (x : OutPoint * TrackedVault) : VaultDoc :=
  mkVaultDoc (op_doc x.1) (Obol.raw (tv_debt x.2)) (BlockHeight.raw (tv_last_height x.2))
    (Sats.raw (tv_value x.2)) (show_pk <$> tv_owner x.2) (show_hex (tv_spk x.2)).

Definition lost_doc (x : OutPoint * Lost) : LostDoc :=
  mkLostDoc (op_doc x.1) (show_hash (lo_txid x.2)) (lo_reason x.2).

Definition doc (st : IndexState) : Doc :=
  mkDoc VERSION (ix_height st) (show_hash (ix_tip st))
    ((fun q => mkSingletonDoc (op_doc (outpoint q)) (Obol.raw (oc_value q))) <$> ix_pot st)
    ((fun r => mkSingletonDoc (op_doc (outpoint r)) (Sats.raw (oc_value r))) <$> ix_reserve st)
    ((fun i => mkIssuerDoc (op_doc (outpoint i)) (BlockHeight.raw (last_mint_height (state i))))
       <$> ix_issuer st)
    (vault_doc <$> btree_iter (ix_vaults st))
    (lost_doc <$> btree_iter (ix_lost st)).

(** [match &doc.x { Some(x) => Some(..?), None => None }]. *)
Definition optional {A B} (f : A -> result SnapshotError B) (o : option A)
    : result SnapshotError (option B) :=
  match o with Some a => b ← f a; Ok (Some b) | None => Ok None end.

Definition pot_parse (d : SingletonDoc) : result SnapshotError (OnChain PotState) :=
  op ← op_parse (sd_outpoint d); Ok (mkOn thePot op (Obol.new (sd_value d))).
Definition reserve_parse (d : SingletonDoc) : result SnapshotError (OnChain ReserveState) :=
  op ← op_parse (sd_outpoint d); Ok (mkOn theReserve op (Sats.new (sd_value d))).
Definition issuer_parse (d : IssuerDoc) : result SnapshotError (OnChain IssuerState) :=
  op ← op_parse (id_outpoint d); Ok (mkOn (mkIssuer (BlockHeight.new (id_anchor d))) op 1).

Definition owner_parse (s : bytes) : result SnapshotError XOnlyPublicKey :=
  ok_or (SnapField "owner" s) (parse_pk s).

Definition vault_parse (v : VaultDoc) : result SnapshotError (OutPoint * TrackedVault) :=
  owner ← optional owner_parse (vd_owner v);
  spk ← ok_or (SnapField "spk" (vd_spk v)) (parse_hex (vd_spk v));
  op ← op_parse (vd_outpoint v);
  Ok (op, mkTracked (Obol.new (vd_debt v)) (BlockHeight.new (vd_last_height v))
            (Sats.new (vd_value v)) owner spk).

Definition lost_parse (l : LostDoc) : result SnapshotError (OutPoint * Lost) :=
  txid ← ok_or (SnapField "lost txid" (ld_txid l)) (parse_hash (ld_txid l));
  op ← op_parse (ld_vault l);
  Ok (op, mkLost txid (ld_reason l)).

(** A loop that parses each entry and inserts it. *)
Fixpoint insert_all {D A} (f : D -> result SnapshotError (OutPoint * A)) (l : list D)
    (m : gmap OutPoint A) : result SnapshotError (gmap OutPoint A) :=
  match l with
  | [] => Ok m
  | d :: l => x ← f d; insert_all f l (<[x.1 := x.2]> m)
  end.

Definition state_of (d : Doc) : result SnapshotError IndexState :=
  if negb (dc_version d =? VERSION) then Err (SnapVersion (dc_version d)) else
  tip ← ok_or (SnapField "tip" (dc_tip d)) (parse_hash (dc_tip d));
  pot ← optional pot_parse (dc_pot d);
  reserve ← optional reserve_parse (dc_reserve d);
  issuer ← optional issuer_parse (dc_issuer d);
  vaults ← insert_all vault_parse (dc_vaults d) ∅;
  lost ← insert_all lost_parse (dc_lost d) ∅;
  Ok (mkIndex (dc_height d) tip pot reserve issuer vaults lost).

End Documents.

(** ** The file *)

Class Json : Type := {
  to_json : Doc -> result string bytes;
  from_json : bytes -> result string Doc
}.
Class JsonSpec (J : Json) : Prop :=
  from_to_json d text : to_json d = Ok text -> from_json text = Ok d.

Class Disk (D : Type) : Type := {
  file_exists : D -> bool;
  read_file : D -> result string bytes;
  write_tmp : bytes -> D -> result string unit * D;
  rename_tmp : D -> result string unit * D
}.

(** A failed or interrupted call may leave anything in the sibling; the target changes only
    by a rename that succeeded. *)
Class DiskSpec {D} (K : Disk D) : Prop := {
  write_keeps text d : read_file (write_tmp text d).2 = read_file d;
  rename_fails d e d' : rename_tmp d = (Err e, d') -> read_file d' = read_file d;
  rename_moves text d d1 d' u u' :
    write_tmp text d = (Ok u, d1) -> rename_tmp d1 = (Ok u', d') -> read_file d' = Ok text
}.

Section Files.
Context `{Display, OutPointOrder, Json} {D : Type} `{Disk D}.

Definition save (st : IndexState) (d : D) : result SnapshotError unit * D :=
  match to_json (doc st) with
  | Err e => (Err (SnapJson e), d)
  | Ok json =>
      match write_tmp json d with
      | (Err e, d1) => (Err (SnapIo e), d1)
      | (Ok _, d1) =>
          let '(r, d2) := rename_tmp d1 in (map_err SnapIo r, d2)
      end
  end.

Definition load (d : D) : result SnapshotError IndexState :=
  text ← map_err SnapIo (read_file d);
  document ← map_err SnapJson (from_json text);
  state_of document.

End Files.

(** ** Lemmas *)

(** What the Rust types guarantee of an indexed state, and the issuer token's single unit. *)
Record state_typed `{XOnlyParse} (st : IndexState) : Prop := {
  sy_tip : length (ix_tip st) = 32%nat;
  sy_pot q : ix_pot st = Some q -> length (op_txid (outpoint q)) = 32%nat;
  sy_reserve r : ix_reserve st = Some r -> length (op_txid (outpoint r)) = 32%nat;
  sy_issuer i : ix_issuer st = Some i -> length (op_txid (outpoint i)) = 32%nat /\ oc_value i = 1;
  sy_vaults op v : ix_vaults st !! op = Some v ->
    length (op_txid op) = 32%nat /\ forall k, tv_owner v = Some k -> valid_xonly k = true;
  sy_lost op l : ix_lost st !! op = Some l ->
    length (op_txid op) = 32%nat /\ length (lo_txid l) = 32%nat
}.

Section RoundTrip.
Context `{XP : XOnlyParse} {DP : Display} `{OO : OutPointOrder, !DisplaySpec DP}.

Lemma op_parse_doc op : length (op_txid op) = 32%nat -> op_parse (op_doc op) = Ok op.
Proof. intros Hl. unfold op_parse. cbn. rewrite parse_show_hash by done. by destruct op. Qed.

Lemma vault_parse_doc op v :
  length (op_txid op) = 32%nat -> (forall k, tv_owner v = Some k -> valid_xonly k = true) ->
  vault_parse (vault_doc (op, v)) = Ok (op, v).
Proof.
  intros Hl Ho. unfold vault_parse. cbn.
  assert (Hp : optional owner_parse (show_pk <$> tv_owner v) = Ok (tv_owner v)).
  { destruct (tv_owner v) as [k|]; [|done]. cbn. unfold owner_parse. by rewrite parse_show_pk by auto. }
  rewrite Hp. cbn. rewrite parse_show_hex. cbn. rewrite op_parse_doc by done.
  by destruct v as [[] [] [] ? ?].
Qed.

Lemma lost_parse_doc op l :
  length (op_txid op) = 32%nat -> length (lo_txid l) = 32%nat ->
  lost_parse (lost_doc (op, l)) = Ok (op, l).
Proof.
  intros Hl Ht. unfold lost_parse. cbn. rewrite parse_show_hash by done. cbn.
  rewrite op_parse_doc by done. by destruct l.
Qed.

(** Entries that read back rebuild the map they came from. *)
Lemma insert_all_list {D A} (f : D -> result SnapshotError (OutPoint * A)) (g : OutPoint * A -> D) l m :
  (forall x, x ∈ l -> f (g x) = Ok x) -> NoDup (fst <$> l) ->
  (forall x, x ∈ l -> m !! x.1 = None) ->
  insert_all f (g <$> l) m = Ok (list_to_map l ∪ m).
Proof.
  revert m. induction l as [|[op a] l IH]; intros m Hf Hnd Hm; cbn.
  { by rewrite map_empty_union. }
  rewrite Hf by (by left). cbn. cbn in Hnd. apply NoDup_cons in Hnd as [Hop Hnd].
  assert (Hl : (list_to_map l : gmap OutPoint A) !! op = None).
  { by apply not_elem_of_list_to_map_1. }
  rewrite IH; [|by intros x Hx; apply Hf; right|done|].
  - f_equal. rewrite <- insert_union_l. by rewrite insert_union_r by done.
  - intros x Hx. rewrite lookup_insert_ne; [by apply Hm; right|]. intros ->. apply Hop.
    apply list_elem_of_fmap. by exists x.
Qed.

Lemma insert_all_btree {D A} (f : D -> result SnapshotError (OutPoint * A)) (g : OutPoint * A -> D)
    (m : gmap OutPoint A) :
  (forall op a, m !! op = Some a -> f (g (op, a)) = Ok (op, a)) ->
  insert_all f (g <$> btree_iter m) ∅ = Ok m.
Proof.
  intros Hf. rewrite insert_all_list.
  - by rewrite map_union_empty, btree_iter_map.
  - intros [op a] Hx%btree_iter_elem. by apply Hf.
  - rewrite btree_iter_perm. apply NoDup_fst_map_to_list.
  - intros x _. apply lookup_empty.
Qed.

Lemma state_doc st : state_typed st -> state_of (doc st) = Ok st.
Proof.
  intros []. unfold state_of, doc. cbn [dc_version dc_height dc_tip dc_pot dc_reserve dc_issuer
    dc_vaults dc_lost]. rewrite Z.eqb_refl, parse_show_hash by done. cbn [negb ok_or mbind result_bind].
  destruct st as [h t pot reserve issuer vs ls]. cbn in *.
  assert (Hp : optional pot_parse ((fun q => mkSingletonDoc (op_doc (outpoint q)) (Obol.raw (oc_value q)))
    <$> pot) = Ok pot).
  { destruct pot as [[[] op [v]]|]; [|done]. unfold pot_parse. cbn. by rewrite (op_parse_doc op (sy_pot0 _ eq_refl)). }
  assert (Hr : optional reserve_parse ((fun r => mkSingletonDoc (op_doc (outpoint r)) (Sats.raw (oc_value r)))
    <$> reserve) = Ok reserve).
  { destruct reserve as [[[] op [v]]|]; [|done]. unfold reserve_parse. cbn. by rewrite (op_parse_doc op (sy_reserve0 _ eq_refl)). }
  assert (Hi : optional issuer_parse ((fun i => mkIssuerDoc (op_doc (outpoint i))
    (BlockHeight.raw (last_mint_height (state i)))) <$> issuer) = Ok issuer).
  { destruct issuer as [i|]; [|done]. destruct (sy_issuer0 i eq_refl) as [Hl Hv].
    destruct i as [[[a]] op v]. unfold issuer_parse. cbn in *. by rewrite op_parse_doc, Hv. }
  rewrite Hp. cbn. rewrite Hr. cbn. rewrite Hi. cbn.
  rewrite (insert_all_btree vault_parse vault_doc) by (intros op v [? ?]%sy_vaults0; by apply vault_parse_doc).
  cbn. by rewrite (insert_all_btree lost_parse lost_doc) by (intros op l [? ?]%sy_lost0; by apply lost_parse_doc).
Qed.

End RoundTrip.

Lemma save_outcome `{XP : XOnlyParse, OO : OutPointOrder} {DP : Display} {J : Json} {D : Type}
    {K : Disk D} (HD : DisplaySpec DP) (HJ : JsonSpec J) (HK : DiskSpec K) (st : IndexState) (d : D) :
  state_typed st ->
  let '(r, d') := save st d in
  match r with
  | Ok _ => load d' = Ok st
  | Err _ => load d' = load d
  end.
Proof.
  intros Hst. unfold save, load.
  destruct (to_json (doc st)) as [json|e] eqn:Ej; [|done].
  destruct (write_tmp json d) as [[u|e] d1] eqn:Ew; pose proof (write_keeps json d) as Hd1; rewrite Ew in Hd1;
    cbn in Hd1; [|by rewrite Hd1].
  destruct (rename_tmp d1) as [[u'|e] d2] eqn:Er; cbn.
  - rewrite (rename_moves json d d1 d2 u u') by done. cbn. rewrite (from_to_json (doc st) json) by done.
    by apply state_doc.
  - by rewrite (rename_fails d1 e d2), Hd1.
Qed.

(** The snapshot is atomic and lossless: after [save] succeeds, [load] returns the saved
    state, vaults and lost vaults included; after [save] failed at any point, and after a
    crash between the write and the rename, [load] returns what it returned before. *)
Theorem snapshot_atomic `{XP : XOnlyParse, OO : OutPointOrder} {DP : Display} {J : Json} {D : Type}
    {K : Disk D} (st : IndexState) (d : D) :
  DisplaySpec DP -> JsonSpec J -> DiskSpec K -> state_typed st ->
  let '(r, d') := save st d in
  match r with
  | Ok _ => load d' = Ok st
  | Err _ => load d' = load d
  end /\
  forall text, load (write_tmp text d).2 = load d.
Proof.
  intros HD HJ HK Hst. pose proof (save_outcome HD HJ HK st d Hst) as Hs.
  destruct (save st d) as [r d']. split; [exact Hs|].
  intros text. unfold load. by rewrite write_keeps.
Qed.
