(* ===== verification/Config.v ===== *)
(** * Configuration ([styx-watch/src/config.rs], [styx-wallet/src/config.rs],
      [styx-keeper/src/config.rs])

    What the daemons read out of [styxnet.toml] and their own files: the deploy's
    parameters, the genesis hash, the keys.  Reading and writing TOML is the [toml]
    crate's; the records are the parsed documents.  Messages of third-party errors are
    dropped. *)

From Stdlib Require Import ZArith Lia.
From stdpp Require Import base gmap strings option list.
From S2P Require Import Prelude Hex Units CrMath Elements Oracle Simf Encode Domain Artifacts Jets.
From S2P Require Import CovVault CovReserve CovIssuer Plan Index Snapshot Quotes.

(** ** [styxnet.toml] *)

Inductive OracleSetError : Type :=
| BadSlot (slot : Z)
| SlotMissing (i : nat)
| SetShape.

Inductive ConfigError : Type :=
| CfgIo
| CfgToml
| CfgField (field : string)
| NotDeployed (what : string)
| OracleSet (e : OracleSetError).

Record Network : Type := mkNetwork { nw_chain : string; nw_genesis : option bytes }.
Record Assets : Type := mkAssets { as_obol : bytes; as_issuer_token : bytes; as_policy : bytes }.
Record ProtocolSection : Type := mkProtocolSection { issuer_anchor_genesis : Z }.
Record OracleEntry : Type := mkOracleEntry {
  oe_slot : Z; oe_protocol_pk : bytes; oe_nostr_pk : option bytes; oe_admin_url : option bytes
}.
Record Nostr : Type := mkNostr { no_relays : list bytes }.

Record StyxnetConfig : Type := mkStyxnet {
  sn_network : Network;
  sn_assets : option Assets;
  sn_protocol : option ProtocolSection;
  sn_oracles : list OracleEntry;
  sn_nostr : Nostr
}.

(** [toml::from_str] and [toml::to_string_pretty] at one type: an absent field that has a
    serde default is filled in by the parser. *)
Class Toml (A : Type) : Type := { parse_toml : bytes -> option A; show_toml : A -> option bytes }.

(** Reading and writing a file of the configuration: the path's content, if it can be read,
    and whether a write succeeds. *)
Class Files (F : Type) : Type := {
  read_text : bytes -> F -> option bytes;
  write_text : bytes -> bytes -> F -> option unit * F
}.

(** [AssetId::from_str]. *)
Class AssetParse : Type := parse_asset : bytes -> option AssetId.

Module Styxnet.
Section Styxnet.
Context `{Display, AssetParse, Toml StyxnetConfig} {F : Type} `{Files F}.

Definition load (path : bytes) (fs : F) : result ConfigError StyxnetConfig :=
  text ← ok_or CfgIo (read_text path fs);
  ok_or CfgToml (parse_toml text).

Definition save (cfg : StyxnetConfig) (path : bytes) (fs : F) : result ConfigError unit * F :=
  match show_toml cfg with
  | None => (Err CfgToml, fs)
  | Some text => let '(r, fs') := write_text path text fs in (ok_or CfgIo r, fs')
  end.

(** The loop that fills the five slots. *)
Fixpoint fill_slots (l : list OracleEntry) (pks : list (option XOnlyPublicKey))
    : result ConfigError (list (option XOnlyPublicKey)) :=
  match l with
  | [] => Ok pks
  | o :: l =>
      let i := Z.to_nat (oe_slot o) in
      if (4 <? oe_slot o) || bool_decide (is_Some (mjoin (pks !! i)))
      then Err (OracleSet (BadSlot (oe_slot o))) else
      pk ← ok_or (CfgField "oracles.protocol_pk") (parse_pk (oe_protocol_pk o));
      fill_slots l (<[i := Some pk]> pks)
  end.

Fixpoint take_slots (i : nat) (pks : list (option XOnlyPublicKey))
    : result ConfigError (list XOnlyPublicKey) :=
  match pks with
  | [] => Ok []
  | pk :: pks =>
      pk ← ok_or (OracleSet (SlotMissing i)) pk;
      rest ← take_slots (S i) pks;
      Ok (pk :: rest)
  end.

Definition oracle_pks (cfg : StyxnetConfig) : result ConfigError (list XOnlyPublicKey) :=
  pks ← fill_slots (sn_oracles cfg) (replicate 5 None);
  out ← take_slots 0 pks;
  if bool_decide (length out = 5%nat) then Ok out else Err (OracleSet SetShape).

Definition asset_field (field : string) (s : bytes) : result ConfigError AssetId :=
  ok_or (CfgField field) (parse_asset s).

Definition params (cfg : StyxnetConfig) : result ConfigError Params :=
  assets ← ok_or (NotDeployed "assets") (sn_assets cfg);
  obol ← asset_field "assets.obol" (as_obol assets);
  issuer_token ← asset_field "assets.issuer_token" (as_issuer_token assets);
  policy ← asset_field "assets.policy" (as_policy assets);
  pks ← oracle_pks cfg;
  Ok (mkParams obol issuer_token policy pks).

Definition genesis (cfg : StyxnetConfig) : result ConfigError BlockHash :=
  g ← ok_or (NotDeployed "network.genesis") (nw_genesis (sn_network cfg));
  ok_or (CfgField "network.genesis") (parse_hash g).

End Styxnet.
End Styxnet.

(** ** The wallet's file *)

Inductive WalletConfigError : Type :=
| WcIo
| WcToml
| WcField (field : string)
| WcAuth.

Inductive Auth : Type :=
| CookieFile (path : bytes)
| UserPass (user password : bytes).

Record WalletConfig : Type := mkWalletConfig {
  wc_styxnet : bytes;
  wc_rpc_url : bytes;
  wc_rpc_user : option bytes;
  wc_rpc_password : option bytes;
  wc_rpc_cookie : option bytes;
  wc_snapshot : bytes;
  wc_owner_seckey : bytes;
  wc_funding_seckey : bytes
}.

(** [Keypair::from_seckey_slice] succeeds on a secret key in range. *)
Class SecretKey : Type := valid_seckey : bytes -> bool.

Module WalletFile.

(** The byte loop of [parse_seckey] slices the text like a wire quote's signature: it panics
    ([None]) inside a multi-byte character. *)
Definition parse_seckey `{SecretKey} (field : string) (text : bytes)
    : option (result WalletConfigError bytes) :=
  if bool_decide (length text <> 64%nat) then Some (Err (WcField field)) else
  r ← WireQuote.sig_pairs text;
  Some (match r with
        | Ok sk => if valid_seckey sk then Ok sk else Err (WcField field)
        | Err _ => Err (WcField field)
        end).

Definition parse `{Toml WalletConfig} (text : bytes) : result WalletConfigError WalletConfig :=
  ok_or WcToml (parse_toml text).
Definition load `{Toml WalletConfig} {F : Type} `{Files F} (path : bytes) (fs : F)
    : result WalletConfigError WalletConfig :=
  text ← ok_or WcIo (read_text path fs); parse text.

Definition auth (cfg : WalletConfig) : result WalletConfigError Auth :=
  match wc_rpc_cookie cfg, wc_rpc_user cfg, wc_rpc_password cfg with
  | Some cookie, None, None => Ok (CookieFile cookie)
  | None, Some user, Some pass => Ok (UserPass user pass)
  | _, _, _ => Err WcAuth
  end.

Definition owner `{SecretKey} (cfg : WalletConfig) : option (result WalletConfigError bytes) :=
  parse_seckey "owner_seckey" (wc_owner_seckey cfg).
Definition funding `{SecretKey} (cfg : WalletConfig) : option (result WalletConfigError bytes) :=
  parse_seckey "funding_seckey" (wc_funding_seckey cfg).

End WalletFile.

(** ** The keeper's knobs *)

Record KeeperOpts : Type := mkOpts { poke_lag : Z; refresh_lag : Z; walkback : Z }.
Definition default_opts : KeeperOpts := mkOpts 4 16 8.

Record KeeperConfig : Type := mkKeeperConfig {
  kc_purse : WalletConfig;
  kc_poke_lag : Z;
  kc_refresh_lag : Z;
  kc_walkback : Z;
  kc_poll_ms : Z
}.

(** The serde defaults. *)
Definition default_poke_lag : Z := 4.
Definition default_refresh_lag : Z := 16.
Definition default_walkback : Z := 8.
Definition default_poll_ms : Z := 1000.

Module KeeperFile.

Definition parse `{Toml KeeperConfig} (text : bytes) : result WalletConfigError KeeperConfig :=
  ok_or WcToml (parse_toml text).
Definition load `{Toml KeeperConfig} {F : Type} `{Files F} (path : bytes) (fs : F)
    : result WalletConfigError KeeperConfig :=
  text ← ok_or WcIo (read_text path fs); parse text.
Definition opts (cfg : KeeperConfig) : KeeperOpts :=
  mkOpts (kc_poke_lag cfg) (kc_refresh_lag cfg) (kc_walkback cfg).

End KeeperFile.

(** ** Lemmas *)

Import Styxnet.

Section OracleSet.
Context `{HD : Display}.

(** The slots after the loop: what was there, and one parsed key per entry. *)
Lemma fill_slots_spec l pks pks' :
  length pks = 5%nat -> Forall (fun o => 0 <= oe_slot o) l -> fill_slots l pks = Ok pks' ->
  length pks' = 5%nat /\ NoDup (oe_slot <$> l) /\
  (forall o, o ∈ l -> oe_slot o <= 4 /\ mjoin (pks !! Z.to_nat (oe_slot o)) = None) /\
  (forall i pk, mjoin (pks' !! i) = Some pk <-> mjoin (pks !! i) = Some pk \/
     exists o, o ∈ l /\ Z.to_nat (oe_slot o) = i /\ parse_pk (oe_protocol_pk o) = Some pk).
Proof.
  revert pks. induction l as [|o l IH]; intros pks Hl HF H; cbn in H.
  { injection H as <-. split_and!; [done|apply NoDup_nil_2|by intros ? ?%not_elem_of_nil|].
    intros i pk. split; [by left|]. intros [?|(o & Ho & _)]; [done|]. by apply not_elem_of_nil in Ho. }
  apply Forall_cons in HF as [Ho HF]. destruct (_ || _) eqn:Hc; [done|]. boolz.
  destruct (parse_pk (oe_protocol_pk o)) as [pk0|] eqn:Hpk; [|done]. cbn in H.
  set (i0 := Z.to_nat (oe_slot o)) in *.
  assert (Hi0 : (i0 < 5)%nat) by (unfold i0; lia).
  assert (Hnone : mjoin (pks !! i0) = None).
  { by apply eq_None_not_Some. }
  destruct (IH (<[i0 := Some pk0]> pks)) as (Hl' & Hnd & Hfree & Hpks); [by rewrite length_insert|done..|].
  split_and!; [done| | |].
  - cbn. constructor; [|done]. intros (o' & Heq & Ho')%list_elem_of_fmap.
    apply Hfree in Ho' as [_ Hx]. unfold i0 in Hx. rewrite <- Heq in Hx.
    rewrite list_lookup_insert_eq in Hx by (fold i0; lia). done.
  - intros o' [->|Ho']%elem_of_cons; [split; [lia|done]|]. apply Hfree in Ho' as [? Hx]. split; [done|].
    destruct (decide (i0 = Z.to_nat (oe_slot o'))) as [<-|]; [done|].
    by rewrite list_lookup_insert_ne in Hx.
  - intros i pk. rewrite Hpks. destruct (decide (i0 = i)) as [<-|Hne].
    + rewrite list_lookup_insert_eq by lia. cbn. rewrite Hnone. split.
      * intros [[= <-]|(o' & ? & ? & ?)]; right; [exists o; split_and!; [by left|done|done]|].
        exists o'. split_and!; [by right|done|done].
      * intros [?|(o' & [->|Ho']%elem_of_cons & Hi & Hp)]; [done|left; congruence|]. right. by exists o'.
    + rewrite list_lookup_insert_ne by done. split.
      * intros [?|(o' & ? & ? & ?)]; [by left|]. right. exists o'. split_and!; [by right|done|done].
      * intros [?|(o' & [->|Ho']%elem_of_cons & Hi & Hp)]; [by left|done|]. right. by exists o'.
Qed.

Lemma take_slots_spec i pks out :
  take_slots i pks = Ok out -> pks = Some <$> out.
Proof.
  revert i out. induction pks as [|[pk|] pks IH]; intros i out; cbn; [by intros [= <-]| |done].
  destruct (take_slots (S i) pks) as [rest|] eqn:E; [|done]. cbn. intros [= <-]. cbn.
  by rewrite <- (IH _ _ E).
Qed.

End OracleSet.

(** A deploy's oracle keys: [oracle_pks] succeeds only on exactly five entries at the five
    distinct slots, and returns each slot's parsed key at the slot's position. *)
Theorem oracle_pks_spec `{Display} (cfg : StyxnetConfig) (pks : list XOnlyPublicKey) :
  Forall (fun o => 0 <= oe_slot o) (sn_oracles cfg) -> Styxnet.oracle_pks cfg = Ok pks ->
  length pks = 5%nat /\ length (sn_oracles cfg) = 5%nat /\ NoDup (oe_slot <$> sn_oracles cfg) /\
  forall i pk, pks !! i = Some pk <->
    exists o, o ∈ sn_oracles cfg /\ oe_slot o = Z.of_nat i /\ parse_pk (oe_protocol_pk o) = Some pk.
Proof.
  intros HF Hp. unfold Styxnet.oracle_pks in Hp.
  destruct (fill_slots (sn_oracles cfg) (replicate 5 None)) as [slots|] eqn:Hf; [|done]. cbn in Hp.
  destruct (take_slots 0 slots) as [out|] eqn:Ht; [|done]. cbn in Hp. case_bool_decide as Hl; [|done].
  injection Hp as ->. apply take_slots_spec in Ht as ->.
  apply fill_slots_spec in Hf as (_ & Hnd & Hfree & Hsl); [|done|done].
  assert (Hiff : forall i pk, pks !! i = Some pk <->
    exists o, o ∈ sn_oracles cfg /\ oe_slot o = Z.of_nat i /\ parse_pk (oe_protocol_pk o) = Some pk).
  { intros i pk. specialize (Hsl i pk). rewrite list_lookup_fmap in Hsl.
    assert (Hj : mjoin (Some <$> pks !! i) = pks !! i) by (by destruct (pks !! i)). rewrite Hj in Hsl.
    rewrite Hsl. split.
    - intros [Hr|(o & Ho & Hi & ?)].
      + by destruct (replicate 5 None !! i) as [x|] eqn:Hx; [apply (lookup_replicate 5 None) in Hx as [-> _]|].
      + exists o. rewrite Forall_forall in HF. specialize (HF o Ho). split_and!; [done|lia|done].
    - intros (o & Ho & Hi & ?). right. exists o. split_and!; [done|lia|done]. }
  split_and!; [done| |done|done].
  assert (Hperm : oe_slot <$> sn_oracles cfg ≡ₚ seqZ 0 5).
  { apply NoDup_Permutation; [done|apply NoDup_seqZ|]. intros z. rewrite elem_of_seqZ, list_elem_of_fmap.
    split.
    - intros (o & -> & Ho). rewrite Forall_forall in HF. specialize (HF o Ho).
      apply Hfree in Ho as [? _]. lia.
    - intros Hz. destruct (lookup_lt_is_Some_2 pks (Z.to_nat z)) as [pk Hpk]; [lia|].
      apply Hiff in Hpk as (o & ? & ? & _). exists o. split; [lia|done]. }
  apply Permutation_length in Hperm. by rewrite length_fmap in Hperm.
Qed.
