(* ===== verification/Relay.v ===== *)
(** * Quote transport ([styx-watch/src/transport.rs], [nostr.rs])

    How signed quotes travel: the in-memory hub and the Nostr endpoint, in its two roles.
    The Nostr client and the relays behind it are third-party: [Client] is what the code
    calls of them, [RelaySpec] what NIP-01 promises of an addressable event.  A receiver is
    the list of what has arrived; a read of an empty one does not return. *)

From Stdlib Require Import ZArith Lia.
From stdpp Require Import base gmap strings pretty option list.
From S2P Require Import Prelude Hex Units Elements Oracle Simf Domain Encode Artifacts Jets Plan.
From S2P Require Import Quotes Sockets Effects Config.

Inductive TransportError : Type :=
| Backend (message : string)
| Closed.

(** ** Receivers *)

(** [tokio::sync::broadcast::error::RecvError]. *)
Inductive RecvError : Type :=
| RecvLagged (n : Z)
| RecvClosed.

Abbreviation Inbox A := (list (result RecvError A)) (only parsing).

(** The loop of [recv]: the first item [f] makes a quote of.  [None]: it awaits the next
    item.  A closed channel stays closed. *)
Fixpoint recv_loop {A} (f : A -> option WireQuote.t) (inbox : Inbox A)
    : option (result TransportError WireQuote.t) * Inbox A :=
  match inbox with
  | [] => (None, [])
  | Ok item :: rest =>
      match f item with
      | Some q => (Some (Ok q), rest)
      | None => recv_loop f rest
      end
  | Err (RecvLagged _) :: rest => recv_loop f rest
  | Err RecvClosed :: _ => (Some (Err Closed), inbox)
  end.

(** ** The hub *)

(** [tokio::sync::broadcast::Sender::send]. *)
Class Broadcast (H : Type) : Type := bc_send : WireQuote.t -> H -> option H.

Module MockTransport.

Definition publish {H} `{Broadcast H} (quote : WireQuote.t) (hub : H) : result TransportError unit * H :=
  match bc_send quote hub with
  | Some hub' => (Ok tt, hub')
  | None => (Err Closed, hub)
  end.

Definition recv (inbox : Inbox WireQuote.t) := recv_loop Some inbox.

End MockTransport.

(** ** Nostr *)

(** The JSON of a quote: serde's derived form. *)
Class QuoteSerde : Type := {
  ser_quote : WireQuote.t -> option bytes;
  de_quote : bytes -> option WireQuote.t
}.

Definition to_json `{QuoteSerde} (q : WireQuote.t) : bytes := default [] (ser_quote q).
Definition from_json `{QuoteSerde} (s : bytes) : option WireQuote.t := de_quote s.

(** What the code reads of an event, and what it puts into one. *)
Record Event : Type := mkEvent {
  ev_kind : Z;
  ev_pubkey : bytes;
  ev_created_at : Z;
  ev_identifier : option bytes;
  ev_expiration : option Z;
  ev_content : bytes
}.

Record Filter : Type := mkFilter {
  fl_authors : list bytes;
  fl_kind : Z;
  fl_identifier : option bytes
}.

Inductive Notification : Type :=
| NEvent (e : Event)
| NOther.

(** [nostr_sdk]: a client is its keys; [R] is the relays, as they stand. *)
Class Client (R : Type) : Type := {
  nostr_pk : bytes -> bytes;
  parse_nostr_pk : bytes -> option bytes;
  timestamp_add : Z -> Z -> Z;
  add_relay : bytes -> bytes -> Eff R string unit;
  connect_relays : bytes -> R -> R;
  subscribe : bytes -> Filter -> Eff R string unit;
  fetch_events : bytes -> Filter -> Z -> Eff R string (list Event);
  send_event : bytes -> Event -> Eff R string unit
}.

Definition QUOTE_KIND : Z := 33321.
Definition EXPIRY_SECS : Z := 3600.

Module NostrQuotes.

Record t : Type := mk {
  client : bytes;
  notifications : Inbox Notification;
  authors : list bytes;
  last_created_at : Z
}.

Section Nostr.
Context `{QuoteSerde} {R : Type} `{Client R}.

(** [map_err(backend)]. *)
Definition backend {A} (m : Eff R string A) : Eff R TransportError A := map_error Backend m.

Fixpoint add_relays (keys : bytes) (relays : list bytes) : Eff R TransportError unit :=
  match relays with
  | [] => mret tt
  | url :: relays => _ ← backend (add_relay keys url); add_relays keys relays
  end.

Definition connect (keys : bytes) (relays authors : list bytes) : Eff R TransportError t :=
  _ ← add_relays keys relays;
  _ ← update (connect_relays keys);
  mret (mk keys [] authors 0).

Definition publisher (relays : list bytes) (keys : bytes) : Eff R TransportError t :=
  connect keys relays [].

(** [ephemeral] is what [Keys::generate] drew. *)
Definition subscriber (ephemeral : bytes) (relays authors : list bytes) : Eff R TransportError t :=
  this ← connect ephemeral relays authors;
  _ ← backend (subscribe ephemeral (mkFilter authors QUOTE_KIND None));
  mret this.

Definition parse (authors : list bytes) (event : Event) : option WireQuote.t :=
  if negb (ev_kind event =? QUOTE_KIND) then None else
  if negb (bool_decide (authors = [])) && negb (bool_decide (ev_pubkey event ∈ authors)) then None else
  quote ← from_json (ev_content event);
  if negb (bool_decide (ev_identifier event = Some (show_dec (WireQuote.height quote)))) then None
  else Some quote.

(** [timeout] in milliseconds. *)
Definition fetch (this : t) (height timeout : Z) : Eff R TransportError (list WireQuote.t) :=
  events ← backend (fetch_events (client this)
                      (mkFilter (authors this) QUOTE_KIND (Some (show_dec height))) timeout);
  mret (omap (parse (authors this)) events).

(** The event of a quote stamped [created_at], as the client signs it. *)
Definition event_of (keys : bytes) (quote : WireQuote.t) (created_at : Z) : Event :=
  mkEvent QUOTE_KIND (nostr_pk keys) created_at (Some (show_dec (WireQuote.height quote)))
    (Some (timestamp_add created_at EXPIRY_SECS)) (to_json quote).

Definition stamp (now : Z) (this : t) : Z :=
  if last_created_at this <? now then now else timestamp_add (last_created_at this) 1.

(** [now] is [Timestamp::now]. *)
Definition publish (now : Z) (quote : WireQuote.t) : Eff (t * R) TransportError unit := fun w =>
  let '(this, r) := w in
  let created_at := stamp now this in
  let this := mk (client this) (notifications this) (authors this) created_at in
  let '(x, r) := backend (send_event (client this) (event_of (client this) quote created_at)) r in
  (x, (this, r)).

Definition event_quote (authors : list bytes) (n : Notification) : option WireQuote.t :=
  match n with NEvent e => parse authors e | NOther => None end.

Definition recv (this : t) : option (result TransportError WireQuote.t) * t :=
  let '(x, rest) := recv_loop (event_quote (authors this)) (notifications this) in
  (x, mk (client this) rest (authors this) (last_created_at this)).

(** What arrives at the endpoint. *)
Definition arrive (items : Inbox Notification) (this : t) : t :=
  mk (client this) (notifications this ++ items) (authors this) (last_created_at this).

(** The oracles' transport keys of a configuration, every one parsed. *)
Fixpoint relay_authors (oracles : list OracleEntry) : option (list bytes) :=
  match oracles with
  | [] => Some []
  | o :: oracles =>
      match oe_nostr_pk o with
      | None => relay_authors oracles
      | Some s => pk ← parse_nostr_pk s; rest ← relay_authors oracles; Some (pk :: rest)
      end
  end.

End Nostr.
End NostrQuotes.

(** A parsed event carried the quote. *)
Lemma parse_content `{QuoteSerde} authors e q :
  NostrQuotes.parse authors e = Some q -> from_json (ev_content e) = Some q.
Proof.
  unfold NostrQuotes.parse. destruct (negb (ev_kind e =? QUOTE_KIND)); [done|]. destruct (_ && _); [done|].
  intros (q' & Hq & He)%bind_Some. destruct (negb _); [done|]. by injection He as <-.
Qed.

(** ** What a relay serves of an oracle

    Against relays that keep NIP-01's promise for addressable events, a quote an oracle
    published is what every consumer fetches at its height, until the oracle publishes
    another one there: the endpoint's timestamps never let a relay prefer an older quote. *)
Import NostrQuotes.

(** The address of an event: its author, its kind and its [d] tag. *)
Definition address (e : Event) : bytes * Z * bytes :=
  (ev_pubkey e, ev_kind e, default [] (ev_identifier e)).

Definition wanted (f : Filter) (e : Event) : Prop :=
  ev_pubkey e ∈ fl_authors f /\ ev_kind e = fl_kind f /\
  match fl_identifier f with Some d => ev_identifier e = Some d | None => True end.

(** NIP-01: of the addressable events (kinds 30000 to 39999) with one address a relay keeps
    the one with the latest timestamp, and a filter returns what it matches of those kept. *)
Class RelaySpec (R : Type) `{Client R} : Type := {
  held : R -> gmap (bytes * Z * bytes) Event;
  held_address r a e : held r !! a = Some e -> a = address e;
  timestamp_adds a n : 0 <= a -> 0 <= n -> a + n <= U64_MAX -> timestamp_add a n = a + n;
  send_replaces keys e r x r' :
    send_event keys e r = (x, r') -> ev_pubkey e = nostr_pk keys -> 30000 <= ev_kind e < 40000 ->
    is_Some (ev_identifier e) ->
    (forall old, held r !! address e = Some old -> ev_created_at old < ev_created_at e) ->
    held r' = <[address e := e]> (held r) \/ held r' = held r /\ is_ok x = false;
  fetch_returns keys f timeout r es r' :
    fetch_events keys f timeout r = (Ok es, r') -> fl_authors f <> [] ->
    forall e, e ∈ es <-> (exists a, held r !! a = Some e) /\ wanted f e
}.

Lemma show_dec_inj m n : 0 <= m -> 0 <= n -> show_dec m = show_dec n -> m = n.
Proof.
  intros Hm Hn. unfold show_dec, ascii_bytes. intros He.
  assert (Hs : (pretty (Z.to_N m) : string) = pretty (Z.to_N n)).
  { rewrite <- (String.string_of_list_byte_of_string (pretty (Z.to_N m))).
    rewrite <- (String.string_of_list_byte_of_string (pretty (Z.to_N n))). by f_equal. }
  apply (inj pretty) in Hs. lia.
Qed.

Section Served.
Context `{QS : QuoteSerde} {R : Type} `{CL : Client R, RS : !RelaySpec R}.

Abbreviation World := (NostrQuotes.t * R)%type (only parsing).

(** The oracle's identity, and the others' doings: they do not touch what it is held of. *)
Definition identity (w : World) : bytes := nostr_pk (client w.1).
Definition elsewhere (pk : bytes) (r r' : R) : Prop :=
  forall a, a.1.1 = pk -> held r' !! a = held r !! a.

(** A post: the clock, the quote, and whether the client took it. *)
Record Post : Type := mkPost { po_now : Z; po_quote : WireQuote.t; po_taken : bool }.

(** What an endpoint published, while others went on. *)
Inductive posts : World -> list Post -> World -> Prop :=
| posts_none w : posts w [] w
| posts_publish now q w x w1 log w2 :
    publish now q w = (x, w1) -> posts w1 log w2 -> posts w (mkPost now q (is_ok x) :: log) w2
| posts_world this r r1 log w2 :
    elsewhere (nostr_pk (client this)) r r1 -> posts (this, r1) log w2 -> posts (this, r) log w2.

(** Nothing held of the oracle is later than its last stamp, or than [floor]: what an earlier
    endpoint of the same identity left, which this one does not know of. *)
Definition stamped (floor : Z) (w : World) : Prop :=
  0 <= last_created_at w.1 /\
  forall a e, held w.2 !! a = Some e -> a.1.1 = identity w ->
    ev_created_at e <= Z.max floor (last_created_at w.1).

(** The address of the oracle's quote of a height. *)
Definition slot_of_height (w : World) (h : Z) : bytes * Z * bytes :=
  (identity w, QUOTE_KIND, show_dec h).

(** The clock's readings: past [floor], and up to [bound]. *)
Definition clock_ok (floor bound : Z) (log : list Post) : Prop :=
  Forall (fun x => 0 <= po_now x <= bound /\ floor < po_now x /\ 0 <= WireQuote.height (po_quote x)) log.

Lemma stamp_later floor now (this : NostrQuotes.t) bound :
  0 <= last_created_at this <= bound -> 0 <= now <= bound -> floor < now -> bound < U64_MAX ->
  Z.max floor (last_created_at this) < stamp now this <= bound + 1.
Proof.
  intros Hl Hn Hf Hb. unfold stamp. destruct (Z.ltb_spec (last_created_at this) now); [lia|].
  rewrite timestamp_adds by lia. lia.
Qed.

(** One publication. *)
Lemma publish_step floor now q (w w1 : World) x bound :
  publish now q w = (x, w1) -> stamped floor w -> last_created_at w.1 <= bound -> 0 <= now <= bound ->
  floor < now -> bound < U64_MAX ->
  stamped floor w1 /\ identity w1 = identity w /\ last_created_at w1.1 <= bound + 1 /\
  let e := event_of (client w.1) q (stamp now w.1) in
  (held w1.2 = <[slot_of_height w (WireQuote.height q) := e]> (held w.2) \/
   held w1.2 = held w.2 /\ is_ok x = false).
Proof.
  destruct w as [this r]. unfold publish, backend, map_error. intros Hp [Hl Hs] Hb Hn Hf Hu. cbn in Hl, Hs, Hb.
  cbn [client] in Hp.
  destruct (send_event _ _ r) as [y r'] eqn:Es. injection Hp as <- <-.
  destruct (stamp_later floor now this bound) as [Hlt Hle]; [lia..|].
  set (e := event_of (client this) q (stamp now this)) in *.
  assert (Ha : address e = slot_of_height (this, r) (WireQuote.height q)) by done.
  assert (Hy : is_ok (map_err Backend y) = is_ok y) by (by destruct y). rewrite Hy.
  apply send_replaces in Es as Hr; [|done|cbn; unfold QUOTE_KIND; lia|by eexists|].
  2:{ intros old Ho. pose proof (Hs _ _ Ho eq_refl). cbn. lia. }
  rewrite Ha in Hr. split; [|split; [done|split; [cbn; lia|exact Hr]]].
  split; [cbn; lia|]. cbn. intros a e' He Hid. destruct Hr as [Hr|[Hr _]]; rewrite Hr in He.
  - apply lookup_insert_Some in He as [[_ <-]|[_ He]]; [cbn; lia|]. pose proof (Hs _ _ He Hid). lia.
  - pose proof (Hs _ _ He Hid). lia.
Qed.

(** The world keeps the invariant. *)
Lemma world_step floor (this : NostrQuotes.t) (r r1 : R) :
  elsewhere (nostr_pk (client this)) r r1 -> stamped floor (this, r) -> stamped floor (this, r1).
Proof. intros He [Hl Hs]. split; [done|]. intros a e Ha Hid. cbn in Ha. rewrite He in Ha by done. by eapply Hs. Qed.

(** A run keeps the invariant and the identity. *)
Lemma posts_stamped floor (w w' : World) log bound :
  posts w log w' -> stamped floor w -> last_created_at w.1 <= bound -> clock_ok floor bound log ->
  bound + Z.of_nat (length log) <= U64_MAX ->
  stamped floor w' /\ identity w' = identity w /\ last_created_at w'.1 <= bound + Z.of_nat (length log).
Proof.
  intros Hp. revert bound. induction Hp as [w|now q w x w1 log w2 Hq _ IH|this r r1 log w2 He _ IH];
    intros bound Hs Hb Hc Hu; cbn [length] in *.
  - split_and!; [done|done|lia].
  - apply Forall_cons in Hc as [(Hn & Hfl & _) Hc]. cbn in Hn, Hfl.
    destruct (publish_step floor _ _ _ _ _ bound Hq) as (Hs1 & Hid & Hl & _); [done|lia|lia|lia|lia|].
    destruct (IH (bound + 1)) as (? & Hi & ?); [done|lia| |lia|split_and!; [done|congruence|lia]].
    eapply Forall_impl; [exact Hc|]. cbn. lia.
  - apply (world_step _ _ _ _ He) in Hs. by apply IH.
Qed.

(** What is held at a height stays, while the oracle posts at other heights. *)
Lemma posts_keep floor (w w' : World) log bound h e :
  posts w log w' -> stamped floor w -> last_created_at w.1 <= bound -> clock_ok floor bound log ->
  bound + Z.of_nat (length log) <= U64_MAX -> 0 <= h ->
  Forall (fun x => WireQuote.height (po_quote x) <> h) log ->
  held w.2 !! slot_of_height w h = Some e -> held w'.2 !! slot_of_height w h = Some e.
Proof.
  intros Hp. revert bound. induction Hp as [w|now q w x w1 log w2 Hq _ IH|this r r1 log w2 He _ IH];
    intros bound Hs Hb Hc Hu Hh Hf Hheld; cbn [length] in *; [done| |].
  - apply Forall_cons in Hc as [(Hn & Hfl & Hqh) Hc]. apply Forall_cons in Hf as [Hne Hf]. cbn in Hn, Hfl, Hqh, Hne.
    destruct (publish_step floor _ _ _ _ _ bound Hq) as (Hs1 & Hid & Hl & Hr); [done|lia|lia|lia|lia|].
    unfold slot_of_height in *. rewrite Hid in IH. apply (IH (bound + 1)); [done|lia| |lia|done|done|].
    + eapply Forall_impl; [exact Hc|]. cbn. lia.
    + destruct Hr as [->|[-> _]]; [|done]. rewrite lookup_insert_ne; [done|].
      intros [= Hd]. by apply show_dec_inj in Hd.
  - apply (IH bound); [by eapply world_step|done..|]. exact (eq_trans (He (slot_of_height (this, r) h) eq_refl) Hheld).
Qed.

(** The post the client took is what is held at its height. *)
Lemma posts_held floor (w w' : World) before after now q bound :
  stamped floor w -> last_created_at w.1 <= bound ->
  posts w (before ++ mkPost now q true :: after) w' ->
  clock_ok floor bound (before ++ mkPost now q true :: after) ->
  bound + Z.of_nat (length (before ++ mkPost now q true :: after)) <= U64_MAX ->
  Forall (fun x => WireQuote.height (po_quote x) <> WireQuote.height q) after ->
  exists created, held w'.2 !! slot_of_height w (WireQuote.height q) =
    Some (event_of (client w.1) q created).
Proof.
  intros Hs Hb Hp Hc Hu Hf. remember (before ++ mkPost now q true :: after) as log eqn:El. revert before bound El Hs Hb Hc Hu.
  induction Hp as [w|now1 q1 w x w1 log w2 Hq Hp IH|this r r1 log w2 He Hp IH];
    intros before bound El Hs Hb Hc Hu.
  - by destruct before.
  - apply Forall_cons in Hc as [(Hn & Hfl & Hh) Hc]. cbn in Hn, Hfl, Hh. cbn [length] in Hu.
    destruct (publish_step floor _ _ _ _ _ bound Hq) as (Hs1 & Hi & Hl & Hr); [done|lia|lia|lia|lia|].
    assert (Hcl : client w1.1 = client w.1).
    { destruct w as [this r]. unfold publish in Hq. destruct (backend _ r) as [? ?]. by injection Hq as _ <-. }
    assert (Hc1 : clock_ok floor (bound + 1) log) by (eapply Forall_impl; [exact Hc|]; cbn; lia).
    unfold slot_of_height in *. destruct before as [|p before]; cbn [app] in El.
    + injection El as E1 E2 E3 E4. subst now1 q1 log. destruct Hr as [Hr|[_ Hr]]; [|by rewrite E3 in Hr].
      eexists. pose proof (posts_keep floor w1 w2 after (bound + 1) (WireQuote.height q)) as Hk.
      unfold slot_of_height in Hk. rewrite Hi in Hk. apply Hk; [done|done|lia|done|lia|done|done|].
      by rewrite Hr, lookup_insert_eq.
    + injection El as _ El. rewrite <- Hi, <- Hcl. apply (IH before (bound + 1)); [done|done|lia|done|lia].
  - eapply IH; [done|by eapply world_step|done..].
Qed.

Lemma parse_event authors keys q created :
  nostr_pk keys ∈ authors -> from_json (to_json q) = Some q ->
  parse authors (event_of keys q created) = Some q.
Proof.
  intros Ha Hj. unfold parse. cbn. rewrite Hj. cbn. rewrite (bool_decide_eq_true_2 (_ ∈ _)) by done.
  rewrite andb_false_r. by rewrite bool_decide_eq_true_2.
Qed.

(** C16: What an oracle published last at a height is what its consumers fetch there.  Over
    any run of an endpoint, started anew or not, through clock readings that repeat or run
    backwards (though not to before what an earlier endpoint left), refused posts and
    whatever others do on the relays: a subscriber that lists the oracle and
    fetches a height gets the quote the oracle's last post of that height carried, when the
    client took it, and nothing else of that oracle. *)
Theorem latest_served (w w' : World) (before after : list Post) (now timeout floor bound : Z)
    (q : WireQuote.t) (sub : NostrQuotes.t) (quotes : list WireQuote.t) (r' : R) :
  stamped floor w -> last_created_at w.1 <= bound ->
  posts w (before ++ mkPost now q true :: after) w' ->
  clock_ok floor bound (before ++ mkPost now q true :: after) ->
  bound + Z.of_nat (length (before ++ mkPost now q true :: after)) <= U64_MAX ->
  Forall (fun x => WireQuote.height (po_quote x) <> WireQuote.height q) after ->
  from_json (to_json q) = Some q ->
  identity w ∈ authors sub -> fetch sub (WireQuote.height q) timeout w'.2 = (Ok quotes, r') ->
  q ∈ quotes /\
  exists events, quotes = omap (parse (authors sub)) events /\
    forall e, e ∈ events -> ev_pubkey e = identity w -> parse (authors sub) e = Some q.
Proof.
  intros Hs Hb Hp Hc Hu Hf Hj Hid Hfetch.
  destruct (posts_held floor w w' before after now q bound) as [created Hheld]; [done..|]. unfold fetch in Hfetch.
  apply eff_bind_ok in Hfetch as (es & s1 & Hx & Hret). apply map_error_ok in Hx.
  injection Hret as Hqs _. pose proof (fetch_returns _ _ _ _ _ _ Hx) as Hes. cbn [fl_authors] in Hes.
  specialize (Hes ltac:(intros E; rewrite E in Hid; by apply not_elem_of_nil in Hid)).
  set (eq := event_of (client w.1) q created) in *.
  pose proof (parse_event (authors sub) (client w.1) q created Hid Hj) as Hparse.
  split.
  - rewrite <- Hqs. apply list_elem_of_omap. exists eq. split; [|exact Hparse].
    apply Hes. split; [by eexists|]. by split_and!.
  - exists es. split; [done|]. intros e He Hpk.
    apply Hes in He as [[a Ha] (_ & Hkind & Hident)]. cbn in Hkind, Hident.
    pose proof (held_address _ _ _ Ha) as ->. unfold address in Ha. rewrite Hpk, Hkind, Hident in Ha.
    cbn in Ha. unfold slot_of_height in Hheld. rewrite Hheld in Ha. injection Ha as <-. exact Hparse.
Qed.

End Served.
