(* ===== verification/Deploy.v ===== *)
(** * The deployment command ([styx-deploy/src/main.rs])

    [run] completes the operator's skeleton with what the ceremony created; [verify] checks a
    completed file against the chain.  The file and the node are the world; printing and
    argument parsing are left out. *)

From Stdlib Require Import ZArith Lia.
From stdpp Require Import base gmap strings option list.
From S2P Require Import Prelude Hex Units CrMath Elements Floats Oracle Simf Encode Domain Artifacts Effects.
From S2P Require Import Jets CovVault CovReserve CovIssuer Plan Quotes Index Snapshot Config Node Funding Ceremony.

(** The wallet administration calls; [for_wallet] scopes the client to a wallet. *)
Class WalletAdmin (N : Type) : Type := {
  for_wallet : bytes -> N -> result NodeError unit * N;
  createwallet : bytes -> N -> result NodeError unit * N;
  loadwallet : bytes -> N -> result NodeError unit * N;
  getwalletinfo : N -> result NodeError unit * N;
  rescanblockchain : N -> result NodeError unit * N
}.

(** [AssetId::to_string]. *)
Class AssetShow : Type := show_asset : AssetId -> bytes.

Inductive DeployFailure : Type :=
| AlreadyDeployed
| OraclesListed
| DfConfig (e : ConfigError)
| DfNode (e : NodeError)
| WalletUnusable (e : NodeError)
| DfCeremony (e : CeremonyError)
| GenesisMismatch (config node : BlockHash)
| DfDeploy (e : DeployError)
| NoProtocolSection
| DfScan (e : ScanError).

Record RunArgs : Type := mkRunArgs {
  ra_reserve_seed : Z;
  ra_wallet : bytes;
  ra_test_oracles : bool;
  ra_self_mine : bool;
  (** seconds *)
  ra_confirm_timeout : Z
}.

Definition default_run_args : RunArgs :=
  mkRunArgs 18000000 (ascii_bytes "styx-deploy") false false 300.

Section Deploy.
Context `{Lib, XOnlyParse, Compiler, TxCodec, IssuanceId, Display, AssetParse, AssetShow, Toml StyxnetConfig}.
Context {A N J F : Type} `{Addresses A, Rpc N, !WalletRpc N J, Clock N, WalletAdmin N, Files F}.

(** The world: the node and the file system. *)
Abbreviation DM := (Eff (N * F) DeployFailure) (only parsing).

Definition at_node {E X} (f : E -> DeployFailure) (m : Eff N E X) : DM X :=
  map_error f (zoom fst (fun n w => (n, w.2)) m).
Definition at_files {X} (m : F -> result ConfigError X * F) : DM X :=
  map_error DfConfig (zoom snd (fun fs w => (w.1, fs)) m).

(** The five well-known test keys. *)
Definition test_secrets : list Z := [7; 8; 9; 101; 102].
Definition test_oracle (slot : nat) (secret : Z) : OracleEntry :=
  mkOracleEntry (Z.of_nat slot) (show_pk (keypair_pk (be_bytes 32 secret))) None None.

Definition with_oracles (l : list OracleEntry) (cfg : StyxnetConfig) : StyxnetConfig :=
  mkStyxnet (sn_network cfg) (sn_assets cfg) (sn_protocol cfg) l (sn_nostr cfg).

Definition with_test_oracles (cfg : StyxnetConfig) : StyxnetConfig :=
  with_oracles (sn_oracles cfg ++ imap test_oracle test_secrets) cfg.

(** The sections the ceremony fills in. *)
Definition completed (ctx : Ctx) (anchor : Z) (cfg : StyxnetConfig) : StyxnetConfig :=
  let p := ctx_params ctx in
  mkStyxnet (mkNetwork (nw_chain (sn_network cfg)) (Some (show_hash (ctx_genesis ctx))))
    (Some (mkAssets (show_asset (obol p)) (show_asset (issuer_token p)) (show_asset (policy p))))
    (Some (mkProtocolSection anchor)) (sn_oracles cfg) (sn_nostr cfg).

Definition confirm_mode (args : RunArgs) : Confirm :=
  if ra_self_mine args then SelfMine else Await (ra_confirm_timeout args * 1000000000).

(** Create or load, then probe: only the probe can fail. *)
Definition prepare_wallet (wallet : bytes) : DM unit :=
  _ ← at_node DfNode (try (createwallet wallet));
  _ ← at_node DfNode (try (loadwallet wallet));
  _ ← at_node DfNode (for_wallet wallet);
  _ ← at_node WalletUnusable getwalletinfo;
  _ ← at_node DfNode (try rescanblockchain);
  mret tt.

(** The run up to the last reply of the node: the context, the state it founds and the height
    the scan for the issuer starts from. *)
Definition create (args : RunArgs) (cfg : StyxnetConfig) : DM (Ctx * ProtocolState * Z) :=
  if bool_decide (is_Some (sn_assets cfg)) then throw AlreadyDeployed else
  if ra_test_oracles args && negb (bool_decide (sn_oracles cfg = [])) then throw OraclesListed else
  let cfg := if ra_test_oracles args then with_test_oracles cfg else cfg in
  oracle_pks ← lift (map_err DfConfig (Styxnet.oracle_pks cfg));
  _ ← prepare_wallet (ra_wallet args);
  anchor ← at_node DfNode height;
  '(ctx, protocol) ← at_node DfCeremony (ceremony oracle_pks (ra_reserve_seed args) (confirm_mode args));
  mret (ctx, protocol, anchor).

(** What [save] is given: the configuration with its new sections. *)
Definition run (args : RunArgs) (path : bytes) (cfg : StyxnetConfig) : DM (Ctx * ProtocolState) :=
  '(ctx, protocol, anchor) ← create args cfg;
  let cfg := if ra_test_oracles args then with_test_oracles cfg else cfg in
  _ ← at_files (Styxnet.save (completed ctx anchor cfg) path);
  mret (ctx, protocol).

Definition verify (scan_to : option Z) (cfg : StyxnetConfig) : DM (Ctx * ProtocolState) :=
  params ← lift (map_err DfConfig (Styxnet.params cfg));
  g ← lift (map_err DfConfig (Styxnet.genesis cfg));
  node_genesis ← at_node DfNode genesis;
  if bool_decide (node_genesis <> g) then throw (GenesisMismatch g node_genesis) else
  artifacts ← lift (map_err DfDeploy (compile_artifacts params));
  let ctx := mkCtx params artifacts g in
  floor ← lift (ok_or NoProtocolSection (issuer_anchor_genesis <$> sn_protocol cfg));
  tip ← at_node DfNode height;
  let tip := default tip scan_to in
  issuer ← at_node DfScan (find_issuer ctx floor (Z.to_nat (tip - floor + 1)));
  protocol ← at_node DfScan (scan_protocol ctx (state issuer));
  mret (ctx, protocol).

(** [main] on the file at [path]. *)
Definition deploy_run (args : RunArgs) (path : bytes) : DM (Ctx * ProtocolState) :=
  w ← gets id;
  cfg ← lift (map_err DfConfig (Styxnet.load path w.2));
  run args path cfg.

Definition deploy_verify (scan_to : option Z) (path : bytes) : DM (Ctx * ProtocolState) :=
  w ← gets id;
  cfg ← lift (map_err DfConfig (Styxnet.load path w.2));
  verify scan_to cfg.

End Deploy.
