(* ===== verification/DeploySpec.v ===== *)
(** * What a deployment leaves behind

    A run that returns has written a file from which every program of the system reads back
    the very deploy the ceremony created; a run that fails has not touched the operator's
    file, unless writing it is what failed. *)

From Stdlib Require Import ZArith Lia.
From stdpp Require Import base gmap strings option list.
From S2P Require Import Prelude Hex Units CrMath Elements Floats Oracle Simf Encode Domain Artifacts Effects.
From S2P Require Import Jets CovVault CovReserve CovIssuer Plan Quotes Index Snapshot Config Node Funding FundingSpec.
From S2P Require Import Ceremony CeremonySpec Deploy.

Section Spec.
Context `{HL : Lib, XP : XOnlyParse, CP : Compiler, TC : TxCodec, II : IssuanceId}.
Context `{DP : Display, AP : AssetParse, AS : AssetShow, TM : Toml StyxnetConfig}.
Context {A N J F : Type} `{AD : Addresses A, RP : Rpc N, WR : !WalletRpc N J, CK : Clock N, WA : WalletAdmin N}.
Context `{FI : Files F}.

(** What a run needs of the crates and the file system to be read back. *)
Class Readable : Prop := {
  toml_back (c : StyxnetConfig) t : show_toml c = Some t -> parse_toml t = Some c;
  asset_back a : length a = 32%nat -> parse_asset (show_asset a) = Some a;
  file_back path text (fs fs' : F) : write_text path text fs = (Some tt, fs') -> read_text path fs' = Some text;
  genesis_typed (n : N) g n' : genesis n = (Ok g, n') -> length g = 32%nat
}.

(** ** The two halves of the world *)

Lemma zoom_node_ok {E X} (m : Eff N E X) (w : N * F) x (w' : N * F) :
  zoom fst (fun n w => (n, w.2)) m w = (Ok x, w') -> m w.1 = (Ok x, w'.1) /\ w'.2 = w.2.
Proof. unfold zoom. destruct (m w.1) as [r n']. by intros [= -> <-]. Qed.

(** A node call keeps the files. *)
Definition keeps_files {X} (m : Eff (N * F) DeployFailure X) : Prop := forall w, (m w).2.2 = w.2.

Lemma files_at_node {E X} (f : E -> DeployFailure) (m : Eff N E X) : keeps_files (at_node f m).
Proof. intros w. unfold at_node, map_error, zoom. by destruct (m w.1). Qed.
Lemma files_bind {X Y} (m : Eff (N * F) DeployFailure X) (k : X -> Eff (N * F) DeployFailure Y) :
  keeps_files m -> (forall x, keeps_files (k x)) -> keeps_files (m ≫= k).
Proof.
  intros Hm Hk w. specialize (Hm w). unfold mbind, eff_bind. destruct (m w) as [[x|e] w1]; [|done].
  by rewrite Hk.
Qed.
Lemma files_ret {X} (x : X) : keeps_files (mret x).
Proof. done. Qed.
Lemma files_throw {X} e : keeps_files (throw e : Eff (N * F) DeployFailure X).
Proof. done. Qed.
Lemma files_lift {X} r : keeps_files (lift r : Eff (N * F) DeployFailure X).
Proof. done. Qed.
Lemma files_prepare_wallet wallet : keeps_files (prepare_wallet wallet).
Proof. unfold prepare_wallet. repeat (apply files_bind; [apply files_at_node|intros]). apply files_ret. Qed.

Ltac files_tac := repeat first
  [ apply files_ret | apply files_throw | apply files_at_node | apply files_prepare_wallet | apply files_lift
  | apply files_bind; [|intros; cbv zeta] | case_match ].

Lemma files_create args cfg : keeps_files (create args cfg).
Proof. unfold create. files_tac. Qed.
Lemma files_verify scan_to cfg : keeps_files (verify scan_to cfg).
Proof. unfold verify. files_tac. Qed.

(** ** A run *)

(** The configuration a run works on. *)
Definition skeleton (args : RunArgs) (cfg : StyxnetConfig) : StyxnetConfig :=
  if ra_test_oracles args then with_test_oracles cfg else cfg.

Lemma create_inv args cfg (w : N * F) ctx p anchor (w' : N * F) :
  create args cfg w = (Ok (ctx, p, anchor), w') ->
  sn_assets cfg = None /\
  exists pks s1 s2, Styxnet.oracle_pks (skeleton args cfg) = Ok pks /\ height s1 = (Ok anchor, s2) /\
    ceremony pks (ra_reserve_seed args) (confirm_mode args) s2 = (Ok (ctx, p), w'.1).
Proof.
  unfold create. intros H. case_bool_decide as Ha; [done|]. destruct (_ && _); [done|].
  fold (skeleton args cfg) in H. eff_peel_step H. eff_peel_step H. eff_peel_step H. eff_peel_step H.
  apply map_err_ok in Hx. apply zoom_node_ok in Hx1 as [Hh _], Hx2 as [Hc _]. destruct x2 as [ctx' p'].
  injection H as -> -> -> ->. split; [by apply eq_None_not_Some|]. eauto 10.
Qed.

(** A completed configuration reads back as the deploy it was completed with. *)
Lemma completed_reads `{!DisplaySpec DP, !Readable} ctx anchor cfg pks :
  Styxnet.oracle_pks cfg = Ok pks -> Domain.oracle_pks (ctx_params ctx) = pks ->
  length (obol (ctx_params ctx)) = 32%nat -> length (issuer_token (ctx_params ctx)) = 32%nat ->
  length (policy (ctx_params ctx)) = 32%nat -> length (ctx_genesis ctx) = 32%nat ->
  Styxnet.params (completed ctx anchor cfg) = Ok (ctx_params ctx) /\
  Styxnet.genesis (completed ctx anchor cfg) = Ok (ctx_genesis ctx).
Proof.
  intros Hp <- H1 H2 H3 H4.
  assert (Ho : Styxnet.oracle_pks (completed ctx anchor cfg) = Ok (Domain.oracle_pks (ctx_params ctx))) by exact Hp.
  unfold Styxnet.params, Styxnet.genesis, Styxnet.asset_field. rewrite Ho. clear Ho Hp. unfold completed. cbn.
  rewrite !asset_back, parse_show_hash by done. cbn. by destruct (ctx_params ctx).
Qed.

(** [main] on a file that loads, or does not. *)
Lemma deploy_run_loaded args path n fs :
  deploy_run args path (n, fs) =
  match Styxnet.load path fs with Ok cfg => run args path cfg (n, fs) | Err e => (Err (DfConfig e), (n, fs)) end.
Proof. unfold deploy_run, mbind, eff_bind, gets, lift. cbn. by destruct (Styxnet.load path fs). Qed.
Lemma deploy_verify_loaded to path n fs :
  deploy_verify to path (n, fs) =
  match Styxnet.load path fs with Ok cfg => verify to cfg (n, fs) | Err e => (Err (DfConfig e), (n, fs)) end.
Proof. unfold deploy_verify, mbind, eff_bind, gets, lift. cbn. by destruct (Styxnet.load path fs). Qed.

(** The write of a completed file. *)
Lemma save_inv `{!Readable} cfg path fs r fs' :
  Styxnet.save cfg path fs = (r, fs') ->
  match r with
  | Ok _ => Styxnet.load path fs' = Ok cfg
  | Err e => fs' = fs \/ exists text, write_text path text fs = (None, fs') /\ e = CfgIo
  end.
Proof.
  unfold Styxnet.save. destruct (show_toml cfg) as [text|] eqn:Et; [|intros [= <- <-]; by left].
  destruct (write_text path text fs) as [[[]|] fs1] eqn:Ew; intros [= <- <-]; [|right; eauto].
  unfold Styxnet.load. rewrite (file_back _ _ _ _ Ew). cbn. by rewrite (toml_back _ _ Et).
Qed.

(** What a verification that gets past the genesis check returns. *)
Lemma verify_reads ctx to cfg (w : N * F) ctx2 p2 (w' : N * F) :
  Styxnet.params cfg = Ok (ctx_params ctx) -> Styxnet.genesis cfg = Ok (ctx_genesis ctx) ->
  compile_artifacts (ctx_params ctx) = Ok (ctx_artifacts ctx) ->
  verify to cfg w = (Ok (ctx2, p2), w') -> ctx2 = ctx.
Proof.
  unfold verify. intros Hp Hg Ha H. rewrite Hp, Hg in H. eff_peel_step H. injection Hx as <-.
  eff_peel_step H. injection Hx as <-. eff_peel_step H. case_bool_decide; [done|]. rewrite Ha in H.
  eff_peel H. injection Hx0 as <-. injection H as <- _ _. by destruct ctx.
Qed.

Lemma verify_foreign to cfg p h g m m' (fs : F) :
  Styxnet.params cfg = Ok p -> Styxnet.genesis cfg = Ok h -> genesis m = (Ok g, m') -> g <> h ->
  verify to cfg (m, fs) = (Err (GenesisMismatch h g), (m', fs)).
Proof.
  intros Hp Hg Hm Hne. unfold verify. rewrite Hp, Hg. unfold mbind, eff_bind, lift, at_node, map_error, zoom. cbn.
  rewrite Hm. cbn. by rewrite bool_decide_eq_true_2.
Qed.

(** C36: A deployment is recorded exactly or not at all.  A run that returns has left a file
    that was not deployed before, from which the parameters, the genesis hash and the scan
    floor of the new deploy read back exactly; a second run on it refuses before it talks to
    the node, and a verification of it can only return that same deploy, and refuses any node
    of another genesis.  A run that fails leaves the file as it was, unless the write itself
    is what failed. *)
Theorem deploy_completes `{!DisplaySpec DP, !WalletTyped, !Readable} (args : RunArgs) (path : bytes)
    (n n' : N) (fs fs' : F) (r : result DeployFailure (Ctx * ProtocolState)) :
  deploy_run args path (n, fs) = (r, (n', fs')) ->
  match r with
  | Ok (ctx, p) => exists cfg cfg' anchor,
      Styxnet.load path fs = Ok cfg /\ sn_assets cfg = None /\ Styxnet.load path fs' = Ok cfg' /\
      Styxnet.params cfg' = Ok (ctx_params ctx) /\ Styxnet.genesis cfg' = Ok (ctx_genesis ctx) /\
      compile_artifacts (ctx_params ctx) = Ok (ctx_artifacts ctx) /\
      (exists s1 s2, height s1 = (Ok anchor, s2)) /\ sn_protocol cfg' = Some (mkProtocolSection anchor) /\
      (forall args2 m, deploy_run args2 path (m, fs') = (Err AlreadyDeployed, (m, fs'))) /\
      (forall to m ctx2 p2 w, deploy_verify to path (m, fs') = (Ok (ctx2, p2), w) -> ctx2 = ctx /\ w.2 = fs') /\
      (forall to m g m', genesis m = (Ok g, m') -> g <> ctx_genesis ctx ->
         deploy_verify to path (m, fs') = (Err (GenesisMismatch (ctx_genesis ctx) g), (m', fs')))
  | Err e => fs' = fs \/ exists text, write_text path text fs = (None, fs') /\ e = DfConfig CfgIo
  end.
Proof.
  rewrite deploy_run_loaded. destruct (Styxnet.load path fs) as [cfg|e] eqn:Hload; [|intros [= <- _ <-]; by left].
  intros [([[ctx p] anchor] & [s1 fs1] & Hcr & Hend)|(e & Hcr & ->)]%eff_bind_inv;
    pose proof (files_create args cfg (n, fs)) as Hk; rewrite Hcr in Hk; cbn in Hk; subst; [|by left].
  fold (skeleton args cfg) in Hend. unfold mbind, eff_bind, at_files, map_error, zoom in Hend. cbn in Hend.
  destruct (Styxnet.save _ path fs) as [saved fs1] eqn:Hs. apply save_inv in Hs.
  destruct saved as [[]|e]; injection Hend as <- <- <-; [|destruct Hs as [->|(text & ? & ->)]; [by left|right; eauto]].
  apply create_inv in Hcr as (Hna & pks & h1 & h2 & Hpks & Hh & Hc).
  pose proof (ceremony_deploy _ _ _ _ _ _ _ Hc) as (Hart & Epk & Lo & Lt & Lp & _).
  apply compile_artifacts_ok in Hart. apply ceremony_inv in Hc as ((g1 & Hg) & _). apply genesis_typed in Hg.
  destruct (completed_reads ctx anchor _ pks Hpks Epk Lo Lt Lp Hg) as [Hrp Hrg].
  exists cfg, (completed ctx anchor (skeleton args cfg)), anchor. split_and!; try done; [by eauto| | |].
  - intros args2 m. by rewrite deploy_run_loaded, Hs.
  - intros to m ctx2 p2 w. rewrite deploy_verify_loaded, Hs. intros Hv.
    pose proof (files_verify to (completed ctx anchor (skeleton args cfg)) (m, fs1)) as Hk2. rewrite Hv in Hk2.
    split; [|done]. by eapply verify_reads in Hv.
  - intros to m g m' Hm Hne. rewrite deploy_verify_loaded, Hs. by eapply verify_foreign.
Qed.

End Spec.
