(* ===== verification/OracleService.v ===== *)
(** * The oracle daemon ([styx-oracle/src/service.rs], [http.rs], [config.rs], [main.rs])

    The price layers of one oracle, the publishing loop, the admin endpoints, and how the
    daemon starts.  The tasks of the daemon share [OracleState] behind locks, each access
    one atomic read or write; a run is the sequence of what they did.  Instants are
    nanoseconds of a monotone clock, read once per event.  Log lines are dropped. *)

From Stdlib Require Import ZArith Lia Sorted.
From stdpp Require Import base gmap strings option list.
From S2P Require Import Prelude Hex Units CrMath Elements Floats Oracle Simf Encode Domain Artifacts Jets.
From S2P Require Import CovVault CovReserve CovIssuer Plan Quotes Effects Node OracleFeed Snapshot Config.

(** ** Configuration *)

Inductive OracleConfigError : Type :=
| OcIo
| OcToml
| OcField (field : string)
| OcAuth
| ZeroPrice.

Record FeedConfig : Type := mkFeedConfig {
  fd_backend : string;
  fd_url : option bytes;
  fd_poll_ms : Z;
  fd_max_age_secs : option Z
}.

Record OracleConfig : Type := mkOracleConfig {
  oc_slot : Z;
  oc_name : bytes;
  oc_protocol_seckey : bytes;
  oc_nostr_seckey : bytes;
  oc_relays : list bytes;
  oc_rpc_url : bytes;
  oc_rpc_user : option bytes;
  oc_rpc_password : option bytes;
  oc_rpc_cookie : option bytes;
  oc_listen : bytes;
  oc_price_usd : Z;
  oc_poll_ms : Z;
  oc_feed : option FeedConfig
}.

Definition default_poll_ms : Z := 500.
Definition default_feed_poll_ms : Z := 5000.

Module OracleFile.

Definition parse `{Toml OracleConfig} (text : bytes) : result OracleConfigError OracleConfig :=
  cfg ← ok_or OcToml (parse_toml text);
  if oc_price_usd cfg =? 0 then Err ZeroPrice else Ok cfg.

Definition load `{Toml OracleConfig} {F : Type} `{Files F} (path : bytes) (fs : F)
    : result OracleConfigError OracleConfig :=
  text ← ok_or OcIo (read_text path fs); parse text.

Definition auth (cfg : OracleConfig) : result OracleConfigError Auth :=
  match oc_rpc_cookie cfg, oc_rpc_user cfg, oc_rpc_password cfg with
  | Some cookie, None, None => Ok (CookieFile cookie)
  | None, Some user, Some pass => Ok (UserPass user pass)
  | _, _, _ => Err OcAuth
  end.

End OracleFile.

(** ** The state *)

Inductive PriceMode : Type := Override | FeedMode | ConfigMode.

Definition mode_str (m : PriceMode) : string :=
  match m with Override => "override" | FeedMode => "feed" | ConfigMode => "config" end.

Module OracleState.

Record t : Type := mk {
  slot : OracleSlot.t;
  keypair : bytes;
  feed : Price.t;
  override_price : option Price.t;
  feed_updated : option Z;
  max_feed_age : option Z;
  name : bytes;
  last_published : Z
}.

Definition new (slot : OracleSlot.t) (keypair : bytes) (initial : Price.t) : t :=
  mk slot keypair initial None None None [] 0.
Definition with_max_feed_age (limit : option Z) (s : t) : t :=
  mk (slot s) (keypair s) (feed s) (override_price s) (feed_updated s) limit (name s) (last_published s).
Definition with_name (n : bytes) (s : t) : t :=
  mk (slot s) (keypair s) (feed s) (override_price s) (feed_updated s) (max_feed_age s) n (last_published s).

(** [at.elapsed()] saturates at zero. *)
Definition elapsed (now at_ : Z) : Z := Z.max 0 (now - at_).

Definition publishable (now : Z) (s : t) : bool :=
  match override_price s with
  | Some _ => true
  | None =>
      match max_feed_age s with
      | None => true
      | Some limit =>
          match feed_updated s with Some at_ => elapsed now at_ <=? limit | None => false end
      end
  end.

Definition price (s : t) : Price.t := default (feed s) (override_price s).

Definition mode (s : t) : PriceMode :=
  match override_price s, feed_updated s with
  | Some _, _ => Override
  | None, Some _ => FeedMode
  | None, None => ConfigMode
  end.

Definition feed_age_secs (now : Z) (s : t) : option Z :=
  (fun at_ => elapsed now at_ / 1000000000) <$> feed_updated s.

Definition set_feed_price (p : Price.t) (now : Z) (s : t) : t :=
  mk (slot s) (keypair s) p (override_price s) (Some now) (max_feed_age s) (name s) (last_published s).
Definition set_override (p : Price.t) (s : t) : t :=
  mk (slot s) (keypair s) (feed s) (Some p) (feed_updated s) (max_feed_age s) (name s) (last_published s).
Definition clear_override (s : t) : t :=
  mk (slot s) (keypair s) (feed s) None (feed_updated s) (max_feed_age s) (name s) (last_published s).
(** [last_published.store]. *)
Definition store_published (h : Z) (s : t) : t :=
  mk (slot s) (keypair s) (feed s) (override_price s) (feed_updated s) (max_feed_age s) (name s) h.

Definition quote_for `{Lib} (height : BlockHeight.t) (s : t) : WireQuote.t :=
  let quote := WireQuote.sign (keypair s) (slot s) (mkPayload height (price s) K_PAR) in
  WireQuote.mk (WireQuote.slot quote) (WireQuote.height quote) (WireQuote.price quote)
    (WireQuote.backing_k quote) (WireQuote.sig quote) (name s).

End OracleState.

(** ** The loops *)

Inductive RunError : Type := NodeDown (secs : Z) (last : NodeError).

Definition NODE_DOWN_FATAL : Z := 60000000000.

(** One pass of [run_feed]; the flag is [failing]. *)
Definition feed_poll (r : result FeedError Price.t) (now : Z) (x : OracleState.t * bool)
    : OracleState.t * bool :=
  match r with
  | Ok p => (OracleState.set_feed_price p now x.1, false)
  | Err _ => (x.1, true)
  end.

(** The locals of [publish_blocks] beside the state. *)
Record Publisher : Type := mkPublisher { node_down_since : option Z; gated : bool }.

(** The first half of a pass of [publish_blocks]: the node's answer and the gate.  What is to
    be published is a height. *)
Definition poll_gate (fatal : Z) (height : result NodeError Z) (now : Z) (s : OracleState.t)
    (loc : Publisher) : result RunError (Publisher * option Z) :=
  match height with
  | Err e =>
      let since := default now (node_down_since loc) in
      let down := OracleState.elapsed now since in
      if fatal <=? down then Err (NodeDown (down / 1000000000) e)
      else Ok (mkPublisher (Some since) (gated loc), None)
  | Ok h =>
      if OracleState.last_published s <? h then
        if negb (OracleState.publishable now s) then Ok (mkPublisher None true, None)
        else Ok (mkPublisher None false, Some h)
      else Ok (mkPublisher None (gated loc), None)
  end.

(** The second half: sign the current price and hand the quote to the transport. *)
Definition poll_publish `{Lib} (publish : WireQuote.t -> bool) (h : Z) (s : OracleState.t)
    : OracleState.t * WireQuote.t :=
  let quote := OracleState.quote_for (BlockHeight.new h) s in
  (if publish quote then OracleState.store_published h s else s, quote).

(** A whole pass, when no other task comes in between. *)
Definition publish_poll `{Lib} (fatal : Z) (height : result NodeError Z)
    (publish : WireQuote.t -> bool) (now : Z) (s : OracleState.t) (loc : Publisher)
    : result RunError (OracleState.t * Publisher * option WireQuote.t) :=
  '(loc, next) ← poll_gate fatal height now s loc;
  Ok (match next with
      | None => (s, loc, None)
      | Some h => let '(s, q) := poll_publish publish h s in (s, loc, Some q)
      end).

(** ** The admin endpoints *)

Record Health : Type := mkHealth {
  he_slot : Z; he_height : Z; he_price : Z; he_source : string; he_feed_age_secs : option Z;
  he_publishing : bool
}.

Definition health_of (now : Z) (s : OracleState.t) : Health :=
  mkHealth (OracleSlot.idx (OracleState.slot s)) (OracleState.last_published s)
    (Price.raw (OracleState.price s)) (mode_str (OracleState.mode s)) (OracleState.feed_age_secs now s)
    (OracleState.publishable now s).

Definition quote `{Lib} (height : Z) (s : OracleState.t) : WireQuote.t :=
  OracleState.quote_for (BlockHeight.new height) s.

Definition UNPROCESSABLE_ENTITY : Z := 422.

Definition set_price (usd now : Z) (s : OracleState.t) : result (Z * string) Health * OracleState.t :=
  if usd =? 0 then (Err (UNPROCESSABLE_ENTITY, "zero price"%string), s)
  else let s' := OracleState.set_override (Price.new usd) s in (Ok (health_of now s'), s').

Definition clear_price (now : Z) (s : OracleState.t) : Health * OracleState.t :=
  let s' := OracleState.clear_override s in (health_of now s', s').

(** ** The daemon *)

Inductive StartError : Type := BadSlot (slot : Z) | BadKey.

(** [parse_protocol_key]; [None] is a panic. *)
Definition parse_protocol_key `{SecretKey} (text : bytes) : option (result StartError bytes) :=
  if bool_decide (length text <> 64%nat) then Some (Err BadKey) else
  r ← WireQuote.sig_pairs text;
  Some (match r with
        | Ok sk => if valid_seckey sk then Ok sk else Err BadKey
        | Err _ => Err BadKey
        end).

(** [main] up to the shared state, over a loaded configuration. *)
Definition start `{SecretKey} (cfg : OracleConfig) : option (result StartError OracleState.t) :=
  match OracleSlot.new (oc_slot cfg) with
  | Err _ => Some (Err (BadSlot (oc_slot cfg)))
  | Ok slot =>
      kp ← parse_protocol_key (oc_protocol_seckey cfg);
      Some (kp ← kp;
        let max_feed_age := (fun secs => secs * 1000000000) <$> (f ← oc_feed cfg; fd_max_age_secs f) in
        Ok (OracleState.with_name (oc_name cfg)
              (OracleState.with_max_feed_age max_feed_age
                 (OracleState.new slot kp (Price.new (oc_price_usd cfg))))))
  end.

(** ** Runs

    The tasks interleave: the feed loop, the admin handlers and the publishing loop, whose
    pass reads the gate and the price at different times. *)

Record Daemon : Type := mkDaemon {
  dm_state : OracleState.t;
  dm_failing : bool;
  dm_loop : Publisher;
  dm_pending : option Z
}.

Definition boot (s : OracleState.t) : Daemon := mkDaemon s false (mkPublisher None false) None.

Inductive Signed : Type :=
| Published (q : WireQuote.t) (accepted : bool)
| OnDemand (q : WireQuote.t).

Definition signed_quote (x : Signed) : WireQuote.t :=
  match x with Published q _ => q | OnDemand q => q end.

Section Runs.
Context `{HL : Lib} {V : Type} `{JV : JsonValue V}.

Inductive daemon_step (fatal : Z) : Daemon -> list Signed -> Daemon -> Prop :=
| step_feed d b response now s f :
    feed_poll (fetch b response) now (dm_state d, dm_failing d) = (s, f) ->
    daemon_step fatal d [] (mkDaemon s f (dm_loop d) (dm_pending d))
| step_set d usd now :
    u32 usd ->
    daemon_step fatal d []
      (mkDaemon (set_price usd now (dm_state d)).2 (dm_failing d) (dm_loop d) (dm_pending d))
| step_clear d now :
    daemon_step fatal d []
      (mkDaemon (clear_price now (dm_state d)).2 (dm_failing d) (dm_loop d) (dm_pending d))
| step_quote d h : u32 h -> daemon_step fatal d [OnDemand (quote h (dm_state d))] d
| step_gate d height now loc next :
    dm_pending d = None -> (forall h, height = Ok h -> u32 h) ->
    poll_gate fatal height now (dm_state d) (dm_loop d) = Ok (loc, next) ->
    daemon_step fatal d [] (mkDaemon (dm_state d) (dm_failing d) loc next)
| step_publish d h publish s q :
    dm_pending d = Some h -> poll_publish publish h (dm_state d) = (s, q) ->
    daemon_step fatal d [Published q (publish q)] (mkDaemon s (dm_failing d) (dm_loop d) None).

(** A run and everything it signed, in order. *)
Inductive daemon_run (fatal : Z) : Daemon -> list Signed -> Daemon -> Prop :=
| run_none d : daemon_run fatal d [] d
| run_step d l1 d1 l2 d2 :
    daemon_step fatal d l1 d1 -> daemon_run fatal d1 l2 d2 -> daemon_run fatal d (l1 ++ l2) d2.

(** The heights of the quotes the transport took. *)
Definition taken (log : list Signed) : list Z :=
  omap (fun x => match x with Published q true => Some (WireQuote.height q) | _ => None end) log.

End Runs.
