(* ===== verification/OracleRuns.v ===== *)
(** * What an oracle daemon signs

    Over any run of a started daemon, whatever its feed, its operator, its node and its
    transport do: every quote it signs is one the consumers' books take, and the transport
    takes at most one per height. *)

From Stdlib Require Import ZArith Lia Sorted.
From stdpp Require Import base gmap strings option list.
From S2P Require Import Prelude Hex Units CrMath Elements Floats Oracle Simf Encode Domain Artifacts Jets.
From S2P Require Import CovVault CovReserve CovIssuer Plan Quotes Effects Node OracleFeed Snapshot Config.
From S2P Require Import OracleService.

Section Runs.
Context `{HL : Lib} {V : Type} `{JV : JsonValue V}.

Definition priced (p : Price.t) : Prop := 0 < Price.raw p < 4294967296.

(** The oracle of one slot and key, with a price to sign. *)
Record oracle_ok (slot : Z) (kp : bytes) (s : OracleState.t) : Prop := {
  ok_slot : OracleSlot.idx (OracleState.slot s) = slot;
  ok_key : OracleState.keypair s = kp;
  ok_feed : priced (OracleState.feed s);
  ok_override p : OracleState.override_price s = Some p -> priced p
}.

(** The daemon between two steps: what awaits publishing is above what was published. *)
Record daemon_ok (slot : Z) (kp : bytes) (d : Daemon) : Prop := {
  do_oracle : oracle_ok slot kp (dm_state d);
  do_last : u32 (OracleState.last_published (dm_state d));
  do_pending h : dm_pending d = Some h -> u32 h /\ OracleState.last_published (dm_state d) < h
}.

Lemma oracle_price slot kp s : oracle_ok slot kp s -> priced (OracleState.price s).
Proof. intros []. unfold OracleState.price. destruct (OracleState.override_price s); cbn; auto. Qed.

(** A quote signed by the key of the slot over a price and par backing. *)
Definition signed_by (slot : Z) (kp : bytes) (q : WireQuote.t) : Prop :=
  exists h p name, u32 h /\ priced p /\
    q = let s := WireQuote.sign kp (OracleSlot.mk slot) (mkPayload (BlockHeight.new h) p K_PAR) in
        WireQuote.mk (WireQuote.slot s) (WireQuote.height s) (WireQuote.price s) (WireQuote.backing_k s)
          (WireQuote.sig s) name.

Lemma quote_signed slot kp s h :
  oracle_ok slot kp s -> u32 h -> signed_by slot kp (OracleState.quote_for (BlockHeight.new h) s).
Proof.
  intros Hs Hh. exists h, (OracleState.price s), (OracleState.name s).
  split; [done|]. split; [by eapply oracle_price|]. unfold OracleState.quote_for.
  destruct Hs as [<- <- _ _]. by destruct (OracleState.slot s).
Qed.

(** Consumers whose deploy lists the oracle's key take such a quote in their window, and
    refuse it for its height outside. *)
Lemma signed_taken `{!LibSpec HL} slot kp q (b : QuoteBook.t) (tip : BlockHeight.t) :
  signed_by slot kp q -> 0 <= slot <= 4 ->
  QuoteBook.oracle_pks b !! Z.to_nat slot = Some (keypair_pk kp) ->
  let h := WireQuote.height q in
  exists b', QuoteBook.insert b q tip =
    Some (if h <? u32_sat_sub (BlockHeight.raw tip) (QuoteBook.horizon b)
          then Err (QuoteError.Stale h (BlockHeight.raw tip) (QuoteBook.horizon b))
          else if u32_sat_add (BlockHeight.raw tip) (QuoteBook.drift b) <? h
          then Err (QuoteError.Future h (BlockHeight.raw tip)) else Ok b').
Proof.
  intros (h & p & name & _ & Hp & ->) Hslot Hpk. eexists. unfold priced in Hp.
  apply (insert_own b kp (OracleSlot.mk slot) (mkPayload (BlockHeight.new h) p K_PAR) tip); [cbn; lia|done|exact Hpk].
Qed.

Lemma fetch_priced b response p : fetch b response = Ok p -> priced p.
Proof.
  unfold fetch, parse_price. intros (body & _ & (v & _ & (raw & _ & Hs)%bind_ok)%bind_ok)%bind_ok.
  pose proof (sane_spec (Feed.name b) raw) as Hp. rewrite Hs in Hp.
  destruct Hp as (m & e & _ & _ & _ & _ & Hp). unfold priced. lia.
Qed.

(** What the gate lets through. *)
Lemma gate_spec fatal height now s loc loc' next :
  poll_gate fatal height now s loc = Ok (loc', next) ->
  forall h, next = Some h ->
    height = Ok h /\ OracleState.last_published s < h /\ OracleState.publishable now s = true.
Proof.
  unfold poll_gate. destruct height as [h0|e].
  - destruct (Z.ltb_spec (OracleState.last_published s) h0); [|by intros [= _ <-]].
    destruct (OracleState.publishable now s); [|by intros [= _ <-]].
    intros [= _ <-] h [= <-]. done.
  - destruct (_ <=? _); [done|]. by intros [= _ <-].
Qed.

(** One step takes no height, or one above what was published, which is then recorded. *)
Definition advances (d d' : Daemon) (log : list Signed) : Prop :=
  let last x := OracleState.last_published (dm_state x) in
  taken log = [] /\ last d' = last d \/ exists h, taken log = [h] /\ last d < h /\ last d' = h.

Lemma step_ok fatal slot kp d log d' :
  daemon_step fatal d log d' -> daemon_ok slot kp d ->
  daemon_ok slot kp d' /\ Forall (fun x => signed_by slot kp (signed_quote x)) log /\
  advances d d' log.
Proof.
  intros Hs [Ho Hl Hp].
  destruct Hs as [d b response now s f Hf|d usd now Hu|d now|d h Hh|d height now loc next Hn Hh Hg|d h publish s q Hh Hq].
  - unfold feed_poll in Hf. destruct (fetch b response) as [p|] eqn:Ef; injection Hf as <- <-;
      (split; [|by split; [|left]]); [|by split].
    split; [|done|done]. destruct Ho. split; try done. by eapply fetch_priced.
  - unfold set_price. destruct (Z.eqb_spec usd 0); (split; [|by split; [|left]]); [by split|].
    split; [|done|done]. destruct Ho. split; try done. intros p [= <-]. unfold priced, u32 in *. cbn. lia.
  - split; [|by split; [|left]]. split; [|done|done]. destruct Ho. by split.
  - split; [by split|]. split; [|by left]. apply Forall_singleton. by apply quote_signed.
  - split; [|by split; [|left]]. split; [done|done|]. intros h Hnx. cbn in Hnx.
    destruct (gate_spec _ _ _ _ _ _ _ Hg h Hnx) as (Hok & ? & _). split; [by apply Hh|done].
  - destruct (Hp h Hh) as [Hu Hlt]. unfold poll_publish in Hq. injection Hq as Hs Hq.
    assert (Hqs : signed_by slot kp q) by (rewrite <- Hq; by apply quote_signed).
    assert (Hqh : WireQuote.height q = h) by (by rewrite <- Hq).
    rewrite Hq in Hs. clear Hq. unfold advances, taken. cbn [omap list_omap].
    destruct (publish q); rewrite <- Hs; (split; [|split; [by apply Forall_singleton|]]).
    + split; [|done|done]. destruct Ho. by split.
    + right. exists h. by rewrite Hqh.
    + by split.
    + by left.
Qed.

Lemma taken_app l1 l2 : taken (l1 ++ l2) = taken l1 ++ taken l2.
Proof. apply omap_app. Qed.

Lemma run_ok fatal slot kp d log d' :
  daemon_run fatal d log d' -> daemon_ok slot kp d ->
  Forall (fun x => signed_by slot kp (signed_quote x)) log /\
  StronglySorted Z.lt (taken log) /\ Forall (Z.lt (OracleState.last_published (dm_state d))) (taken log).
Proof.
  induction 1 as [d|d l1 d1 l2 d2 Hs _ IH]; intros Hd; [by split_and!; constructor|].
  apply (step_ok _ slot kp) in Hs as (Hd1 & Hf1 & Hadv); [|done].
  destruct (IH Hd1) as (Hf2 & Hs2 & Hl2). split; [by apply Forall_app|]. rewrite taken_app.
  destruct Hadv as [[-> He]|(h & -> & Hlt & He)]; rewrite He in Hl2; [done|]. cbn [app].
  split; [by constructor|]. constructor; [done|]. eapply Forall_impl; [exact Hl2|]. cbn. lia.
Qed.

End Runs.

(** C27: Whatever its feed, its operator, its node and its transport do, and however its tasks
    interleave, a started oracle signs only quotes of its slot and key over a nonzero price.
    A consumer whose deploy lists the key at the slot can refuse such a quote for its height
    only: it takes every one in its window, and answers one below it with [Stale] and one above
    it with [Future], which does happen, since [GET /quote] signs whatever height it is asked
    for.  The transport takes at most one quote per height, heights increasing. *)
Theorem oracle_signs_acceptable `{HL : Lib, !LibSpec HL, SK : SecretKey} {V : Type} `{JV : JsonValue V}
    (cfg : OracleConfig) (s : OracleState.t) (fatal : Z) (log : list Signed) (d : Daemon) :
  start cfg = Some (Ok s) -> 0 <= oc_slot cfg -> 0 < oc_price_usd cfg < 4294967296 ->
  daemon_run fatal (boot s) log d ->
  StronglySorted Z.lt (taken log) /\
  forall x, x ∈ log -> let q := signed_quote x in
    WireQuote.price q <> 0 /\ WireQuote.slot q = oc_slot cfg /\
    forall (b : QuoteBook.t) (tip : BlockHeight.t),
      QuoteBook.oracle_pks b !! Z.to_nat (oc_slot cfg) = Some (keypair_pk (OracleState.keypair s)) ->
      let h := WireQuote.height q in
      exists b', QuoteBook.insert b q tip =
        Some (if h <? u32_sat_sub (BlockHeight.raw tip) (QuoteBook.horizon b)
              then Err (QuoteError.Stale h (BlockHeight.raw tip) (QuoteBook.horizon b))
              else if u32_sat_add (BlockHeight.raw tip) (QuoteBook.drift b) <? h
              then Err (QuoteError.Future h (BlockHeight.raw tip)) else Ok b').
Proof.
  intros Hstart Hslot Hprice Hrun. unfold start, OracleSlot.new in Hstart.
  destruct (Z.ltb_spec 4 (oc_slot cfg)) as [|H4]; [done|].
  apply bind_Some in Hstart as (r & _ & [= (kp & _ & [= Hs])%bind_ok]).
  assert (Hd : daemon_ok (oc_slot cfg) (OracleState.keypair s) (boot s)).
  { rewrite <- Hs. split; [|split; cbn; lia|done]. by split. }
  destruct (run_ok _ _ _ _ _ _ Hrun Hd) as (Hf & Hsort & _). split; [done|].
  intros x Hx. rewrite Forall_forall in Hf. specialize (Hf x Hx). split_and!.
  - destruct Hf as (h & p & name & _ & Hp & ->). cbn. unfold priced in Hp. lia.
  - by destruct Hf as (h & p & name & _ & _ & ->).
  - intros b tip Hpk. by eapply signed_taken.
Qed.

(** The staleness gate bounds neither what is signed nor what is published: an oracle
    whose backend never delivered, with the gate armed, signs its configured price for any
    height it is asked; and when an override is cleared between the gate and the signature,
    it publishes that price. *)
Theorem gate_bypassed `{HL : Lib} {V : Type} `{JV : JsonValue V} (s : OracleState.t)
    (fatal limit now h usd : Z) :
  OracleState.max_feed_age s = Some limit -> OracleState.feed_updated s = None ->
  OracleState.override_price s = None -> u32 h -> OracleState.last_published s < h -> 0 < usd < 4294967296 ->
  OracleState.publishable now s = false /\
  daemon_run fatal (boot s) [OnDemand (OracleState.quote_for (BlockHeight.new h) s)] (boot s) /\
  exists d, daemon_run fatal (boot s)
    [Published (OracleState.quote_for (BlockHeight.new h) s) true] d /\
    OracleState.last_published (dm_state d) = h.
Proof.
  intros Hl Hu Ho Hh Hlt Husd. split; [|split].
  - unfold OracleState.publishable. by rewrite Ho, Hl, Hu.
  - eapply (run_step _ _ [_] _ []); [by apply step_quote|apply run_none].
  - exists (mkDaemon (OracleState.store_published h s) false (mkPublisher None false) None). split; [|done].
    set (s1 := OracleState.set_override (Price.new usd) s).
    assert (Hs1 : (set_price usd now s).2 = s1) by (unfold set_price; by rewrite (proj2 (Z.eqb_neq usd 0)) by lia).
    assert (Hs2 : (clear_price now s1).2 = s) by (destruct s; cbn in Ho; by subst).
    eapply (run_step _ _ [] _ [_]); [apply (step_set _ _ usd now); unfold u32; lia|].
    cbn [dm_state dm_failing dm_loop dm_pending boot]. rewrite Hs1.
    eapply (run_step _ _ [] _ [_]).
    { apply (step_gate _ _ (Ok h) now (mkPublisher None false) (Some h)); [done|by intros ? [= <-]|].
      unfold poll_gate. cbn. by rewrite (proj2 (Z.ltb_lt _ _) Hlt). }
    cbn [dm_state dm_failing dm_loop dm_pending boot].
    eapply (run_step _ _ [] _ [_]); [apply (step_clear _ _ now)|].
    cbn [dm_state dm_failing dm_loop dm_pending boot]. rewrite Hs2.
    eapply (run_step _ _ [_] _ []); [|apply run_none].
    exact (step_publish fatal (mkDaemon s false (mkPublisher None false) (Some h)) h (fun _ => true)
      _ _ eq_refl eq_refl).
Qed.
