(* ===== verification/Gate.v ===== *)
(** * The application's perimeter ([styx-app/src/auth.rs], [config.rs], [ui.rs])

    Where the application listens, and which requests it answers: the Host, Origin and
    Sec-Fetch-Site checks of the page tier, and the token of the API.  A request's headers
    are a function from a name to the text of its first value, absent when there is none or
    it is not visible ASCII.  The bytes of the token and of the embedded assets are
    arguments. *)

From Stdlib Require Import ZArith Lia.
From stdpp Require Import base strings option list.
From S2P Require Import Prelude Hex Elements Sockets Snapshot Config.

Abbreviation Headers := (string -> option bytes) (only parsing).

Definition TOKEN_HEADER : string := "x-styx-token".

Inductive GateError : Type := Unauthorized | ForbiddenHost | ForbiddenOrigin.

#[export] Instance gate_error_eq_dec : EqDecision GateError.
Proof. solve_decision. Defined.

Definition gate_status (e : GateError) : Z :=
  match e with Unauthorized => 401 | ForbiddenHost | ForbiddenOrigin => 403 end.

(** [str::strip_prefix]. *)
Fixpoint strip_prefix (p l : bytes) : option bytes :=
  match p, l with
  | [], _ => Some l
  | a :: p, b :: l => if bool_decide (a = b) then strip_prefix p l else None
  | _ :: _, [] => None
  end.

Module Gate.

Record t : Type := mk {
  token : bytes;
  hosts : list bytes;
  proxy_hosts : list bytes;
  proxy_origins : list bytes
}.

(** The Host values of a loopback listener. *)
Definition own_hosts (addr : SocketAddr) : list bytes :=
  if is_loopback (sa_ip addr)
  then [show_socket addr; ascii_bytes "localhost:" ++ show_dec (sa_port addr)] else [].

(** [seed]: the 32 random bytes. *)
Definition mint_proxied (addr : SocketAddr) (seed : bytes) (hosts origins : list bytes) : t :=
  mk (hex seed) (own_hosts addr) hosts origins.
Definition mint (addr : SocketAddr) (seed : bytes) : t := mint_proxied addr seed [] [].

Definition host_ok (g : t) (host : bytes) : bool :=
  bool_decide (host ∈ hosts g) || bool_decide (host ∈ proxy_hosts g).

Definition origin_ok (g : t) (origin : bytes) : bool :=
  match strip_prefix (ascii_bytes "http://") origin with
  | Some rest => bool_decide (rest ∈ hosts g)
  | None => false
  end || bool_decide (origin ∈ proxy_origins g).

Definition check_page (g : t) (headers : Headers) : result GateError unit :=
  if match headers "sec-fetch-site"%string with
     | Some site => bool_decide (site = ascii_bytes "cross-site") || bool_decide (site = ascii_bytes "same-site")
     | None => false
     end then Err ForbiddenOrigin else
  if negb (host_ok g (default [] (headers "host"%string))) then Err ForbiddenHost else
  match headers "origin"%string with
  | Some origin => if negb (origin_ok g origin) then Err ForbiddenOrigin else Ok tt
  | None => Ok tt
  end.

Definition token_eq `{Lib} (a b : bytes) : bool := bool_decide (sha256 a = sha256 b).

Definition check `{Lib} (g : t) (headers : Headers) : result GateError unit :=
  _ ← check_page g headers;
  match headers TOKEN_HEADER with
  | Some token' => if token_eq token' (token g) then Ok tt else Err Unauthorized
  | None => Err Unauthorized
  end.

End Gate.

(** ** The page tier *)

Inductive Page : Type := Index | SessionJs | Asset (name : string).

(** The status and the body of a page-tier response; refusals carry the error's name. *)
Definition page_body (asset : string -> bytes) (g : Gate.t) (p : Page) : bytes :=
  match p with
  | Index => asset "index.html"%string
  | SessionJs =>
      ascii_bytes "window.STYX_TOKEN=" ++ [Byte.x22] ++ Gate.token g ++ [Byte.x22; Byte.x3b]
  | Asset name => asset name
  end.

Definition error_text (e : GateError) : bytes :=
  ascii_bytes match e with
              | Unauthorized => "Unauthorized"
              | ForbiddenHost => "ForbiddenHost"
              | ForbiddenOrigin => "ForbiddenOrigin"
              end.

Definition serve_page (asset : string -> bytes) (g : Gate.t) (headers : Headers) (p : Page) : Z * bytes :=
  match Gate.check_page g headers with
  | Ok _ => (200, page_body asset g p)
  | Err e => (gate_status e, error_text e)
  end.

(** ** Configuration *)

Inductive AppConfigError : Type :=
| AcIo
| AcToml
| AcListen (text : bytes)
| AcNonLoopback (addr : SocketAddr).

Record ProxyConfig : Type := mkProxy {
  px_bind : bytes;
  px_allow_hosts : list bytes;
  px_allow_origins : list bytes
}.

Record KeeperSection : Type := mkKeeperSection { ks_poke_lag : Z; ks_refresh_lag : Z }.
Definition default_keeper_section : KeeperSection := mkKeeperSection default_poke_lag default_refresh_lag.
Definition section_opts (s : KeeperSection) : KeeperOpts :=
  mkOpts (ks_poke_lag s) (ks_refresh_lag s) (walkback default_opts).

Record AppConfig : Type := mkAppConfig {
  ac_purse : WalletConfig;
  ac_listen : bytes;
  ac_keeper : KeeperSection;
  ac_poll_ms : Z;
  ac_proxy : option ProxyConfig
}.

(** The serde defaults. *)
Definition default_listen : bytes := ascii_bytes "127.0.0.1:9780".
Definition default_app_poll_ms : Z := 2000.

Module AppFile.

(** [env]: the value of [STYX_APP_LISTEN]. *)
Definition resolve_listen (cfg : AppConfig) (env : option bytes) : result AppConfigError SocketAddr :=
  let raw := default (ac_listen cfg) env in
  addr ← ok_or (AcListen raw) (parse_socket raw);
  if negb (is_loopback (sa_ip addr)) then Err (AcNonLoopback addr) else Ok addr.

Definition bind (cfg : AppConfig) (env : option bytes)
    : result AppConfigError (SocketAddr * list bytes * list bytes) :=
  match ac_proxy cfg with
  | Some proxy =>
      addr ← ok_or (AcListen (px_bind proxy)) (parse_socket (px_bind proxy));
      Ok (addr, px_allow_hosts proxy, px_allow_origins proxy)
  | None => addr ← resolve_listen cfg env; Ok (addr, [], [])
  end.

Definition parse `{Toml AppConfig} (env : option bytes) (text : bytes) : result AppConfigError AppConfig :=
  cfg ← ok_or AcToml (parse_toml text);
  _ ← bind cfg env;
  Ok cfg.

Definition load `{Toml AppConfig} {F : Type} `{Files F} (env : option bytes) (path : bytes) (fs : F)
    : result AppConfigError AppConfig :=
  text ← ok_or AcIo (read_text path fs); parse env text.

End AppFile.

(** ** Lemmas *)

Lemma strip_prefix_spec p l rest : strip_prefix p l = Some rest <-> l = p ++ rest.
Proof.
  revert l. induction p as [|a p IH]; intros l; cbn [strip_prefix app]; [split; congruence|].
  destruct l as [|b l]; [done|]. case_bool_decide as Hab.
  - subst b. rewrite IH. split; congruence.
  - split; [done|]. congruence.
Qed.

Lemma show_socket_nonempty addr : show_socket addr <> [].
Proof.
  unfold show_socket. destruct (sa_ip addr); [|done]. by destruct (show_v4 octets).
Qed.

Lemma own_hosts_nonempty addr : [] ∉ Gate.own_hosts addr.
Proof.
  unfold Gate.own_hosts. destruct (is_loopback _); [|by apply not_elem_of_nil].
  intros [H|[H|[]%not_elem_of_nil]%elem_of_cons]%elem_of_cons; [|done].
  by apply (show_socket_nonempty addr).
Qed.

Lemma host_ok_spec g host : Gate.host_ok g host = true <-> host ∈ Gate.hosts g \/ host ∈ Gate.proxy_hosts g.
Proof. unfold Gate.host_ok. by rewrite orb_true_iff, !bool_decide_eq_true. Qed.

Lemma origin_ok_spec g origin :
  Gate.origin_ok g origin = true <->
  (exists host, host ∈ Gate.hosts g /\ origin = ascii_bytes "http://" ++ host) \/ origin ∈ Gate.proxy_origins g.
Proof.
  unfold Gate.origin_ok. rewrite orb_true_iff, bool_decide_eq_true. f_equiv.
  destruct (strip_prefix _ _) as [rest|] eqn:E.
  - apply strip_prefix_spec in E as ->. rewrite bool_decide_eq_true. split; [by exists rest|].
    by intros (host & Hh & <-%app_inv_head).
  - split; [done|]. intros (host & _ & H). apply strip_prefix_spec in H. congruence.
Qed.

Lemma check_page_spec g headers :
  Gate.check_page g headers = Ok tt <->
  headers "sec-fetch-site"%string <> Some (ascii_bytes "cross-site") /\
  headers "sec-fetch-site"%string <> Some (ascii_bytes "same-site") /\
  Gate.host_ok g (default [] (headers "host"%string)) = true /\
  (forall origin, headers "origin"%string = Some origin -> Gate.origin_ok g origin = true).
Proof.
  unfold Gate.check_page. destruct (headers "sec-fetch-site"%string) as [site|].
  - destruct (bool_decide (site = ascii_bytes "cross-site")) eqn:E1; cbn [orb].
    { apply bool_decide_eq_true in E1 as ->. split; [done|]. by intros (? & _). }
    destruct (bool_decide (site = ascii_bytes "same-site")) eqn:E2.
    { apply bool_decide_eq_true in E2 as ->. split; [done|]. by intros (_ & ? & _). }
    apply bool_decide_eq_false in E1, E2.
    destruct (Gate.host_ok _ _); cbn [negb]; [|split; [done|by intros (_ & _ & ? & _)]].
    destruct (headers "origin"%string) as [o|].
    + destruct (Gate.origin_ok g o) eqn:Eo; cbn [negb]; split; try done.
      * intros _. split_and!; [congruence..|done|]. by intros ? [= <-].
      * intros (_ & _ & _ & Ho). by rewrite (Ho o eq_refl) in Eo.
    + split; [|done]. intros _. split_and!; [congruence..|done|done].
  - destruct (Gate.host_ok _ _); cbn [negb]; [|split; [done|by intros (_ & _ & ? & _)]].
    destruct (headers "origin"%string) as [o|].
    + destruct (Gate.origin_ok g o) eqn:Eo; cbn [negb]; split; try done.
      * intros _. split_and!; [done..|]. by intros ? [= <-].
      * intros (_ & _ & _ & Ho). by rewrite (Ho o eq_refl) in Eo.
    + split; [|done]. intros _. split_and!; done.
Qed.

Lemma check_spec `{Lib} g headers :
  Gate.check g headers = Ok tt <->
  Gate.check_page g headers = Ok tt /\
  exists t, headers TOKEN_HEADER = Some t /\ sha256 t = sha256 (Gate.token g).
Proof.
  unfold Gate.check, Gate.token_eq. rewrite bind_ok. split.
  - intros ([] & Hp & Ht). split; [done|]. destruct (headers TOKEN_HEADER) as [t|]; [|done].
    exists t. split; [done|]. by case_bool_decide.
  - intros [Hp (t & -> & Ht)]. exists tt. split; [done|]. by rewrite bool_decide_true.
Qed.

(** ** The perimeter *)

(** The Host values a running application answers to, and the Origins it accepts. *)
Definition trusted_hosts (addr : SocketAddr) (hosts : list bytes) : list bytes :=
  Gate.own_hosts addr ++ hosts.
Definition trusted_origins (addr : SocketAddr) (origins : list bytes) : list bytes :=
  ((fun host => ascii_bytes "http://" ++ host) <$> Gate.own_hosts addr) ++ origins.

(** C30: Without a [proxy] section the application listens on loopback only, whatever its file
    or its environment name, and trusts its own two host names; behind a proxy on a wider
    address it trusts the configured names and nothing else.  The page tier, and with it the
    page that carries the session token, answers exactly the requests that name a trusted
    host, bear no untrusted Origin and are not stamped as coming from another site; the API
    answers those of them that carry the token. *)
Theorem perimeter `{Lib} (cfg : AppConfig) (env : option bytes) (seed : bytes) (addr : SocketAddr)
    (hosts origins : list bytes) (asset : string -> bytes) (headers : Headers) :
  AppFile.bind cfg env = Ok (addr, hosts, origins) -> Forall (fun h => h <> []) hosts ->
  let g := Gate.mint_proxied addr seed hosts origins in
  let trusted := exists host, headers "host"%string = Some host /\ host ∈ trusted_hosts addr hosts /\
    (forall o, headers "origin"%string = Some o -> o ∈ trusted_origins addr origins) /\
    headers "sec-fetch-site"%string <> Some (ascii_bytes "cross-site") /\
    headers "sec-fetch-site"%string <> Some (ascii_bytes "same-site") in
  match ac_proxy cfg with
  | None => is_loopback (sa_ip addr) = true /\ hosts = [] /\ origins = []
  | Some proxy => hosts = px_allow_hosts proxy /\ origins = px_allow_origins proxy
  end /\
  (is_loopback (sa_ip addr) = false -> trusted_hosts addr hosts = hosts /\ trusted_origins addr origins = origins) /\
  (Gate.check_page g headers = Ok tt <-> trusted) /\
  (Gate.check g headers = Ok tt <->
     trusted /\ exists t, headers TOKEN_HEADER = Some t /\ sha256 t = sha256 (hex seed)) /\
  (forall page, (serve_page asset g headers page).1 = 200 <-> trusted).
Proof.
  intros Hb Hne g trusted.
  assert (Hpage : Gate.check_page g headers = Ok tt <-> trusted).
  { rewrite check_page_spec, host_ok_spec. unfold trusted, trusted_hosts, trusted_origins.
    setoid_rewrite elem_of_app. cbn [Gate.hosts Gate.proxy_hosts Gate.mint_proxied g]. split.
    - intros (Hc & Hs & Hh & Ho). destruct (headers "host"%string) as [host|]; cbn [default id from_option] in Hh.
      + exists host. split_and!; [done|done| |done|done]. intros o Eo.
        apply Ho, origin_ok_spec in Eo as [(h & Hh' & ->)|Hp]; [left|by right].
        apply list_elem_of_fmap. by exists h.
      + destruct Hh as [Hh|Hh]; [by apply own_hosts_nonempty in Hh|].
        rewrite Forall_forall in Hne. by apply Hne in Hh.
    - intros (host & -> & Hh & Ho & Hc & Hs). split_and!; [done|done|done|]. intros o Eo.
      apply Ho in Eo. apply origin_ok_spec.
      destruct Eo as [Ho'|Ho']; [left|by right].
      apply list_elem_of_fmap in Ho' as (h & -> & Hh'). by exists h. }
  split_and!.
  - unfold AppFile.bind in Hb. destruct (ac_proxy cfg) as [proxy|].
    + apply bind_ok in Hb as (a & _ & [= <- <- <-]). done.
    + apply bind_ok in Hb as (a & Ha & [= <- <- <-]). split_and!; [|done|done].
      unfold AppFile.resolve_listen in Ha. apply bind_ok in Ha as (a' & _ & Ha).
      destruct (is_loopback (sa_ip a')) eqn:El; cbn [negb] in Ha; [|done]. by injection Ha as <-.
  - intros Hl. unfold trusted_hosts, trusted_origins, Gate.own_hosts. by rewrite Hl.
  - exact Hpage.
  - rewrite check_spec, Hpage. done.
  - intros page. rewrite <- Hpage. unfold serve_page. destruct (Gate.check_page g headers) as [[]|e]; cbn [fst].
    + done.
    + split; [|done]. by destruct e.
Qed.
