(* ===== verification/Wallet.v ===== *)
(** * The wallet session ([styx-wallet/src/wallet.rs])

    Coin selection, the self-spends, the conflict-retry policy and the session every
    operation runs in.  A method of [Wallet] is a computation over the session [Wallet.t]:
    the node and the disk it talks to, the indexed state, and, for the theorems only, the
    transactions handed to the node so far ([sent], latest first). *)

From Stdlib Require Import ZArith Lia.
From stdpp Require Import base gmap strings option list.
From S2P Require Import Prelude Hex Units CrMath Elements Oracle Simf Encode Domain Artifacts Jets.
From S2P Require Import CovVault CovReserve CovIssuer Plan BuildOwner Pset Quotes Effects Node.
From S2P Require Import Index Sync Snapshot Config.

Definition DUST_FLOOR : Z := 500.

Inductive WalletError : Type :=
| WConfig (e : WalletConfigError)
| WStyxnet (e : ConfigError)
| WNode (e : NodeError)
| WScan (e : ScanError)
| WSync (e : SyncError)
| WSnapshot (e : SnapshotError)
| WBuild (e : BuildError)
| WPset (e : PsetError)
| WPrune (e : FinalizeError)
| WBroadcast (e : BroadcastError)
| WMath (e : MathError)
| WArtifacts (e : DeployError)
| GenesisMismatch (config node : BlockHash)
| NotLive
| NodeBehindAnchor (tip anchor : Z)
| VaultNotFound (op : OutPoint)
| VaultNotMine (op : OutPoint)
| InsufficientLbtc (need have : Z)
| InsufficientObol (need have : Z)
| AmbiguousVault (n : nat)
| NoVault
| WRejected (what message : string)
| ConflictExhausted (what : string) (attempts : nat).

Definition is_node_down (e : WalletError) : bool :=
  match e with
  | WNode _ | WScan (ScanNode _) | WSync (SyncNode _) => true
  | _ => false
  end.

(** ** Coins *)

Abbreviation Coin := (OutPoint * Z)%type (only parsing).

(** [coins.iter().map(|(_, v)| *v).sum()]: an unchecked [u64] sum. *)
Definition sum_coins (coins : list Coin) : Z := foldl (fun acc c => u64_wadd acc c.2) 0 coins.

Definition value_le (a b : Coin) : bool := a.2 <=? b.2.
Definition value_ge (a b : Coin) : bool := b.2 <=? a.2.

(** The smallest single coin covering [need]. *)
Definition select_at_least (coins : list Coin) (need : Z) : option Coin :=
  min_by value_le (filter (fun c => need <= c.2) coins).

(** The loop of [select_accumulate] over the sorted coins. *)
Fixpoint accumulate (sorted : list Coin) (need sum : Z) (taken : list Coin) : option (list Coin) :=
  match sorted with
  | [] => None
  | c :: sorted =>
      let sum := u64_sat_add sum c.2 in
      if need <=? sum then Some (taken ++ [c]) else accumulate sorted need sum (taken ++ [c])
  end.

Definition select_accumulate (coins : list Coin) (need : Z) : option (list Coin) :=
  accumulate (sort_by value_ge coins) need 0 [].

(** Split an excess into (change output, fee): dust folds into the fee. *)
Definition split_change (excess : Z) : option Z * Sats.t :=
  if DUST_FLOOR <=? excess then (Some excess, FEE)
  else (None, Sats.new (u64_wadd (Sats.raw FEE) excess)).

(** ** The conflict-retry policy *)

Inductive LostRace : Type := Benign | LostError.
Definition CONFLICT_ATTEMPTS : nat := 3.

(** The target vanished, or its ratchet advanced past the tick. *)
Definition vanished (e : WalletError) : bool :=
  match e with
  | VaultNotFound _ | VaultNotMine _ | WBuild (RatchetNotAdvanced _ _) => true
  | _ => false
  end.

Section Retry.
Context {W : Type} (what : string) (resync : Eff W WalletError unit) (f : Eff W WalletError Txid)
  (lost_race : LostRace).

(** The attempts from the [attempt]-th on, [n] of them left. *)
Fixpoint retry_from (n attempt : nat) : Eff W WalletError (option Txid) :=
  match n with
  | O => throw (ConflictExhausted what CONFLICT_ATTEMPTS)
  | S n =>
      outcome ← try f;
      match outcome with
      | Ok txid => mret (Some txid)
      | Err (WBroadcast (Conflict _)) => _ ← resync; retry_from n (S attempt)
      | Err (WBroadcast (Rejected message)) => throw (WRejected what message)
      | Err e =>
          if vanished e && (0 <? attempt)%nat
          then match lost_race with Benign => mret None | LostError => throw e end
          else throw e
      end
  end.

Definition retry_conflicts : Eff W WalletError (option Txid) := retry_from CONFLICT_ATTEMPTS 0.

End Retry.

(** ** Self-spends *)

(** A payment of policy coins to [dest]: the change and the fee out of [excess]. *)
Definition payment (p : Params) (ours dest : Script) (amount excess : Z) (taken : list Coin) : TxPlan :=
  let '(change, fee) := split_change excess in
  let output := txout amount dest (policy p) ::
    match change with Some c => [txout c ours (policy p)] | None => [] end ++
    [fee_out fee (policy p)] in
  mkPlan (mkTx 2 LOCKTIME_ZERO (txin ∘ fst <$> taken) output)
    ((fun c => claimed c.2 ours (policy p)) <$> taken) [].

(** The merge of OBOL coins into one, the fee out of a policy coin. *)
Definition merge (p : Params) (ours : Script) (obols : list Coin) (fee_coin : Coin) : TxPlan :=
  let '(change, fee) := split_change (u64_wsub fee_coin.2 (Sats.raw FEE)) in
  let output := txout (sum_coins obols) ours (obol p) ::
    match change with Some c => [txout c ours (policy p)] | None => [] end ++
    [fee_out fee (policy p)] in
  mkPlan (mkTx 2 LOCKTIME_ZERO ((txin ∘ fst <$> obols) ++ [txin fee_coin.1]) output)
    (((fun c => claimed c.2 ours (obol p)) <$> obols) ++ [claimed fee_coin.2 ours (policy p)]) [].

(** ** The session *)

Module Wallet.

Record t (N D : Type) : Type := mk {
  ctx : Ctx;
  node : N;
  owner : bytes;
  funding : bytes;
  state : IndexState;
  disk : D;
  sent : list Transaction
}.
Arguments mk {N D} _ _ _ _ _ _ _.
Arguments ctx {N D} _.
Arguments node {N D} _.
Arguments owner {N D} _.
Arguments funding {N D} _.
Arguments state {N D} _.
Arguments disk {N D} _.
Arguments sent {N D} _.

Section Session.
Context `{Lib, XOnlyParse, SigHash, Redeemer, KeySpend, Compiler}.
Context {N D : Type} `{Rpc N, Display, OutPointOrder, Json, Disk D, AssetParse, SecretKey}.

Abbreviation M := (Eff (t N D) WalletError) (only parsing).

Definition with_node (w : t N D) (n : N) : t N D :=
  mk (ctx w) n (owner w) (funding w) (state w) (disk w) (sent w).
Definition with_index (w : t N D) (x : N * IndexState) : t N D :=
  mk (ctx w) x.1 (owner w) (funding w) x.2 (disk w) (sent w).
Definition with_disk (w : t N D) (d : D) : t N D :=
  mk (ctx w) (node w) (owner w) (funding w) (state w) d (sent w).
Definition record (tx : Transaction) (w : t N D) : t N D :=
  mk (ctx w) (node w) (owner w) (funding w) (state w) (disk w) (tx :: sent w).

(** A call on the node. *)
Definition on_node {E A} (f : E -> WalletError) (m : Eff N E A) : M A :=
  map_error f (zoom node (fun n w => with_node w n) m).

(** The index a first session starts from, or the snapshot. *)
Definition first_state (net : StyxnetConfig) (genesis : BlockHash) (d : D)
    : Eff N WalletError IndexState :=
  if file_exists d then lift (map_err WSnapshot (load d)) else
  match sn_protocol net with
  | Some p =>
      let start := issuer_anchor_genesis p in
      tip ← map_error WNode height;
      if tip <? start then throw (NodeBehindAnchor tip start) else
      hash ← map_error WNode (block_hash start);
      mret (at_height start hash)
  | None => mret (Index.genesis genesis)
  end.

(** The deploy and the index of a session, before the keys are parsed. *)
Definition session_parts (cfg : WalletConfig) (net : StyxnetConfig) (d : D)
    : Eff N WalletError (Ctx * IndexState) :=
  params ← lift (map_err WStyxnet (Styxnet.params net));
  _ ← lift (map_err WConfig (WalletFile.auth cfg));
  genesis ← map_error WNode (block_hash 0);
  expected ← lift (map_err WStyxnet (Styxnet.genesis net));
  if bool_decide (expected <> genesis) then throw (GenesisMismatch expected genesis) else
  artifacts ← lift (map_err WArtifacts (compile_artifacts params));
  st ← first_state net genesis d;
  mret (mkCtx params artifacts genesis, st).

(** [None]: a panic in [parse_seckey]. *)
Definition open_session (cfg : WalletConfig) (net : StyxnetConfig) (n : N) (d : D)
    : option (result WalletError (t N D)) :=
  match session_parts cfg net d n with
  | (Err e, _) => Some (Err e)
  | (Ok (ctx, st), n') =>
      owner ← WalletFile.owner cfg;
      match owner with
      | Err e => Some (Err (WConfig e))
      | Ok owner =>
          funding ← WalletFile.funding cfg;
          Some (match funding with
                | Err e => Err (WConfig e)
                | Ok funding => Ok (mk ctx n' owner funding st d [])
                end)
      end
  end.

Definition owner_pk (w : t N D) : XOnlyPublicKey := keypair_pk (owner w).

(** Key-path p2tr over the funding key, no script tree. *)
Definition funding_spk (w : t N D) : Script :=
  byte_of_Z 0x51 :: byte_of_Z 0x20 :: tap_tweak (keypair_pk (funding w)) None.

Definition sync : M (list Notice) := fun w =>
  let '(r, x) := catch_up (ctx w) [owner_pk w] (node w, state w) in
  let w1 := with_index w x in
  match r with
  | Err e => (Err (WSync e), w1)
  | Ok notices =>
      let '(r, d) := save (state w1) (disk w1) in
      (map_err WSnapshot (_ ← r; Ok notices), with_disk w1 d)
  end.

Definition lbtc_coins : M (list Coin) := fun w =>
  on_node WScan (scan_spk (funding_spk w) (policy (ctx_params (ctx w)))) w.
Definition obol_coins : M (list Coin) := fun w =>
  on_node WScan (scan_spk (funding_spk w) (obol (ctx_params (ctx w)))) w.

Definition my_vaults (w : t N D) : list (OnChain VaultState) :=
  omap (fun x => if bool_decide (tv_owner x.2 = Some (owner_pk w)) then known x.2 x.1 else None)
    (btree_iter (ix_vaults (state w))).

Definition pick_vault (which : option OutPoint) (w : t N D) : result WalletError (OnChain VaultState) :=
  match which with
  | Some op =>
      v ← ok_or (VaultNotFound op) (ix_vaults (state w) !! op);
      if bool_decide (tv_owner v <> Some (owner_pk w)) then Err (VaultNotMine op)
      else ok_or (VaultNotMine op) (known v op)
  | None =>
      match my_vaults w with
      | [] => Err NoVault
      | [v] => Ok v
      | vs => Err (AmbiguousVault (length vs))
      end
  end.

Definition protocol (w : t N D) : result WalletError ProtocolState :=
  ok_or NotLive (Index.protocol (state w)).

(** The signing loop: every input paying the funding script. *)
Fixpoint sign_loop (c : Ctx) (plan : TxPlan) (ours : Script) (kp : bytes) (i : nat)
    (utxos : list ElementsUtxo) (ps : Pset) : result PsetError Pset :=
  match utxos with
  | [] => Ok ps
  | u :: utxos =>
      ps ← (if bool_decide (utxo_spk u = ours) then sign_funding c plan ps i kp else Ok ps);
      sign_loop c plan ours kp (S i) utxos ps
  end.

Definition sign (plan : TxPlan) (w : t N D) : result WalletError Transaction :=
  map_err WPset (
    ps ← to_pset (ctx w) plan;
    ps ← sign_loop (ctx w) plan (funding_spk w) (funding w) 0 (p_utxos plan) ps;
    finalize_pset (ctx w) plan ps).

Definition broadcast (tx : Transaction) : M Txid := fun w =>
  on_node WBroadcast (send tx) (record tx w).

Definition sign_and_broadcast (plan : TxPlan) : M Txid := fun w =>
  match sign plan w with
  | Ok tx => broadcast tx w
  | Err e => (Err e, w)
  end.

Definition relay_feerate_sat_per_kvb : M (option Z) := on_node WNode Node.relay_feerate_sat_per_kvb.

(** The exact coin an OPEN needs, by a self-spend. *)
Definition shape_exact (need : Sats.t) : M (OutPoint * Transaction) :=
  coins ← lbtc_coins;
  let total_needed := u64_wadd (Sats.raw need) (Sats.raw FEE) in
  taken ← lift (ok_or (InsufficientLbtc total_needed (sum_coins coins))
                  (select_accumulate coins total_needed));
  ours ← gets funding_spk;
  p ← gets (ctx_params ∘ ctx);
  let excess := u64_wsub (u64_wsub (sum_coins taken) (Sats.raw need)) (Sats.raw FEE) in
  let plan := payment p ours ours (Sats.raw need) excess taken in
  txid ← sign_and_broadcast plan;
  mret (mkOutPoint txid 0, p_tx plan).

Definition consolidate_obol : M Coin :=
  obols ← obol_coins;
  coins ← lbtc_coins;
  let fee_need := Sats.raw FEE + 1 in
  fee_coin ← lift (ok_or (InsufficientLbtc fee_need 0) (select_at_least coins fee_need));
  ours ← gets funding_spk;
  p ← gets (ctx_params ∘ ctx);
  txid ← sign_and_broadcast (merge p ours obols fee_coin);
  mret (mkOutPoint txid 0, sum_coins obols).

End Session.
End Wallet.
