(* ===== verification/IndexTyped.v ===== *)
(** * The index stays well typed, and a session can always restart

    [state_typed] is what the Rust types promise of an indexed state (32-byte hashes, valid
    keys); [apply_tx], the block scan and the wallet's [sync] keep it, so the snapshot
    written after a sync loads back to the very state the session holds. *)

From Stdlib Require Import ZArith Lia.
From stdpp Require Import base gmap strings option list.
From S2P Require Import Prelude Hex Units CrMath Elements Oracle Simf Encode Domain Artifacts Jets.
From S2P Require Import CovVault CovReserve CovIssuer Plan BuildOwner Pset Quotes Effects Node.
From S2P Require Import Index IndexSpec Sync Snapshot Config Wallet.

Definition op_ok (op : OutPoint) : Prop := length (op_txid op) = 32%nat.
Definition key_ok `{XOnlyParse} (o : option XOnlyPublicKey) : Prop :=
  forall k, o = Some k -> valid_xonly k = true.

(** A transaction as the Rust types have it. *)
Definition tx_typed `{Lib} (tx : Transaction) : Prop :=
  length (txid_of tx) = 32%nat /\ Forall (fun i => op_ok (previous_output i)) (input tx).

Section Typed.
Context `{HL : Lib, XP : XOnlyParse} (ctx : Ctx) (owners : list XOnlyPublicKey) (height : Z) (tx : Transaction).
Context (Hid : length (txid_of tx) = 32%nat).
Context (Hins : forall i, i ∈ input tx -> op_ok (previous_output i)).
Context (Hown : Forall (fun k => valid_xonly k = true) owners).

(** The index monad's triple for [state_typed]. *)
Definition typed {A} (m : Ix A) (Q : A -> Prop) : Prop :=
  forall w, state_typed (w_state w) -> state_typed (w_state (m w).2) /\ Q (m w).1.
Abbreviation safe m := (typed m (fun _ => True)) (only parsing).

Lemma typed_ret {A} (x : A) : safe (mret x).
Proof. by intros w. Qed.
Lemma typed_bind {A B} (m : Ix A) (f : A -> Ix B) Q R :
  typed m Q -> (forall x, Q x -> typed (f x) R) -> typed (m ≫= f) R.
Proof.
  intros Hm Hf w Hw. destruct (Hm w Hw) as [H1 H2]. unfold mbind, ix_bind. destruct (m w) as [x w'].
  by apply Hf.
Qed.
Lemma typed_then {A B} (m : Ix A) (f : A -> Ix B) R : safe m -> (forall x, typed (f x) R) -> typed (m ≫= f) R.
Proof. intros Hm Hf. eapply typed_bind; [exact Hm|]. intros x _. apply Hf. Qed.
Lemma typed_get {A} (f : IndexState -> A) (Q : A -> Prop) :
  (forall st, state_typed st -> Q (f st)) -> typed (get f) Q.
Proof. intros Hf w Hw. split; [done|]. by apply Hf. Qed.
Lemma typed_read {A} (f : IndexState -> A) : safe (get f).
Proof. by apply typed_get. Qed.
Lemma typed_push e : safe (push height tx e).
Proof. by intros w. Qed.
Lemma typed_when b m : safe m -> safe (when b m).
Proof. intros Hm. destruct b; [done|apply typed_ret]. Qed.
Lemma typed_modify f : (forall st, state_typed st -> state_typed (f st)) -> safe (modify f).
Proof. intros Hf w Hw. split; [by apply Hf|done]. Qed.

Lemma typed_pot q : (forall x, q = Some x -> op_ok (outpoint x)) -> safe (modify (with_pot q)).
Proof. intros Hq. apply typed_modify. intros st []. by split. Qed.
Lemma typed_reserve q : (forall x, q = Some x -> op_ok (outpoint x)) -> safe (modify (with_reserve q)).
Proof. intros Hq. apply typed_modify. intros st []. by split. Qed.
Lemma typed_issuer q :
  (forall x, q = Some x -> op_ok (outpoint x) /\ oc_value x = 1) -> safe (modify (with_issuer q)).
Proof. intros Hq. apply typed_modify. intros st []. by split. Qed.
Lemma typed_delete op : safe (modify (with_vaults (delete op))).
Proof.
  apply typed_modify. intros st []. split; [done..| |done]. cbn. intros op' v Hv.
  apply lookup_delete_Some in Hv as [? ?]. auto.
Qed.
Lemma typed_insert op v : op_ok op -> key_ok (tv_owner v) -> safe (modify (with_vaults (<[op := v]>))).
Proof.
  intros Ho Hk. apply typed_modify. intros st []. split; [done..| |done]. cbn. intros op' v' Hv.
  apply lookup_insert_Some in Hv as [[<- <-] | [? ?]]; [done|auto].
Qed.
Lemma typed_lost op r : op_ok op -> safe (modify (with_lost (<[op := mkLost (txid_of tx) r]>))).
Proof.
  intros Ho. apply typed_modify. intros st []. split; [done..|]. cbn. intros op' v' Hv.
  apply lookup_insert_Some in Hv as [[<- <-] | [? ?]]; [done|auto].
Qed.

(** An output of this transaction. *)
Lemma here_ok vout : op_ok (mkOutPoint (txid_of tx) vout).
Proof. exact Hid. Qed.

Create HintDb typed.
Hint Resolve typed_ret typed_read typed_push typed_when typed_delete here_ok : typed.
Ltac types :=
  repeat first
    [ progress auto with typed
    | apply typed_then; [|intros ?]
    | match goal with |- context [match ?x with _ => _ end] => destruct x eqn:? end ].

Lemma typed_mark_lost op r : op_ok op -> safe (mark_lost height tx op r).
Proof. intros Ho. unfold mark_lost. types. by apply typed_lost. Qed.
Lemma typed_follow_pot : safe (follow_pot ctx height tx).
Proof. unfold follow_pot. types; apply typed_pot; intros ? [= <-]; apply here_ok. Qed.
Lemma typed_follow_reserve : safe (follow_reserve ctx height tx).
Proof. unfold follow_reserve. types; apply typed_reserve; intros ? [= <-]; apply here_ok. Qed.
Hint Resolve typed_mark_lost typed_follow_pot typed_follow_reserve : typed.

Lemma typed_follow_singletons pi ri : safe (follow_singletons ctx height tx pi ri).
Proof. unfold follow_singletons. types; apply typed_when; types. Qed.
Lemma typed_shrink : safe (pot_delta_shrink ctx height tx).
Proof. unfold pot_delta_shrink. types. Qed.
Lemma typed_grow : safe (pot_delta_grow ctx height tx).
Proof. unfold pot_delta_grow. types. Qed.
Hint Resolve typed_follow_singletons typed_shrink typed_grow : typed.

Lemma typed_vault_successor op next e :
  op_ok op -> key_ok (tv_owner next) -> safe (vault_successor ctx height tx op next e).
Proof. intros Ho Hk. unfold vault_successor. types. by apply typed_insert. Qed.

Lemma find_some_in {A B} (f : A -> option B) l b :
  find_some f l = Some b -> exists a, a ∈ l /\ f a = Some b.
Proof.
  induction l as [|a l IH]; cbn [find_some]; [done|]. destruct (f a) as [b'|] eqn:E.
  - intros [= ->]. exists a. split; [by left|done].
  - intros (a' & ? & ?)%IH. exists a'. split; [by right|done].
Qed.

Lemma typed_vault_born b : safe (vault_born ctx owners height tx b).
Proof.
  unfold vault_born. destruct (output tx) as [|o outs]; [types|].
  destruct (explicit o _) as [v|]; [|types]. apply typed_then; [|intros; types].
  apply typed_insert; [apply here_ok|]. intros k Hk. cbn [tv_owner] in Hk.
  destruct (find_some _ owners) as [c0|] eqn:Hf.
  - injection Hk as ->. apply find_some_in in Hf as (c & Hc & Hb). case_bool_decide; [|done].
    injection Hb as ->. rewrite Forall_forall in Hown. by apply Hown.
  - unfold scan_witness_for_owner in Hk. destruct (input tx !! _); [|done]. cbn in Hk.
    apply find_some_sound in Hk as [el Hk]. unfold scan_element in Hk.
    destruct (_ && _); [|done]. apply find_some_sound in Hk as [bit Hk].
    destruct (_ && _) eqn:Hg; [|done]. injection Hk as <-. by apply andb_true_iff in Hg as [? _].
Qed.

(** The owner of a vault the index holds. *)
Lemma typed_vault_at op :
  typed (get (fun st => ix_vaults st !! op)) (fun o => forall v, o = Some v -> key_ok (tv_owner v)).
Proof. apply typed_get. intros st Hst v Hv. by apply (sy_vaults st Hst) in Hv as [_ ?]. Qed.

Hint Resolve typed_vault_successor typed_vault_born : typed.

Lemma typed_issuer_arm idx pi ri vi anchor vout :
  Forall (fun x => op_ok x.2) vi -> safe (issuer_arm ctx owners height tx idx pi ri vi anchor vout).
Proof.
  intros Hvi. unfold issuer_arm.
  destruct (vout =? 0); [types|]. destruct (vout =? 4); [types|]. destruct (vout =? 3); [|types].
  destruct ri as [r|]; [types|]. destruct vi as [|[[|n] vop] vi]; [types| |types].
  apply Forall_cons in Hvi as [Hop _]. destruct (_ || _); [types|].
  apply typed_then; [types|]. intros [amount|]; [|types].
  eapply typed_bind; [apply typed_vault_at|]. intros v Hv. apply typed_then; [types|]. intros _.
  destruct v as [v|]; [|types]. apply typed_vault_successor; [done|]. exact (Hv v eq_refl).
Qed.
Hint Resolve typed_issuer_arm : typed.

Lemma typed_issuer_op idx pi ri vi :
  Forall (fun x => op_ok x.2) vi -> safe (issuer_op ctx owners height tx idx pi ri vi).
Proof.
  intros Hvi. unfold issuer_op. apply typed_then; [types|]. intros [prev|]; [|types].
  destruct (scan_range _ _ _) as [[anchor vout]|]; (apply typed_then; [apply typed_issuer|intros; types]).
  - intros ? [= <-]. split; [apply here_ok|done].
  - done.
Qed.

Lemma typed_vault_op op pi ri : op_ok op -> safe (vault_op ctx height tx op pi ri).
Proof.
  intros Ho. unfold vault_op. eapply typed_bind; [apply typed_vault_at|]. intros [v|] Hv; [|types].
  specialize (Hv v eq_refl).
  assert (Hs : forall d h e, safe (vault_successor ctx height tx op (tracked_with v d h) e))
    by (intros d h e; by apply typed_vault_successor).
  types.
Qed.

Lemma typed_issuer_birth vout outs : safe (issuer_birth ctx height tx vout outs).
Proof.
  revert vout. induction outs as [|o outs IH]; intros vout; cbn [issuer_birth]; [types|].
  case_bool_decide; [done|]. destruct (birth_anchor _ _ _); [|types].
  apply typed_then; [apply typed_issuer|intros; types]. intros ? [= <-]. split; [apply here_ok|done].
Qed.

Lemma typed_non_protocol : safe (non_protocol_tx ctx height tx).
Proof.
  unfold non_protocol_tx, pot_payment, reserve_payment, issuer_payment.
  apply typed_then; [|intros _; apply typed_then; [|intros _]].
  - types. apply typed_pot. intros ? [= <-]. apply here_ok.
  - types. apply typed_reserve. intros ? [= <-]. apply here_ok.
  - types. apply typed_issuer_birth.
Qed.

Lemma tracked_inputs_ok n vs l :
  (forall i, i ∈ l -> op_ok (previous_output i)) -> Forall (fun x => op_ok x.2) (tracked_inputs n vs l).
Proof.
  revert n. induction l as [|i l IH]; intros n Hl; cbn [tracked_inputs]; [constructor|].
  assert (Hr : Forall (fun x => op_ok x.2) (tracked_inputs (S n) vs l)) by (apply IH; intros j ?; apply Hl; by right).
  destruct (vs !! _); [|done]. constructor; [|done]. apply Hl. by left.
Qed.

Lemma typed_lose_all l : Forall (fun x => op_ok x.2) l -> safe (lose_all height tx l).
Proof. induction 1 as [|[n op] l Ho Hl IH]; cbn [lose_all]; types. Qed.
Hint Resolve typed_issuer_op typed_vault_op typed_non_protocol typed_lose_all : typed.

Lemma typed_apply_body : safe (apply_body ctx owners height tx).
Proof.
  unfold apply_body. do 3 (apply typed_then; [types|]; intros ?).
  apply typed_then; [types|]. intros vs.
  pose proof (tracked_inputs_ok 0 vs (input tx) Hins) as Hv. cbv zeta.
  destruct (tracked_inputs 0 vs (input tx)) as [|[vidx vop] more] eqn:Ev.
  - types; apply typed_when; types.
  - pose proof (Forall_cons_1 _ _ _ Hv) as [Hop _]. cbn in Hop. types.
Qed.

End Typed.

(** ** Blocks, scans and the session *)

Section Sessions.
Context `{HL : Lib, XP : XOnlyParse, HS : SigHash, RD : Redeemer, KS : KeySpend}.
Context {N : Type} `{RP : Rpc N}.

(** The node's replies, as the Rust types have them. *)
Class RpcTyped : Prop := {
  typed_hash h (n : N) hash n' : getblockhash h n = (Ok hash, n') -> length hash = 32%nat;
  typed_block hash (n : N) b n' : getblock hash n = (Ok b, n') -> Forall tx_typed (txdata b)
}.
Context `{!RpcTyped} (ctx : Ctx) (owners : list XOnlyPublicKey).
Context (Hown : Forall (fun k => valid_xonly k = true) owners).

Lemma apply_txs_typed h txs st :
  Forall tx_typed txs -> state_typed st -> state_typed (apply_txs ctx owners h txs st).1.
Proof.
  intros Htx. revert st. induction Htx as [|tx txs [Hid Hin] _ IH]; intros st Hst; cbn [apply_txs]; [done|].
  assert (H1 : state_typed (apply_tx ctx owners h tx st).1).
  { rewrite Forall_forall in Hin.
    destruct (typed_apply_body ctx owners h tx Hid Hin Hown (mkWorld st []) Hst) as [Hw _].
    unfold apply_tx. by destruct (apply_body _ _ _ _ _). }
  destruct (apply_tx ctx owners h tx st) as [st1 ns1]. specialize (IH st1 H1).
  by destruct (apply_txs ctx owners h txs st1).
Qed.

Lemma seal_typed st h hash : length hash = 32%nat -> state_typed st -> state_typed (seal st h hash).
Proof. intros Hh []. by split. Qed.

Lemma scan_block_typed h (w : N * IndexState) :
  state_typed w.2 -> state_typed (scan_block ctx owners h w).2.2.
Proof.
  intros Hw. unfold scan_block, mbind, eff_bind, Sync.on_node, map_error, zoom.
  destruct (block_hash h w.1) as [[hash|e] n1] eqn:Eh; cbn; [|done].
  destruct (block hash n1) as [[b|e] n2] eqn:Eb; cbn; [|done]. case_bool_decide; cbn; [|done].
  pose proof (apply_txs_typed h (txdata b) w.2 (typed_block _ _ _ _ Eb) Hw) as Ht.
  destruct (apply_txs _ _ _ _ _) as [st' ns]. cbn. apply seal_typed; [|done]. by eapply typed_hash.
Qed.

Lemma catch_up_typed (w : N * IndexState) :
  state_typed w.2 -> state_typed (catch_up ctx owners w).2.2.
Proof.
  assert (G : forall n h (w : N * IndexState), state_typed w.2 ->
    state_typed (scan_blocks ctx owners n h w).2.2).
  { clear w. induction n as [|n IH]; intros h w Hw; cbn [scan_blocks]; [done|].
    unfold mbind at 1, eff_bind. pose proof (scan_block_typed h w Hw) as Hb.
    destruct (scan_block ctx owners h w) as [[ns|e] w1]; [|done].
    unfold mbind, eff_bind. specialize (IH (h + 1) w1 Hb).
    by destruct (scan_blocks ctx owners n (h + 1) w1) as [[rest|e] w2]. }
  intros Hw. unfold catch_up, mbind, eff_bind, Sync.on_node, map_error, zoom.
  destruct (Node.height w.1) as [[tip|e] n]; cbn [gets fst snd map_err]; [|done].
  by apply (G _ _ (n, w.2)).
Qed.

End Sessions.

(** C25: A session can always restart: on a node whose replies are well typed, every sync,
    whether it succeeds or stops anywhere, leaves a well-typed index, and what the snapshot
    file then loads to is that very index after a success, and what it was before after a
    failure. *)
Theorem sync_restarts `{HL : Lib, XP : XOnlyParse, HS : SigHash, RD : Redeemer, KS : KeySpend}
    {N D : Type} {RP : Rpc N} {DP : Display} `{OO : OutPointOrder} {J : Json} {K : Disk D}
    (w w' : Wallet.t N D) (r : result WalletError (list Notice)) :
  RpcTyped (N := N) -> DisplaySpec DP -> JsonSpec J -> DiskSpec K ->
  valid_xonly (Wallet.owner_pk w) = true -> state_typed (Wallet.state w) ->
  Wallet.sync w = (r, w') ->
  state_typed (Wallet.state w') /\
  match r with
  | Ok _ => load (Wallet.disk w') = Ok (Wallet.state w')
  | Err _ => load (Wallet.disk w') = load (Wallet.disk w)
  end.
Proof.
  intros HR HD HJ HK Hk Hst Hs. unfold Wallet.sync in Hs.
  pose proof (catch_up_typed (Wallet.ctx w) [Wallet.owner_pk w] ltac:(by constructor)
    (Wallet.node w, Wallet.state w) Hst) as Ht.
  destruct (catch_up _ _ _) as [[ns|e] [n st]]; cbn in Ht, Hs; [|by injection Hs as <- <-].
  pose proof (save_outcome HD HJ HK st (Wallet.disk w) Ht) as Hd.
  destruct (save st (Wallet.disk w)) as [[u|e] d]; injection Hs as <- <-; by split.
Qed.
