(* ===== verification/Ops.v ===== *)
(** * The owner operations ([styx-wallet/src/ops.rs])

    One computation per command of the wallet: select coins, build, sign, broadcast.  The
    [*_once] bodies are single attempts; the public operations wrap them in the
    conflict-retry policy. *)

From Stdlib Require Import ZArith Lia.
From stdpp Require Import base gmap strings option list.
From S2P Require Import Prelude Hex Units CrMath Elements Oracle Simf Encode Domain Artifacts Jets.
From S2P Require Import CovVault CovReserve CovIssuer Plan BuildOwner BuildKeeper Pset Quotes.
From S2P Require Import Effects Node Index Sync Snapshot Config Wallet.

(** What a broadcast operation reports. *)
Record OpReport : Type := mkReport { or_txid : Txid; or_vault : option (OnChain VaultState) }.

(** The payment of OBOL to a script: one payer coin, one fee coin, both changes to [ours]. *)
Definition obol_payment (p : Params) (ours dest : Script) (amount : Obol.t) (payer fee_coin : Coin)
    : TxPlan :=
  let '(change, fee) := split_change (u64_wsub fee_coin.2 (Sats.raw FEE)) in
  let output := txout (Obol.raw amount) dest (obol p) ::
    (if Obol.raw amount <? payer.2
     then [txout (payer.2 - Obol.raw amount) ours (obol p)] else []) ++
    match change with Some c => [txout c ours (policy p)] | None => [] end ++
    [fee_out fee (policy p)] in
  mkPlan (mkTx 2 LOCKTIME_ZERO [txin payer.1; txin fee_coin.1] output)
    [claimed payer.2 ours (obol p); claimed fee_coin.2 ours (policy p)] [].

Module Ops.

Section Ops.
Context `{Lib, XOnlyParse, SigHash, Redeemer, KeySpend, Compiler}.
Context {N D : Type} `{Rpc N, Display, OutPointOrder, Json, Disk D}.

Abbreviation W := (Wallet.t N D) (only parsing).
Abbreviation M := (Eff (Wallet.t N D) WalletError) (only parsing).

Definition funding_coin (w : W) (c : Coin) : FundingCoin :=
  mkFunding c.1 (Sats.new c.2) (Wallet.funding_spk w).
Definition obol_coin (w : W) (c : Coin) : ObolCoin :=
  mkObolCoin c.1 (Obol.new c.2) (Wallet.funding_spk w).

(** A read of the session that can fail. *)
Definition ask {A} (f : W -> result WalletError A) : M A := fun w => (f w, w).

(** A builder's verdict. *)
Definition built {A} (r : result BuildError (Built A)) : M (Built A) := lift (map_err WBuild r).

Definition sign_owner (plan : TxPlan) : M TxPlan :=
  ask (fun w => map_err WPrune (owner_sign (Wallet.ctx w) plan (Wallet.owner w))).

Definition pick_lbtc (need : Z) : M Coin :=
  coins ← Wallet.lbtc_coins;
  lift (ok_or (InsufficientLbtc need (sum_coins coins)) (select_at_least coins need)).

Definition ensure_obol (need : Z) : M Coin :=
  coins ← Wallet.obol_coins;
  match select_at_least coins need with
  | Some c => mret c
  | None =>
      let have := sum_coins coins in
      if have <? need then throw (InsufficientObol need have) else Wallet.consolidate_obol
  end.

(** ** OPEN *)

(** The exact funding an open needs. *)
Definition open_need (principal : Obol.t) (collateral : Sats.t) (tick : OracleTick.t)
    : result WalletError Sats.t :=
  let '(lo, _) := OracleTick.price_range tick in
  debt_cents ← map_err WMath (Obol.covenant_cents principal);
  s ← map_err WMath (Sats.checked_add collateral (coll_at_cr debt_cents lo K_FEE_HALF_PERCENT));
  map_err WMath (Sats.checked_add s FEE).

Definition open_intent (w : W) (principal : Obol.t) (collateral : Sats.t) (tick : OracleTick.t)
    (funding : FundingCoin) : OpenIntent :=
  mkOpenIntent (Wallet.owner_pk w) principal collateral (Wallet.funding_spk w) funding tick FEE.

(** [collateral_for]: the collateral of a principal at a target ratio. *)
Definition collateral_for (principal : Obol.t) (tick : OracleTick.t) (cr_percent : option Z)
    : result WalletError Sats.t :=
  let '(lo, _) := OracleTick.price_range tick in
  let k := match cr_percent with Some p => RatioK.from_cr_percent p | None => K_OPEN_MIN end in
  cents ← map_err WMath (Obol.covenant_cents principal);
  Ok (coll_at_cr cents lo k).

(** The probe: [OutPoint::default()] is the null outpoint. *)
Definition null_outpoint : OutPoint := mkOutPoint (replicate 32 Byte.x00) 4294967295.

Definition validate_open (principal : Obol.t) (collateral : Sats.t) (tick : OracleTick.t) : M unit :=
  protocol ← ask Wallet.protocol;
  need ← lift (open_need principal collateral tick);
  w ← gets id;
  let probe := mkFunding null_outpoint need (Wallet.funding_spk w) in
  _ ← built (open (Wallet.ctx w) protocol (open_intent w principal collateral tick probe));
  mret tt.

(** A computation on the session beside the variable a retried closure captured. *)
Definition session {C A} (m : M A) : Eff (W * C) WalletError A := zoom fst (fun w x => (w, x.2)) m.

(** The funding coin of one attempt: exact, shaped before, or shaped now. *)
Definition open_funding (need : Sats.t) : Eff (W * option OutPoint) WalletError FundingCoin :=
  coins ← session Wallet.lbtc_coins;
  w ← gets fst;
  shaped ← gets snd;
  match find (fun c : Coin => c.2 =? Sats.raw need) coins, shaped with
  | Some c, _ => mret (funding_coin w c)
  | None, Some op => mret (funding_coin w (op, Sats.raw need))
  | None, None =>
      '(exact, _) ← session (Wallet.shape_exact need);
      _ ← update (fun x => (x.1, Some exact));
      mret (funding_coin w (exact, Sats.raw need))
  end.

Definition open_once (principal : Obol.t) (collateral : Sats.t) (tick : OracleTick.t)
    : Eff (W * option OutPoint) WalletError OpReport :=
  protocol ← session (ask Wallet.protocol);
  need ← lift (open_need principal collateral tick);
  funding ← open_funding need;
  w ← gets fst;
  b ← session (built (open (Wallet.ctx w) protocol (open_intent w principal collateral tick funding)));
  txid ← session (Wallet.sign_and_broadcast (plan b));
  mret (mkReport txid (Some (od_vault (expected b)))).

(** ** The other operations *)

(** The fee coin of a repayment: a sufficient coin other than the payer. *)
Definition repay_fee_coin (payer : OutPoint) : M Coin :=
  coins ← Wallet.lbtc_coins;
  let fee_coins := filter (fun c => c.1 <> payer) coins in
  let need := Sats.raw FEE + 1 in
  lift (ok_or (InsufficientLbtc need (sum_coins fee_coins)) (select_at_least fee_coins need)).

Definition repay_plan (which : option OutPoint) (amount : Obol.t) : M (Built RepayDelta) :=
  protocol ← ask Wallet.protocol;
  vault ← ask (Wallet.pick_vault which);
  payer ← ensure_obol (Obol.raw amount);
  fee_coin ← repay_fee_coin payer.1;
  w ← gets id;
  built (repay (Wallet.ctx w) (pot protocol) vault
    (mkRepayIntent amount (obol_coin w payer) (Wallet.funding_spk w) (funding_coin w fee_coin)
       (Wallet.funding_spk w) FEE)).

Definition repay_once (which : option OutPoint) (amount : Obol.t) : M OpReport :=
  b ← repay_plan which amount;
  plan ← sign_owner (plan b);
  txid ← Wallet.sign_and_broadcast plan;
  mret (mkReport txid (Some (rpd_vault (expected b)))).

Definition draw_plan (which : option OutPoint) (amount : Obol.t) (tick : OracleTick.t)
    : M (Built DrawDelta) :=
  protocol ← ask Wallet.protocol;
  vault ← ask (Wallet.pick_vault which);
  w ← gets id;
  built (draw (Wallet.ctx w) protocol vault
    (mkDrawIntent amount (Wallet.funding_spk w) tick FEE)).

Definition draw_once (which : option OutPoint) (amount : Obol.t) (tick : OracleTick.t) : M OpReport :=
  b ← draw_plan which amount tick;
  plan ← sign_owner (plan b);
  txid ← Wallet.sign_and_broadcast plan;
  mret (mkReport txid (Some (dd_vault (expected b)))).

Definition refresh_once (which : option OutPoint) (tick : OracleTick.t) : M OpReport :=
  vault ← ask (Wallet.pick_vault which);
  fee_coin ← pick_lbtc (Sats.raw FEE + 1);
  w ← gets id;
  b ← built (refresh (Wallet.ctx w) vault
    (mkRefreshIntent tick (funding_coin w fee_coin) (Wallet.funding_spk w) FEE));
  txid ← Wallet.sign_and_broadcast (plan b);
  mret (mkReport txid (Some (rfd_vault (expected b)))).

Definition close_plan (which : option OutPoint) : M (Built CloseDelta) :=
  protocol ← ask Wallet.protocol;
  vault ← ask (Wallet.pick_vault which);
  payer ← ensure_obol (Obol.raw (debt (state vault)));
  w ← gets id;
  built (close (Wallet.ctx w) (pot protocol) vault
    (mkCloseIntent (obol_coin w payer) (Wallet.funding_spk w) (Wallet.funding_spk w) FEE)).

Definition close_once (which : option OutPoint) : M OpReport :=
  b ← close_plan which;
  plan ← sign_owner (plan b);
  txid ← Wallet.sign_and_broadcast plan;
  mret (mkReport txid None).

Definition redeem_once (which : option OutPoint) (x : Obol.t) (tick : OracleTick.t) : M OpReport :=
  protocol ← ask Wallet.protocol;
  vault ← ask (Wallet.pick_vault which);
  payer ← ensure_obol (Obol.raw x);
  w ← gets id;
  b ← built (redeem (Wallet.ctx w) protocol vault
    (mkRedeemIntent x (obol_coin w payer) (Wallet.funding_spk w) (Wallet.funding_spk w) tick FEE));
  txid ← Wallet.sign_and_broadcast (plan b);
  mret (mkReport txid (Some (rdd_vault (expected b)))).

(** ** Payments *)

Definition send_obol (dest : Script) (amount : Obol.t) : M Txid :=
  payer ← ensure_obol (Obol.raw amount);
  fee_coin ← pick_lbtc (Sats.raw FEE + 1);
  w ← gets id;
  Wallet.sign_and_broadcast
    (obol_payment (ctx_params (Wallet.ctx w)) (Wallet.funding_spk w) dest amount payer fee_coin).

Definition send_lbtc (dest : Script) (amount : Sats.t) : M Txid :=
  coins ← Wallet.lbtc_coins;
  let need := u64_wadd (Sats.raw amount) (Sats.raw FEE) in
  taken ← lift (ok_or (InsufficientLbtc need (sum_coins coins)) (select_accumulate coins need));
  w ← gets id;
  Wallet.sign_and_broadcast
    (payment (ctx_params (Wallet.ctx w)) (Wallet.funding_spk w) dest (Sats.raw amount)
       (u64_wsub (sum_coins taken) need) taken).

(** ** The public operations *)

(** [with_retry]: the report of the last successful attempt is kept beside the session. *)
Definition with_retry {C} (what : string) (op : Eff (W * C) WalletError OpReport)
    : Eff (W * C) WalletError OpReport := fun x =>
  let attempt : Eff ((W * C) * option OpReport) WalletError Txid := fun s =>
    match op s.1 with
    | (Ok report, x') => (Ok (or_txid report), (x', Some report))
    | (Err e, x') => (Err e, (x', s.2))
    end in
  let resync : Eff ((W * C) * option OpReport) WalletError unit :=
    _ ← zoom fst (fun x s => (x, s.2)) (session Wallet.sync); mret tt in
  match retry_conflicts what resync attempt LostError (x, None) with
  | (Err e, s) => (Err e, s.1)
  | (Ok _, s) => (ok_or (ConflictExhausted what CONFLICT_ATTEMPTS) s.2, s.1)
  end.

(** An operation that captures nothing. *)
Definition retried (what : string) (op : M OpReport) : M OpReport := fun w =>
  let '(r, x) := with_retry what (session op) (w, tt) in (r, x.1).

Definition open (principal : Obol.t) (collateral : Sats.t) (tick : OracleTick.t) : M OpReport := fun w =>
  let m : Eff (W * option OutPoint) WalletError OpReport :=
    _ ← session (validate_open principal collateral tick);
    with_retry "open" (open_once principal collateral tick) in
  let '(r, x) := m (w, None) in (r, x.1).

Definition repay (which : option OutPoint) (amount : Obol.t) : M OpReport :=
  retried "repay" (repay_once which amount).
Definition draw (which : option OutPoint) (amount : Obol.t) (tick : OracleTick.t) : M OpReport :=
  retried "draw" (draw_once which amount tick).
Definition refresh (which : option OutPoint) (tick : OracleTick.t) : M OpReport :=
  retried "refresh" (refresh_once which tick).
Definition close (which : option OutPoint) : M OpReport := retried "close" (close_once which).
Definition redeem (which : option OutPoint) (x : Obol.t) (tick : OracleTick.t) : M OpReport :=
  retried "redeem" (redeem_once which x tick).

(** ** External signing: a plan without the owner's signature, and its completion *)

Definition close_unsigned (which : option OutPoint) : M TxPlan :=
  _ ← Wallet.sync; b ← close_plan which; mret (plan b).
Definition repay_unsigned (which : option OutPoint) (amount : Obol.t) : M TxPlan :=
  _ ← Wallet.sync; b ← repay_plan which amount; mret (plan b).
Definition draw_unsigned (which : option OutPoint) (amount : Obol.t) (tick : OracleTick.t) : M TxPlan :=
  _ ← Wallet.sync; b ← draw_plan which amount tick; mret (plan b).
Definition finalize_broadcast (plan : TxPlan) : M Txid := Wallet.sign_and_broadcast plan.

End Ops.
End Ops.
