(* ===== verification/WalletSpec.v ===== *)
(** * What the session promises

    Coin selection, the outcome of the retry policy, and what reaches the node: the
    relation [grows] between two states of a session, under which every computation of the
    wallet (and of the keeper, which holds a session) is checked piecewise as a [triple]. *)

From Stdlib Require Import ZArith Lia.
From stdpp Require Import base gmap strings option list.
From S2P Require Import Prelude Hex Units CrMath Elements Oracle Simf Encode Domain Artifacts Jets.
From S2P Require Import CovVault CovReserve CovIssuer Plan BuildOwner BuildKeeper Accept CovLemmas.
From S2P Require Import CovAccept Sound SoundOwner SoundKeeper Protocol Pset Quotes Effects Node Index Sync.
From S2P Require Import Snapshot Config Wallet Ops.

(** ** Coins *)

Lemma value_le_total a b : value_le a b = true \/ value_le b a = true.
Proof. unfold value_le. rewrite !Z.leb_le. lia. Qed.
Lemma value_le_trans a b c : value_le a b = true -> value_le b c = true -> value_le a c = true.
Proof. unfold value_le. rewrite !Z.leb_le. lia. Qed.

Lemma select_at_least_some coins need c :
  select_at_least coins need = Some c ->
  c ∈ coins /\ need <= c.2 /\ forall c', c' ∈ coins -> need <= c'.2 -> c.2 <= c'.2.
Proof.
  intros Hs. apply min_by_spec in Hs as [Hc Hm]; [|apply value_le_total|apply value_le_trans].
  apply list_elem_of_filter in Hc as [Hn Hc]. split_and!; [done|done|]. intros c' Hc' Hn'.
  apply Z.leb_le, Hm, list_elem_of_filter. done.
Qed.

Lemma select_at_least_none coins need :
  select_at_least coins need = None -> forall c, c ∈ coins -> c.2 < need.
Proof.
  intros Hn%min_by_none c Hc. destruct (Z.lt_ge_cases c.2 need) as [|Hge]; [done|].
  assert (Hf : c ∈ filter (fun c => need <= c.2) coins) by (by apply list_elem_of_filter).
  rewrite Hn in Hf. by apply not_elem_of_nil in Hf.
Qed.

(** The exact total of the coins, and the [u64] sum that computes it. *)
Definition total (coins : list Coin) : Z := foldr (fun c acc => c.2 + acc) 0 coins.
Definition coins_ok (coins : list Coin) : Prop :=
  Forall (fun c => 0 <= c.2) coins /\ total coins < 18446744073709551616.

Lemma total_app l1 l2 : total (l1 ++ l2) = total l1 + total l2.
Proof. induction l1 as [|c l1 IH]; cbn in *; [done|]. unfold total in *. cbn. lia. Qed.

Lemma total_nonneg l : Forall (fun c : Coin => 0 <= c.2) l -> 0 <= total l.
Proof. induction 1; cbn in *; [done|]. unfold total in *. lia. Qed.

Lemma total_perm l1 l2 : l1 ≡ₚ l2 -> total l1 = total l2.
Proof. induction 1; cbn in *; unfold total in *; cbn in *; lia. Qed.

Lemma total_part l1 l2 l : l1 ++ l2 ≡ₚ l -> coins_ok l -> coins_ok l1 /\ total l = total l1 + total l2.
Proof.
  intros Hp [HF Ht]. rewrite <- Hp in HF. apply Forall_app in HF as [H1 H2].
  pose proof (total_perm _ _ Hp) as E. rewrite total_app in E. pose proof (total_nonneg _ H2).
  split; [|done]. split; [done|lia].
Qed.

Lemma sum_coins_total coins : coins_ok coins -> sum_coins coins = total coins.
Proof.
  assert (G : forall l acc, 0 <= acc -> Forall (fun c : Coin => 0 <= c.2) l ->
    acc + total l < 18446744073709551616 ->
    foldl (fun acc c => u64_wadd acc c.2) acc l = acc + total l).
  { clear. induction l as [|c l IH]; intros acc Ha HF Ht; cbn in *; [lia|].
    apply Forall_cons in HF as [Hc HF]. pose proof (total_nonneg _ HF).
    unfold total in *. cbn in *. rewrite u64_wadd_id by lia. rewrite IH by (done || lia). lia. }
  intros [HF Ht]. unfold sum_coins. rewrite G by (done || lia). lia.
Qed.

Lemma accumulate_some sorted need sum taken0 taken :
  0 <= sum -> Forall (fun c => 0 <= c.2) sorted -> need <= U64_MAX ->
  accumulate sorted need sum taken0 = Some taken ->
  exists front c rest, sorted = front ++ c :: rest /\ taken = taken0 ++ front ++ [c] /\
    need <= sum + total (front ++ [c]) /\ (sum + total front < need \/ front = []).
Proof.
  revert sum taken0. induction sorted as [|c sorted IH]; intros sum taken0 Hs HF Hm; [done|].
  apply Forall_cons in HF as [Hc HF]. cbn. destruct (Z.leb_spec need (u64_sat_add sum c.2)) as [Hn|Hn].
  - intros [= <-]. exists [], c, sorted. cbn. split_and!; [done|done| |by right].
    unfold total. cbn. uint.
  - intros Ha. apply IH in Ha as (front & d & rest & -> & -> & Hle & Hlt);
      [|uint|done|done].
    assert (E : u64_sat_add sum c.2 = sum + c.2) by uint. rewrite E in *.
    exists (c :: front), d, rest. rewrite <- !app_assoc. split_and!; [done|done| |left].
    + unfold total in *. cbn in *. lia.
    + destruct Hlt as [Hlt | ->]; unfold total in *; cbn in *; lia.
Qed.

(** Largest first: a front of the sorted coins that covers [need], and no shorter one does. *)
Lemma select_accumulate_some coins need taken :
  Forall (fun c => 0 <= c.2) coins -> 0 < need <= U64_MAX -> select_accumulate coins need = Some taken ->
  (exists rest, taken ++ rest ≡ₚ coins) /\ need <= total taken /\
  exists front c, taken = front ++ [c] /\ total front < need.
Proof.
  intros HF Hn Ha. unfold select_accumulate in Ha.
  apply accumulate_some in Ha as (front & c & rest & Hs & -> & Hle & Hlt); [|done| |lia].
  - rewrite app_nil_l, Z.add_0_l in *. split_and!; [|done|].
    + exists rest. rewrite <- app_assoc. cbn [app]. rewrite <- Hs. apply sort_by_perm.
    + exists front, c. split; [done|]. destruct Hlt as [? | ->]; [lia|cbn; lia].
  - by rewrite sort_by_perm.
Qed.

Lemma accumulate_none sorted need sum taken :
  Forall (fun c => 0 <= c.2) sorted -> 0 <= sum < need -> need <= U64_MAX ->
  accumulate sorted need sum taken = None -> sum + total sorted < need.
Proof.
  revert sum taken. induction sorted as [|c sorted IH]; intros sum taken HF Hs Hm; cbn; [lia|].
  apply Forall_cons in HF as [Hc HF]. destruct (Z.leb_spec need (u64_sat_add sum c.2)) as [|Hn]; [done|].
  intros Ha. apply IH in Ha; [|done|uint|done].
  unfold total in *. cbn. uint.
Qed.

(** ** Payments *)

Lemma split_change_spec excess :
  0 <= excess < 18446744073709551616 - 10000 ->
  exists change fee, split_change excess =
    ((if decide (500 <= excess) then Some excess else None), Sats.new fee) /\
    change = (if decide (500 <= excess) then excess else 0) /\
    change + fee = 10000 + excess /\ 10000 <= fee < 10500.
Proof.
  intros He. unfold split_change, DUST_FLOOR, FEE. cbn [Sats.raw].
  destruct (Z.leb_spec 500 excess).
  - exists excess, 10000. rewrite !decide_True by done. split_and!; [done|done|lia|lia|lia].
  - exists 0, (10000 + excess). rewrite !decide_False by lia. rewrite u64_wadd_id by lia.
    split_and!; [done|done|lia|lia|lia].
Qed.

(** Where a session stands: its deploy, and the script its own coins are at. *)
Record Seat : Type := mkSeat { seat_ctx : Ctx; seat_spk : Script }.

(** The two pot leaves have no witness values: finalization satisfies them without an env. *)
Definition pot_leaf (k : SlotKind) : bool :=
  match k with KPotInflow | KPotOutflow => true | _ => false end.

Section Authority.
Context `{HL : Lib, XP : XOnlyParse, HS : SigHash, RD : Redeemer, KS : KeySpend}.
Context (c : Seat).
Abbreviation ctx := (seat_ctx c) (only parsing).
Abbreviation ours := (seat_spk c) (only parsing).

(** Where a plan may come from: one of the three payments of the wallet out of its own coins,
    or a checked builder on coins of the wallet, possibly owner-signed since. *)
Inductive authorized : TxPlan -> Prop :=
| auth_payment dest amount excess taken :
    taken <> [] -> authorized (payment (ctx_params ctx) ours dest amount excess taken)
| auth_merge obols fee_coin : authorized (merge (ctx_params ctx) ours obols fee_coin)
| auth_obol_payment dest amount payer fee_coin :
    authorized (obol_payment (ctx_params ctx) ours dest amount payer fee_coin)
| auth_signed pl sig : authorized pl -> authorized (install_owner_sig pl sig)
| auth_open pr i b : open ctx pr i = Ok b -> fc_spk (op_funding i) = ours -> authorized (plan b)
| auth_draw pr v i b : draw ctx pr v i = Ok b -> authorized (plan b)
| auth_repay q v i b : repay ctx q v i = Ok b ->
    ob_spk (rp_payer i) = ours -> fc_spk (rp_fee_coin i) = ours -> authorized (plan b)
| auth_close q v i b : close ctx q v i = Ok b -> ob_spk (cl_payer i) = ours -> authorized (plan b)
| auth_refresh v i b : refresh ctx v i = Ok b -> fc_spk (rf_fee_coin i) = ours -> authorized (plan b)
| auth_poke s i b : poke ctx s i = Ok b -> fc_spk (pk_funding i) = ours -> authorized (plan b)
| auth_redeem pr v i b : redeem ctx pr v i = Ok b -> ob_spk (rd_redeemer i) = ours -> authorized (plan b)
| auth_liquidate pr v i b : liquidate ctx pr v i = Ok b -> ob_spk (lq_keeper i) = ours -> authorized (plan b)
| auth_full_liq pr v i b : full_liq ctx pr v i = Ok b -> ob_spk (fl_keeper i) = ours -> authorized (plan b)
| auth_bad_debt pr v i b : bad_debt ctx pr v i = Ok b ->
    ob_spk (bd_keeper i) = ours -> fc_spk (bd_fee_coin i) = ours -> authorized (plan b).

(** The covenant of a slot ran to acceptance on this body, whatever of the other witnesses
    was in place already. *)
Definition ran_on (pl : TxPlan) (tx : Transaction) (sl : WitnessSlot) : Prop :=
  exists tx1, body tx1 = body tx /\ slot_accepts ctx tx1 (p_utxos pl) sl = true.

(** The witness of input [i] is the one finalization computed for a covenant slot there. *)
Definition slot_witnessed (pl : TxPlan) (tx : Transaction) (i : nat) (t : TxIn) : Prop :=
  exists sl tx1, sl ∈ p_slots pl /\ Z.to_nat (ws_input sl) = i /\ body tx1 = body tx /\
    slot_witness ctx tx1 (p_utxos pl) sl = Ok (script_witness t).

(** The witness of input [i] is a signature that verifies under the wallet's own output key,
    over the digest of all of the planned transaction, and the coin is the wallet's. *)
Definition wallet_signed (pl : TxPlan) (i : nat) (t : TxIn) : Prop :=
  exists u sig, p_utxos pl !! i = Some u /\ utxo_spk u = ours /\
    funding_signed ctx pl i (mkSchnorrSig sig ShAll) /\ script_witness t = [sig ++ [byte_of_Z 1]].

(** A transaction fit to be handed to the node: the body of an authorized plan whose vault,
    issuer and reserve covenants all ran to acceptance on that body, and whose every input carries its witness: of its covenant slot, or of the wallet's key. *)
Definition sound_tx (tx : Transaction) : Prop :=
  exists pl, authorized pl /\ body tx = body (p_tx pl) /\
    (forall sl, sl ∈ p_slots pl -> pot_leaf (ws_kind sl) = false -> ran_on pl tx sl) /\
    forall i t, input tx !! i = Some t -> slot_witnessed pl tx i t \/ wallet_signed pl i t.

(** *** Every input of an authorized plan is a slot or a coin of the wallet *)

Definition covered (pl : TxPlan) : Prop :=
  length (p_utxos pl) = length (input (p_tx pl)) /\
  forall i u, p_utxos pl !! i = Some u ->
    (exists sl, sl ∈ p_slots pl /\ Z.to_nat (ws_input sl) = i) \/ utxo_spk u = ours.

Lemma covered_own pl :
  length (p_utxos pl) = length (input (p_tx pl)) -> Forall (fun u => utxo_spk u = ours) (p_utxos pl) ->
  covered pl.
Proof. intros Hl Hf. split; [done|]. intros i u Hi. right. by eapply Forall_lookup_1 in Hf. Qed.

Lemma covered_signed pl sig : covered pl -> covered (install_owner_sig pl sig).
Proof.
  intros [Hl Hc]. split; [done|]. intros i u Hi. destruct (Hc i u Hi) as [(sl & Hs & Hi')|]; [left|by right].
  exists (install_slot sig sl). split; [by apply list_elem_of_fmap_2|].
  unfold install_slot. by destruct (ws_kind sl).
Qed.

(** A builder's plan, input by input. *)
Ltac some_slot := (apply list_elem_of_here) + (apply list_elem_of_further; some_slot).
Ltac inputs_covered :=
  split; [done|]; intros j u Hj; cbn in Hj;
  repeat (destruct j as [|j]; cbn in Hj;
    [injection Hj as <-; first [by right | left; once (eexists; split; [some_slot|reflexivity])]|]);
  done.

Lemma authorized_covered pl : authorized pl -> covered pl.
Proof.
  induction 1.
  1-3: unfold payment, merge, obol_payment; destruct (split_change _); apply covered_own; cbn;
    rewrite ?length_app, ?length_fmap; [done|].
  - apply Forall_fmap, Forall_forall. done.
  - apply Forall_app. split; [by apply Forall_fmap, Forall_forall|by apply Forall_singleton].
  - by repeat constructor.
  - by apply covered_signed.
  - guards. inputs_covered.
  - guards. inputs_covered.
  - guards. inputs_covered.
  - guards. inputs_covered.
  - guards. inputs_covered.
  - guards. inputs_covered.
  - guards. inputs_covered.
  - guards. inputs_covered.
  - guards. inputs_covered.
  - guards. inputs_covered.
Qed.

(** *** What finalization leaves in the inputs *)

Lemma finalize_slots_inputs utxos tx slots tx' :
  finalize_slots ctx utxos tx slots = Ok tx' ->
  body tx' = body tx /\
  (forall sl, sl ∈ slots -> exists tx1 w, body tx1 = body tx /\ slot_witness ctx tx1 utxos sl = Ok w) /\
  forall i t, input tx' !! i = Some t ->
    (input tx !! i = Some t /\ forall sl, sl ∈ slots -> Z.to_nat (ws_input sl) <> i) \/
    exists sl tx1, sl ∈ slots /\ Z.to_nat (ws_input sl) = i /\ body tx1 = body tx /\
      slot_witness ctx tx1 utxos sl = Ok (script_witness t).
Proof.
  revert tx. induction slots as [|slot slots IH]; intros tx Hf; cbn in Hf.
  { injection Hf as ->. split; [done|]. split; [by intros sl ?%not_elem_of_nil|]. intros i t Ht. left. split; [done|]. by intros sl ?%not_elem_of_nil. }
  apply bind_ok in Hf as (w & Hw & Hf). apply bind_ok in Hf as (tx1 & Hs & Hf).
  apply set_witness_spec in Hs as (Hb & (t0 & Ht0 & Hw0) & Hrest). apply IH in Hf as (Hb' & Ha & Hi).
  split; [congruence|]. split.
  - intros sl [-> | Hsl]%elem_of_cons; [by exists tx, w|]. destruct (Ha sl Hsl) as (tx2 & w2 & ? & ?).
    exists tx2, w2. split; [congruence|done].
  - intros i t Ht. destruct (Hi i t Ht) as [[Ht1 Hno]|(sl & tx2 & Hsl & Hix & Hb2 & Hw2)].
    + destruct (decide (i = Z.to_nat (ws_input slot))) as [-> | Hne].
      * right. exists slot, tx. rewrite Ht1 in Ht0. injection Ht0 as ->. rewrite Hw0.
        split_and!; [by apply elem_of_cons; left|done..].
      * left. split; [by rewrite <- Hrest|]. intros sl [-> | Hsl]%elem_of_cons; [done|by apply Hno].
    + right. exists sl, tx2. split_and!; [by apply elem_of_cons; right|done|congruence|done].
Qed.

(** A slot with a witness to compute ran to acceptance when it was computed. *)
Lemma slot_witness_accepts tx utxos sl w :
  pot_leaf (ws_kind sl) = false -> slot_witness ctx tx utxos sl = Ok w ->
  slot_accepts ctx tx utxos sl = true.
Proof.
  unfold slot_witness, slot_accepts. destruct (slot_program _ _) as [[prog cb] wv].
  intros Hk (cb' & ->%ok_or_ok & Hw)%bind_ok. apply bool_decide_eq_true.
  assert (Hp : exists cov, pruned_witness ctx prog cb' tx utxos (ws_input sl) wv cov = Ok w)
    by (destruct (ws_kind sl); try done; by eexists).
  destruct Hp as [cov Hp]. unfold pruned_witness in Hp.
  by destruct (run_program prog _ wv) as [[]|].
Qed.

(** A PSET input with a signature. *)
Definition has_sig (ps : Pset) (i : nat) : Prop :=
  exists inp sig, ps_inputs ps !! i = Some inp /\ tap_key_sig inp = Some sig.

Lemma alter_input_sigs k f ps ps' :
  alter_input k f ps = Ok ps' ->
  (forall i, i <> k -> has_sig ps' i <-> has_sig ps i) /\
  exists inp, ps_inputs ps !! k = Some inp /\ ps_inputs ps' !! k = Some (f inp).
Proof.
  unfold alter_input. destruct (ps_inputs ps !! k) as [inp|] eqn:Hk; [|done]. intros [= <-]. split.
  - intros i Hne. unfold has_sig. cbn. by rewrite list_lookup_insert_ne.
  - exists inp. split; [done|]. apply list_lookup_insert_eq. by eapply lookup_lt_Some.
Qed.

(** A PSET filled from a plan has no signatures. *)
Lemma alter_keeps_unsigned k f ps ps' :
  (forall inp, tap_key_sig (f inp) = tap_key_sig inp) -> alter_input k f ps = Ok ps' ->
  (forall i, ~ has_sig ps i) -> forall i, ~ has_sig ps' i.
Proof.
  intros Hf (Hne & inp & Hk & Hk')%alter_input_sigs Hno i Hs.
  destruct (decide (i = k)) as [-> | Hi]; [|by apply (Hno i), Hne].
  destruct Hs as (inp' & sig & Hi & Hsig). rewrite Hk' in Hi. injection Hi as <-. rewrite Hf in Hsig.
  apply (Hno k). by exists inp, sig.
Qed.

Lemma to_pset_unsigned pl ps : to_pset ctx pl = Ok ps -> forall i, ~ has_sig ps i.
Proof.
  intros (_ & _ & (ps1 & Hu & Hs)%bind_ok)%bind_ok.
  assert (H0 : forall i, ~ has_sig (from_tx (p_tx pl)) i).
  { intros i (inp & sig & Hi & Hk). unfold from_tx in Hi. cbn in Hi. rewrite list_lookup_fmap in Hi.
    by apply fmap_Some in Hi as (? & _ & ->). }
  assert (H1 : forall i, ~ has_sig ps1 i).
  { revert Hu H0. generalize (from_tx (p_tx pl)), 0%nat. induction (p_utxos pl) as [|u us IH]; intros p0 k Hu H0.
    - by injection Hu as <-.
    - apply bind_ok in Hu as (p1 & Ha & Hu). eapply IH; [exact Hu|]. eapply alter_keeps_unsigned; [|exact Ha|exact H0]. done. }
  clear Hu H0. revert ps1 Hs H1. induction (p_slots pl) as [|sl slots IH]; intros ps1 Hs H1; cbn in Hs.
  - by injection Hs as <-.
  - destruct (slot_program _ _) as [[prog cb] wv]. apply bind_ok in Hs as (cb' & _ & Hs).
    apply bind_ok in Hs as (p1 & Ha & Hs). eapply IH; [exact Hs|]. eapply alter_keeps_unsigned; [|exact Ha|exact H1]. done.
Qed.

(** The loop signs for the coins of the wallet, all of them and no other. *)
Lemma sign_loop_signs pl kp k utxos ps ps' :
  Wallet.sign_loop ctx pl ours kp k utxos ps = Ok ps' ->
  forall i, has_sig ps' i <->
    has_sig ps i \/ exists j u, utxos !! j = Some u /\ i = (k + j)%nat /\ utxo_spk u = ours.
Proof.
  revert k ps. induction utxos as [|u utxos IH]; intros k ps Hs i; cbn in Hs.
  { injection Hs as ->. split; [by left|]. by intros [?|(j & u & Hj & _)]. }
  apply bind_ok in Hs as (ps1 & H1 & Hs). rewrite (IH _ _ Hs i). clear IH Hs.
  assert (Hps : has_sig ps1 i <-> has_sig ps i \/ i = k /\ utxo_spk u = ours).
  { case_bool_decide as Hu.
    - unfold sign_funding in H1. apply bind_ok in H1 as (tw & _ & H1). apply bind_ok in H1 as (d & _ & H1).
      apply alter_input_sigs in H1 as (Hne & inp & Hk & Hk'). destruct (decide (i = k)) as [-> | Hi].
      + split; [by right|]. intros _. eexists _, _. by split.
      + rewrite (Hne i Hi). split; [by left|]. by intros [?|[? _]].
    - injection H1 as ->. split; [by left|]. by intros [?|[_ ?]]. }
  rewrite Hps. split.
  - intros [[?|[-> Hu]]|(j & u' & Hj & -> & Hspk)]; [by left|right; exists 0%nat, u; split_and!; [done|lia|done]|].
    right. exists (S j), u'. split_and!; [done|lia|done].
  - intros [?|([|j] & u' & Hj & -> & Hspk)]; [by left; left|left; right|right].
    + injection Hj as ->. split; [lia|done].
    + exists j, u'. split_and!; [done|lia|done].
Qed.

(** The signing pipeline makes sound transactions out of authorized plans. *)
Lemma signed_sound pl kp ps ps' tx :
  authorized pl -> to_pset ctx pl = Ok ps ->
  Wallet.sign_loop ctx pl ours kp 0 (p_utxos pl) ps = Ok ps' ->
  finalize_pset ctx pl ps' = Ok tx -> sound_tx tx.
Proof.
  intros Ha Hps Hsig Hf. pose proof (to_pset_unsigned _ _ Hps) as Hno. pose proof (sign_loop_signs _ _ _ _ _ _ Hsig) as Hsigs.
  apply bind_ok in Hf as (tx0 & Hf0%map_err_ok & Hf).
  apply finalize_slots_inputs in Hf0 as (Hb0 & Hacc & Hw0).
  apply finalize_inputs_ok in Hf as (Hb & Hs & Hu).
  destruct (authorized_covered pl Ha) as [Hlen Hcov].
  exists pl. split; [done|]. split; [congruence|]. split.
  - intros sl Hsl Hk. destruct (Hacc sl Hsl) as (tx1 & w & Hb1 & Hw).
    exists tx1. split; [congruence|]. by eapply slot_witness_accepts.
  - intros i t Ht. destruct (lookup_lt_is_Some_2 (p_utxos pl) i) as [u Hui].
    { rewrite Hlen, (body_length_input (p_tx pl) tx) by congruence. by eapply lookup_lt_Some. }
    destruct (decide (utxo_spk u = ours)) as [Ho|Ho].
    + right. destruct (proj2 (Hsigs i)) as (inp & sig & Hi & Hk); [right; by exists i, u|].
      destruct (Hs i inp sig Hi Hk) as [Hg (t' & Ht' & Hw)]. cbn in Ht'. rewrite Ht in Ht'.
      injection Ht' as <-. exists u, (ss_sig sig). destruct sig as [sg ty]. pose proof (proj1 Hg) as Hty.
      cbn in Hty. subst ty. by split_and!.
    + left. rewrite Hu in Ht.
      2: { intros j inp Hj ->. destruct (tap_key_sig inp) as [sig|] eqn:Hk; [|done].
           destruct (proj1 (Hsigs j)) as [H1|(j' & u' & Hj' & -> & Hspk)]; [by exists inp, sig|by apply Hno in H1|].
           cbn in Hui. congruence. }
      destruct (Hcov i u Hui) as [(sl0 & Hsl0 & Hix0)|]; [|done].
      destruct (Hw0 i t Ht) as [[_ Hbare]|(sl & tx1 & ? & ? & ? & ?)].
      * by destruct (Hbare sl0 Hsl0).
      * exists sl, tx1. split_and!; [done|done|congruence|done].
Qed.

(** No input of a sound transaction goes without a witness, and one that is not at a covenant
    slot is signed for: a transaction that skipped the signing pipeline is not sound. *)
Lemma sound_tx_signed tx :
  sound_tx tx -> exists pl, authorized pl /\ body tx = body (p_tx pl) /\
    forall i t, input tx !! i = Some t ->
      script_witness t <> [] /\
      ((forall sl, sl ∈ p_slots pl -> Z.to_nat (ws_input sl) <> i) -> wallet_signed pl i t).
Proof.
  intros (pl & Ha & Hb & _ & Hi). exists pl. split_and!; [done..|]. intros i t Ht.
  destruct (Hi i t Ht) as [(sl & tx1 & Hsl & Hix & _ & Hw)|Hw].
  - split; [|intros Hno; by destruct (Hno sl Hsl)]. intros Hn. rewrite Hn in Hw. unfold slot_witness in Hw.
    destruct (slot_program _ _) as [[prog cb] wv]. apply bind_ok in Hw as (cb' & _ & Hw).
    destruct (ws_kind sl); unfold leaf_witness, pruned_witness in Hw;
      repeat match type of Hw with
      | context [match run_program ?p ?e ?w with _ => _ end] => destruct (run_program p e w); [|done]
      | context [pruned_bytes ?p ?v ?e] => destruct (pruned_bytes p v e)
      | mbind _ _ = _ => apply bind_ok in Hw as ([? ?] & _ & Hw)
      end; done.
  - split; [|done]. destruct Hw as (u & sig & _ & _ & _ & ->). done.
Qed.

(** An authorized plan spends something. *)
Lemma authorized_spends pl : authorized pl -> input (p_tx pl) <> [].
Proof.
  induction 1; try (guards; done); try done.
  all: unfold payment, merge, obol_payment; destruct (split_change _); cbn.
  - by destruct taken.
  - by destruct (_ <$> obols).
  - done.
Qed.

(** The sighash does not read witnesses: a covenant that ran on the body accepts the
    transaction itself. *)
Lemma ran_on_accepts `{!SigHashSpec HS} pl tx sl : ran_on pl tx sl -> slot_accepts ctx tx (p_utxos pl) sl = true.
Proof. intros (tx1 & Hb & Hacc). by rewrite <- (slot_accepts_body ctx tx1 tx). Qed.

End Authority.



Lemma finalize_pset_body `{Lib, XOnlyParse, SigHash, Redeemer, KeySpend} ctx pl ps tx :
  finalize_pset ctx pl ps = Ok tx -> body tx = body (p_tx pl).
Proof.
  intros (tx0 & Hf0%map_err_ok & (Hb & _)%finalize_inputs_ok)%bind_ok.
  apply finalize_slots_body in Hf0. congruence.
Qed.

(** ** The session *)

Section Session.
Context `{HL : Lib, XP : XOnlyParse, HS : SigHash, RD : Redeemer, KS : KeySpend}.
Context {N D : Type} `{RP : Rpc N, DP : Display, OO : OutPointOrder, JS : Json, DK : Disk D}.
Context (c : Seat).

Abbreviation W := (Wallet.t N D) (only parsing).

(** The seat of a session, and the sessions of one seat. *)
Definition seat (w : W) : Seat := mkSeat (Wallet.ctx w) (Wallet.funding_spk w).
Definition in_deploy (w : W) : Prop := seat w = c.

(** The session goes on with the same deploy and keys, its index does not go back, and what
    it handed to the node meanwhile is sound. *)
Record grows (w w' : W) : Prop := {
  gr_ctx : Wallet.ctx w' = Wallet.ctx w;
  gr_owner : Wallet.owner w' = Wallet.owner w;
  gr_funding : Wallet.funding w' = Wallet.funding w;
  gr_height : ix_height (Wallet.state w) <= ix_height (Wallet.state w');
  gr_sent : exists new, Wallet.sent w' = new ++ Wallet.sent w /\ Forall (sound_tx (seat w)) new
}.

Lemma grows_seat w w' :
  Wallet.ctx w' = Wallet.ctx w -> Wallet.funding w' = Wallet.funding w -> seat w' = seat w.
Proof. unfold seat, Wallet.funding_spk. by intros -> ->. Qed.

#[export] Instance grows_preorder : PreOrder grows.
Proof.
  split.
  - intros w. split; [done..|]. by exists [].
  - intros w1 w2 w3 [C1 O1 F1 H1 (n1 & S1 & G1)] [C2 O2 F2 H2 (n2 & S2 & G2)].
    split; [congruence..|lia|]. exists (n2 ++ n1). rewrite S2, S1, app_assoc. split; [done|].
    apply Forall_app. split; [by rewrite <- (grows_seat w1 w2)|done].
Qed.

Lemma grows_deploy w w' : in_deploy w -> grows w w' -> in_deploy w'.
Proof. intros Hw [Hc _ Hf _ _]. unfold in_deploy in *. by rewrite (grows_seat w w'). Qed.

Abbreviation run m Φ := (triple in_deploy grows m Φ) (only parsing).

Lemma run_node {E A} (f : E -> WalletError) (m : Eff N E A) : run (Wallet.on_node f m) (fun _ => True).
Proof.
  intros w _. unfold Wallet.on_node, map_error, zoom. destruct (m _) as [r n]. split; [|done].
  split; [done..|]. by exists [].
Qed.

Lemma run_sync : run Wallet.sync (fun _ => True).
Proof.
  intros w _. unfold Wallet.sync.
  pose proof (catch_up_height (Wallet.ctx w) [Wallet.owner_pk w] (Wallet.node w, Wallet.state w)) as Hh.
  destruct (catch_up _ _ _) as [[ns|e] x]; [destruct (save _ _) as [r d]|];
    (split; [|done]); (split; [done..|exact Hh|by exists []]).
Qed.

Lemma run_broadcast tx : sound_tx c tx -> run (Wallet.broadcast tx) (fun _ => True).
Proof.
  intros Htx w Hw. split; [|done]. unfold Wallet.broadcast.
  destruct (run_node WBroadcast (send tx) (Wallet.record tx w) Hw) as [[Hc Ho Hf Hh (new & Hs & Hn)] _].
  split; [done..|]. exists (new ++ [tx]). rewrite Hs. rewrite <- app_assoc. split; [done|].
  apply Forall_app. split; [done|]. apply Forall_cons. split; [|done]. by rewrite Hw.
Qed.

Lemma deploy_ctx w : in_deploy w -> Wallet.ctx w = seat_ctx c.
Proof. by intros <-. Qed.
Lemma deploy_spk w : in_deploy w -> Wallet.funding_spk w = seat_spk c.
Proof. by intros <-. Qed.

Lemma sign_sound pl w tx :
  in_deploy w -> authorized c pl -> Wallet.sign pl w = Ok tx -> sound_tx c tx.
Proof.
  intros Hw Ha Hs. unfold Wallet.sign in Hs. rewrite (deploy_ctx w Hw), (deploy_spk w Hw) in Hs.
  apply map_err_ok in Hs. apply bind_ok in Hs as (ps & Hp & Hs). apply bind_ok in Hs as (ps' & Hl & Hs).
  by eapply signed_sound.
Qed.

Lemma run_sign_and_broadcast pl :
  authorized c pl -> run (Wallet.sign_and_broadcast pl) (fun _ => True).
Proof.
  intros Ha w Hw. unfold Wallet.sign_and_broadcast. destruct (Wallet.sign pl w) as [tx|e] eqn:Es.
  - by apply (run_broadcast tx (sign_sound pl w tx Hw Ha Es)).
  - split; [reflexivity|done].
Qed.

(** The policy is as good as its parts. *)
Lemma run_retry {T} (IT : T -> Prop) (RT : T -> T -> Prop) `{!PreOrder RT} what
    (resync : Eff T WalletError unit) (f : Eff T WalletError Txid) lost_race n k :
  (forall t t', IT t -> RT t t' -> IT t') ->
  triple IT RT resync (fun _ => True) -> triple IT RT f (fun _ => True) ->
  triple IT RT (retry_from what resync f lost_race n k) (fun _ => True).
Proof.
  intros HI Hr Hf. revert k. induction n as [|n IH]; intros k; cbn [retry_from].
  { by apply triple_throw. }
  eapply triple_bind; [done|done|by apply triple_try|]. intros [txid|e] _; [by apply triple_ret|].
  assert (Hv : triple IT RT (if vanished e && (0 <? k)%nat
      then match lost_race with Benign => mret None | LostError => throw e end
      else throw e : Eff T WalletError (option Txid)) (fun _ => True)).
  { destruct (_ && _); [destruct lost_race|]; (by apply triple_ret) || (by apply triple_throw). }
  destruct e as [| | | | | | | | |[]| | | | | | | | | | | | |]; try exact Hv.
  - eapply triple_bind; [done|done|exact Hr|]. intros _ _. apply IH.
  - by apply triple_throw.
Qed.

End Session.

Create HintDb session discriminated.
#[export] Hint Resolve auth_payment auth_merge auth_obol_payment auth_signed auth_open auth_draw auth_repay auth_close auth_refresh
  auth_poke auth_redeem auth_liquidate auth_full_liq auth_bad_debt : session.
#[export] Hint Resolve run_node run_sync run_sign_and_broadcast : session.
