(* ===== verification/OpsSpec.v ===== *)
(** * What the owner operations promise

    Everything an operation hands to the node is sound, on every path and through every
    retry; an open the builder refuses leaves no trace; a payment accounts for every sat of
    the coins it takes. *)

From Stdlib Require Import ZArith Lia.
From stdpp Require Import base gmap strings option list.
From S2P Require Import Prelude Hex Units CrMath Elements Oracle Simf Encode Domain Artifacts Jets.
From S2P Require Import CovVault CovReserve CovIssuer Plan BuildOwner BuildKeeper Accept CovLemmas.
From S2P Require Import CovAccept Sound Pset Quotes Effects Node Index Sync Snapshot Config Wallet.
From S2P Require Import Ops WalletSpec.

(** One operation of the wallet, with its arguments. *)
Inductive Operation : Type :=
| OpOpen (principal : Obol.t) (collateral : Sats.t) (tick : OracleTick.t)
| OpRepay (which : option OutPoint) (amount : Obol.t)
| OpDraw (which : option OutPoint) (amount : Obol.t) (tick : OracleTick.t)
| OpRefresh (which : option OutPoint) (tick : OracleTick.t)
| OpClose (which : option OutPoint)
| OpRedeem (which : option OutPoint) (x : Obol.t) (tick : OracleTick.t)
| OpSendObol (dest : Script) (amount : Obol.t)
| OpSendLbtc (dest : Script) (amount : Sats.t).

Section Sending.
Context `{HL : Lib, XP : XOnlyParse, HS : SigHash, RD : Redeemer, KS : KeySpend, CO : Compiler}.
Context {N D : Type} `{RP : Rpc N, DP : Display, OO : OutPointOrder, JS : Json, DK : Disk D}.

Definition operate (o : Operation) : Eff (Wallet.t N D) WalletError Txid :=
  let report (m : Eff (Wallet.t N D) WalletError OpReport) := r ← m; mret (or_txid r) in
  match o with
  | OpOpen p coll tick => report (Ops.open p coll tick)
  | OpRepay v a => report (Ops.repay v a)
  | OpDraw v a tick => report (Ops.draw v a tick)
  | OpRefresh v tick => report (Ops.refresh v tick)
  | OpClose v => report (Ops.close v)
  | OpRedeem v x tick => report (Ops.redeem v x tick)
  | OpSendObol dest a => Ops.send_obol dest a
  | OpSendLbtc dest a => Ops.send_lbtc dest a
  end.

Section Triples.
Context (c : Seat).
Abbreviation run m Φ := (triple (in_deploy (N := N) (D := D) c) grows m Φ) (only parsing).

Lemma ops_bind {E A B} (m : Eff (Wallet.t N D) E A) (f : A -> Eff (Wallet.t N D) E B) Φ Ψ :
  run m Φ -> (forall a, Φ a -> run (f a) Ψ) -> run (m ≫= f) Ψ.
Proof. apply triple_bind; [apply _|apply grows_deploy]. Qed.

Lemma run_ask {A} (f : Wallet.t N D -> result WalletError A) Φ :
  (forall w a, in_deploy c w -> f w = Ok a -> Φ a) -> run (Ops.ask f) Φ.
Proof. intros Hf w Hw. split; [reflexivity|]. intros a Ha. by apply (Hf w). Qed.

Lemma ops_get : run (gets id : Eff _ WalletError _) (in_deploy c).
Proof. by apply triple_gets; [apply _|]. Qed.

Lemma run_built {A} (r : result BuildError (Built A)) :
  run (Ops.built r) (fun b => r = Ok b).
Proof. apply triple_lift; [apply _|]. intros b Hb. by apply map_err_ok in Hb. Qed.

Lemma run_sign_owner pl :
  authorized c pl -> run (Ops.sign_owner pl) (authorized c).
Proof.
  intros Ha. apply run_ask. intros w pl' Hw Hs. apply map_err_ok in Hs.
  apply bind_ok in Hs as (d & _ & [= <-]). by apply auth_signed.
Qed.

Lemma run_lift_any {E A} (r : result E A) : run (lift r) (fun _ => True).
Proof. by apply triple_lift; [apply _|]. Qed.
Lemma run_ask_any {A} (f : Wallet.t N D -> result WalletError A) : run (Ops.ask f) (fun _ => True).
Proof. by apply run_ask. Qed.
Lemma run_ret_any {E A} (a : A) : run (mret a : Eff _ E _) (fun _ => True).
Proof. by apply triple_ret; [apply _|]. Qed.
Lemma run_throw_any {E A} (e : E) (Φ : A -> Prop) : run (throw e) Φ.
Proof. apply triple_throw. apply _. Qed.
Lemma run_gets_any {E A} (f : Wallet.t N D -> A) : run (gets f : Eff _ E _) (fun _ => True).
Proof. by apply triple_gets; [apply _|]. Qed.

Hint Resolve run_lift_any run_ask_any run_ret_any run_throw_any run_gets_any ops_get run_built
  run_sign_owner : session.

(** A step with nothing to remember, and a computation that is nothing but such steps. *)
Lemma run_then {E A B} (m : Eff (Wallet.t N D) E A) (f : A -> Eff (Wallet.t N D) E B) Ψ :
  run m (fun _ => True) -> (forall a, run (f a) Ψ) -> run (m ≫= f) Ψ.
Proof. intros Hm Hf. eapply ops_bind; [exact Hm|]. intros a _. apply Hf. Qed.

Lemma run_coins (m : Eff (Wallet.t N D) WalletError (list Coin)) :
  m = Wallet.lbtc_coins \/ m = Wallet.obol_coins -> run m (fun _ => True).
Proof. intros [-> | ->] w Hw; by apply (run_node c). Qed.

Lemma run_lbtc : run Wallet.lbtc_coins (fun _ => True).
Proof. apply run_coins. by left. Qed.
Lemma run_obol : run Wallet.obol_coins (fun _ => True).
Proof. apply run_coins. by right. Qed.
Hint Resolve run_lbtc run_obol : session.

Ltac runs := repeat first
  [ solve [eauto 3 with session]
  | eapply ops_bind; [apply ops_get|intros ? ?]
  | lazymatch goal with
    | |- triple _ _ (Ops.built _ ≫= _) _ => fail
    | |- _ => apply run_then; [solve [eauto 3 with session]|intros ?]
    end ].

(** A selection takes at least one coin. *)
Lemma accumulate_takes sorted need sum taken0 taken :
  accumulate sorted need sum taken0 = Some taken -> taken <> [].
Proof.
  revert sum taken0. induction sorted as [|x sorted IH]; intros sum taken0; cbn; [done|].
  destruct (_ <=? _); [|apply IH]. intros [= <-]. by destruct taken0.
Qed.

Lemma run_taken (e : WalletError) coins need :
  run (lift (ok_or e (select_accumulate coins need))) (fun taken => taken <> []).
Proof. apply triple_lift; [apply _|]. intros taken Ht%ok_or_ok. by eapply accumulate_takes. Qed.

(** The session's own script and parameters. *)
Lemma run_ours : run (gets Wallet.funding_spk : Eff _ WalletError _) (eq (seat_spk c)).
Proof. apply triple_gets; [apply _|]. intros w Hw. by rewrite (deploy_spk c w Hw). Qed.
Lemma run_params : run (gets (ctx_params ∘ Wallet.ctx) : Eff _ WalletError _) (eq (ctx_params (seat_ctx c))).
Proof. apply triple_gets; [apply _|]. intros w Hw. cbn. by rewrite (deploy_ctx c w Hw). Qed.

Lemma run_shape need : run (Wallet.shape_exact need) (fun _ => True).
Proof.
  unfold Wallet.shape_exact. apply run_then; [auto with session|]. intros coins.
  eapply ops_bind; [apply run_taken|]. intros taken Ht.
  eapply ops_bind; [apply run_ours|]. intros ? <-. eapply ops_bind; [apply run_params|]. intros ? <-.
  apply run_then; [by apply run_sign_and_broadcast, auth_payment|]. intros txid. apply run_ret_any.
Qed.
Lemma run_consolidate : run Wallet.consolidate_obol (fun _ => True).
Proof.
  unfold Wallet.consolidate_obol. apply run_then; [auto with session|]. intros obols.
  apply run_then; [auto with session|]. intros coins. apply run_then; [auto with session|]. intros fee_coin.
  eapply ops_bind; [apply run_ours|]. intros ? <-. eapply ops_bind; [apply run_params|]. intros ? <-.
  apply run_then; [apply run_sign_and_broadcast, auth_merge|]. intros txid. apply run_ret_any.
Qed.
Hint Resolve run_shape run_consolidate : session.

Lemma run_pick need : run (Ops.pick_lbtc need) (fun _ => True).
Proof. unfold Ops.pick_lbtc. runs. Qed.
Lemma run_ensure need : run (Ops.ensure_obol need) (fun _ => True).
Proof.
  unfold Ops.ensure_obol. apply run_then; [auto with session|]. intros coins.
  destruct (select_at_least coins need); [runs|]. destruct (_ <? _); runs.
Qed.
Lemma run_fee_coin payer : run (Ops.repay_fee_coin payer) (fun _ => True).
Proof. unfold Ops.repay_fee_coin. runs. Qed.
Hint Resolve run_pick run_ensure run_fee_coin : session.

(** A builder applied to the session's deploy. *)
Lemma run_build {A} (build : Ctx -> result BuildError (Built A)) (w : Wallet.t N D) :
  in_deploy c w -> (forall b, build (seat_ctx c) = Ok b -> authorized c (plan b)) ->
  run (Ops.built (build (Wallet.ctx w))) (fun b => authorized c (plan b)).
Proof.
  intros Hw Ha. eapply triple_conseq; [apply run_built|]. intros b Hb.
  rewrite (deploy_ctx c w Hw) in Hb. by apply Ha.
Qed.

Lemma run_repay_plan v a : run (Ops.repay_plan v a) (fun b => authorized c (plan b)).
Proof.
  unfold Ops.repay_plan. runs. apply (run_build (fun cx => repay cx _ _ _)); [done|].
  intros b Hb. eapply auth_repay; [exact Hb|by apply deploy_spk..].
Qed.
Lemma run_draw_plan v a tick : run (Ops.draw_plan v a tick) (fun b => authorized c (plan b)).
Proof.
  unfold Ops.draw_plan. runs. apply (run_build (fun cx => draw cx _ _ _)); [done|].
  intros b. apply auth_draw.
Qed.
Lemma run_close_plan v : run (Ops.close_plan v) (fun b => authorized c (plan b)).
Proof.
  unfold Ops.close_plan. runs. apply (run_build (fun cx => close cx _ _ _)); [done|].
  intros b Hb. eapply auth_close; [exact Hb|by apply deploy_spk..].
Qed.

Lemma run_owner_op {A} (m : Eff (Wallet.t N D) WalletError (Built A)) (f : Built A -> Txid -> OpReport) :
  run m (fun b => authorized c (plan b)) ->
  run (b ← m; pl ← Ops.sign_owner (plan b); txid ← Wallet.sign_and_broadcast pl; mret (f b txid))
    (fun _ => True).
Proof.
  intros Hm. eapply ops_bind; [exact Hm|]. intros b Hb.
  eapply ops_bind; [by apply run_sign_owner|]. intros pl Hpl. runs.
Qed.

Lemma run_repay_once v a : run (Ops.repay_once v a) (fun _ => True).
Proof. apply (run_owner_op _ (fun b txid => mkReport txid _)), run_repay_plan. Qed.
Lemma run_draw_once v a tick : run (Ops.draw_once v a tick) (fun _ => True).
Proof. apply (run_owner_op _ (fun b txid => mkReport txid _)), run_draw_plan. Qed.
Lemma run_close_once v : run (Ops.close_once v) (fun _ => True).
Proof. apply (run_owner_op _ (fun b txid => mkReport txid _)), run_close_plan. Qed.

Lemma run_refresh_once v tick : run (Ops.refresh_once v tick) (fun _ => True).
Proof.
  unfold Ops.refresh_once. runs.
  eapply ops_bind; [apply (run_build (fun cx => refresh cx _ _)); [done|]|].
  - intros b Hb. eapply auth_refresh; [exact Hb|by apply deploy_spk..].
  - intros b Hb. runs.
Qed.
Lemma run_redeem_once v x tick : run (Ops.redeem_once v x tick) (fun _ => True).
Proof.
  unfold Ops.redeem_once. runs.
  eapply ops_bind; [apply (run_build (fun cx => redeem cx _ _ _)); [done|]|].
  - intros b Hb. eapply auth_redeem; [exact Hb|by apply deploy_spk..].
  - intros b Hb. runs.
Qed.
Lemma run_send_obol dest a : run (Ops.send_obol dest a) (fun _ => True).
Proof.
  unfold Ops.send_obol. apply run_then; [auto with session|]. intros payer.
  apply run_then; [auto with session|]. intros fee_coin. eapply ops_bind; [apply ops_get|]. intros w Hw.
  rewrite (deploy_ctx c w Hw), (deploy_spk c w Hw). apply run_sign_and_broadcast, auth_obol_payment.
Qed.
Lemma run_send_lbtc dest a : run (Ops.send_lbtc dest a) (fun _ => True).
Proof.
  unfold Ops.send_lbtc. apply run_then; [auto with session|]. intros coins.
  eapply ops_bind; [apply run_taken|]. intros taken Ht. eapply ops_bind; [apply ops_get|]. intros w Hw.
  rewrite (deploy_ctx c w Hw), (deploy_spk c w Hw). by apply run_sign_and_broadcast, auth_payment.
Qed.

(** *** Retried operations: the session beside what their closures captured *)

Section Captured.
Context {C : Type}.
Abbreviation In := (fun x : Wallet.t N D * C => in_deploy c x.1) (only parsing).
Abbreviation Gr := (fun x y : Wallet.t N D * C => grows x.1 y.1) (only parsing).

#[export] Instance captured_preorder : PreOrder Gr.
Proof. split; [intros x; reflexivity|intros x y z ??; by etrans]. Qed.

Lemma captured_deploy x y : In x -> Gr x y -> In y.
Proof. apply grows_deploy. Qed.

Lemma captured_bind {E A B} (m : Eff (Wallet.t N D * C) E A) (f : A -> Eff (Wallet.t N D * C) E B) Φ Ψ :
  triple In Gr m Φ -> (forall a, Φ a -> triple In Gr (f a) Ψ) -> triple In Gr (m ≫= f) Ψ.
Proof. apply triple_bind; [apply _|apply captured_deploy]. Qed.

Lemma captured_then {E A B} (m : Eff (Wallet.t N D * C) E A) (f : A -> Eff (Wallet.t N D * C) E B) Ψ :
  triple In Gr m (fun _ => True) -> (forall a, triple In Gr (f a) Ψ) -> triple In Gr (m ≫= f) Ψ.
Proof. intros Hm Hf. eapply captured_bind; [exact Hm|]. intros a _. apply Hf. Qed.

Lemma captured_ret {E A} (a : A) : triple In Gr (mret a : Eff _ E _) (fun _ => True).
Proof. by apply triple_ret; [apply _|]. Qed.
Lemma captured_lift {E A} (r : result E A) : triple In Gr (lift r) (fun _ => True).
Proof. by apply triple_lift; [apply _|]. Qed.
Lemma captured_gets {E A} (f : Wallet.t N D * C -> A) :
  triple In Gr (gets f : Eff _ E _) (fun _ => True).
Proof. by apply triple_gets; [apply _|]. Qed.
Lemma captured_get {E} : triple In Gr (gets fst : Eff _ E _) (in_deploy c).
Proof. by apply triple_gets; [apply _|]. Qed.
Lemma captured_update {E} (f : Wallet.t N D * C -> Wallet.t N D * C) :
  (forall x, (f x).1 = x.1) -> triple In Gr (update f : Eff _ E _) (fun _ => True).
Proof. intros Hf. apply triple_update; [|done]. intros x _. by rewrite Hf. Qed.

Lemma run_session {A} (m : Eff (Wallet.t N D) WalletError A) Φ :
  run m Φ -> triple In Gr (Ops.session m) Φ.
Proof. intros Hm. by eapply triple_zoom; [exact Hm|..]. Qed.

Lemma run_with_retry what (op : Eff (Wallet.t N D * C) WalletError OpReport) :
  triple In Gr op (fun _ => True) -> triple In Gr (Ops.with_retry what op) (fun _ => True).
Proof.
  intros Hop x Hx. unfold Ops.with_retry. set (retry := retry_conflicts _ _ _ _).
  assert (Hr : triple (fun s : (Wallet.t N D * C) * option OpReport => in_deploy c s.1.1)
    (fun s t => grows s.1.1 t.1.1) retry (fun _ => True)).
  { apply run_retry.
    - split; [intros s; reflexivity|intros s t u ??; by etrans].
    - intros s t. apply grows_deploy.
    - intros s Hs. destruct (run_sync c s.1.1 Hs) as [Hg _].
      unfold mbind, eff_bind, Ops.session, zoom. destruct (Wallet.sync s.1.1) as [[ns|e] w1]; by split.
    - intros s Hs. destruct (Hop s.1 Hs) as [Hg _]. destruct (op s.1) as [[r|e] w1]; by split. }
  destruct (Hr (x, None) Hx) as [Hg _]. destruct (retry (x, None)) as [[r|e] s]; by split.
Qed.

End Captured.

Lemma run_retried what (op : Eff (Wallet.t N D) WalletError OpReport) :
  run op (fun _ => True) -> run (Ops.retried what op) (fun _ => True).
Proof.
  intros Hop w Hw. unfold Ops.retried.
  destruct (run_with_retry what _ (run_session op _ Hop) (w, tt) Hw) as [Hg _].
  by destruct (Ops.with_retry what (Ops.session op) (w, tt)) as [r [w1 []]].
Qed.

Lemma run_validate p coll tick : run (Ops.validate_open p coll tick) (fun _ => True).
Proof.
  unfold Ops.validate_open. runs. apply run_then; [|intros ?; runs].
  eapply triple_any, run_built.
Qed.

#[local] Hint Resolve captured_ret captured_lift captured_gets run_session run_validate : session.

Lemma captured_coin (w : Wallet.t N D) x :
  in_deploy c w ->
  triple (fun x : Wallet.t N D * option OutPoint => in_deploy c x.1) (fun x y => grows x.1 y.1)
    (mret (Ops.funding_coin w x) : Eff _ WalletError _) (fun fc => fc_spk fc = seat_spk c).
Proof. intros Hw. apply triple_ret; [apply _|]. by apply deploy_spk. Qed.

Lemma run_open_funding need :
  triple (fun x : Wallet.t N D * option OutPoint => in_deploy c x.1) (fun x y => grows x.1 y.1)
    (Ops.open_funding need) (fun fc => fc_spk fc = seat_spk c).
Proof.
  unfold Ops.open_funding. apply captured_then; [auto with session|]. intros coins.
  eapply captured_bind; [apply captured_get|]. intros w Hw.
  apply captured_then; [auto with session|]. intros shaped.
  destruct (find _ coins); [by apply captured_coin|]. destruct shaped; [by apply captured_coin|].
  apply captured_then; [auto with session|]. intros [op tx].
  apply captured_then; [by apply captured_update|]. intros _. by apply captured_coin.
Qed.

Lemma run_open_once p coll tick :
  triple (fun x : Wallet.t N D * option OutPoint => in_deploy c x.1) (fun x y => grows x.1 y.1)
    (Ops.open_once p coll tick) (fun _ => True).
Proof.
  unfold Ops.open_once. apply captured_then; [auto with session|]. intros pr.
  apply captured_then; [auto with session|]. intros need.
  eapply captured_bind; [apply run_open_funding|]. intros fc Hfc.
  eapply captured_bind; [apply captured_get|]. intros w Hw.
  eapply captured_bind; [apply run_session, (run_build (fun cx => open cx _ _)); [done|]|].
  - intros b Hb. by eapply auth_open.
  - intros b Hb. apply captured_then; [auto with session|]. intros txid. auto with session.
Qed.

Lemma run_open p coll tick : run (Ops.open p coll tick) (fun _ => True).
Proof.
  intros w Hw. unfold Ops.open. set (m := mbind _ _).
  destruct (captured_then _ _ _ (run_session (C := option OutPoint) _ _ (run_validate p coll tick))
    (fun _ => run_with_retry "open" _ (run_open_once p coll tick)) (w, None) Hw) as [Hg _].
  fold m in Hg. by destruct (m (w, None)) as [r [w1 x]].
Qed.

Lemma run_operate o : run (operate o) (fun _ => True).
Proof.
  destruct o; cbn [operate];
    try (apply run_then; [|intros ?; apply run_ret_any]; apply run_retried).
  - apply run_then; [apply run_open|intros ?; apply run_ret_any].
  - apply run_repay_once.
  - apply run_draw_once.
  - apply run_refresh_once.
  - apply run_close_once.
  - apply run_redeem_once.
  - apply run_send_obol.
  - apply run_send_lbtc.
Qed.

End Triples.

(** Nothing unsound leaves the wallet: whatever an operation returns, through coin
    consolidation, shaping, conflicts and rebuilds, each transaction it handed to the node is
    [sound_tx]: of a payment of the wallet's own coins or of a checked builder, run by its
    covenants, signed at every other input; the deploy and the keys of the session are kept. *)
Theorem operations_send_sound (o : Operation) (w w' : Wallet.t N D) (r : result WalletError Txid) :
  operate o w = (r, w') ->
  Wallet.ctx w' = Wallet.ctx w /\ Wallet.owner w' = Wallet.owner w /\
  Wallet.funding w' = Wallet.funding w /\
  exists new, Wallet.sent w' = new ++ Wallet.sent w /\ Forall (sound_tx (seat w)) new.
Proof.
  intros Ho. destruct (run_operate (seat w) o w eq_refl) as [[Hc Hk Hf _ (new & Hs & Hn)] _].
  rewrite Ho in *. split_and!; [done..|]. by exists new.
Qed.

End Sending.

(** ** A payment, to the sat *)

Section Paying.
Context `{HL : Lib, XP : XOnlyParse, HS : SigHash, RD : Redeemer, KS : KeySpend}.
Context {N D : Type} `{RP : Rpc N}.

Lemma sign_body pl (w : Wallet.t N D) tx : Wallet.sign pl w = Ok tx -> body tx = body (p_tx pl).
Proof.
  intros Hs%map_err_ok. apply bind_ok in Hs as (ps & _ & Hs). apply bind_ok in Hs as (ps' & _ & Hs).
  by apply finalize_pset_body in Hs.
Qed.

Lemma body_inputs tx1 tx2 :
  body tx1 = body tx2 -> previous_output <$> input tx1 = previous_output <$> input tx2.
Proof.
  unfold body. intros [= _ _ Hi _]. apply (f_equal (fmap previous_output)) in Hi.
  by rewrite <- !list_fmap_compose in Hi.
Qed.

(** What a broadcast of a plan adds to the session. *)
Lemma broadcast_sent pl (w w' : Wallet.t N D) r :
  Wallet.sign_and_broadcast pl w = (r, w') ->
  Wallet.sent w' = Wallet.sent w \/
  exists tx, Wallet.sent w' = tx :: Wallet.sent w /\ body tx = body (p_tx pl).
Proof.
  unfold Wallet.sign_and_broadcast. destruct (Wallet.sign pl w) as [tx|e] eqn:Es.
  - unfold Wallet.broadcast, Wallet.on_node, map_error, zoom. destruct (send _ _) as [x n].
    intros [= _ <-]. right. exists tx. split; [done|]. by eapply sign_body.
  - intros [= _ <-]. by left.
Qed.

Lemma broadcast_ok pl (w w' : Wallet.t N D) txid :
  Wallet.sign_and_broadcast pl w = (Ok txid, w') ->
  exists tx, Wallet.sent w' = tx :: Wallet.sent w /\ body tx = body (p_tx pl).
Proof.
  unfold Wallet.sign_and_broadcast. destruct (Wallet.sign pl w) as [tx|e] eqn:Es; [|done].
  unfold Wallet.broadcast, Wallet.on_node, map_error, zoom. destruct (send _ _) as [x n].
  intros [= _ <-]. exists tx. split; [done|]. by eapply sign_body.
Qed.

(** The reads of the session keep everything but the node. *)
Lemma on_node_kept {E A} (f : E -> WalletError) (m : Eff N E A) (w : Wallet.t N D) r w' :
  Wallet.on_node f m w = (r, w') -> w' = Wallet.with_node w (Wallet.node w').
Proof.
  unfold Wallet.on_node, map_error, zoom. destruct (m _) as [x n]. by intros [= _ <-].
Qed.

(** C23: A payment of policy coins accounts for every sat: it spends coins of the wallet, no
    more of them than needed, pays the amount to the destination, returns the change unless
    it would be dust, and its fee is the standard one plus at most 499 sats of dust. *)
Theorem send_lbtc_pays (w w' : Wallet.t N D) (dest : Script) (amount : Sats.t) (txid : Txid)
    (coins : list Coin) :
  0 <= Sats.raw amount -> Sats.raw amount + 10000 <= U64_MAX ->
  (Wallet.lbtc_coins w).1 = Ok coins -> coins_ok coins ->
  Ops.send_lbtc dest amount w = (Ok txid, w') ->
  exists tx taken rest change fee,
    Wallet.sent w' = tx :: Wallet.sent w /\ taken ++ rest ≡ₚ coins /\
    previous_output <$> input tx = fst <$> taken /\
    output tx = txout (Sats.raw amount) dest (policy (ctx_params (Wallet.ctx w))) ::
      (if decide (change = 0) then []
       else [txout change (Wallet.funding_spk w) (policy (ctx_params (Wallet.ctx w)))]) ++
      [fee_out (Sats.new fee) (policy (ctx_params (Wallet.ctx w)))] /\
    total taken = Sats.raw amount + change + fee /\ (change = 0 \/ 500 <= change) /\
    10000 <= fee < 10500 /\
    exists front c, taken = front ++ [c] /\ total front < Sats.raw amount + 10000.
Proof.
  intros Ha Hmax Hc Hok Hs. unfold Ops.send_lbtc in Hs.
  apply eff_bind_ok in Hs as (coins' & w1 & Hl & Hs). rewrite Hl in Hc. injection Hc as ->.
  assert (Hw1 : w1 = Wallet.with_node w (Wallet.node w1)) by (unfold Wallet.lbtc_coins in Hl; by eapply on_node_kept).
  assert (En : u64_wadd (Sats.raw amount) (Sats.raw FEE) = Sats.raw amount + 10000).
  { unfold FEE. cbn [Sats.raw]. apply u64_wadd_id; [done|done|]. unfold U64_MAX in Hmax. lia. }
  cbv zeta in Hs. rewrite En in Hs. clear En.
  apply eff_bind_ok in Hs as (taken & w2 & Ht & Hs). injection Ht as Ht <-. apply ok_or_ok in Ht.
  apply eff_bind_ok in Hs as (w3 & w4 & Hg & Hs). injection Hg as <- <-. cbv beta delta [id] in Hs.
  apply select_accumulate_some in Ht as ((rest & Hp) & Hle & Hmin); [|apply Hok|lia].
  destruct (total_part _ _ _ Hp Hok) as [Hok1 _]. rewrite (sum_coins_total taken Hok1) in Hs.
  pose proof (proj2 Hok1) as Hlt. rewrite u64_wsub_id in Hs by lia.
  apply broadcast_ok in Hs as (tx & Hsent & Hb).
  destruct (split_change_spec (total taken - (Sats.raw amount + 10000)))
    as (change & fee & Hsp & Hch & Hsum & Hfee); [lia|].
  unfold payment in Hb. rewrite Hsp in Hb. exists tx, taken, rest. rewrite Hw1 in Hsent, Hb. cbn in Hsent, Hb.
  assert (Ho := body_output _ _ Hb). apply body_inputs in Hb. cbn in Ho, Hb.
  rewrite <- list_fmap_compose in Hb.
  exists change, fee. split_and!; [exact Hsent|exact Hp|exact Hb| |lia| |lia|lia|done].
  - rewrite Ho, Hch. destruct (decide (500 <= _)); [rewrite decide_False by lia|rewrite decide_True by done]; done.
  - rewrite Hch. destruct (decide (500 <= _)); lia.
Qed.

End Paying.

(** ** The outcome of the retry policy *)

Section Outcome.
Context {W : Type} (resync : Eff W WalletError unit) (f : Eff W WalletError Txid).

(** [n] attempts in a row that ended in a conflict and a successful resync. *)
Inductive conflicted : nat -> W -> W -> Prop :=
| conflicted_none w : conflicted 0 w w
| conflicted_more n w w1 w2 w3 message :
    f w = (Err (WBroadcast (Conflict message)), w1) -> resync w1 = (Ok tt, w2) ->
    conflicted n w2 w3 -> conflicted (S n) w w3.

(** What the policy makes of the attempt that ends it. *)
Definition verdict_of (what : string) (lost_race : LostRace) (n : nat)
    (outcome : result WalletError Txid) : result WalletError (option Txid) :=
  match outcome with
  | Ok txid => Ok (Some txid)
  | Err (WBroadcast (Rejected message)) => Err (WRejected what message)
  | Err e =>
      match lost_race with
      | Benign => if vanished e && (0 <? n)%nat then Ok None else Err e
      | LostError => Err e
      end
  end.

Lemma retry_outcome_from what lost_race m k w r w' :
  retry_from what resync f lost_race m k w = (r, w') ->
  exists n w1, conflicted n w w1 /\ (n <= m)%nat /\
  ((n = m /\ r = Err (ConflictExhausted what CONFLICT_ATTEMPTS) /\ w' = w1) \/
   ((n < m)%nat /\ exists outcome w2, f w1 = (outcome, w2) /\
      match outcome with
      | Err (WBroadcast (Conflict _)) => exists e, resync w2 = (Err e, w') /\ r = Err e
      | _ => w' = w2 /\ r = verdict_of what lost_race (k + n) outcome
      end)).
Proof.
  revert k w. induction m as [|m IH]; intros k w Hr; cbn [retry_from] in Hr.
  { injection Hr as <- <-. exists 0%nat, w. split_and!; [constructor|lia|by left]. }
  unfold mbind, eff_bind, try in Hr. destruct (f w) as [outcome w1] eqn:Ef.
  assert (Hend : (forall message, outcome <> Err (WBroadcast (Conflict message))) ->
    (r, w') = (verdict_of what lost_race (k + 0) outcome, w1) ->
    exists n w2, conflicted n w w2 /\ (n <= S m)%nat /\
    ((n = S m /\ r = Err (ConflictExhausted what CONFLICT_ATTEMPTS) /\ w' = w2) \/
     ((n < S m)%nat /\ exists outcome w3, f w2 = (outcome, w3) /\
        match outcome with
        | Err (WBroadcast (Conflict _)) => exists e, resync w3 = (Err e, w') /\ r = Err e
        | _ => w' = w3 /\ r = verdict_of what lost_race (k + n) outcome
        end))).
  { intros Hne [= -> ->]. exists 0%nat, w. split_and!; [constructor|lia|right]. split; [lia|].
    exists outcome, w1. split; [done|]. destruct outcome as [|[| | | | | | | | |[]| | | | | | | | | | | | |]];
      try done. by destruct (Hne message). }
  destruct outcome as [txid|e]; [by apply Hend|].
  assert (Hv : (forall message, e <> WBroadcast (Conflict message)) ->
    (forall message, e <> WBroadcast (Rejected message)) ->
    (if vanished e && (0 <? k)%nat
     then match lost_race with Benign => mret None | LostError => throw e end
     else throw e : Eff W WalletError (option Txid)) w1 = (r, w') ->
    (r, w') = (verdict_of what lost_race (k + 0) (Err e), w1)).
  { intros Hc Hj <-. rewrite Nat.add_0_r.
    destruct e as [| | | | | |b| | |[message|message|]| | | | | | | | | | | | |];
      try (by destruct (Hc message)); try (by destruct (Hj message));
      try destruct b; cbn [vanished andb verdict_of]; destruct lost_race, (0 <? k)%nat; done. }
  destruct e as [| | | | | | | | |[message|message|]| | | | | | | | | | | | |];
    try (apply Hend; [done|by apply Hv]).
  - destruct (resync w1) as [[[]|e] w2] eqn:Er; cbn in Hr.
    + destruct (IH _ _ Hr) as (n & w3 & Hc & Hn & Hcase). exists (S n), w3.
      split_and!; [by eapply conflicted_more|lia|]. destruct Hcase as [(-> & -> & ->)|(Hlt & o & w4 & Ho & Hm)].
      * by left.
      * right. split; [lia|]. exists o, w4. split; [done|]. by rewrite <- Nat.add_succ_comm.
    + injection Hr as <- <-. exists 0%nat, w. split_and!; [constructor|lia|right]. split; [lia|].
      eexists _, w1. split; [done|]. cbn. by exists e.
  - apply Hend; [done|]. by injection Hr as <- <-.
Qed.

End Outcome.

(** C24: The retry policy always ends, after at most three attempts, and every outcome is
    accounted for: a chain of conflicts, each resynced, and then a success, a rejection
    turned into the alert, a vanished target (benign for a keeper, an error for an owner, and
    only after a conflict), any other error as it is, a failed resync, or exhaustion. *)
Theorem retry_outcome {W : Type} (what : string) (resync : Eff W WalletError unit)
    (f : Eff W WalletError Txid) (lost_race : LostRace) (w w' : W) (r : result WalletError (option Txid)) :
  retry_conflicts what resync f lost_race w = (r, w') ->
  exists n w1, conflicted resync f n w w1 /\
  ((n = 3%nat /\ r = Err (ConflictExhausted what 3) /\ w' = w1) \/
   ((n < 3)%nat /\ exists outcome w2, f w1 = (outcome, w2) /\
      match outcome with
      | Err (WBroadcast (Conflict _)) => exists e, resync w2 = (Err e, w') /\ r = Err e
      | _ => w' = w2 /\ r = verdict_of what lost_race n outcome
      end)).
Proof.
  intros Hr. apply retry_outcome_from in Hr as (n & w1 & Hc & _ & Hcase). by exists n, w1.
Qed.
