(* ===== verification/OpsCases.v ===== *)
(** * Two flows of the wallet in detail

    An open is decided by a probe before anything is broadcast; a repayment that
    consolidates first spends its fee coin twice. *)

From Stdlib Require Import ZArith Lia.
From stdpp Require Import base gmap strings option list.
From S2P Require Import Prelude Hex Units CrMath Elements Oracle Simf Encode Domain Artifacts Jets.
From S2P Require Import CovVault CovReserve CovIssuer Plan BuildOwner BuildKeeper Accept CovLemmas.
From S2P Require Import CovAccept Sound SoundOwner Pset Quotes Effects Node Index Sync Snapshot.
From S2P Require Import Config Wallet.
From S2P Require Import Ops WalletSpec OpsSpec.

Section Cases.
Context `{HL : Lib, XP : XOnlyParse, HS : SigHash, RD : Redeemer, KS : KeySpend, CO : Compiler}.
Context {N D : Type} `{RP : Rpc N, DP : Display, OO : OutPointOrder, JS : Json, DK : Disk D}.

Abbreviation W := (Wallet.t N D) (only parsing).

(** ** The probe of an open *)

(** The builder looks at the funding coin's value only. *)
Lemma open_funding_value c pr (i j : OpenIntent) b :
  op_owner i = op_owner j -> op_principal i = op_principal j -> op_collateral i = op_collateral j ->
  op_tick i = op_tick j -> op_fee i = op_fee j -> fc_value (op_funding i) = fc_value (op_funding j) ->
  open c pr i = Ok b -> exists b', open c pr j = Ok b'.
Proof.
  unfold open. intros _ -> -> -> -> ->. destruct (check_tick _ _); cbn [mbind result_bind]; [|done].
  case_bool_decide; [done|]. destruct (OracleTick.price_range _) as [lo hi].
  destruct (lift_math (Obol.covenant_cents _)); cbn [mbind result_bind]; [|done].
  destruct (_ <? _); [done|]. destruct (_ <? _); [done|].
  destruct (lift_math (Sats.checked_add _ _)); cbn [mbind result_bind]; [|done].
  destruct (lift_math (Sats.checked_add _ _)); cbn [mbind result_bind]; [|done].
  destruct (negb _); [done|]. intros _. by eexists.
Qed.

(** The session as far as an open's decision depends on it. *)
Definition same_view (w w' : W) : Prop :=
  Wallet.ctx w' = Wallet.ctx w /\ Wallet.owner w' = Wallet.owner w /\
  Wallet.funding w' = Wallet.funding w /\ Wallet.state w' = Wallet.state w.

#[export] Instance same_view_preorder : PreOrder same_view.
Proof.
  split; [done|]. intros w1 w2 w3 (?&?&?&?) (?&?&?&?). split_and!; congruence.
Qed.

Lemma same_view_node {E A} (f : E -> WalletError) (m : Eff N E A) w r w' :
  Wallet.on_node f m w = (r, w') -> same_view w w'.
Proof. intros ->%on_node_kept. done. Qed.

Lemma same_view_broadcast pl w r w' : Wallet.sign_and_broadcast pl w = (r, w') -> same_view w w'.
Proof.
  unfold Wallet.sign_and_broadcast. destruct (Wallet.sign pl w); [|by intros [= _ <-]].
  unfold Wallet.broadcast. intros H. by apply same_view_node in H.
Qed.

Lemma same_view_shape need w r w' : Wallet.shape_exact need w = (r, w') -> same_view w w'.
Proof.
  unfold Wallet.shape_exact. unfold mbind at 1, eff_bind.
  destruct (Wallet.lbtc_coins w) as [[coins|e] w1] eqn:E1; apply same_view_node in E1; [|by intros [= _ <-]].
  unfold mbind at 1, eff_bind, lift. destruct (ok_or _ _) as [taken|]; [|by intros [= _ <-]].
  unfold mbind, eff_bind, gets. destruct (Wallet.sign_and_broadcast _ w1) as [[txid|e] w2] eqn:E2;
    apply same_view_broadcast in E2; intros [= _ <-]; by etrans.
Qed.

(** The coin an attempt funds the open with has exactly the needed value. *)
Lemma open_funding_exact need w shaped r x :
  Ops.open_funding need (w, shaped) = (r, x) ->
  same_view w x.1 /\
  match r with
  | Ok fc => fc_value fc = need
  | Err e => forall b, e <> WBuild b
  end.
Proof.
  unfold Ops.open_funding, mbind, eff_bind, Ops.session, zoom, gets. cbn [fst snd].
  destruct (Wallet.lbtc_coins w) as [[coins|e] w1] eqn:E1; pose proof (same_view_node _ _ _ _ _ E1) as V1.
  2: { intros [= <- <-]. split; [done|]. intros b ->. unfold Wallet.lbtc_coins, Wallet.on_node, map_error, zoom in E1.
    by destruct (scan_spk _ _ _) as [[|] ?]. }
  cbn [fst snd]. destruct (find _ coins) as [c|] eqn:Ec.
  { intros [= <- <-]. split; [done|]. apply List.find_some in Ec as [_ Hv%Z.eqb_eq]. cbn.
    rewrite Hv. by destruct need. }
  destruct shaped as [op|]; [intros [= <- <-]; split; [done|]; by destruct need|].
  cbn [fst snd]. destruct (Wallet.shape_exact need w1) as [[[exact tx]|e] w2] eqn:E2.
  - apply same_view_shape in E2. cbn. intros [= <- <-]. split; [|by destruct need]. by etrans.
  - pose proof (same_view_shape _ _ _ _ E2) as V2. intros [= <- <-]. cbn. split.
    + by etrans.
    + intros b ->. unfold Wallet.shape_exact in E2.
      apply eff_bind_err in E2 as [E2|(? & ? & _ & E2)].
      { unfold Wallet.lbtc_coins, Wallet.on_node, map_error, zoom in E2. by destruct (scan_spk _ _ _) as [[|] ?]. }
      apply eff_bind_err in E2 as [E2|(? & ? & _ & E2)].
      { unfold lift in E2. by destruct (select_accumulate _ _). }
      apply eff_bind_err in E2 as [E2|(? & ? & _ & E2)]; [done|].
      apply eff_bind_err in E2 as [E2|(? & ? & _ & E2)]; [done|].
      apply eff_bind_err in E2 as [E2|(? & ? & _ & E2)]; [|done].
      unfold Wallet.sign_and_broadcast in E2. destruct (Wallet.sign _ _) as [tx|e] eqn:Es.
      * unfold Wallet.broadcast, Wallet.on_node, map_error, zoom in E2. by destruct (send _ _) as [[|] ?].
      * injection E2 as -> _. unfold Wallet.sign in Es. by destruct (_ ≫= _) in Es.
Qed.

(** An open is decided by its probe: when the builder refuses the intent, the operation
    returns that error with nothing handed to the node and the session as it was; when the
    probe passes, no attempt against the same state is refused by the builder any more,
    whichever coin funds it, so no shaping transaction is broadcast for a refused open. *)
Theorem open_probe_decides (principal : Obol.t) (collateral : Sats.t) (tick : OracleTick.t) (w : W) :
  match Ops.validate_open principal collateral tick w with
  | (Err e, _) => Ops.open principal collateral tick w = (Err e, w)
  | (Ok _, _) => forall shaped r x e,
      Ops.open_once principal collateral tick (w, shaped) = (r, x) -> r <> Err (WBuild e)
  end.
Proof.
  assert (Hsame : (Ops.validate_open principal collateral tick w).2 = w).
  { unfold Ops.validate_open, mbind, eff_bind, Ops.ask, lift, gets, Ops.built. cbn.
    destruct (Wallet.protocol w); [|done]. destruct (Ops.open_need _ _ _); [|done]. cbn.
    by destruct (open _ _ _). }
  destruct (Ops.validate_open principal collateral tick w) as [[[]|e] w1] eqn:Ev; cbn in Hsame; subst w1.
  2: { unfold Ops.open, mbind, eff_bind, Ops.session, zoom. cbn [fst snd]. by rewrite Ev. }
  unfold Ops.validate_open, mbind, eff_bind, Ops.ask, lift, gets, Ops.built in Ev. cbn in Ev.
  intros shaped r x e Ho. unfold Ops.open_once in Ho.
  unfold mbind, eff_bind, Ops.session, zoom, Ops.ask, lift in Ho. cbn [fst snd] in Ho.
  destruct (Wallet.protocol w) as [pr|]; [|done]. cbn [fst snd] in *.
  destruct (Ops.open_need _ _ _) as [need|]; [|done].
  destruct (open (Wallet.ctx w) pr _) as [b|] eqn:Eb in Ev; [|done]. clear Ev.
  destruct (Ops.open_funding need (w, shaped)) as [[fc|e1] x1] eqn:Ef;
    apply open_funding_exact in Ef as [(Hc & Hk & Hf & _) Hfc]; [|injection Ho as <- <-; congruence].
  cbn in Ho. unfold Ops.built, lift in Ho.
  edestruct (open_funding_value (Wallet.ctx w) pr) as [b' Hb'];
    [..|exact Eb|]; [..|rewrite Hc, Hb' in Ho]; try done.
  - unfold Ops.open_intent, Wallet.owner_pk. cbn. by rewrite Hk.
  - cbn in Ho. intros ->. destruct (Wallet.sign_and_broadcast (plan b') _) as [[txid|e2] w2] eqn:Es; [done|].
    injection Ho as -> _. unfold Wallet.sign_and_broadcast in Es.
    destruct (Wallet.sign _ _) as [tx|e3] eqn:Eg.
    + unfold Wallet.broadcast, Wallet.on_node, map_error, zoom in Es. by destruct (send _ _) as [[|] ?].
    + injection Es as -> _. unfold Wallet.sign in Eg. by destruct (_ ≫= _) in Eg.
Qed.

(** ** Consolidation and the fee coin

    A scan sees confirmed coins only: the replies do not change while transactions are
    handed to the node ([view]). *)

Section Confirmed.
Context (view : Script -> result NodeError (list Unspent)).
Context (Hview : forall (n : N) spk, (scantxoutset spk n).1 = view spk).

Lemma retry_view k spk (n : N) : (scan_retry k spk (view spk) n).1 = view spk.
Proof.
  revert n. induction k as [|k IH]; intros n; cbn; [done|]. destruct (busy (view spk)); [|done].
  destruct (scantxoutset spk n) as [r' n'] eqn:E. assert (r' = view spk) as ->.
  { change r' with (r', n').1. rewrite <- E. apply Hview. }
  apply IH.
Qed.

Lemma scan_view spk asset (n : N) :
  (scan_spk spk asset n).1 = map_err ScanNode (u ← view spk; of_asset asset u).
Proof.
  unfold scan_spk, map_error. destruct (scantxoutset spk n) as [r n1] eqn:E1.
  assert (r = view spk) as ->. { change r with (r, n1).1. rewrite <- E1. apply Hview. }
  destruct (scan_retry 40 spk (view spk) n1) as [r2 n2] eqn:E2. cbn [fst].
  assert (r2 = view spk) as ->; [|done]. change r2 with (r2, n2).1. rewrite <- E2. apply retry_view.
Qed.

Lemma coins_view (w w' : W) :
  same_view w w' -> (Wallet.lbtc_coins w').1 = (Wallet.lbtc_coins w).1.
Proof.
  intros (Hc & _ & Hf & _). unfold Wallet.lbtc_coins, Wallet.on_node, map_error, zoom, Wallet.funding_spk.
  rewrite Hc, Hf. set (spk := _ :: _). set (asset := policy _).
  pose proof (scan_view spk asset (Wallet.node w')) as H1. pose proof (scan_view spk asset (Wallet.node w)) as H2.
  destruct (scan_spk _ _ (Wallet.node w')) as [r1 ?], (scan_spk _ _ (Wallet.node w)) as [r2 ?]. cbn in *.
  by rewrite H1, H2.
Qed.

Lemma node_sent {E A} (f : E -> WalletError) (m : Eff N E A) (w : W) r w' :
  Wallet.on_node f m w = (r, w') -> Wallet.sent w' = Wallet.sent w.
Proof. by intros ->%on_node_kept. Qed.

(** The merge spends the smallest sufficient policy coin. *)
Lemma consolidate_spends (w w1 : W) coins r :
  (Wallet.lbtc_coins w).1 = Ok coins -> Wallet.consolidate_obol w = (r, w1) ->
  same_view w w1 /\
  (Wallet.sent w1 = Wallet.sent w \/ exists tx, Wallet.sent w1 = tx :: Wallet.sent w) /\
  forall payer, r = Ok payer -> exists tx c n txid n',
    Wallet.sent w1 = tx :: Wallet.sent w /\ select_at_least coins 10001 = Some c /\
    c.1 ∈ previous_output <$> input tx /\ payer.1 = mkOutPoint txid 0 /\ send tx n = (Ok txid, n').
Proof.
  intros Hc Hr. unfold Wallet.consolidate_obol in Hr.
  apply eff_bind_inv in Hr as [(obols & wa & Ha & Hr)|(e & Ha & ->)].
  2: { pose proof (same_view_node _ _ _ _ _ Ha) as Hv. apply node_sent in Ha. split_and!; [done|by left|done]. }
  pose proof (same_view_node _ _ _ _ _ Ha) as Va. apply node_sent in Ha.
  rewrite <- (coins_view w wa Va) in Hc.
  apply eff_bind_inv in Hr as [(coins' & wb & Hb & Hr)|(e & Hb & ->)].
  2: { pose proof (same_view_node _ _ _ _ _ Hb) as Hv. apply node_sent in Hb.
    split_and!; [by etrans|left; congruence|done]. }
  rewrite Hb in Hc. injection Hc as ->. pose proof (same_view_node _ _ _ _ _ Hb) as Vb. apply node_sent in Hb.
  assert (Vab : same_view w wb) by (by etrans). clear Va Vb.
  apply eff_bind_inv in Hr as [(c & wc & Hsel & Hr)|(e & Hsel & ->)].
  2: { injection Hsel as _ <-. split_and!; [done|left; congruence|done]. }
  injection Hsel as Hsel <-. apply ok_or_ok in Hsel. cbn in Hsel.
  apply eff_bind_inv in Hr as [(ours & wd & [= <- <-] & Hr)|(e & He & _)]; [|done].
  apply eff_bind_inv in Hr as [(p & wd & [= <- <-] & Hr)|(e & He & _)]; [|done].
  apply eff_bind_inv in Hr as [(txid & we & Hs & Hr)|(e & Hs & ->)].
  - injection Hr as <- <-. pose proof (same_view_broadcast _ _ _ _ Hs) as Ve.
    unfold Wallet.sign_and_broadcast in Hs. destruct (Wallet.sign _ wb) as [tx|] eqn:Es; [|done].
    apply sign_body in Es. unfold Wallet.broadcast, Wallet.on_node, map_error, zoom in Hs.
    destruct (send tx _) as [rs n'] eqn:En in Hs. injection Hs as Hrs <-. cbn [Wallet.sent Wallet.with_node Wallet.record].
    assert (rs = Ok txid) as -> by (by destruct rs; cbn in Hrs; congruence).
    split_and!; [by etrans|right; exists tx; congruence|]. intros payer [= <-].
    eexists tx, c, _, txid, n'. split_and!; [congruence|done| |done|exact En].
    rewrite (body_inputs _ _ Es). unfold merge. destruct (split_change _) as [ch fee]. cbn.
    rewrite fmap_app. apply elem_of_app. right. by left.
  - pose proof (same_view_broadcast _ _ _ _ Hs) as Ve. split_and!; [by etrans| |done].
    apply broadcast_sent in Hs as [?|(tx & ? & _)]; [left; congruence|right; exists tx; congruence].
Qed.

Lemma ensure_spends need (w w1 : W) obols coins r :
  (Wallet.obol_coins w).1 = Ok obols -> (forall c, c ∈ obols -> c.2 < need) ->
  (Wallet.lbtc_coins w).1 = Ok coins -> Ops.ensure_obol need w = (r, w1) ->
  same_view w w1 /\
  (Wallet.sent w1 = Wallet.sent w \/ exists tx, Wallet.sent w1 = tx :: Wallet.sent w) /\
  forall payer, r = Ok payer -> exists tx c n txid n',
    Wallet.sent w1 = tx :: Wallet.sent w /\ select_at_least coins 10001 = Some c /\
    c.1 ∈ previous_output <$> input tx /\ payer.1 = mkOutPoint txid 0 /\ send tx n = (Ok txid, n').
Proof.
  intros Ho Hsmall Hc Hr. unfold Ops.ensure_obol in Hr.
  apply eff_bind_inv in Hr as [(x & wa & Ha & Hr)|(e & Ha & ->)]; [|by rewrite Ha in Ho].
  rewrite Ha in Ho. injection Ho as ->. pose proof (same_view_node _ _ _ _ _ Ha) as Va.
  apply node_sent in Ha. rewrite <- (coins_view w wa Va) in Hc. rewrite <- Ha.
  destruct (select_at_least obols need) as [c|] eqn:Es.
  { apply select_at_least_some in Es as (Hin & Hn & _). specialize (Hsmall c Hin). lia. }
  destruct (_ <? _).
  { injection Hr as <- <-. split_and!; [done|by left|done]. }
  destruct (consolidate_spends wa w1 coins r Hc Hr) as (V1 & Hs & Hp). split_and!; [by etrans|done|done].
Qed.

(** After the merge, the fee coin of the repayment is the merge's. *)
Lemma fee_coin_again (w w1 : W) coins c payer txid r :
  (Wallet.lbtc_coins w).1 = Ok coins -> select_at_least coins 10001 = Some c ->
  payer = mkOutPoint txid 0 -> (forall d, d ∈ coins -> d.1 <> mkOutPoint txid 0) ->
  Ops.repay_fee_coin payer w = (r, w1) ->
  r = Ok c /\ same_view w w1 /\ Wallet.sent w1 = Wallet.sent w.
Proof.
  intros Hc Hsel -> Hf Hr. unfold Ops.repay_fee_coin in Hr.
  apply eff_bind_inv in Hr as [(x & wa & Ha & Hr)|(e & Ha & ->)]; [|by rewrite Ha in Hc].
  rewrite Ha in Hc. injection Hc as ->. pose proof (same_view_node _ _ _ _ _ Ha). apply node_sent in Ha.
  assert (filter (fun d : Coin => d.1 <> mkOutPoint txid 0) coins = coins) as Hfl.
  { clear -Hf. induction coins as [|d coins IH]; [done|]. rewrite filter_cons_True by (apply Hf; by left).
    f_equal. apply IH. intros d' ?. apply Hf. by right. }
  rewrite Hfl in Hr. unfold lift in Hr.
  change (Sats.raw FEE + 1) with 10001 in Hr. rewrite Hsel in Hr. by injection Hr as <- <-.
Qed.

(** The plan of a repayment that consolidates: at most the merge is handed to the node, and
    the plan spends its fee coin again. *)
Lemma repay_plan_spends (which : option OutPoint) (amount : Obol.t) (w w6 : W)
    (rp : result WalletError (Built RepayDelta)) (obols coins : list Coin) :
  (Wallet.obol_coins w).1 = Ok obols -> (forall c, c ∈ obols -> c.2 < Obol.raw amount) ->
  (Wallet.lbtc_coins w).1 = Ok coins ->
  (forall tx (n : N) txid n' c, send tx n = (Ok txid, n') -> c ∈ coins -> c.1 <> mkOutPoint txid 0) ->
  Ops.repay_plan which amount w = (rp, w6) ->
  (length (Wallet.sent w6) <= S (length (Wallet.sent w)))%nat /\
  forall b, rp = Ok b -> exists tx c, Wallet.sent w6 = tx :: Wallet.sent w /\
    c ∈ previous_output <$> input tx /\ c ∈ previous_output <$> input (p_tx (plan b)).
Proof.
  intros Ho Hsmall Hc Hfresh Hp. unfold Ops.repay_plan in Hp.
  apply eff_bind_inv in Hp as [(pr & wa & [= _ <-] & Hp)|(e & [= _ <-] & ->)]; [|split; [lia|done]].
  apply eff_bind_inv in Hp as [(v & wa & [= _ <-] & Hp)|(e & [= _ <-] & ->)]; [|split; [lia|done]].
  apply eff_bind_inv in Hp as [(payer & w1 & He & Hp)|(e & He & ->)];
    pose proof (ensure_spends _ _ _ _ _ _ Ho Hsmall Hc He) as (V1 & Hlen & Hpay).
  2: { split; [|done]. destruct Hlen as [->|[tx ->]]; cbn; lia. }
  destruct (Hpay payer eq_refl) as (tx & c & n & txid & n' & Hs1 & Hsel & Hin & Hop & Hsend).
  rewrite <- (coins_view w w1 V1) in Hc.
  assert (Hfr : forall d', d' ∈ coins -> d'.1 <> mkOutPoint txid 0) by (intros d' ?; by eapply Hfresh).
  apply eff_bind_inv in Hp as [(d & w2 & Hd & Hp)|(e & Hd & ->)];
    destruct (fee_coin_again w1 _ coins c payer.1 txid _ Hc Hsel Hop Hfr Hd) as (Hdc & V2 & Hs2);
    [injection Hdc as ->|done].
  apply eff_bind_inv in Hp as [(w3 & w4 & [= <- <-] & Hp)|(e & [=] & _)].
  unfold Ops.built, lift in Hp. injection Hp as Hrp <-. rewrite Hs2, Hs1. cbn. split; [lia|].
  intros b ->. apply map_err_ok, repay_ok_iff in Hrp as (_ & _ & _ & ->).
  exists tx, c.1. split_and!; [done|done|]. cbn. do 3 right. by left.
Qed.

(** C26: A repayment that has to consolidate OBOL first spends its fee coin twice: the merge
    takes the smallest sufficient L-BTC coin, and the repayment chained on it takes the same
    one again, since the scan still lists it; the node can confirm only one of the two. *)
Theorem consolidation_double_spends (which : option OutPoint) (amount : Obol.t) (w w' : W)
    (r : result WalletError OpReport) (obols coins : list Coin) (t1 t2 : Transaction) :
  (Wallet.obol_coins w).1 = Ok obols -> (forall c, c ∈ obols -> c.2 < Obol.raw amount) ->
  (Wallet.lbtc_coins w).1 = Ok coins ->
  (forall tx (n : N) txid n' c, send tx n = (Ok txid, n') -> c ∈ coins -> c.1 <> mkOutPoint txid 0) ->
  Ops.repay_once which amount w = (r, w') -> Wallet.sent w' = t2 :: t1 :: Wallet.sent w ->
  exists op, op ∈ previous_output <$> input t1 /\ op ∈ previous_output <$> input t2.
Proof.
  intros Ho Hsmall Hc Hfresh Hr Hsent.
  assert (Hno : forall l, Wallet.sent w' = l -> length l = S (S (length (Wallet.sent w))))
    by (intros l <-; by rewrite Hsent).
  unfold Ops.repay_once in Hr.
  apply eff_bind_inv in Hr as [(b & w6 & Hp & Hr)|(e & Hp & ->)];
    apply (repay_plan_spends _ _ _ _ _ obols coins Ho Hsmall Hc Hfresh) in Hp as [Hlen Hb].
  2: { specialize (Hno _ eq_refl). lia. }
  destruct (Hb b eq_refl) as (tx & op & H6' & Hin1 & Hin2).
  apply eff_bind_inv in Hr as [(pl & w7 & [= Hpl <-] & Hr)|(e & [= _ <-] & _)].
  2: { specialize (Hno _ eq_refl). lia. }
  assert (Htx : p_tx pl = p_tx (plan b)).
  { apply map_err_ok, bind_ok in Hpl as (dg & _ & [= <-]). done. }
  assert (Hbr : exists x, Wallet.sign_and_broadcast pl w6 = (x, w')).
  { apply eff_bind_inv in Hr as [(txid & w8 & Hs & [= _ <-])|(e & Hs & _)]; eauto. }
  destruct Hbr as [x [Hs|(t2' & Hs & Hbody)]%broadcast_sent]; rewrite Hs in Hsent.
  { rewrite Hsent in Hlen. cbn in Hlen. lia. }
  injection Hsent as -> H6. rewrite H6' in H6. injection H6 as ->. exists op. split; [done|]. by rewrite (body_inputs _ _ Hbody), Htx.
Qed.

End Confirmed.

End Cases.
