(* ===== verification/Keeper.v ===== *)
(** * The keeper ([styx-keeper/src/keeper.rs])

    A purse (a wallet session), the quote book, and one [step] per fresh tick that executes
    at most one protocol action.  The keeper is a computation over [Keeper.t]; the lock
    around the purse is not modelled (its only holder at a time is the keeper). *)

From Stdlib Require Import ZArith Lia.
From stdpp Require Import base gmap strings option list.
From S2P Require Import Prelude Hex Units CrMath Elements Oracle Simf Encode Domain Artifacts Jets.
From S2P Require Import CovVault CovReserve CovIssuer Plan BuildOwner BuildKeeper Decide Pset Quotes.
From S2P Require Import Effects Node Index Sync Snapshot Config Wallet Ops.

(** What a step did. *)
Inductive Performed : Type :=
| PPoked (txid : Txid)
| PRefreshed (vault : OutPoint) (txid : Txid)
| PPartial (vault : OutPoint) (dd : Obol.t) (txid : Txid)
| PFullLiq (vault : OutPoint) (txid : Txid)
| PBadDebt (vault : OutPoint) (txid : Txid)
| PResolvedElsewhere (vault : OutPoint).

Inductive KeeperError : Type :=
| KWallet (e : WalletError)
| KRejected (what message : string)
| KConflictExhausted (what : string) (attempts : nat).

Definition keeper_error (e : WalletError) : KeeperError :=
  match e with
  | WRejected what message => KRejected what message
  | ConflictExhausted what attempts => KConflictExhausted what attempts
  | e => KWallet e
  end.

Definition REJECTED_EXIT : Z := 65.
Definition ACTED_RETRY_BLOCKS : Z := 6.

(** [Transaction::vsize]. *)
Class TxSize : Type := vsize : Transaction -> Z.

(** ** Fees *)

Definition HEADROOM : Z := 2.
Definition FLOOR : Z := 300.

(** [x.clamp(lo, hi)] and [a.div_ceil(1000)]. *)
Definition clamp (x lo hi : Z) : Z := if x <? lo then lo else if hi <? x then hi else x.
Definition div_ceil_1000 (a : Z) : Z := (a + 999) / 1000.

Definition rate_fee (rate : option Z) (size : Z) : Sats.t :=
  match rate with
  | None => FEE
  | Some rate_kvb =>
      let base := div_ceil_1000 (u64_sat_mul rate_kvb size) in
      Sats.new (clamp (u64_sat_mul base HEADROOM) FLOOR (Sats.raw FEE))
  end.

(** The severity of an action. *)
Definition rank (a : Action.t) : Z :=
  match a with
  | Action.BadDebt => 3
  | Action.FullLiq => 2
  | Action.Partial _ _ => 1
  | _ => 0
  end.

Definition rank_le (x y : OnChain VaultState * Action.t) : bool := rank x.2 <=? rank y.2.

#[export] Instance action_eq_dec : EqDecision Action.t.
Proof. solve_decision. Defined.

Module Keeper.

Record t (N D : Type) : Type := mk {
  purse : Wallet.t N D;
  book : QuoteBook.t;
  opts : KeeperOpts;
  acted : gmap OutPoint Z;
  poked : option (BlockHeight.t * Z);
  last_acted_height : option Z
}.
Arguments mk {N D} _ _ _ _ _ _.
Arguments purse {N D} _.
Arguments book {N D} _.
Arguments opts {N D} _.
Arguments acted {N D} _.
Arguments poked {N D} _.
Arguments last_acted_height {N D} _.

Section Keeper.
Context `{Lib, XOnlyParse, SigHash, Redeemer, KeySpend, TxSize}.
Context {N D : Type} `{Rpc N, Display, OutPointOrder, Json, Disk D}.

Abbreviation W := (Wallet.t N D) (only parsing).
Abbreviation M := (Eff (t N D) WalletError) (only parsing).
Abbreviation KM := (Eff (t N D) KeeperError) (only parsing).

Definition with_purse (w : W) (k : t N D) : t N D :=
  mk w (book k) (opts k) (acted k) (poked k) (last_acted_height k).
Definition with_book (b : QuoteBook.t) (k : t N D) : t N D :=
  mk (purse k) b (opts k) (acted k) (poked k) (last_acted_height k).
Definition with_acted (a : gmap OutPoint Z) (k : t N D) : t N D :=
  mk (purse k) (book k) (opts k) a (poked k) (last_acted_height k).
Definition with_poked (p : option (BlockHeight.t * Z)) (k : t N D) : t N D :=
  mk (purse k) (book k) (opts k) (acted k) p (last_acted_height k).
Definition with_last (h : option Z) (k : t N D) : t N D :=
  mk (purse k) (book k) (opts k) (acted k) (poked k) h.

Definition new (w : W) (o : KeeperOpts) : t N D :=
  mk w (QuoteBook.new (oracle_pks (ctx_params (Wallet.ctx w)))) o ∅ None None.

(** A call on the purse. *)
Definition wallet {A} (m : Eff (Wallet.t N D) WalletError A) : M A := zoom purse with_purse m.

(** [None]: a panic of the book. *)
Definition absorb (quote : WireQuote.t) (k : t N D) : option (t N D) :=
  r ← QuoteBook.insert (book k) quote (BlockHeight.new (ix_height (Wallet.state (purse k))));
  Some (match r with Ok b => with_book b k | Err _ => k end).

(** The heights [hi], [hi - 1], ... ([n] of them), the first that makes a tick. *)
Fixpoint first_tick (b : QuoteBook.t) (hi : Z) (n : nat) : option OracleTick.t :=
  match n with
  | O => None
  | S n =>
      match QuoteBook.assemble_tick b (BlockHeight.new hi) with
      | Some tick => Some tick
      | None => first_tick b (hi - 1) n
      end
  end.

Definition assemble (k : t N D) : option OracleTick.t :=
  let tip := ix_height (Wallet.state (purse k)) in
  let lo := u32_sat_sub tip (walkback (opts k)) in
  first_tick (book k) tip (Z.to_nat (tip - lo + 1)).

(** ** Broadcasting at the network fee *)

Definition network_fee (size : Z) : Eff (Wallet.t N D) WalletError Sats.t :=
  rate ← Wallet.relay_feerate_sat_per_kvb;
  mret (rate_fee rate size).

Definition broadcast_estimated (build_plan : Sats.t -> result WalletError TxPlan)
    : Eff (Wallet.t N D) WalletError Txid :=
  plan ← lift (build_plan FEE);
  provisional ← Ops.ask (Wallet.sign plan);
  fee ← network_fee (vsize provisional);
  if Sats.raw FEE <=? Sats.raw fee then Wallet.broadcast provisional else
  lower ← gets (fun w => p ← build_plan fee; Wallet.sign p w);
  match lower with
  | Ok tx => Wallet.broadcast tx
  | Err _ => Wallet.broadcast provisional
  end.

(** A builder's plan under the wallet's error. *)
Definition plan_of {A} (r : result BuildError (Built A)) : result WalletError TxPlan :=
  b ← map_err WBuild r; Ok (plan b).

Definition vault_at (op : OutPoint) (k : t N D) : result WalletError (OnChain VaultState) :=
  ok_or (VaultNotFound op) (v ← ix_vaults (Wallet.state (purse k)) !! op; known v op).

Definition known_vaults (k : t N D) : list (OnChain VaultState) :=
  omap (fun x => known x.2 x.1) (btree_iter (ix_vaults (Wallet.state (purse k)))).

(** The re-read of the vault that opens an attempt. *)
Definition look (vault : OutPoint) : M (OnChain VaultState) := fun k => (vault_at vault k, k).

(** ** One attempt of each action

    An attempt re-reads the vault under one guard of the purse and does the rest under
    another: the [*_section]s are what it does under the second. *)

Definition partial_section (vault : OutPoint) (v : OnChain VaultState) (tick : OracleTick.t) (lag : Z)
    : Eff (Wallet.t N D) WalletError Txid :=
  protocol ← Ops.ask Wallet.protocol;
  let anchor := last_mint_height (state (issuer protocol)) in
  match Ladder.decide v tick anchor lag FEE with
  | Action.Partial dd0 _ =>
      coin ← Ops.ensure_obol (Obol.raw dd0);
      w ← gets id;
      broadcast_estimated (fun fee =>
        match Ladder.decide v tick anchor lag fee with
        | Action.Partial dd residual =>
            plan_of (liquidate (Wallet.ctx w) protocol v
              (mkLiquidateIntent dd residual (Ops.obol_coin w coin) (Wallet.funding_spk w)
                 (Wallet.funding_spk w) tick fee))
        | _ => Err (VaultNotFound vault)
        end)
  | _ => throw (VaultNotFound vault)
  end.

Definition full_liq_section (v : OnChain VaultState) (tick : OracleTick.t)
    : Eff (Wallet.t N D) WalletError Txid :=
  protocol ← Ops.ask Wallet.protocol;
  coin ← Ops.ensure_obol (u64_wadd (Obol.raw (debt (state v))) 1);
  w ← gets id;
  broadcast_estimated (fun fee =>
    plan_of (full_liq (Wallet.ctx w) protocol v
      (mkFullLiqIntent (Ops.obol_coin w coin) (Wallet.funding_spk w) (Wallet.funding_spk w) tick fee))).

Definition bad_debt_section (v : OnChain VaultState) (tick : OracleTick.t)
    : Eff (Wallet.t N D) WalletError Txid :=
  protocol ← Ops.ask Wallet.protocol;
  coin ← Ops.ensure_obol (Obol.raw (debt (state v)));
  fee_coin ← Ops.pick_lbtc (Sats.raw FEE + 1);
  w ← gets id;
  broadcast_estimated (fun fee =>
    plan_of (bad_debt (Wallet.ctx w) protocol v
      (mkBadDebtIntent (Ops.obol_coin w coin) (Wallet.funding_spk w) (Wallet.funding_spk w)
         (Ops.funding_coin w fee_coin) (Wallet.funding_spk w) tick fee))).

Definition refresh_section (v : OnChain VaultState) (tick : OracleTick.t)
    : Eff (Wallet.t N D) WalletError Txid :=
  fee_coin ← Ops.pick_lbtc (Sats.raw FEE + 1);
  w ← gets id;
  broadcast_estimated (fun fee =>
    plan_of (refresh (Wallet.ctx w) v
      (mkRefreshIntent tick (Ops.funding_coin w fee_coin) (Wallet.funding_spk w) fee))).

Definition poke_section (tick : OracleTick.t) : Eff (Wallet.t N D) WalletError Txid :=
  protocol ← Ops.ask Wallet.protocol;
  fee_coin ← Ops.pick_lbtc (Sats.raw FEE + 1);
  w ← gets id;
  broadcast_estimated (fun fee =>
    plan_of (poke (Wallet.ctx w) (issuer protocol)
      (mkPokeIntent tick (Ops.funding_coin w fee_coin) (Wallet.funding_spk w) fee))).

Definition try_partial (vault : OutPoint) (tick : OracleTick.t) : M Txid :=
  lag ← gets (refresh_lag ∘ opts);
  v ← look vault;
  wallet (partial_section vault v tick lag).

Definition try_full_liq (vault : OutPoint) (tick : OracleTick.t) : M Txid :=
  v ← look vault; wallet (full_liq_section v tick).

Definition try_bad_debt (vault : OutPoint) (tick : OracleTick.t) : M Txid :=
  v ← look vault; wallet (bad_debt_section v tick).

Definition try_refresh (vault : OutPoint) (tick : OracleTick.t) : M Txid :=
  v ← look vault; wallet (refresh_section v tick).

Definition build_poke (tick : OracleTick.t) : M Txid := wallet (poke_section tick).

Definition with_retry (what : string) (f : M Txid) : KM (option Txid) :=
  map_error keeper_error
    (retry_conflicts what (_ ← wallet Wallet.sync; mret tt) f Benign).

(** ** Executing *)

Definition execute (vault : OutPoint) (action : Action.t) (tick : OracleTick.t) : KM (option Performed) :=
  let outcome (done : Txid -> Performed) (txid : option Txid) :=
    Some (match txid with None => PResolvedElsewhere vault | Some txid => done txid end) in
  match action with
  | Action.Partial dd _ =>
      outcome (PPartial vault dd) <$> with_retry "partial liquidate" (try_partial vault tick)
  | Action.FullLiq => outcome (PFullLiq vault) <$> with_retry "full liquidate" (try_full_liq vault tick)
  | Action.BadDebt => outcome (PBadDebt vault) <$> with_retry "bad debt" (try_bad_debt vault tick)
  | Action.Refresh => outcome (PRefreshed vault) <$> with_retry "refresh" (try_refresh vault tick)
  | Action.Nothing => mret None
  end.

Definition execute_tracked (vault : OutPoint) (action : Action.t) (tick : OracleTick.t) (height : Z)
    : KM (option Performed) :=
  done ← execute vault action tick;
  match done with
  | Some _ =>
      _ ← update (fun k => with_last (Some height) (with_acted (<[vault := height]> (acted k)) k));
      mret done
  | None => mret None
  end.

(** ** The step *)

(** The acted vaults that still sit out. *)
Definition still_acted (indexed : gmap OutPoint TrackedVault) (height : Z) (m : gmap OutPoint Z)
    : gmap OutPoint Z :=
  filter (fun x => is_Some (indexed !! x.1) /\ height < u32_sat_add x.2 ACTED_RETRY_BLOCKS) m.

Definition still_poked (anchor : BlockHeight.t) (height : Z) (p : option (BlockHeight.t * Z))
    : option (BlockHeight.t * Z) :=
  '(at_anchor, at_height) ← p;
  if bool_decide (at_anchor = anchor) && (height <? u32_sat_add at_height ACTED_RETRY_BLOCKS)
  then p else None.

(** The vaults in play, in outpoint order. *)
Definition in_play (k : t N D) : list (OnChain VaultState) :=
  sort_by (fun x y => op_le (outpoint x) (outpoint y))
    (filter (fun v => acted k !! outpoint v = None) (known_vaults k)).

(** The most urgent liquidation. *)
Definition most_urgent (vaults : list (OnChain VaultState)) (tick : OracleTick.t)
    (anchor : BlockHeight.t) (lag : Z) : option (OnChain VaultState * Action.t) :=
  max_by rank_le (filter (fun x => 0 < rank x.2)
    ((fun v => (v, Ladder.decide v tick anchor lag FEE)) <$> vaults)).

Definition poke_due (k : t N D) (tick : OracleTick.t) (anchor : BlockHeight.t) : bool :=
  poke_lag (opts k) <? u32_sat_sub (BlockHeight.raw (OracleTick.height tick)) (BlockHeight.raw anchor).

(** The duties, when nothing needs liquidating: the poke, then one refresh. *)
Definition duties (vaults : list (OnChain VaultState)) (tick : OracleTick.t) (anchor : BlockHeight.t)
    (height : Z) : KM (option Performed) :=
  _ ← update (fun k => with_poked (still_poked anchor height (poked k)) k);
  k ← gets id;
  if bool_decide (poked k = None) && poke_due k tick anchor then
    txid ← with_retry "poke" (build_poke tick);
    match txid with
    | Some txid =>
        _ ← update (fun k => with_last (Some height) (with_poked (Some (anchor, height)) k));
        mret (Some (PPoked txid))
    | None => mret None
    end
  else
    match find (fun v => bool_decide (Ladder.decide v tick anchor (refresh_lag (opts k)) FEE = Action.Refresh))
            vaults with
    | Some vault => execute_tracked (outpoint vault) Action.Refresh tick height
    | None => mret None
    end.

Definition step (tick : OracleTick.t) : KM (option Performed) :=
  _ ← map_error KWallet (wallet Wallet.sync);
  protocol ← map_error KWallet (wallet (Ops.ask Wallet.protocol));
  let anchor := last_mint_height (state (issuer protocol)) in
  k ← gets id;
  let st := Wallet.state (purse k) in
  let height := ix_height st in
  if bool_decide (last_acted_height k = Some height) then mret None else
  _ ← update (fun k => with_acted (still_acted (ix_vaults st) height (acted k)) k);
  k ← gets id;
  let vaults := in_play k in
  match most_urgent vaults tick anchor (refresh_lag (opts k)) with
  | Some (vault, action) => execute_tracked (outpoint vault) action tick height
  | None => duties vaults tick anchor height
  end.

End Keeper.
End Keeper.
