(* ===== verification/KeeperSpec.v ===== *)
(** * What the keeper promises

    Every transaction a step hands to the node is sound; an attempt that could be signed is
    broadcast at a bounded fee; a step that acted chose the most severe duty among the
    vaults in play; and over any patrol there is at most one action per block. *)

From Stdlib Require Import ZArith Lia Sorted.
From stdpp Require Import base gmap strings option list.
From S2P Require Import Prelude Hex Units CrMath Elements Oracle Simf Encode Domain Artifacts Jets.
From S2P Require Import CovVault CovReserve CovIssuer Plan BuildOwner BuildKeeper Accept CovLemmas.
From S2P Require Import CovAccept Sound Decide Pset Quotes Effects Node Index Sync Snapshot Config.
From S2P Require Import Wallet Ops WalletSpec OpsSpec Keeper.

Section Patrols.
Context `{HL : Lib, XP : XOnlyParse, HS : SigHash, RD : Redeemer, KS : KeySpend, TS : TxSize}.
Context {N D : Type} `{RP : Rpc N, DP : Display, OO : OutPointOrder, JS : Json, DK : Disk D}.

Abbreviation K := (Keeper.t N D) (only parsing).
Abbreviation W := (Wallet.t N D) (only parsing).

(** ** Soundness of what is sent *)

Section Triples.
Context (c : Seat).

Definition deployed (k : K) : Prop := in_deploy c (Keeper.purse k).
(** A call on the purse touches nothing else of the keeper. *)
Definition memory (k : K) := (Keeper.book k, Keeper.opts k, Keeper.acted k, Keeper.poked k,
  Keeper.last_acted_height k).
Definition patrols (k k' : K) : Prop := grows (Keeper.purse k) (Keeper.purse k').
Definition attempts (k k' : K) : Prop := patrols k k' /\ memory k' = memory k.

(** The book and the knobs are not a step's to change. *)
Definition watches (k k' : K) : Prop :=
  patrols k k' /\ Keeper.book k' = Keeper.book k /\ Keeper.opts k' = Keeper.opts k.

#[export] Instance patrols_preorder : PreOrder patrols.
Proof. split; [intros k; unfold patrols; reflexivity|intros k1 k2 k3; unfold patrols; apply transitivity]. Qed.
#[export] Instance attempts_preorder : PreOrder attempts.
Proof. split; [by intros k|]. intros k1 k2 k3 [] []. split; [by etrans|congruence]. Qed.

#[export] Instance watches_preorder : PreOrder watches.
Proof. split; [by intros k|]. intros k1 k2 k3 (? & ? & ?) (? & ? & ?). split_and!; [by etrans|congruence..]. Qed.

(** The relations under which the keeper's computations are checked. *)
Class Patrol (R : K -> K -> Prop) : Prop := {
  patrol_preorder :: PreOrder R;
  patrol_attempts k k' : attempts k k' -> R k k';
  patrol_grows k k' : R k k' -> patrols k k'
}.
#[export] Instance patrols_patrol : Patrol patrols.
Proof. split; [apply _|by intros k k' []|done]. Qed.
#[export] Instance watches_patrol : Patrol watches.
Proof. split; [apply _| |by intros k k' []]. intros k k' [? [= ? ? _ _ _]]. by split_and!. Qed.
#[export] Instance attempts_patrol : Patrol attempts.
Proof. split; [apply _|done|by intros k k' []]. Qed.

Section Attempts.
Context (R : K -> K -> Prop) `{!Patrol R}.

Lemma patrol_deployed k k' : deployed k -> R k k' -> deployed k'.
Proof. intros Hk Hr%patrol_grows. by eapply grows_deploy. Qed.

Abbreviation run m Φ := (triple (in_deploy (N := N) (D := D) c) grows m Φ) (only parsing).
Abbreviation krun m Φ := (triple deployed R m Φ) (only parsing).

Lemma krun_bind {E A B} (m : Eff K E A) (f : A -> Eff K E B) Φ Ψ :
  krun m Φ -> (forall a, Φ a -> krun (f a) Ψ) -> krun (m ≫= f) Ψ.
Proof. apply triple_bind; [apply _|apply patrol_deployed]. Qed.
Lemma krun_then {E A B} (m : Eff K E A) (f : A -> Eff K E B) Ψ :
  krun m (fun _ => True) -> (forall a, krun (f a) Ψ) -> krun (m ≫= f) Ψ.
Proof. intros Hm Hf. eapply krun_bind; [exact Hm|]. intros a _. apply Hf. Qed.
Lemma krun_wallet {A} (m : Eff W WalletError A) Φ : run m Φ -> krun (Keeper.wallet m) Φ.
Proof.
  intros Hm. eapply triple_zoom; [exact Hm|done|]. intros k w _ Hg. by apply patrol_attempts.
Qed.
Lemma krun_ret {E A} (a : A) : krun (mret a : Eff K E A) (fun _ => True).
Proof. by apply triple_ret; [apply _|]. Qed.
Lemma krun_throw {E A} (e : E) (Φ : A -> Prop) : krun (throw e) Φ.
Proof. apply triple_throw. apply _. Qed.
Lemma krun_gets {E A} (f : K -> A) : krun (gets f : Eff K E A) (fun _ => True).
Proof. by apply triple_gets; [apply _|]. Qed.
Lemma krun_purse {E} : krun (gets Keeper.purse : Eff K E W) (in_deploy c).
Proof. by apply triple_gets; [apply _|]. Qed.
Lemma krun_read {A} (f : K -> result WalletError A) : krun (fun k => (f k, k)) (fun _ => True).
Proof. intros k _. split; [reflexivity|done]. Qed.

Hint Resolve krun_ret krun_throw krun_gets krun_read krun_wallet : session.
Hint Resolve run_pick run_ensure : session.

Lemma run_estimated build :
  (forall fee pl, build fee = Ok pl -> authorized c pl) ->
  run (Keeper.broadcast_estimated build) (fun _ => True).
Proof.
  intros Hb. unfold Keeper.broadcast_estimated.
  eapply ops_bind; [apply (triple_lift _ _ _ (authorized c)); apply Hb|]. intros pl Hpl.
  eapply ops_bind.
  { apply (run_ask c (Wallet.sign pl) (sound_tx c)). intros w tx Hw. by apply sign_sound. }
  intros tx Htx. apply run_then.
  { unfold Keeper.network_fee. apply run_then; [apply run_node|intros ?; apply run_ret_any]. }
  intros fee. destruct (_ <=? _); [by apply run_broadcast|].
  eapply ops_bind; [apply (triple_gets _ _ _ (fun r => forall tx, r = Ok tx -> sound_tx c tx))|].
  - intros w Hw tx' (p & Hp & Hs)%bind_ok. eapply sign_sound; [done| |done]. by apply (Hb fee).
  - intros [tx'|e] Hr; apply run_broadcast; [by apply Hr|done].
Qed.

(** A builder applied to the purse's deploy. *)
Lemma run_attempt {A} (build : Ctx -> Sats.t -> result BuildError (Built A)) (w : W) :
  in_deploy c w -> (forall fee b, build (seat_ctx c) fee = Ok b -> authorized c (plan b)) ->
  run (Keeper.broadcast_estimated (fun fee => Keeper.plan_of (build (Wallet.ctx w) fee))) (fun _ => True).
Proof.
  intros Hw Ha. apply run_estimated. intros fee pl (b & Hb%map_err_ok & [= <-])%bind_ok.
  rewrite (deploy_ctx c w Hw) in Hb. by eapply Ha.
Qed.

Lemma run_partial_section vault v tick lag :
  run (Keeper.partial_section vault v tick lag) (fun _ => True).
Proof.
  apply run_then; [apply run_ask_any|]. intros pr.
  cbv zeta. destruct (Ladder.decide v tick _ lag FEE); try apply run_throw_any.
  apply run_then; [apply run_ensure|]. intros coin.
  eapply ops_bind; [apply ops_get|]. intros w Hw. apply run_estimated.
  intros fee pl. destruct (Ladder.decide _ _ _ _ _); try done.
  intros (b & Hb%map_err_ok & [= <-])%bind_ok. rewrite (deploy_ctx c w Hw) in Hb.
  eapply auth_liquidate; [exact Hb|by apply deploy_spk].
Qed.

Lemma run_full_liq_section v tick : run (Keeper.full_liq_section v tick) (fun _ => True).
Proof.
  apply run_then; [apply run_ask_any|]. intros pr.
  apply run_then; [apply run_ensure|]. intros coin.
  eapply ops_bind; [apply ops_get|]. intros w Hw.
  apply (run_attempt (fun cx fee => full_liq cx pr v _)); [done|].
  intros fee b Hb. eapply auth_full_liq; [exact Hb|by apply deploy_spk..].
Qed.

Lemma run_bad_debt_section v tick : run (Keeper.bad_debt_section v tick) (fun _ => True).
Proof.
  apply run_then; [apply run_ask_any|]. intros pr.
  apply run_then; [apply run_ensure|]. intros coin.
  apply run_then; [apply run_pick|]. intros fee_coin.
  eapply ops_bind; [apply ops_get|]. intros w Hw.
  apply (run_attempt (fun cx fee => bad_debt cx pr v _)); [done|].
  intros fee b Hb. eapply auth_bad_debt; [exact Hb|by apply deploy_spk..].
Qed.

Lemma run_refresh_section v tick : run (Keeper.refresh_section v tick) (fun _ => True).
Proof.
  apply run_then; [apply run_pick|]. intros fee_coin.
  eapply ops_bind; [apply ops_get|]. intros w Hw.
  apply (run_attempt (fun cx fee => refresh cx v _)); [done|].
  intros fee b Hb. eapply auth_refresh; [exact Hb|by apply deploy_spk..].
Qed.

Lemma run_poke_section tick : run (Keeper.poke_section tick) (fun _ => True).
Proof.
  apply run_then; [apply run_ask_any|]. intros pr.
  apply run_then; [apply run_pick|]. intros fee_coin.
  eapply ops_bind; [apply ops_get|]. intros w Hw.
  apply (run_attempt (fun cx fee => poke cx (issuer pr) _)); [done|].
  intros fee b Hb. eapply auth_poke; [exact Hb|by apply deploy_spk..].
Qed.

Lemma krun_look vault : krun (Keeper.look vault) (fun _ => True).
Proof. apply krun_read. Qed.

Hint Resolve krun_look run_partial_section run_full_liq_section run_bad_debt_section
  run_refresh_section run_poke_section : session.

Lemma krun_partial vault tick : krun (Keeper.try_partial vault tick) (fun _ => True).
Proof.
  apply krun_then; [auto with session|]. intros lag.
  apply krun_then; [auto with session|]. intros v. auto with session.
Qed.

Lemma krun_full_liq vault tick : krun (Keeper.try_full_liq vault tick) (fun _ => True).
Proof. apply krun_then; auto with session. Qed.

Lemma krun_bad_debt vault tick : krun (Keeper.try_bad_debt vault tick) (fun _ => True).
Proof. apply krun_then; auto with session. Qed.

Lemma krun_refresh vault tick : krun (Keeper.try_refresh vault tick) (fun _ => True).
Proof. apply krun_then; auto with session. Qed.

Lemma krun_poke tick : krun (Keeper.build_poke tick) (fun _ => True).
Proof. unfold Keeper.build_poke. auto with session. Qed.

Lemma krun_retry what f : krun f (fun _ => True) -> krun (Keeper.with_retry what f) (fun _ => True).
Proof.
  intros Hf. apply triple_map_error, run_retry; [apply _|apply patrol_deployed| |done].
  apply krun_then; [apply krun_wallet, run_sync|]. intros ns. apply krun_ret.
Qed.

Lemma krun_execute vault action tick : krun (Keeper.execute vault action tick) (fun _ => True).
Proof.
  destruct action; cbn [Keeper.execute]; try apply krun_ret; apply triple_fmap, krun_retry;
    first [apply krun_refresh|apply krun_partial|apply krun_full_liq|apply krun_bad_debt].
Qed.

End Attempts.

(** Bookkeeping beside the purse. *)
Lemma krun_update {E} (f : K -> K) :
  (forall k, Keeper.purse (f k) = Keeper.purse k /\ Keeper.book (f k) = Keeper.book k /\
             Keeper.opts (f k) = Keeper.opts k) ->
  triple deployed watches (update f : Eff K E unit) (fun _ => True).
Proof.
  intros Hf. apply triple_update; [|done]. intros k _. destruct (Hf k) as (Hp & Hb & Ho).
  split_and!; [|done..]. unfold patrols. by rewrite Hp.
Qed.
Abbreviation krun m Φ := (triple deployed watches m Φ) (only parsing).

Lemma krun_tracked vault action tick height :
  krun (Keeper.execute_tracked vault action tick height) (fun _ => True).
Proof.
  unfold Keeper.execute_tracked. apply (krun_then watches); [apply (krun_execute watches)|]. intros [p|]; [|apply (krun_ret watches)].
  apply (krun_then watches); [by apply krun_update|]. intros _. apply (krun_ret watches).
Qed.

Lemma krun_duties vaults tick anchor height :
  krun (Keeper.duties vaults tick anchor height) (fun _ => True).
Proof.
  unfold Keeper.duties. apply (krun_then watches); [by apply krun_update|]. intros _.
  apply (krun_then watches); [apply (krun_gets watches)|]. intros k. destruct (_ && _).
  - apply (krun_then watches); [apply (krun_retry watches), (krun_poke watches)|]. intros [txid|]; [|apply (krun_ret watches)].
    apply (krun_then watches); [by apply krun_update|]. intros _. apply (krun_ret watches).
  - destruct (find _ _); [apply krun_tracked|apply (krun_ret watches)].
Qed.

Lemma krun_step tick : krun (Keeper.step tick) (fun _ => True).
Proof.
  unfold Keeper.step. apply (krun_then watches); [by apply triple_map_error, (krun_wallet watches), run_sync|]. intros ns.
  apply (krun_then watches); [by apply triple_map_error, (krun_wallet watches), run_ask_any|]. intros pr.
  apply (krun_then watches); [apply (krun_gets watches)|]. intros k. cbv zeta.
  case_bool_decide; [apply (krun_ret watches)|]. apply (krun_then watches); [by apply krun_update|]. intros _.
  apply (krun_then watches); [apply (krun_gets watches)|]. intros k1.
  destruct (Keeper.most_urgent _ _ _ _) as [[v a]|]; [apply krun_tracked|apply krun_duties].
Qed.

End Triples.

(** Nothing unsound leaves the keeper either: through every liquidation, poke, refresh,
    consolidation, conflict and fee estimate of a step, whatever the step returns, each
    transaction handed to the node is sound, under the deploy and the keys the purse had; the
    index never goes back. *)
Theorem keeper_sends_sound (tick : OracleTick.t) (k k' : K) (r : result KeeperError (option Performed)) :
  Keeper.step tick k = (r, k') ->
  let w := Keeper.purse k in let w' := Keeper.purse k' in
  Wallet.ctx w' = Wallet.ctx w /\ Wallet.owner w' = Wallet.owner w /\
  Wallet.funding w' = Wallet.funding w /\
  ix_height (Wallet.state w) <= ix_height (Wallet.state w') /\
  exists new, Wallet.sent w' = new ++ Wallet.sent w /\ Forall (sound_tx (seat w)) new.
Proof.
  intros Hs. destruct (krun_step (seat (Keeper.purse k)) tick k eq_refl) as [[Hg _] _].
  rewrite Hs in Hg. destruct Hg. split_and!; done.
Qed.

(** ** The fee of an attempt *)

Lemma rate_fee_bounds rate size : 300 <= Sats.raw (rate_fee rate size) <= 10000.
Proof.
  unfold rate_fee, clamp, FLOOR, FEE. destruct rate as [rate|]; cbn [Sats.raw]; [|lia].
  destruct (Z.ltb_spec (u64_sat_mul (div_ceil_1000 (u64_sat_mul rate size)) HEADROOM) 300); [lia|].
  destruct (Z.ltb_spec 10000 (u64_sat_mul (div_ceil_1000 (u64_sat_mul rate size)) HEADROOM)); lia.
Qed.

(** The estimate covers twice the relay rate, unless it is capped at the flat fee. *)
Lemma rate_fee_covers rate size :
  0 <= rate -> 0 <= size -> rate * size <= U64_MAX ->
  Sats.raw (rate_fee (Some rate) size) = 10000 \/
  2 * (rate * size) <= 1000 * Sats.raw (rate_fee (Some rate) size).
Proof.
  intros Hr Hs Hm. unfold rate_fee, clamp, FLOOR, FEE, HEADROOM, div_ceil_1000. cbn [Sats.raw].
  assert (0 <= rate * size) by nia. unfold U64_MAX in Hm.
  rewrite (u64_sat_mul_eq rate size), Z.min_l by lia.
  set (x := rate * size) in *. pose proof (Z.mul_div_le (x + 999) 1000 ltac:(lia)).
  pose proof (Z.mul_succ_div_gt (x + 999) 1000 ltac:(lia)).
  set (q := (x + 999) / 1000) in *. rewrite (u64_sat_mul_eq q 2), Z.min_l by lia.
  destruct (Z.ltb_spec (q * 2) 300); [right; lia|]. destruct (Z.ltb_spec 10000 (q * 2)); lia.
Qed.

(** An attempt is never dropped for its fee: when the plan at the flat fee cannot be
    built or signed, that error is returned and nothing happens; otherwise exactly one
    transaction reaches the node, the plan rebuilt at the estimated fee when that can be
    built and signed and the provisional one when it cannot, at a fee of 300 to 10,000 sats,
    and the node's verdict on it is the result. *)
Theorem estimated_always_sends (build : Sats.t -> result WalletError TxPlan) (w : W) :
  match p ← build FEE; Wallet.sign p w with
  | Err e => Keeper.broadcast_estimated build w = (Err e, w)
  | Ok provisional =>
      exists rate fee pl tx n,
        let '(r, w') := Keeper.broadcast_estimated build w in
        Wallet.sent w' = tx :: Wallet.sent w /\ r = map_err WBroadcast (send tx n).1 /\
        build fee = Ok pl /\ Wallet.sign pl w = Ok tx /\ 300 <= Sats.raw fee <= 10000 /\
        (relay_feerate_sat_per_kvb (Wallet.node w)).1 = Ok rate /\
        (fee = rate_fee rate (vsize provisional) \/
         fee = FEE /\ tx = provisional /\ forall pl' tx',
           build (rate_fee rate (vsize provisional)) = Ok pl' -> Wallet.sign pl' w = Ok tx' ->
           rate_fee rate (vsize provisional) = FEE)
  end.
Proof.
  unfold Keeper.broadcast_estimated, Ops.ask, lift, gets. unfold mbind at 2, eff_bind.
  destruct (build FEE) as [p0|e] eqn:E0; cbn [mbind result_bind]; [|done].
  unfold mbind, eff_bind. destruct (Wallet.sign p0 w) as [tx0|e] eqn:Es; cbn [result_bind]; [|done].
  unfold Keeper.network_fee, mbind, eff_bind, mret, eff_ret, Wallet.relay_feerate_sat_per_kvb,
    Wallet.on_node, map_error, zoom.
  assert (Hrate : exists rate n, relay_feerate_sat_per_kvb (Wallet.node w) = (Ok rate, n)).
  { unfold relay_feerate_sat_per_kvb. destruct (relayfee (Wallet.node w)) as [[x|e] n]; eauto. }
  destruct Hrate as (rate & n & Hn). rewrite Hn. cbn [map_err fst snd].
  set (w1 := Wallet.with_node w n). set (fee := rate_fee rate (vsize tx0)).
  assert (Hsign : forall p, Wallet.sign p w1 = Wallet.sign p w) by done.
  assert (Hcast : forall tx, Wallet.sent (Wallet.broadcast tx w1).2 = tx :: Wallet.sent w /\
    exists m, (Wallet.broadcast tx w1).1 = map_err WBroadcast (send tx m).1).
  { intros tx. unfold Wallet.broadcast, Wallet.on_node, map_error, zoom.
    destruct (send tx _) as [x m] eqn:Em. split; [done|]. exists n. by rewrite (Em : send tx n = (x, m)). }
  assert (Hb : 300 <= Sats.raw fee <= 10000) by apply rate_fee_bounds.
  assert (Hflat : exists m, (Wallet.broadcast tx0 w1).1 = map_err WBroadcast (send tx0 m).1) by apply Hcast.
  destruct Hflat as [m0 Hm0].
  destruct (Z.leb_spec (Sats.raw FEE) (Sats.raw fee)) as [Hle|Hlt].
  - exists rate, FEE, p0, tx0, m0. destruct (Hcast tx0) as [Hsent _].
    destruct (Wallet.broadcast tx0 w1) as [r w']. split_and!; try done. right. split_and!; [done..|].
    intros _ _ _ _. fold fee. destruct fee as [x]. unfold FEE in *. cbn in *. f_equal. lia.
  - destruct (build fee) as [pl|e] eqn:Ef; cbn [result_bind];
      [destruct (Wallet.sign pl w1) as [tx|e] eqn:Et|].
    + destruct (Hcast tx) as [Hsent [m Hm]]. exists rate, fee, pl, tx, m.
      destruct (Wallet.broadcast tx w1) as [r w'].
      split_and!; [done|done|done|exact Et|apply Hb|apply Hb|done|by left].
    + exists rate, FEE, p0, tx0, m0. destruct (Hcast tx0) as [Hsent _].
      destruct (Wallet.broadcast tx0 w1) as [r w']. split_and!; try done. right. split_and!; [done..|].
      fold fee. intros pl' tx' Hpl. rewrite Ef in Hpl. injection Hpl as <-. by rewrite <- Hsign, Et.
    + exists rate, FEE, p0, tx0, m0. destruct (Hcast tx0) as [Hsent _].
      destruct (Wallet.broadcast tx0 w1) as [r w']. split_and!; try done. right. split_and!; [done..|].
      fold fee. by rewrite Ef.
Qed.

End Patrols.
