(* ===== verification/Patrol.v ===== *)
(** * Steps and patrols of the keeper

    What a step did and why, against the vaults in reach after its sync, and the log of
    actions of a patrol: any sequence of quotes absorbed and steps taken. *)

From Stdlib Require Import ZArith Lia Sorted.
From stdpp Require Import base gmap strings option list.
From S2P Require Import Prelude Hex Units CrMath Elements Oracle Simf Encode Domain Artifacts Jets.
From S2P Require Import CovVault CovReserve CovIssuer Plan BuildOwner BuildKeeper Accept CovLemmas.
From S2P Require Import CovAccept Sound Decide Pset Quotes Effects Node Index Sync Snapshot Config.
From S2P Require Import Wallet Ops WalletSpec OpsSpec Keeper KeeperSpec.

(** What executing an action on a vault may report. *)
Definition reports (vault : OutPoint) (action : Action.t) (p : Performed) : Prop :=
  p = PResolvedElsewhere vault \/
  exists txid, match action with
               | Action.Partial dd _ => p = PPartial vault dd txid
               | Action.FullLiq => p = PFullLiq vault txid
               | Action.BadDebt => p = PBadDebt vault txid
               | Action.Refresh => p = PRefreshed vault txid
               | Action.Nothing => False
               end.

(** A verdict that liquidates, and the order of severity: bad debt, then a full liquidation,
    then a partial one. *)
Definition liquidates (a : Action.t) : Prop := a <> Action.Nothing /\ a <> Action.Refresh.
Definition outranks (a b : Action.t) : Prop :=
  match b with
  | Action.BadDebt => a = Action.BadDebt
  | Action.FullLiq => a = Action.BadDebt \/ a = Action.FullLiq
  | Action.Partial _ _ => liquidates a
  | _ => True
  end.

Lemma rank_liquidates a : 0 < rank a <-> liquidates a.
Proof. unfold liquidates. destruct a; cbn; (split; [intros H; split; (done || lia)|intros []; (done || lia)]). Qed.
Lemma rank_outranks a b : 0 < rank a -> rank b <= rank a -> outranks a b.
Proof. destruct a, b; cbn; intros; unfold liquidates; (done || lia || auto). Qed.

Section Steps.
Context `{HL : Lib, XP : XOnlyParse, HS : SigHash, RD : Redeemer, KS : KeySpend, TS : TxSize}.
Context {N D : Type} `{RP : Rpc N, DP : Display, OO : OutPointOrder, JS : Json, DK : Disk D}.

Abbreviation K := (Keeper.t N D) (only parsing).
Abbreviation W := (Wallet.t N D) (only parsing).

(** A call keeps the keeper's memory and moves its purse along. *)
Lemma execute_attempts vault action tick (k k' : K) r :
  Keeper.execute vault action tick k = (r, k') -> attempts k k'.
Proof.
  intros He. destruct (krun_execute (seat (Keeper.purse k)) attempts vault action tick k eq_refl)
    as [Hr _]. by rewrite He in Hr.
Qed.

Lemma execute_reports vault action tick (k k' : K) o :
  Keeper.execute vault action tick k = (Ok o, k') ->
  match o with Some p => reports vault action p | None => action = Action.Nothing end.
Proof.
  destruct action; cbn [Keeper.execute]; [by intros [= <- _]|..]; unfold fmap, eff_fmap;
    (destruct (Keeper.with_retry _ _ k) as [[txid|e] k1]; [|done]); intros [= <- _];
    (destruct txid as [txid|]; [right; by exists txid|by left]).
Qed.

Lemma tracked_outcome vault action tick h (k k' : K) r :
  Keeper.execute_tracked vault action tick h k = (r, k') ->
  patrols k k' /\ Keeper.poked k' = Keeper.poked k /\
  match r with
  | Ok (Some p) => reports vault action p /\ Keeper.acted k' = <[vault := h]> (Keeper.acted k) /\
                   Keeper.last_acted_height k' = Some h
  | Ok None => action = Action.Nothing /\ Keeper.last_acted_height k' = Keeper.last_acted_height k
  | Err _ => Keeper.last_acted_height k' = Keeper.last_acted_height k
  end.
Proof.
  unfold Keeper.execute_tracked. intros Ht.
  apply eff_bind_inv in Ht as [(o & k1 & He & Ht)|(e & He & ->)];
    destruct (execute_attempts _ _ _ _ _ _ He) as [Hg [= _ _ Ha Hp Hl]]; [|done].
  apply execute_reports in He. destruct o as [p|]; injection Ht as <- <-; [|done].
  cbn. split_and!; [exact Hg|done|done|by rewrite Ha|done].
Qed.

(** ** The vaults in reach of a step *)

Definition anchor_of (pr : ProtocolState) : BlockHeight.t := last_mint_height (state (issuer pr)).

(** A vault of the synced index that is known and not sitting out an earlier action. *)
Definition in_reach (k : K) (w1 : W) (v : OnChain VaultState) : Prop :=
  (exists t, ix_vaults (Wallet.state w1) !! outpoint v = Some t /\ known t (outpoint v) = Some v) /\
  forall at_height, Keeper.acted k !! outpoint v = Some at_height ->
    u32_sat_add at_height ACTED_RETRY_BLOCKS <= ix_height (Wallet.state w1).

Lemma known_outpoint t op v : known t op = Some v -> outpoint v = op.
Proof. unfold known. intros (o & _ & [= <-])%bind_Some. done. Qed.

(** The keeper as [step] leaves it to the choice of an action. *)
Definition ready (k : K) (w1 : W) : K :=
  Keeper.with_acted
    (Keeper.still_acted (ix_vaults (Wallet.state w1)) (ix_height (Wallet.state w1)) (Keeper.acted k))
    (Keeper.with_purse w1 k).

Lemma in_play_reach (k : K) (w1 : W) v : v ∈ Keeper.in_play (ready k w1) <-> in_reach k w1 v.
Proof.
  unfold Keeper.in_play, Keeper.known_vaults, in_reach.
  rewrite sort_by_perm, list_elem_of_filter, list_elem_of_omap. unfold ready. cbn.
  unfold Keeper.still_acted. rewrite map_lookup_filter_None. split.
  - intros [Hn ([op t] & Hx%btree_iter_elem & Hk)]. cbn in Hk.
    pose proof (known_outpoint _ _ _ Hk) as <-. split; [by exists t|].
    intros h Hh. destruct Hn as [Hn|Hn]; [congruence|]. specialize (Hn h Hh). cbn in Hn.
    destruct (Z.le_gt_cases (u32_sat_add h ACTED_RETRY_BLOCKS) (ix_height (Wallet.state w1))); [done|].
    destruct Hn. split; [by exists t|done].
  - intros [(t & Ht & Hk) Hs]. split.
    + right. intros h Hh [_ Hlt]. cbn in Hlt. specialize (Hs h Hh). lia.
    + exists (outpoint v, t). split; [by apply btree_iter_elem|done].
Qed.

Lemma rank_le_total x y : rank_le x y = true \/ rank_le y x = true.
Proof. unfold rank_le. rewrite !Z.leb_le. lia. Qed.
Lemma rank_le_trans x y z : rank_le x y = true -> rank_le y z = true -> rank_le x z = true.
Proof. unfold rank_le. rewrite !Z.leb_le. lia. Qed.

Lemma most_urgent_some vs tick anchor lag v a :
  Keeper.most_urgent vs tick anchor lag = Some (v, a) ->
  v ∈ vs /\ a = Ladder.decide v tick anchor lag FEE /\ 0 < rank a /\
  forall v', v' ∈ vs -> rank (Ladder.decide v' tick anchor lag FEE) <= rank a.
Proof.
  intros Hm. pose proof (max_by_elem _ _ _ Hm) as [Hpos Hv]%list_elem_of_filter.
  apply list_elem_of_fmap in Hv as (v0 & [= <- ->] & Hv). split_and!; [done|done|done|].
  intros v' Hv'. destruct (Z.lt_ge_cases 0 (rank (Ladder.decide v' tick anchor lag FEE))) as [Hlt|Hge].
  - apply Z.leb_le. apply (max_by_ub _ _ _ rank_le_total rank_le_trans Hm (v', Ladder.decide v' tick anchor lag FEE)).
    apply list_elem_of_filter. split; [done|]. apply list_elem_of_fmap. by exists v'.
  - cbn in Hpos. lia.
Qed.

Lemma most_urgent_none vs tick anchor lag :
  Keeper.most_urgent vs tick anchor lag = None ->
  forall v, v ∈ vs -> rank (Ladder.decide v tick anchor lag FEE) <= 0.
Proof.
  intros Hm v Hv. destruct (Z.lt_ge_cases 0 (rank (Ladder.decide v tick anchor lag FEE))) as [Hlt|]; [|done].
  unfold Keeper.most_urgent in Hm. set (l := filter _ _) in Hm.
  assert (Hin : (v, Ladder.decide v tick anchor lag FEE) ∈ l).
  { apply list_elem_of_filter. split; [done|]. apply list_elem_of_fmap. by exists v. }
  destruct (max_by_some rank_le l) as [x Hx]; [|congruence]. intros E. rewrite E in Hin.
  by apply not_elem_of_nil in Hin.
Qed.

(** The anchor lags the tick, and no poke at this anchor is still awaited. *)
Definition poke_called (k : K) (tick : OracleTick.t) (anchor : BlockHeight.t) (height : Z) : Prop :=
  poke_lag (Keeper.opts k) < u32_sat_sub (BlockHeight.raw (OracleTick.height tick)) (BlockHeight.raw anchor) /\
  forall at_height, Keeper.poked k = Some (anchor, at_height) ->
    u32_sat_add at_height ACTED_RETRY_BLOCKS <= height.

Lemma poke_called_spec (k : K) tick anchor height :
  bool_decide (Keeper.still_poked anchor height (Keeper.poked k) = None) && Keeper.poke_due k tick anchor = true
  <-> poke_called k tick anchor height.
Proof.
  rewrite andb_true_iff, bool_decide_eq_true. unfold Keeper.poke_due, poke_called. rewrite Z.ltb_lt.
  assert (Hn : Keeper.still_poked anchor height (Keeper.poked k) = None <->
    forall at_height, Keeper.poked k = Some (anchor, at_height) ->
      u32_sat_add at_height ACTED_RETRY_BLOCKS <= height); [|naive_solver].
  destruct (Keeper.poked k) as [[a at_height]|]; cbn; [|done]. case_bool_decide as Ha; cbn.
  - subst a. destruct (Z.ltb_spec height (u32_sat_add at_height ACTED_RETRY_BLOCKS)).
    + split; [done|]. intros Hx. specialize (Hx _ eq_refl). lia.
    + split; [|done]. intros _ x [= <-]. lia.
  - split; [|done]. intros _ x [= -> _]. done.
Qed.

Lemma duties_outcome vs tick anchor h (k k' : K) r :
  let verdict v := Ladder.decide v tick anchor (refresh_lag (Keeper.opts k)) FEE in
  Keeper.duties vs tick anchor h k = (r, k') ->
  match r with
  | Ok (Some p) => Keeper.last_acted_height k' = Some h /\
      ((exists txid, p = PPoked txid /\ poke_called k tick anchor h /\ Keeper.poked k' = Some (anchor, h)) \/
       (exists v, v ∈ vs /\ verdict v = Action.Refresh /\ reports (outpoint v) Action.Refresh p /\
          Keeper.acted k' !! outpoint v = Some h /\ ~ poke_called k tick anchor h))
  | Ok None => Keeper.last_acted_height k' = Keeper.last_acted_height k /\
      forall v, v ∈ vs -> verdict v = Action.Refresh -> poke_called k tick anchor h
  | Err _ => Keeper.last_acted_height k' = Keeper.last_acted_height k
  end.
Proof.
  intros verdict Hd. unfold Keeper.duties in Hd.
  unfold mbind at 1, eff_bind at 1, update, mbind at 1, eff_bind at 1, gets, id in Hd.
  set (k1 := Keeper.with_poked _ k) in Hd.
  assert (Hcall : bool_decide (Keeper.poked k1 = None) && Keeper.poke_due k1 tick anchor = true <->
    poke_called k tick anchor h) by (rewrite <- poke_called_spec; done).
  destruct (bool_decide (Keeper.poked k1 = None) && _).
  - pose proof (proj1 Hcall eq_refl) as Hc.
    apply eff_bind_inv in Hd as [(txid & k2 & Hw & Hd)|(e & Hw & ->)];
      destruct (krun_retry (seat (Keeper.purse k1)) attempts "poke" _
        (krun_poke _ attempts tick) k1 eq_refl) as [Hr _]; rewrite Hw in Hr;
      destruct Hr as [_ [= _ _ _ _ Hl]]; [|done].
    destruct txid as [txid|]; injection Hd as <- <-; cbn.
    + split; [done|]. left. by exists txid.
    + split; [done|]. by intros v _ _.
  - assert (Hc : ~ poke_called k tick anchor h) by (intros ?%Hcall; done).
    destruct (find _ vs) as [v|] eqn:Ef.
    + apply List.find_some in Ef as [Hv%list_elem_of_In Hb%bool_decide_eq_true].
      apply tracked_outcome in Hd as (_ & Hp & Ho). destruct r as [[p|]|e]; [|by destruct Ho|done].
      destruct Ho as (Hrep & Ha & Hl). split; [done|]. right. exists v. split_and!; try done.
      by rewrite Ha, lookup_insert_eq.
    + injection Hd as <- <-. split; [done|]. intros v Hv%list_elem_of_In Hr.
      pose proof (List.find_none _ _ Ef v Hv) as Hb. by apply bool_decide_eq_false in Hb.
Qed.

(** ** One step *)

(** The choice of a step, once the purse is synced. *)
Definition chosen (k : K) (w1 : W) (pr : ProtocolState) (tick : OracleTick.t) (k' : K)
    (o : option Performed) : Prop :=
  let height := ix_height (Wallet.state w1) in
  let verdict v := Ladder.decide v tick (anchor_of pr) (refresh_lag (Keeper.opts k)) FEE in
  let quiet := forall v, in_reach k w1 v -> ~ liquidates (verdict v) in
  match o with
  | Some p =>
      Keeper.last_acted_height k <> Some height /\ Keeper.last_acted_height k' = Some height /\
      ((exists v, in_reach k w1 v /\ liquidates (verdict v) /\
          (forall v', in_reach k w1 v' -> outranks (verdict v) (verdict v')) /\
          reports (outpoint v) (verdict v) p /\ Keeper.acted k' !! outpoint v = Some height) \/
       (quiet /\ poke_called k tick (anchor_of pr) height /\ Keeper.poked k' = Some (anchor_of pr, height) /\
          exists txid, p = PPoked txid) \/
       (quiet /\ ~ poke_called k tick (anchor_of pr) height /\
          exists v, in_reach k w1 v /\ verdict v = Action.Refresh /\
            reports (outpoint v) Action.Refresh p /\ Keeper.acted k' !! outpoint v = Some height))
  | None =>
      if bool_decide (Keeper.last_acted_height k = Some height) then k' = Keeper.with_purse w1 k
      else Keeper.last_acted_height k' = Keeper.last_acted_height k /\ quiet /\
           forall v, in_reach k w1 v -> verdict v = Action.Refresh ->
             poke_called k tick (anchor_of pr) height
  end.

(** The duty of a step that did nothing keeps the record of the last action. *)
Lemma chosen_idle k w1 pr tick k' :
  chosen k w1 pr tick k' None -> Keeper.last_acted_height k' = Keeper.last_acted_height k.
Proof. unfold chosen. case_bool_decide; [by intros ->|by intros [? _]]. Qed.

(** The step, once the purse is synced. *)
Lemma step_synced tick (k : K) ns w1 pr :
  Wallet.sync (Keeper.purse k) = (Ok ns, w1) -> Wallet.protocol w1 = Ok pr ->
  let vs := Keeper.in_play (ready k w1) in
  let height := ix_height (Wallet.state w1) in
  Keeper.step tick k =
    if bool_decide (Keeper.last_acted_height k = Some height) then (Ok None, Keeper.with_purse w1 k)
    else match Keeper.most_urgent vs tick (anchor_of pr) (refresh_lag (Keeper.opts k)) with
         | Some (v, a) => Keeper.execute_tracked (outpoint v) a tick height
         | None => Keeper.duties vs tick (anchor_of pr) height
         end (ready k w1).
Proof.
  intros Hy Hp vs height. unfold Keeper.step. unfold mbind at 1, eff_bind at 1.
  unfold map_error at 1, Keeper.wallet at 1, zoom at 1. rewrite Hy. cbn [map_err].
  unfold mbind at 1, eff_bind at 1, map_error at 1, Keeper.wallet at 1, zoom at 1, Ops.ask at 1.
  change (Keeper.purse (Keeper.with_purse w1 k)) with w1. rewrite Hp. cbn [map_err].
  change (Keeper.with_purse w1 (Keeper.with_purse w1 k)) with (Keeper.with_purse w1 k).
  unfold mbind at 1, eff_bind at 1, gets at 1. cbv zeta.
  change (id (Keeper.with_purse w1 k)) with (Keeper.with_purse w1 k).
  change (Keeper.purse (Keeper.with_purse w1 k)) with w1.
  change (Keeper.last_acted_height (Keeper.with_purse w1 k)) with (Keeper.last_acted_height k).
  fold height. by case_bool_decide.
Qed.

Lemma step_cases tick (k k' : K) r :
  Keeper.step tick k = (r, k') ->
  exists rs w1, Wallet.sync (Keeper.purse k) = (rs, w1) /\
  ((exists e, r = Err e /\ k' = Keeper.with_purse w1 k) \/
   exists ns pr, rs = Ok ns /\ Wallet.protocol w1 = Ok pr /\
     (r, k') = if bool_decide (Keeper.last_acted_height k = Some (ix_height (Wallet.state w1)))
       then (Ok None, Keeper.with_purse w1 k)
       else match Keeper.most_urgent (Keeper.in_play (ready k w1)) tick (anchor_of pr)
                    (refresh_lag (Keeper.opts k)) with
            | Some (v, a) => Keeper.execute_tracked (outpoint v) a tick (ix_height (Wallet.state w1))
            | None => Keeper.duties (Keeper.in_play (ready k w1)) tick (anchor_of pr)
                        (ix_height (Wallet.state w1))
            end (ready k w1)).
Proof.
  intros Hs. destruct (Wallet.sync (Keeper.purse k)) as [rs w1] eqn:Ey. exists rs, w1. split; [done|].
  destruct rs as [ns|e]; [destruct (Wallet.protocol w1) as [pr|e] eqn:Ep|].
  { right. exists ns, pr. split_and!; [done..|]. by rewrite <- (step_synced tick k ns w1 pr Ey Ep). }
  all: left; unfold Keeper.step in Hs; unfold mbind at 1, eff_bind at 1, map_error at 1 in Hs;
    unfold Keeper.wallet at 1, zoom at 1 in Hs; rewrite Ey in Hs; cbn [map_err] in Hs.
  - unfold mbind at 1, eff_bind at 1, map_error at 1, Keeper.wallet at 1, zoom at 1, Ops.ask at 1 in Hs.
    change (Keeper.purse (Keeper.with_purse w1 k)) with w1 in Hs. rewrite Ep in Hs.
    injection Hs as <- <-. by eexists.
  - injection Hs as <- <-. by eexists.
Qed.

(** What follows the sync only moves the purse along. *)
Lemma step_after_sync tick (k k' : K) r rs w1 :
  Keeper.step tick k = (r, k') -> Wallet.sync (Keeper.purse k) = (rs, w1) ->
  ix_height (Wallet.state w1) <= ix_height (Wallet.state (Keeper.purse k')).
Proof.
  intros (rs' & w1' & Hy & Hc)%step_cases Hy'. rewrite Hy in Hy'. injection Hy' as -> ->.
  destruct Hc as [(e & _ & ->)|(ns & pr & _ & _ & Hc)]; [done|].
  case_bool_decide; [by injection Hc as _ ->|].
  assert (Hg : patrols (ready k w1) k'); [|by destruct Hg].
  destruct (Keeper.most_urgent _ _ _ _) as [[v a]|].
  - destruct (krun_tracked (seat w1) (outpoint v) a tick (ix_height (Wallet.state w1))
      (ready k w1) eq_refl) as [[Hg _] _]. by rewrite <- Hc in Hg.
  - destruct (krun_duties (seat w1) (Keeper.in_play (ready k w1)) tick (anchor_of pr)
      (ix_height (Wallet.state w1)) (ready k w1) eq_refl) as [[Hg _] _]. by rewrite <- Hc in Hg.
Qed.

Lemma step_outcome tick (k k' : K) r :
  Keeper.step tick k = (r, k') ->
  exists rs w1, Wallet.sync (Keeper.purse k) = (rs, w1) /\
  match r with
  | Ok o => exists pr, is_ok rs = true /\ Wallet.protocol w1 = Ok pr /\ chosen k w1 pr tick k' o
  | Err _ => Keeper.last_acted_height k' = Keeper.last_acted_height k
  end.
Proof.
  intros (rs & w1 & Hy & Hs)%step_cases. exists rs, w1. split; [done|].
  destruct Hs as [(e & -> & ->)|(ns & pr & -> & Hpr & Hs)]; [done|]. case_bool_decide as Hlast.
  { injection Hs as -> ->. exists pr. split_and!; [done..|]. cbn. by rewrite bool_decide_true. }
  symmetry in Hs.
  destruct (Keeper.most_urgent _ _ _ _) as [[v a]|] eqn:Em.
  - apply most_urgent_some in Em as (Hv%in_play_reach & -> & Hpos & Hmax).
    apply tracked_outcome in Hs as (_ & _ & Ho). destruct r as [[p|]|e]; [|by destruct Ho as [Ho _]; rewrite Ho in Hpos|done].
    destruct Ho as (Hrep & Ha & Hl). exists pr. split_and!; [done..|]. split_and!; [done..|]. left.
    pose proof (proj1 (rank_liquidates _) Hpos) as Hlq. exists v.
    split_and!; [done|exact Hlq| |done|by rewrite Ha, lookup_insert_eq].
    intros v' Hv'. apply rank_outranks; [done|]. by apply Hmax, in_play_reach.
  - pose proof (most_urgent_none _ _ _ _ Em) as Hq. apply duties_outcome in Hs.
    assert (Hquiet : forall v, in_reach k w1 v ->
      ~ liquidates (Ladder.decide v tick (anchor_of pr) (refresh_lag (Keeper.opts k)) FEE)).
    { intros v Hv Hl%rank_liquidates. apply in_play_reach, Hq in Hv. lia. }
    destruct r as [[p|]|e]; [| |done]; exists pr; (split_and!; [done..|]); destruct Hs as [Hl Hs].
    + split_and!; [done..|]. right. destruct Hs as [(txid & -> & Hc & Hp)|(v & Hv%in_play_reach & Hd & Hrep & Ha & Hc)].
      * left. split_and!; [done..|by exists txid].
      * right. split_and!; [done..|]. by exists v.
    + unfold chosen. rewrite bool_decide_false by done. split_and!; [done..|]. intros v Hv Hr. by eapply Hs; [apply in_play_reach|].
Qed.

(** C21: A step that returns did its duty, given one action per block.  When it performed an
    action, it was the first at this height; the action is the verdict of the ladder on a
    vault in reach, of the greatest severity in reach, or the poke, when nothing in reach
    needs liquidating and the anchor lags, or else a refresh; and it is put on record.  When
    it performed none, either it had acted at this height already and only synced, whatever
    else is in reach; or nothing in reach needs liquidating, and no refresh is due unless the
    poke came first. *)
Theorem step_duty (tick : OracleTick.t) (k k' : K) (o : option Performed) :
  Keeper.step tick k = (Ok o, k') ->
  exists ns w1 pr, Wallet.sync (Keeper.purse k) = (Ok ns, w1) /\ Wallet.protocol w1 = Ok pr /\
    chosen k w1 pr tick k' o.
Proof.
  intros Hs. apply step_outcome in Hs as ([ns|e] & w1 & Hy & pr & Hok & Hp & Hc); [|done].
  by exists ns, w1, pr.
Qed.

(** ** Patrols *)

(** Any sequence of syncs, quotes absorbed and steps taken, whatever they return, with the
    log of the actions performed and the height each step acted at. *)
Inductive patrol : K -> list (Z * Performed) -> K -> Prop :=
| patrol_end k : patrol k [] k
| patrol_hears q k k1 log k' : Keeper.absorb q k = Some k1 -> patrol k1 log k' -> patrol k log k'
| patrol_syncs k rs w1 log k' :
    Wallet.sync (Keeper.purse k) = (rs, w1) -> patrol (Keeper.with_purse w1 k) log k' -> patrol k log k'
| patrol_quiet tick k r k1 log k' :
    Keeper.step tick k = (r, k1) -> (forall p, r <> Ok (Some p)) -> patrol k1 log k' -> patrol k log k'
| patrol_acts tick k p k1 rs w1 log k' :
    Keeper.step tick k = (Ok (Some p), k1) -> Wallet.sync (Keeper.purse k) = (rs, w1) ->
    patrol k1 log k' -> patrol k ((ix_height (Wallet.state w1), p) :: log) k'.

Lemma sync_height (w w1 : W) rs :
  Wallet.sync w = (rs, w1) -> ix_height (Wallet.state w) <= ix_height (Wallet.state w1).
Proof. intros Hs. destruct (run_sync (seat w) w eq_refl) as [Hg _]. rewrite Hs in Hg. apply Hg. Qed.

Lemma step_watches tick (k k' : K) r : Keeper.step tick k = (r, k') -> watches k k'.
Proof.
  intros Hs. destruct (krun_step (seat (Keeper.purse k)) tick k eq_refl) as [Hg _].
  by rewrite Hs in Hg.
Qed.

Lemma step_height tick (k k' : K) r :
  Keeper.step tick k = (r, k') ->
  ix_height (Wallet.state (Keeper.purse k)) <= ix_height (Wallet.state (Keeper.purse k')).
Proof. intros Hs%step_watches. apply Hs. Qed.

(** The last action is not ahead of the index. *)
Definition on_time (k : K) : Prop :=
  forall h, Keeper.last_acted_height k = Some h -> h <= ix_height (Wallet.state (Keeper.purse k)).

(** A height is still open for an action: the index reached it, and no action was at it. *)
Definition open_height (k : K) (h : Z) : Prop :=
  ix_height (Wallet.state (Keeper.purse k)) <= h /\ Keeper.last_acted_height k <> Some h.

Lemma absorb_keeps (k k1 : K) q :
  Keeper.absorb q k = Some k1 ->
  Keeper.purse k1 = Keeper.purse k /\ Keeper.last_acted_height k1 = Keeper.last_acted_height k.
Proof. intros (r & _ & [= <-])%bind_Some. by destruct r. Qed.

Lemma step_quiet tick (k k1 : K) r :
  Keeper.step tick k = (r, k1) -> (forall p, r <> Ok (Some p)) ->
  Keeper.last_acted_height k1 = Keeper.last_acted_height k.
Proof.
  intros Hs Hr. apply step_outcome in Hs as (rs & w1 & _ & Ho). destruct r as [[p|]|e]; [|..|done].
  - by destruct (Hr p).
  - destruct Ho as (pr & _ & _ & Hc). by eapply chosen_idle.
Qed.

Lemma patrol_sends (k k' : K) log : patrol k log k' -> patrols k k'.
Proof.
  induction 1 as [k|q k k1 log k' Ha _ IH|k rs w1 log k' Hy _ IH|tick k r k1 log k' Hs Hr _ IH
    |tick k p k1 rs w1 log k' Hs Hy _ IH]; [done|..]; (etrans; [|exact IH]).
  - apply absorb_keeps in Ha as [Hp _]. unfold patrols. by rewrite Hp.
  - destruct (run_sync (seat (Keeper.purse k)) (Keeper.purse k) eq_refl) as [Hg _]. by rewrite Hy in Hg.
  - by apply step_watches in Hs as [? _].
  - by apply step_watches in Hs as [? _].
Qed.

Lemma patrol_log (k k' : K) log :
  patrol k log k' -> on_time k ->
  StronglySorted Z.lt (fst <$> log) /\ Forall (fun e => open_height k e.1) log.
Proof.
  induction 1 as [k|q k k1 log k' Ha _ IH|k rs w1 log k' Hy _ IH|tick k r k1 log k' Hs Hr _ IH
    |tick k p k1 rs w1 log k' Hs Hy _ IH]; intros Hk.
  - split; constructor.
  - apply absorb_keeps in Ha as [Hp Hl]. unfold on_time, open_height in *. rewrite Hp, Hl in IH. by apply IH.
  - apply sync_height in Hy. destruct IH as [Hlog Hopen]; [intros h ?%Hk; cbn; lia|]. split; [done|].
    eapply Forall_impl; [exact Hopen|]. intros e [? ?]. split; [cbn in *; lia|done].
  - pose proof (step_height _ _ _ _ Hs) as Hh. pose proof (step_quiet _ _ _ _ Hs Hr) as Hl.
    destruct IH as [Hlog Hopen]; [intros h; rewrite Hl; intros Hh'%Hk; lia|]. split; [done|].
    eapply Forall_impl; [exact Hopen|]. intros e [? ?]. split; [lia|congruence].
  - pose proof (step_height _ _ _ _ Hs) as Hh. pose proof (sync_height _ _ _ Hy) as Hh1.
    pose proof Hs as (rs' & w1' & Hy' & pr & _ & _ & Hnew & Hl & _)%step_outcome.
    rewrite Hy in Hy'. injection Hy' as <- <-. assert (Hh2 : ix_height (Wallet.state w1) <=
      ix_height (Wallet.state (Keeper.purse k1))) by (eapply step_after_sync; done).
    destruct IH as [Hlog Hopen]; [intros h; rewrite Hl; intros [= <-]; done|]. cbn [fmap list_fmap fst].
    rewrite Forall_forall in Hopen. split.
    + constructor; [done|]. apply Forall_fmap, Forall_forall. intros e He. cbn.
      destruct (Hopen e He) as [Ho1 Ho2]. rewrite Hl in Ho2. assert (e.1 <> ix_height (Wallet.state w1)) by congruence. lia.
    + apply Forall_cons. split; [by split|]. apply Forall_forall. intros e He.
      destruct (Hopen e He) as [Ho1 Ho2]. rewrite Hl in Ho2. assert (e.1 <> ix_height (Wallet.state w1)) by congruence.
      split; [lia|]. intros Hk'%Hk. lia.
Qed.

(** One action per block: over any patrol of a fresh keeper, through quotes, idle steps,
    failures, conflicts and lost races, the heights of the actions it performed strictly
    increase, and none is below the height of the index it started from. *)
Theorem one_action_per_block (w : W) (o : KeeperOpts) (log : list (Z * Performed)) (k' : K) :
  patrol (Keeper.new w o) log k' ->
  StronglySorted Z.lt (fst <$> log) /\ Forall (fun e => ix_height (Wallet.state w) <= e.1) log.
Proof.
  intros Hp. destruct (patrol_log _ _ _ Hp) as [Hs Ho]; [done|]. split; [done|].
  eapply Forall_impl; [exact Ho|]. by intros e [? _].
Qed.

End Steps.
