(* ===== verification/Daemon.v ===== *)
(** * The keeper daemon ([styx-keeper/src/main.rs])

    How the watchtower starts and its loop: sync, hear the oracles, act on the freshest
    tick, and when to give up.  Instants are nanoseconds of a monotone clock, read once per
    pass; a run is the sequence of its passes, each with what arrived from the relays, and
    ends by a verdict of the loop or by Ctrl-C.  What the daemon prints is the log of its
    passes. *)

From Stdlib Require Import ZArith Lia Sorted.
From stdpp Require Import base gmap strings option list.
From S2P Require Import Prelude Hex Units CrMath Elements Oracle Simf Domain Encode Artifacts.
From S2P Require Import Jets CovVault CovReserve CovIssuer Plan BuildOwner BuildKeeper Accept.
From S2P Require Import CovLemmas CovAccept Sound Quotes Decide Pset Effects Node Index Sync.
From S2P Require Import Snapshot Config Relay Wallet Ops WalletSpec OpsSpec Keeper KeeperSpec.
From S2P Require Import Patrol.

Definition NODE_DOWN_FATAL : Z := 600000000000.

(** The errors [main] returns before its loop. *)
Inductive StartError : Type :=
| StPurse (e : WalletError)
| StConfig (e : WalletConfigError)
| StStyxnet (e : ConfigError)
| StAuthor
| StQuorum (n : nat)
| StTransport (e : TransportError).

(** How the loop ends by itself. *)
Inductive Verdict : Type :=
| Rejected (e : KeeperError)
| NodeDown (secs : Z) (e : WalletError)
| SyncFailed (e : WalletError).

Definition exit_code (v : Verdict) : Z :=
  match v with Rejected _ => REJECTED_EXIT | _ => 1 end.

(** What a pass did: the tick it stepped on and the outcome, or why it could not sync. *)
Inductive Pass : Type :=
| Watched (step : option (OracleTick.t * result KeeperError (option Performed)))
| Unsynced (now : Z) (e : WalletError).

Module Daemon.

Record t (N D : Type) : Type := mk {
  keeper : Keeper.t N D;
  transport : NostrQuotes.t;
  node_down_since : option Z
}.
Arguments mk {N D} _ _ _.
Arguments keeper {N D} _.
Arguments transport {N D} _.
Arguments node_down_since {N D} _.

Section Daemon.
Context `{Lib, XOnlyParse, SigHash, Redeemer, KeySpend, TxSize, Compiler}.
Context {N D : Type} `{Rpc N, Display, OutPointOrder, Json, Disk D, AssetParse, SecretKey}.
Context {F : Type} `{Toml KeeperConfig, Toml StyxnetConfig, Files F}.
Context {R : Type} `{QuoteSerde, Client R}.

(** ** Booting *)

(** What one attempt to open the session finds: the files, the node, the snapshot, and the
    time since the first. *)
Record Attempt : Type := mkAttempt { at_files : F; at_node : N; at_disk : D; at_elapsed : Z }.

Inductive Boot : Type :=
| Opened (w : Wallet.t N D)
| BootFailed (e : WalletError)
| BootPanic
| Retrying.

(** [Wallet::open_session], the reading of [styxnet.toml] included. *)
Definition open_purse (cfg : WalletConfig) (fs : F) (n : N) (d : D) : option (result WalletError (Wallet.t N D)) :=
  match Styxnet.load (wc_styxnet cfg) fs with
  | Err e => Some (Err (WStyxnet e))
  | Ok net => Wallet.open_session cfg net n d
  end.

Fixpoint boot (cfg : KeeperConfig) (attempts : list Attempt) : Boot :=
  match attempts with
  | [] => Retrying
  | a :: attempts =>
      match open_purse (kc_purse cfg) (at_files a) (at_node a) (at_disk a) with
      | None => BootPanic
      | Some (Ok w) => Opened w
      | Some (Err e) =>
          if is_node_down e && (at_elapsed a <? NODE_DOWN_FATAL) then boot cfg attempts
          else BootFailed e
      end
  end.

(** From the open session to the loop. *)
Definition up (cfg : KeeperConfig) (net : StyxnetConfig) (w : Wallet.t N D) (ephemeral : bytes)
    : Eff R StartError (t N D) :=
  let keeper := Keeper.new w (KeeperFile.opts cfg) in
  authors ← lift (ok_or StAuthor (NostrQuotes.relay_authors (sn_oracles net)));
  if (length authors <? 3)%nat then throw (StQuorum (length authors)) else
  transport ← map_error StTransport
    (NostrQuotes.subscriber ephemeral (no_relays (sn_nostr net)) authors);
  mret (mk keeper transport None).

(** What starting comes to. *)
Inductive Started : Type :=
| Up (s : t N D)
| Panicked
| StillBooting.

(** [main] up to the loop. *)
Definition start (path : bytes) (fs : F) (attempts : list Attempt) (ephemeral : bytes)
    : Eff R StartError Started :=
  cfg ← lift (map_err StConfig (KeeperFile.load path fs));
  net ← lift (map_err StStyxnet (Styxnet.load (wc_styxnet (kc_purse cfg)) fs));
  match boot cfg attempts with
  | Opened w => s ← up cfg net w ephemeral; mret (Up s)
  | BootFailed e => throw (StPurse e)
  | BootPanic => mret Panicked
  | Retrying => mret StillBooting
  end.

(** ** The loop *)

(** [Keeper::drain]: the quotes that have arrived, [n] reads at most.  [None]: a panic of
    the book. *)
Fixpoint drain_from (n : nat) (k : Keeper.t N D) (tr : NostrQuotes.t)
    : option (Keeper.t N D * NostrQuotes.t) :=
  match n with
  | O => Some (k, tr)
  | S n =>
      match NostrQuotes.recv tr with
      | (Some (Ok q), tr) => k ← Keeper.absorb q k; drain_from n k tr
      | (_, tr) => Some (k, tr)
      end
  end.

Definition drain (k : Keeper.t N D) (tr : NostrQuotes.t) : option (Keeper.t N D * NostrQuotes.t) :=
  drain_from (S (length (NostrQuotes.notifications tr))) k tr.

(** [since.elapsed()] saturates at zero. *)
Definition elapsed (now since : Z) : Z := Z.max 0 (now - since).

(** One pass of the loop, after [arrived] came in. *)
Definition pass (now : Z) (arrived : Inbox Notification) (s : t N D)
    : option (Pass * option Verdict * t N D) :=
  let heard := NostrQuotes.arrive arrived (transport s) in
  let '(synced, k) := Keeper.wallet Wallet.sync (keeper s) in
  match synced with
  | Ok _ =>
      '(k, tr) ← drain k heard;
      match Keeper.assemble k with
      | None => Some (Watched None, None, mk k tr None)
      | Some tick =>
          let '(r, k) := Keeper.step tick k in
          let verdict := match r with Err (KRejected _ _ as e) => Some (Rejected e) | _ => None end in
          Some (Watched (Some (tick, r)), verdict, mk k tr None)
      end
  | Err e =>
      if is_node_down e then
        let since := default now (node_down_since s) in
        let down := elapsed now since in
        Some (Unsynced now e,
              if NODE_DOWN_FATAL <=? down then Some (NodeDown (down / 1000000000) e) else None,
              mk k heard (Some since))
      else Some (Unsynced now e, Some (SyncFailed e), mk k heard (node_down_since s))
  end.

(** The passes until a verdict, or until Ctrl-C ([None]) after the last. *)
Fixpoint run (inputs : list (Z * Inbox Notification)) (s : t N D)
    : option (list Pass * option Verdict * t N D) :=
  match inputs with
  | [] => Some ([], None, s)
  | (now, arrived) :: inputs =>
      '(p, verdict, s) ← pass now arrived s;
      match verdict with
      | Some v => Some ([p], Some v, s)
      | None => '(log, v, s) ← run inputs s; Some (p :: log, v, s)
      end
  end.

End Daemon.
End Daemon.

(** ** What the keeper daemon promises

    Whatever the node, the relays and the disk do: it acts at most once per block, on ticks a
    quorum of the deploy's oracles signed, and sends nothing unsound; and it stops by itself
    for three reasons only. *)
Import Daemon.

(** What a pass performed. *)
Definition performed (p : Pass) : list Performed :=
  match p with Watched (Some (_, Ok (Some done))) => [done] | _ => [] end.

(** A pass the daemon goes on after. *)
Definition survived (p : Pass) : Prop :=
  match p with
  | Watched (Some (_, Err (KRejected _ _))) => False
  | Watched _ => True
  | Unsynced _ e => is_node_down e = true
  end.

(** Since when the node is down. *)
Definition since_after (o : option Z) (p : Pass) : option Z :=
  match p with Watched _ => None | Unsynced now _ => Some (default now o) end.

(** A pass the daemon stops on. *)
Definition fatal (since : option Z) (p : Pass) (v : Verdict) : Prop :=
  match v with
  | Rejected e => exists tick what message, p = Watched (Some (tick, Err e)) /\ e = KRejected what message
  | NodeDown secs e => exists now, p = Unsynced now e /\ is_node_down e = true /\
      let down := elapsed now (default now since) in
      NODE_DOWN_FATAL <= down /\ secs = down / 1000000000
  | SyncFailed e => exists now, p = Unsynced now e /\ is_node_down e = false
  end.

Definition unsynced (p : Pass) : Prop := match p with Unsynced _ _ => True | _ => False end.

(** Why the pass [p], after the passes [front], stopped the daemon. *)
Definition stopped_by (front : list Pass) (p : Pass) (v : Verdict) : Prop :=
  (exit_code v = 65 <-> exists tick what message, p = Watched (Some (tick, Err (KRejected what message)))) /\
  match v with
  | Rejected e => exists tick, p = Watched (Some (tick, Err e))
  | SyncFailed e => exists now, p = Unsynced now e /\ is_node_down e = false
  | NodeDown secs e =>
      exists before t0 now outage, front ++ [p] = before ++ outage /\ last outage = Some (Unsynced now e) /\
        (exists e0, head outage = Some (Unsynced t0 e0)) /\ Forall unsynced outage /\
        (forall x, last before = Some x -> ~ unsynced x) /\
        NODE_DOWN_FATAL <= elapsed now t0 /\ secs = elapsed now t0 / 1000000000
  end.

(** The outage a log ends in. *)
Lemma since_some log t0 :
  foldl since_after None log = Some t0 ->
  exists front e back, log = front ++ Unsynced t0 e :: back /\ Forall unsynced back /\
    foldl since_after None front = None.
Proof.
  induction log as [|p log IH] using rev_ind; [done|]. rewrite foldl_app. cbn. intros Hs.
  destruct p as [st|now e]; [done|]. cbn in Hs.
  destruct (foldl since_after None log) as [t|] eqn:El; injection Hs as ->.
  - destruct (IH eq_refl) as (front & e' & back & -> & Hb & Hf).
    exists front, e', (back ++ [Unsynced now e]). rewrite <- app_assoc. split; [done|]. split; [|done].
    apply Forall_app. split; [done|]. by apply Forall_singleton.
  - by exists log, e, [].
Qed.

Lemma since_none log p : foldl since_after None (log ++ [p]) = None -> ~ unsynced p.
Proof. rewrite foldl_app. destruct p; cbn; [by intros _ []|done]. Qed.

Section DaemonRuns.
Context `{HL : Lib, XP : XOnlyParse, HS : SigHash, RD : Redeemer, KS : KeySpend, TS : TxSize, CO : Compiler}.
Context {N D : Type} `{RP : Rpc N, DP : Display, OO : OutPointOrder, JS : Json, DK : Disk D}.
Context `{AP : AssetParse, SK : SecretKey} {F : Type} `{TK : Toml KeeperConfig, TN : Toml StyxnetConfig, FF : Files F}.
Context {R : Type} `{QS : QuoteSerde, CL : Client R}.

Abbreviation K := (Keeper.t N D) (only parsing).
Abbreviation S := (Daemon.t N D) (only parsing).

(** ** Reading the relays *)

(** A read takes an event off the inbox. *)
Lemma recv_shrinks {A} (f : A -> option WireQuote.t) (inbox rest : Inbox A) q :
  recv_loop f inbox = (Some (Ok q), rest) ->
  (length rest < length inbox)%nat /\ exists a, f a = Some q.
Proof.
  induction inbox as [|[a|[n|]] inbox IH]; cbn; [done| | |done].
  - destruct (f a) as [q'|] eqn:Ef; [intros [= <- <-]; split; [lia|by exists a]|].
    intros [? ?]%IH. split; [lia|done].
  - intros [? ?]%IH. split; [lia|done].
Qed.

Lemma recv_quote (tr tr' : NostrQuotes.t) q :
  NostrQuotes.recv tr = (Some (Ok q), tr') ->
  (length (NostrQuotes.notifications tr') < length (NostrQuotes.notifications tr))%nat /\
  exists s, from_json s = Some q.
Proof.
  unfold NostrQuotes.recv. destruct (recv_loop _ _) as [x rest] eqn:Er. intros [= -> <-].
  apply recv_shrinks in Er as [Hl [[e|] He]]; [|done]. split; [done|]. exists (ev_content e). by apply parse_content in He.
Qed.

Lemma recv_waits {A} (f : A -> option WireQuote.t) (inbox rest : Inbox A) :
  recv_loop f inbox = (None, rest) -> rest = [].
Proof.
  induction inbox as [|[a|[n|]] inbox IH]; cbn; [by intros [= <-]| |apply IH|done].
  destruct (f a); [done|apply IH].
Qed.

Lemma recv_ended {A} (f : A -> option WireQuote.t) (inbox rest : Inbox A) e :
  recv_loop f inbox = (Some (Err e), rest) -> recv_loop f rest = (Some (Err e), rest).
Proof.
  induction inbox as [|[a|[n|]] inbox IH]; cbn; [done| |apply IH|by intros [= <- <-]].
  destruct (f a); [done|apply IH].
Qed.

Lemma recv_settled (tr tr' : NostrQuotes.t) x q tr2 :
  NostrQuotes.recv tr = (x, tr') -> (forall q', x <> Some (Ok q')) ->
  NostrQuotes.recv tr' <> (Some (Ok q), tr2).
Proof.
  unfold NostrQuotes.recv. destruct (recv_loop _ (NostrQuotes.notifications tr)) as [y rest] eqn:Er.
  intros [= -> <-] Hx. cbn. destruct x as [[q'|e]|]; [by destruct (Hx q')|..].
  - by rewrite (recv_ended _ _ _ _ Er).
  - by rewrite (recv_waits _ _ _ Er).
Qed.

(** The drain reads all that has arrived: no quote is left for the next read. *)
Lemma drain_all (k k' : K) (tr tr' : NostrQuotes.t) q tr2 :
  drain k tr = Some (k', tr') -> NostrQuotes.recv tr' <> (Some (Ok q), tr2).
Proof.
  unfold drain. assert (Hn : (length (NostrQuotes.notifications tr) < Datatypes.S (length (NostrQuotes.notifications tr)))%nat) by lia.
  revert Hn. generalize (Datatypes.S (length (NostrQuotes.notifications tr))) at 1 2 as n. intros n. revert k tr.
  induction n as [|n IH]; intros k tr Hn; [lia|]. cbn.
  destruct (NostrQuotes.recv tr) as [[[q'|e]|] tr1] eqn:Er.
  - apply recv_quote in Er as [Hl _]. intros (k1 & _ & Hd)%bind_Some. apply (IH k1 tr1); [lia|done].
  - intros [= _ <-]. by eapply recv_settled.
  - intros [= _ <-]. by eapply recv_settled.
Qed.

(** Fields off the wire are in range: serde's integers. *)
Definition serde_typed : Prop := forall s q, de_quote s = Some q -> wire_wf q.

(** What panics the book: an event of a listed author with a quote whose 128-byte signature
    text is not ASCII. *)
Definition poisoned (authors : list bytes) (e : Event) : Prop :=
  ev_pubkey e ∈ authors /\ exists q, NostrQuotes.parse authors e = Some q /\
    length (WireQuote.sig q) = 128%nat /\ is_ascii (WireQuote.sig q) = false.

(** A read takes its quote from an event that waited, by a listed author. *)
Lemma recv_arrival (tr tr' : NostrQuotes.t) q :
  NostrQuotes.recv tr = (Some (Ok q), tr') -> NostrQuotes.authors tr <> [] ->
  NostrQuotes.authors tr' = NostrQuotes.authors tr /\
  (forall x, x ∈ NostrQuotes.notifications tr' -> x ∈ NostrQuotes.notifications tr) /\
  exists e, Ok (NEvent e) ∈ NostrQuotes.notifications tr /\ ev_pubkey e ∈ NostrQuotes.authors tr /\
    NostrQuotes.parse (NostrQuotes.authors tr) e = Some q.
Proof.
  unfold NostrQuotes.recv. destruct (recv_loop _ _) as [x rest] eqn:Er. intros [= -> <-] Ha. cbn.
  split; [done|]. revert Er. induction (NostrQuotes.notifications tr) as [|[a|[n|]] inbox IH]; cbn; [done| | |done].
  - destruct (NostrQuotes.event_quote (NostrQuotes.authors tr) a) as [q'|] eqn:Ef.
    + intros [= <- <-]. split; [intros x; apply list_elem_of_further|]. destruct a as [e|]; [|done].
      exists e. split_and!; [apply list_elem_of_here| |done]. cbn in Ef. unfold NostrQuotes.parse in Ef.
      destruct (negb (ev_kind e =? QUOTE_KIND)); [done|].
      rewrite (bool_decide_eq_false_2 _ Ha) in Ef. cbn in Ef.
      by destruct (bool_decide_reflect (ev_pubkey e ∈ NostrQuotes.authors tr)).
    + intros Er. destruct (IH Er) as (Hin & e & He & ?). split; [|exists e; split; [|done]];
        [intros x Hx|]; apply list_elem_of_further; auto.
  - intros Er. destruct (IH Er) as (Hin & e & He & ?). split; [|exists e; split; [|done]];
      [intros x Hx|]; apply list_elem_of_further; auto.
Qed.

(** ** One pass *)

(** The book's own keys are the deploy's. *)
Definition watchful (k : K) : Prop :=
  book_wf (Keeper.book k) /\
  QuoteBook.oracle_pks (Keeper.book k) = oracle_pks (ctx_params (Wallet.ctx (Keeper.purse k))).

Lemma absorb_watchful q (k k1 : K) :
  wire_wf q -> watchful k -> Keeper.absorb q k = Some k1 -> watchful k1.
Proof.
  intros Hq [Hb Ho] (r & Hi & [= <-])%bind_Some. destruct r as [b|e]; [|by split].
  destruct (insert_wf _ _ _ _ Hb Hq Hi) as [Hb' Ho']. split; [done|]. cbn. congruence.
Qed.

Lemma drain_hears n (k k' : K) (tr tr' : NostrQuotes.t) :
  drain_from n k tr = Some (k', tr') ->
  (forall log k2, patrol k' log k2 -> patrol k log k2) /\
  (serde_typed -> watchful k -> watchful k') /\ Keeper.purse k' = Keeper.purse k.
Proof.
  revert k tr. induction n as [|n IH]; intros k tr; cbn; [by intros [= <- _]|].
  destruct (NostrQuotes.recv tr) as [[[q|e]|] tr1] eqn:Er; [|by intros [= <- _]..].
  intros (k1 & Ha & Hd)%bind_Some. destruct (IH k1 tr1 Hd) as (Hp & Hw & Hu).
  destruct (absorb_keeps _ _ _ Ha) as [Hpu _]. split_and!.
  - intros log k2 Hl. by eapply patrol_hears, Hp.
  - intros Hs Hk. apply Hw; [done|]. apply recv_quote in Er as (_ & s & Hq).
    by eapply absorb_watchful; [eapply Hs|..].
  - congruence.
Qed.

(** Reading keeps the authors; when it does not return, an event was poisoned. *)
Lemma drain_authors n (k k' : K) (tr tr' : NostrQuotes.t) :
  drain_from n k tr = Some (k', tr') -> NostrQuotes.authors tr' = NostrQuotes.authors tr.
Proof.
  assert (Hrecv : forall tr x tr', NostrQuotes.recv tr = (x, tr') -> NostrQuotes.authors tr' = NostrQuotes.authors tr).
  { intros t x t'. unfold NostrQuotes.recv. destruct (recv_loop _ _). by intros [= _ <-]. }
  revert k tr. induction n as [|n IH]; intros k tr; cbn; [by intros [= _ <-]|].
  destruct (NostrQuotes.recv tr) as [x tr1] eqn:Er. apply Hrecv in Er.
  destruct x as [[q|e]|]; [|by intros [= _ <-]..]. intros (k1 & _ & Hd)%bind_Some.
  rewrite <- Er. by eapply IH.
Qed.

Lemma drain_panics n (k : K) (tr : NostrQuotes.t) :
  drain_from n k tr = None -> serde_typed -> watchful k -> NostrQuotes.authors tr <> [] ->
  exists e, Ok (NEvent e) ∈ NostrQuotes.notifications tr /\ poisoned (NostrQuotes.authors tr) e.
Proof.
  intros Hd Hs. revert k tr Hd. induction n as [|n IH]; intros k tr; cbn; [done|].
  destruct (NostrQuotes.recv tr) as [[[q|e]|] tr1] eqn:Er; [|done..]. intros Hd Hk Ha.
  destruct (recv_arrival _ _ _ Er Ha) as (Ha1 & Hin & e & He & Hauth & Hp).
  assert (Hq : wire_wf q) by (eapply Hs; by eapply parse_content).
  destruct (Keeper.absorb q k) as [k1|] eqn:Eb.
  - destruct (IH k1 tr1 Hd) as (e' & He' & Hpo); [by eapply absorb_watchful|by rewrite Ha1|].
    rewrite Ha1 in Hpo. exists e'. split; [by apply Hin|done].
  - exists e. split; [done|]. split; [done|]. exists q. split; [done|]. unfold Keeper.absorb in Eb.
    destruct (QuoteBook.insert (Keeper.book k) q _) as [r|] eqn:Ei; [done|].
    pose proof (insert_panics _ _ _ (proj1 Hk) Hq Ei). done.
Qed.

Lemma wallet_sync_runs (k k' : K) r :
  Keeper.wallet Wallet.sync k = (r, k') ->
  exists w1, Wallet.sync (Keeper.purse k) = (r, w1) /\ k' = Keeper.with_purse w1 k.
Proof.
  unfold Keeper.wallet, zoom. destruct (Wallet.sync (Keeper.purse k)) as [x w1]. intros [= -> <-]. by exists w1.
Qed.

Lemma first_tick_signed b hi n tick :
  book_wf b -> Keeper.first_tick b hi n = Some tick ->
  tick_signed (QuoteBook.oracle_pks b) tick /\ check_zero_price tick = Ok tt.
Proof.
  intros Hb. revert hi. induction n as [|n IH]; intros hi; cbn; [done|].
  destruct (QuoteBook.assemble_tick b (BlockHeight.new hi)) as [t|] eqn:Ea; [|apply IH].
  intros [= <-]. by apply assemble_signed in Ea as (_ & ? & ?).
Qed.

(** What the verdict of a pass says of it. *)
Lemma pass_verdict now arrived (s s' : S) p v :
  pass now arrived s = Some (p, v, s') ->
  match v with
  | None => survived p /\ node_down_since s' = since_after (node_down_since s) p
  | Some v => fatal (node_down_since s) p v
  end.
Proof.
  unfold pass. destruct (Keeper.wallet Wallet.sync (keeper s)) as [[ns|e] k] eqn:Ey.
  - intros ([k1 tr] & _ & Hp)%bind_Some. destruct (Keeper.assemble k1) as [tick|]; [|by injection Hp as <- <- <-].
    destruct (Keeper.step tick k1) as [r k2]. injection Hp as <- <- <-.
    destruct r as [o|[e|what message|what n]]; try done. by exists tick, what, message.
  - destruct (is_node_down e) eqn:Ed; intros [= <- <- <-]; [|by exists now].
    destruct (Z.leb_spec NODE_DOWN_FATAL (elapsed now (default now (node_down_since s)))); [|by split].
    by exists now.
Qed.

(** A pass is a patrol: a sync, the quotes heard, a step. *)
Lemma pass_patrols now arrived (s s' : S) p v log k2 :
  pass now arrived s = Some (p, v, s') -> patrol (keeper s') log k2 ->
  exists acted, patrol (keeper s) (acted ++ log) k2 /\ snd <$> acted = performed p.
Proof.
  unfold pass. destruct (Keeper.wallet Wallet.sync (keeper s)) as [synced k] eqn:Ey.
  apply wallet_sync_runs in Ey as (w1 & Ey & ->). intros Hp Hl. destruct synced as [ns|e].
  - apply bind_Some in Hp as ([k1 tr] & Hd & Hp). apply drain_hears in Hd as (Hh & _ & _).
    destruct (Keeper.assemble k1) as [tick|].
    2:{ injection Hp as <- <- <-. exists []. split; [|done]. by eapply patrol_syncs, Hh. }
    destruct (Keeper.step tick k1) as [r k3] eqn:Es. injection Hp as <- _ <-.
    destruct (Wallet.sync (Keeper.purse k1)) as [rs w2] eqn:Ey2.
    destruct r as [[d|]|e].
    + exists [(ix_height (Wallet.state w2), d)]. split; [|done].
      eapply patrol_syncs, Hh, patrol_acts; done.
    + exists []. split; [|done]. eapply patrol_syncs, Hh, patrol_quiet; done.
    + exists []. split; [|done]. eapply patrol_syncs, Hh, patrol_quiet; done.
  - exists []. destruct (is_node_down e); injection Hp as <- _ <-; (split; [|done]); by eapply patrol_syncs.
Qed.

(** The tick of a pass is signed, and the book stays good. *)
Lemma pass_signed now arrived (s s' : S) p v pks :
  serde_typed -> pass now arrived s = Some (p, v, s') -> watchful (keeper s) ->
  oracle_pks (ctx_params (Wallet.ctx (Keeper.purse (keeper s)))) = pks ->
  watchful (keeper s') /\ oracle_pks (ctx_params (Wallet.ctx (Keeper.purse (keeper s')))) = pks /\
  forall tick r, p = Watched (Some (tick, r)) -> tick_signed pks tick /\ check_zero_price tick = Ok tt.
Proof.
  intros Hs Hp Hw Hpks. unfold pass in Hp.
  destruct (Keeper.wallet Wallet.sync (keeper s)) as [synced k] eqn:Ey.
  apply wallet_sync_runs in Ey as (w1 & Ey & ->).
  assert (Hc : Wallet.ctx w1 = Wallet.ctx (Keeper.purse (keeper s))).
  { destruct (run_sync (seat (Keeper.purse (keeper s))) (Keeper.purse (keeper s)) eq_refl) as [Hg _].
    rewrite Ey in Hg. apply Hg. }
  assert (Hw1 : watchful (Keeper.with_purse w1 (keeper s))).
  { destruct Hw as [Hb Ho]. split; [done|]. cbn. congruence. }
  destruct synced as [ns|e].
  - apply bind_Some in Hp as ([k1 tr] & Hd & Hp). apply drain_hears in Hd as (_ & Hh & Hu).
    specialize (Hh Hs Hw1). cbn in Hu.
    assert (Hc1 : Wallet.ctx (Keeper.purse k1) = Wallet.ctx (Keeper.purse (keeper s))) by congruence.
    destruct (Keeper.assemble k1) as [tick|] eqn:Ea.
    2:{ injection Hp as <- <- <-. split; [done|]. split; [cbn; congruence|done]. }
    destruct (Keeper.step tick k1) as [r k3] eqn:Es. injection Hp as <- _ <-.
    pose proof (step_watches _ _ _ _ Es) as (Hg & Hb & _). destruct Hg as [Hgc _ _ _ _].
    split; [destruct Hh as [? Ho]; split; cbn; [by rewrite Hb|by rewrite Hb, Ho, Hgc]|].
    split; [cbn; congruence|]. intros tick' r' [= <- _]. destruct Hh as [Hbw Ho].
    unfold Keeper.assemble in Ea. apply first_tick_signed in Ea; [|done].
    rewrite Ho, Hc1, Hpks in Ea. done.
  - destruct (is_node_down e); injection Hp as <- _ <-; (split; [done|]); (split; [cbn; congruence|done]).
Qed.

(** A pass keeps the authors; when it does not return, an event was poisoned. *)
Lemma pass_authors now arrived (s s' : S) p v :
  pass now arrived s = Some (p, v, s') -> NostrQuotes.authors (transport s') = NostrQuotes.authors (transport s).
Proof.
  unfold pass. destruct (Keeper.wallet Wallet.sync (keeper s)) as [[ns|e] k].
  - intros ([k1 tr] & Hd%drain_authors & Hp)%bind_Some. change (NostrQuotes.authors tr = NostrQuotes.authors (transport s)) in Hd.
    destruct (Keeper.assemble k1) as [tick|]; [destruct (Keeper.step tick k1)|]; by injection Hp as _ _ <-.
  - destruct (is_node_down e); by intros [= _ _ <-].
Qed.

Lemma pass_panics now arrived (s : S) :
  pass now arrived s = None -> serde_typed -> watchful (keeper s) -> NostrQuotes.authors (transport s) <> [] ->
  exists e, Ok (NEvent e) ∈ NostrQuotes.notifications (transport s) ++ arrived /\
    poisoned (NostrQuotes.authors (transport s)) e.
Proof.
  unfold pass. destruct (Keeper.wallet Wallet.sync (keeper s)) as [[ns|e] k] eqn:Ey; [|by destruct (is_node_down e)].
  apply wallet_sync_runs in Ey as (w1 & Ey & ->). intros Hp Hs Hw Ha.
  destruct (drain _ _) as [[k1 tr]|] eqn:Ed.
  - cbn in Hp. destruct (Keeper.assemble k1) as [tick|]; [by destruct (Keeper.step tick k1)|done].
  - apply (drain_panics _ _ _ Ed Hs); [|done]. destruct Hw as [Hb Ho]. split; [done|]. cbn.
    destruct (run_sync (seat (Keeper.purse (keeper s))) (Keeper.purse (keeper s)) eq_refl) as [[Hc _ _ _ _] _].
    rewrite Ey in Hc. cbn in Hc. congruence.
Qed.

(** ** Runs *)

Lemma run_patrols inputs (s s' : S) passes v :
  run inputs s = Some (passes, v, s') ->
  exists log, patrol (keeper s) log (keeper s') /\ snd <$> log = passes ≫= performed.
Proof.
  revert s passes. induction inputs as [|[now arrived] inputs IH]; intros s passes; cbn.
  { intros [= <- <- <-]. exists []. split; [constructor|done]. }
  intros ([[p v1] s1] & Hp & Hr)%bind_Some. destruct v1 as [v1|].
  - injection Hr as <- <- <-. eapply pass_patrols in Hp as (acted & Hl & Ha); [|constructor].
    exists (acted ++ []). split; [done|]. rewrite app_nil_r, Ha. cbn. by rewrite app_nil_r.
  - apply bind_Some in Hr as ([[log v2] s2] & Hr & [= <- <- <-]). apply IH in Hr as (log1 & Hl1 & Hs1).
    eapply pass_patrols in Hp as (acted & Hl & Ha); [|exact Hl1].
    exists (acted ++ log1). split; [done|]. by rewrite fmap_app, Ha, Hs1.
Qed.

Lemma run_signed inputs (s s' : S) passes v pks :
  serde_typed -> run inputs s = Some (passes, v, s') -> watchful (keeper s) ->
  oracle_pks (ctx_params (Wallet.ctx (Keeper.purse (keeper s)))) = pks ->
  forall tick r, Watched (Some (tick, r)) ∈ passes -> tick_signed pks tick /\ check_zero_price tick = Ok tt.
Proof.
  intros Hs. revert s passes. induction inputs as [|[now arrived] inputs IH]; intros s passes; cbn.
  { intros [= <- <- <-] _ _ tick r []%not_elem_of_nil. }
  intros ([[p v1] s1] & Hp & Hr)%bind_Some Hw Hpks tick r.
  destruct (pass_signed _ _ _ _ _ _ _ Hs Hp Hw Hpks) as (Hw1 & Hpks1 & Ht). destruct v1 as [v1|].
  - injection Hr as <- <- <-. intros Hx%list_elem_of_singleton. by eapply Ht.
  - apply bind_Some in Hr as ([[log v2] s2] & Hr & [= <- <- <-]).
    intros [Hx|Hx]%elem_of_cons; [by eapply Ht|]. by eapply IH.
Qed.

Lemma run_ends inputs (s s' : S) passes v :
  run inputs s = Some (passes, v, s') ->
  exists front, Forall survived front /\
  match v with
  | None => passes = front /\ length passes = length inputs
  | Some v => exists p, passes = front ++ [p] /\ fatal (foldl since_after (node_down_since s) front) p v
  end.
Proof.
  revert s passes. induction inputs as [|[now arrived] inputs IH]; intros s passes; cbn.
  { intros [= <- <- <-]. by exists []. }
  intros ([[p v1] s1] & Hp & Hr)%bind_Some. apply pass_verdict in Hp. destruct v1 as [v1|].
  - injection Hr as <- <- <-. exists []. split; [done|]. by exists p.
  - apply bind_Some in Hr as ([[log v2] s2] & Hr & [= <- <- <-]). destruct Hp as [Hsv Hsince].
    apply IH in Hr as (front & Hf & Hv). exists (p :: front). split; [by constructor|].
    destruct v2 as [v2|].
    + destruct Hv as (p2 & -> & Hfatal). exists p2. split; [done|]. cbn. by rewrite <- Hsince.
    + destruct Hv as [-> Hl]. cbn. split; [done|lia].
Qed.

(** A run that does not return ends in a pass that does not, on a poisoned event. *)
Lemma run_panics inputs (s : S) :
  run inputs s = None -> serde_typed -> watchful (keeper s) -> NostrQuotes.authors (transport s) <> [] ->
  exists before now arrived after passes s1 e,
    inputs = before ++ (now, arrived) :: after /\ run before s = Some (passes, None, s1) /\ Forall survived passes /\
    Ok (NEvent e) ∈ NostrQuotes.notifications (transport s1) ++ arrived /\
    poisoned (NostrQuotes.authors (transport s)) e.
Proof.
  intros Hr Hs. revert s Hr. induction inputs as [|[now arrived] inputs IH]; intros s; cbn; [done|].
  destruct (pass now arrived s) as [[[p v] s1]|] eqn:Ep.
  - destruct v as [v|]; [done|]. cbn. intros Hr Hw Ha. apply pass_authors in Ep as Ea.
    destruct (pass_signed _ _ _ _ _ _ _ Hs Ep Hw eq_refl) as (Hw1 & _).
    destruct (IH s1) as (before & now' & arr' & after & passes & s2 & e & -> & Hb & Hf & He & Hpo);
      [by destruct (run inputs s1) as [[[? ?] ?]|]|done|by rewrite Ea|].
    exists ((now, arrived) :: before), now', arr', after, (p :: passes), s2, e.
    split; [done|]. cbn. rewrite Ep. cbn. rewrite Hb. cbn. split; [done|]. apply pass_verdict in Ep as [Hsv _].
    rewrite Ea in Hpo. split_and!; [by constructor|done|done].
  - intros _ Hw Ha. destruct (pass_panics _ _ _ Ep Hs Hw Ha) as (e & He & Hpo).
    exists [], now, arrived, inputs, [], s, e. split_and!; done.
Qed.

(** ** The daemon *)

(** The session a boot opens: of the configured deploy, on the node's chain, nothing sent. *)
Lemma session_opened cfg net n d (w : Wallet.t N D) :
  Wallet.open_session cfg net n d = Some (Ok w) ->
  Styxnet.params net = Ok (ctx_params (Wallet.ctx w)) /\ Styxnet.genesis net = Ok (ctx_genesis (Wallet.ctx w)) /\
  (exists n', block_hash 0 n = (Ok (ctx_genesis (Wallet.ctx w)), n')) /\ Wallet.sent w = [].
Proof.
  unfold Wallet.open_session. destruct (Wallet.session_parts cfg net d n) as [[[cx st]|e] n1] eqn:Ep; [|done].
  intros (ow & _ & Hk)%bind_Some. destruct ow as [ow|e]; [|done].
  apply bind_Some in Hk as ([fu|e] & _ & [= <-]). cbn.
  unfold Wallet.session_parts in Ep. eff_peel Ep.
  case_bool_decide as Hg; [done|]. eff_peel Ep. injection Ep as <- _ _. cbn.
  apply map_err_ok in Hx, Hx2, Hx3. subst x2. split_and!; [done..|by exists s|done].
Qed.

Lemma params_keys net p : Styxnet.params net = Ok p -> length (oracle_pks p) = 5%nat.
Proof.
  unfold Styxnet.params. intros (a & _ & H)%bind_ok. do 3 (apply bind_ok in H as (? & _ & H)).
  apply bind_ok in H as (pks & Hp & [= <-]). unfold Styxnet.oracle_pks in Hp.
  do 2 (apply bind_ok in Hp as (? & _ & Hp)). case_bool_decide; [|done]. by injection Hp as <-.
Qed.

Lemma boot_opened cfg attempts (w : Wallet.t N D) :
  boot cfg attempts = Opened w ->
  exists a net, a ∈ attempts /\ Styxnet.load (wc_styxnet (kc_purse cfg)) (at_files a) = Ok net /\
    Wallet.open_session (kc_purse cfg) net (at_node a) (at_disk a) = Some (Ok w).
Proof.
  induction attempts as [|a attempts IH]; cbn; [done|]. unfold open_purse.
  destruct (Styxnet.load _ _) as [net|e] eqn:El; [|done].
  destruct (Wallet.open_session _ _ _ _) as [[w'|e]|] eqn:Eo; [|destruct (_ && _); [|done]|done].
  - intros [= ->]. exists a, net. split_and!; [by left|done|done].
  - intros (a' & net' & ? & ? & ?)%IH. exists a', net'. split_and!; [by right|done|done].
Qed.

Lemma subscriber_authors eph relays authors (r r' : R) tr :
  NostrQuotes.subscriber eph relays authors r = (Ok tr, r') -> NostrQuotes.authors tr = authors.
Proof.
  intros (this & r1 & Hc & Hs)%eff_bind_ok. unfold NostrQuotes.connect in Hc.
  eff_peel Hc. injection Hc as <- _. eff_peel Hs. by injection Hs as <- _.
Qed.

(** From a file to the loop: the session of the configured deploy, the keeper fresh. *)
Lemma start_up path fs attempts eph (s : S) (r r' : R) :
  start path fs attempts eph r = (Ok (Up s), r') ->
  exists cfg a net w,
    KeeperFile.load path fs = Ok cfg /\ a ∈ attempts /\
    Styxnet.load (wc_styxnet (kc_purse cfg)) (at_files a) = Ok net /\
    Wallet.open_session (kc_purse cfg) net (at_node a) (at_disk a) = Some (Ok w) /\
    keeper s = Keeper.new w (KeeperFile.opts cfg) /\ node_down_since s = None /\
    exists net0, Styxnet.load (wc_styxnet (kc_purse cfg)) fs = Ok net0 /\
      NostrQuotes.relay_authors (sn_oracles net0) = Some (NostrQuotes.authors (transport s)) /\
      NostrQuotes.authors (transport s) <> [].
Proof.
  unfold start. intros Hs. eff_peel_step Hs. eff_peel_step Hs.
  destruct (boot x attempts) as [w|e| |] eqn:Eb; [|unfold throw, mret, eff_ret in Hs; congruence..].
  eff_peel_step Hs. injection Hs as -> _.
  apply map_err_ok in Hx, Hx0. apply boot_opened in Eb as (a & net & Ha & Hl & Ho).
  unfold up in Hx1. cbv zeta in Hx1. eff_peel_step Hx1. destruct (Nat.ltb_spec (length x1) 3) as [|H3]; [done|].
  eff_peel_step Hx1. injection Hx1 as <- _. exists x, a, net, w. split_and!; [done..|]. cbn. exists x0.
  rewrite (subscriber_authors _ _ _ _ _ _ Hx3).
  apply ok_or_ok in Hx2. split_and!; [done..|]. intros ->. cbn in H3. lia.
Qed.


(** What a watchtower booted from its files is watching with. *)
Lemma start_watchful path fs attempts eph (s : S) (r r' : R) :
  start path fs attempts eph r = (Ok (Up s), r') ->
  watchful (keeper s) /\ node_down_since s = None /\ NostrQuotes.authors (transport s) <> [].
Proof.
  intros (cfg & a & net & w & _ & _ & _ & Hopen & Hk & Hn & net0 & _ & _ & Ha)%start_up.
  apply session_opened in Hopen as (Hp%params_keys & _). split; [|done]. rewrite Hk. split; [by apply new_wf|done].
Qed.

(** What a run that ended says. *)
Lemma run_verdicts inputs (s s' : S) passes v :
  node_down_since s = None -> run inputs s = Some (passes, v, s') ->
  exists front, Forall survived front /\
  match v with
  | None => passes = front /\ length passes = length inputs
  | Some v => exists p, passes = front ++ [p] /\ stopped_by front p v
  end.
Proof.
  intros Hn (front & Hf & Hv)%run_ends. exists front. split; [done|]. destruct v as [v|]; [|done].
  rewrite Hn in Hv. destruct Hv as (p & -> & Hfatal). exists p. split; [done|].
  destruct v as [e|secs e|e].
  - destruct Hfatal as (tick & what & message & -> & ->). split; [|by exists tick]. split; [|done]. intros _. by eexists _, _, _.
  - destruct Hfatal as (now & -> & Hd & Hle & ->). split; [by split; [|intros (? & ? & ? & ?)]|].
    destruct (foldl since_after None front) as [t0|] eqn:Es.
    + apply since_some in Es as (before & e0 & back & -> & Hb & Hbn).
      exists before, t0, now, (Unsynced t0 e0 :: back ++ [Unsynced now e]). cbn in *. split_and!; try done.
      * by rewrite <- app_assoc.
      * by rewrite app_comm_cons, last_snoc.
      * by exists e0.
      * constructor; [done|]. apply Forall_app. split; [done|]. by apply Forall_singleton.
      * intros x Hx. apply last_Some in Hx as [l ->]. by apply since_none in Hbn.
    + exists front, now, now, [Unsynced now e]. cbn in *. split_and!; try done.
      * by exists e.
      * by apply Forall_singleton.
      * intros x Hx. apply last_Some in Hx as [l ->]. by apply since_none in Es.
  - destruct Hfatal as (now & -> & Hd). split; [by split; [|intros (? & ? & ? & ?)]|]. by exists now.
Qed.


End DaemonRuns.
