(* ===== verification/Lifecycle.v ===== *)
(** * The end-to-end driver ([styx-node/src/lifecycle.rs], [regtest.rs])

    The scripted life of a deployment: every operation of the protocol built, finalized, put
    to the node and confirmed in turn, with four tampered transactions the node has to refuse.
    A panic of the driver is an error here, named by the message of its [expect].  Launching
    the node process and the reads that only decorate a panic are left out. *)

From Stdlib Require Import ZArith Lia.
From stdpp Require Import base gmap strings option list.
From S2P Require Import Prelude Hex Units CrMath Elements Floats Oracle Simf Encode Domain Artifacts Effects.
From S2P Require Import Jets CovVault CovReserve CovIssuer Plan BuildOwner BuildKeeper Node Funding Ceremony.
From S2P Require Import Keeper.

(** One confirmed operation, and the tracked state after it. *)
Record Step : Type := mkStep {
  st_label : string;
  st_txid : Txid;
  st_protocol : ProtocolState;
  st_vaults : list (OnChain VaultState)
}.

Record Deployment : Type := mkDeployment {
  dep_ctx : Ctx;
  dep_protocol : ProtocolState;
  (** keypairs *)
  dep_oracle_keys : list bytes
}.

Definition with_pot (x : OnChain PotState) (p : ProtocolState) : ProtocolState :=
  mkProtocol x (reserve p) (issuer p).
Definition with_reserve (x : OnChain ReserveState) (p : ProtocolState) : ProtocolState :=
  mkProtocol (pot p) x (issuer p).
Definition with_issuer (x : OnChain IssuerState) (p : ProtocolState) : ProtocolState :=
  mkProtocol (pot p) (reserve p) x.

Definition coin (outpoint : OutPoint) (value : Z) : FundingCoin := mkFunding outpoint (Sats.new value) op_true.
Definition obol_coin (outpoint : OutPoint) (value : Z) : ObolCoin := mkObolCoin outpoint (Obol.new value) op_true.

(** The value of one output, replaced through a function that may panic. *)
Definition tamper (i : nat) (f : Z -> option Z) (tx : Transaction) : option Transaction :=
  o ← output tx !! i;
  match to_value o with
  | VExplicit v =>
      v ← f v;
      Some (mkTx (version tx) (lock_time tx) (input tx)
        (<[i := mkTxOut (VExplicit v) (to_spk o) (to_asset o) (to_nonce o)]> (output tx)))
  | _ => None
  end.

(** [v - 1] and [v + 1], checked in a test build. *)
Definition minus_one (v : Z) : option Z := u64_checked_sub v 1.
Definition plus_one (v : Z) : option Z := u64_checked_add v 1.

Section Driver.
Context `{Lib, SigHash, Redeemer, TxSize, Compiler, TxCodec, IssuanceId}.
Context {A N J : Type} `{Addresses A, Rpc N, !WalletRpc N J, Clock N}.

(** The panics, by message. *)
Abbreviation LM := (Eff N string) (only parsing).

(** [Result::expect] and [Option::expect]. *)
Definition must {E X} (what : string) (m : Eff N E X) : LM X := map_error (fun _ => what) m.
Definition expect {E X} (what : string) (r : result E X) : LM X := lift (map_err (fun _ => what) r).
Definition expect_some {X} (what : string) (o : option X) : LM X := lift (ok_or what o).

(** ** The deployment *)

Definition oracle_secrets : list Z := [7; 8; 9; 101; 102].
Definition test_keypair (secret : Z) : bytes := be_bytes 32 secret.

(** The ceremony on a launched node. *)
Definition deployed (reserve_seed : Z) : LM Deployment :=
  let oracle_keys := test_keypair <$> oracle_secrets in
  '(ctx, protocol) ← must "ceremony" (ceremony (keypair_pk <$> oracle_keys) reserve_seed SelfMine);
  mret (mkDeployment ctx protocol oracle_keys).

(** A par-backed tick at the given height and price, signed by the first three oracles. *)
Definition tick (dep : Deployment) (height price : Z) : LM OracleTick.t :=
  let payload := mkPayload (BlockHeight.new height) (Price.new price) (RatioK.from_cr_percent 100) in
  let quote (i : Z) :=
    slot ← expect "slot" (OracleSlot.new i);
    key ← expect_some "oracle key" (dep_oracle_keys dep !! Z.to_nat i);
    mret (slot, sign_quote key payload) : LM (OracleSlot.t * SignedQuote) in
  q0 ← quote 0; q1 ← quote 1; q2 ← quote 2;
  expect "tick" (OracleTick.new (tp_height payload) (tp_backing_k payload) (q0, q1, q2)).

(** A tick at the tip. *)
Definition tick_now (dep : Deployment) (price : Z) : LM OracleTick.t :=
  h ← must "height" height; tick dep h price.

(** ** Transactions *)

Definition broadcast (dep : Deployment) (plan : TxPlan) : LM Transaction :=
  tx ← expect "prune accepts" (finalize (dep_ctx dep) plan);
  if Sats.raw FEE <? vsize tx then throw "flat FEE under 1 sat/vb"%string else
  _ ← must "node rejected what the prune tier accepted" (send_and_mine tx);
  mret tx.

(** The node has to refuse the transaction outright. *)
Definition assert_node_rejects (tx : Transaction) : LM unit :=
  r ← try (send tx);
  match r with
  | Err (Rejected _) => mret tt
  | _ => throw "the node must reject the tampered tx"%string
  end.

(** Finalize, let the node refuse the tampered version, then confirm the genuine one. *)
Definition spot_check (dep : Deployment) (plan : TxPlan) (spoil : Transaction -> option Transaction)
    (what : string) : LM Transaction :=
  genuine ← expect "prune accepts" (finalize (dep_ctx dep) plan);
  tampered ← expect_some "explicit" (spoil genuine);
  _ ← assert_node_rejects tampered;
  _ ← must what (send_and_mine genuine);
  mret genuine.

Definition short_reserve (tx : Transaction) : option Transaction := tamper 3 minus_one tx.
Definition greedy_redeemer (tx : Transaction) : option Transaction :=
  tx ← tamper 0 minus_one tx; tamper 2 plus_one tx.

(** ** The operations, as the driver scripts them *)

Definition poke_step (dep : Deployment) (protocol : ProtocolState) (fee_coin : OutPoint) : LM Step :=
  t ← tick_now dep 120000;
  built ← expect "builds" (poke (dep_ctx dep) (issuer protocol)
    (mkPokeIntent t (coin fee_coin 1000000) op_true FEE));
  tx ← broadcast dep (plan built);
  mret (mkStep "poke" (txid_of tx) (with_issuer (pkd_issuer (expected built)) protocol) []).

(** The debt every vault of the script opens with, and its half-percent fee. *)
Definition principal : Z := 5000000.
Definition fee_a : Z := Sats.raw (coll_at_cr principal (Price.new 120000) K_FEE_HALF_PERCENT).
Definition coll_a : Z := 100000000.
Definition coll_fc : Z := Sats.raw (coll_at_cr principal (Price.new 120000) K_OPEN_MIN).
Definition values : list Z :=
  [coll_a + fee_a + Sats.raw FEE; coll_fc + fee_a + Sats.raw FEE; coll_fc + fee_a + Sats.raw FEE;
   1000000; 1000000; 1000000; 1000000].

Definition open_intent (owner : XOnlyPublicKey) (collateral : Z) (funding : OutPoint) (value : Z)
    (t : OracleTick.t) : OpenIntent :=
  mkOpenIntent owner (Obol.new principal) (Sats.new collateral) op_true (coin funding value) t FEE.

Definition opened (d : OpenDelta) : ProtocolState := mkProtocol (od_pot d) (od_reserve d) (od_issuer d).

(** The first open, with a reserve output one sat short put to the node before it; also the
    vault and the borrower's OBOL. *)
Definition open_step (dep : Deployment) (owner : XOnlyPublicKey) (protocol : ProtocolState)
    (funding : OutPoint) (value : Z) : LM (Step * OnChain VaultState * OutPoint) :=
  t ← tick_now dep 120000;
  built ← expect "builds" (open (dep_ctx dep) protocol (open_intent owner coll_a funding value t));
  tx ← spot_check dep (plan built) short_reserve "genuine open accepted";
  let vault := od_vault (expected built) in
  mret (mkStep "open" (txid_of tx) (opened (expected built)) [vault], vault, mkOutPoint (txid_of tx) 2).

Definition repay_step (dep : Deployment) (owner : bytes) (protocol : ProtocolState)
    (vault : OnChain VaultState) (payer fee_coin : OutPoint) : LM (Step * OnChain VaultState * OutPoint) :=
  built ← expect "builds" (repay (dep_ctx dep) (pot protocol) vault
    (mkRepayIntent (Obol.new 2000000) (obol_coin payer 5000000) op_true (coin fee_coin 1000000) op_true FEE));
  plan ← expect "signs" (owner_sign (dep_ctx dep) (plan built) owner);
  tx ← broadcast dep plan;
  let vault := rpd_vault (expected built) in
  mret (mkStep "repay" (txid_of tx) (with_pot (rpd_pot (expected built)) protocol) [vault], vault,
        mkOutPoint (txid_of tx) 2).

Definition draw_step (dep : Deployment) (owner : bytes) (protocol : ProtocolState)
    (vault : OnChain VaultState) : LM (Step * OnChain VaultState * OutPoint) :=
  t ← tick_now dep 120000;
  built ← expect "builds" (draw (dep_ctx dep) protocol vault (mkDrawIntent (Obol.new 1000000) op_true t FEE));
  plan ← expect "signs" (owner_sign (dep_ctx dep) (plan built) owner);
  tx ← broadcast dep plan;
  let d := expected built in
  mret (mkStep "draw" (txid_of tx) (with_issuer (dd_issuer d) (with_pot (dd_pot d) protocol)) [dd_vault d],
        dd_vault d, mkOutPoint (txid_of tx) 2).

Definition refresh_step (dep : Deployment) (protocol : ProtocolState) (vault : OnChain VaultState)
    (fee_coin : OutPoint) : LM (Step * OnChain VaultState) :=
  t ← tick_now dep 120000;
  built ← expect "builds" (refresh (dep_ctx dep) vault
    (mkRefreshIntent t (coin fee_coin 1000000) op_true FEE));
  tx ← broadcast dep (plan built);
  let vault := rfd_vault (expected built) in
  mret (mkStep "refresh" (txid_of tx) protocol [vault], vault).

(** The partial liquidation, with the reserve's share one sat short put to the node first. *)
Definition liquidate_step (dep : Deployment) (protocol : ProtocolState) (vault : OnChain VaultState)
    (keeper : OutPoint) : LM (Step * OnChain VaultState) :=
  t ← tick_now dep 50000;
  built ← expect "builds" (liquidate (dep_ctx dep) protocol vault
    (mkLiquidateIntent (Obol.new 1000000) (Sats.new 80000000) (obol_coin keeper 1000000) op_true op_true t FEE));
  tx ← spot_check dep (plan built) short_reserve "genuine liquidate accepted";
  let d := expected built in
  mret (mkStep "liquidate" (txid_of tx) (with_reserve (ld_reserve d) (with_pot (ld_pot d) protocol)) [ld_vault d],
        ld_vault d).

Definition bad_debt_step (dep : Deployment) (protocol : ProtocolState) (vault : OnChain VaultState)
    (keeper fee_coin : OutPoint) : LM Step :=
  t ← tick_now dep 35000;
  built ← expect "builds" (bad_debt (dep_ctx dep) protocol vault
    (mkBadDebtIntent (obol_coin keeper 3000000) op_true op_true (coin fee_coin 1000000) op_true t FEE));
  tx ← broadcast dep (plan built);
  let d := expected built in
  mret (mkStep "bad_debt" (txid_of tx) (mkProtocol (bdd_pot d) (bdd_reserve d) (bdd_issuer d)) []).

(** One of the two opens at 150%. *)
Definition open_at_150 (dep : Deployment) (owner : XOnlyPublicKey) (funding : OutPoint) (value : Z)
    (protocol : ProtocolState) (alive : list (OnChain VaultState)) : LM (Step * OnChain VaultState * OutPoint) :=
  t ← tick_now dep 120000;
  built ← expect "builds" (open (dep_ctx dep) protocol (open_intent owner coll_fc funding value t));
  tx ← broadcast dep (plan built);
  let vault := od_vault (expected built) in
  mret (mkStep "open" (txid_of tx) (opened (expected built)) (alive ++ [vault]), vault, mkOutPoint (txid_of tx) 2).

Definition full_liq_step (dep : Deployment) (protocol : ProtocolState) (vault_f vault_c : OnChain VaultState)
    (keeper : OutPoint) : LM (Step * OutPoint) :=
  t ← tick_now dep 85000;
  built ← expect "builds" (full_liq (dep_ctx dep) protocol vault_f
    (mkFullLiqIntent (obol_coin keeper 10000000) op_true op_true t FEE));
  tx ← broadcast dep (plan built);
  let d := expected built in
  mret (mkStep "full_liq" (txid_of tx) (with_reserve (fd_reserve d) (with_pot (fd_pot d) protocol)) [vault_c],
        mkOutPoint (txid_of tx) 2).

(** The redemption, with one sat more for the redeemer put to the node first. *)
Definition redeem_step (dep : Deployment) (protocol : ProtocolState) (vault : OnChain VaultState)
    (redeemer : OutPoint) : LM (Step * OnChain VaultState * OutPoint) :=
  t ← tick_now dep 120000;
  built ← expect "builds" (redeem (dep_ctx dep) protocol vault
    (mkRedeemIntent (Obol.new 1000000) (obol_coin redeemer 5000000) op_true op_true t FEE));
  tx ← spot_check dep (plan built) greedy_redeemer "genuine redeem accepted";
  let d := expected built in
  mret (mkStep "redeem" (txid_of tx) (with_reserve (rdd_reserve d) (with_pot (rdd_pot d) protocol)) [rdd_vault d],
        rdd_vault d, mkOutPoint (txid_of tx) 4).

Definition close_step (dep : Deployment) (owner : bytes) (protocol : ProtocolState)
    (vault : OnChain VaultState) (payer : OutPoint) : LM Step :=
  built ← expect "builds" (close (dep_ctx dep) (pot protocol) vault
    (mkCloseIntent (obol_coin payer 4000000) op_true op_true FEE));
  plan ← expect "signs" (owner_sign (dep_ctx dep) (plan built) owner);
  tx ← broadcast dep plan;
  mret (mkStep "close" (txid_of tx) (with_pot (cd_pot (expected built)) protocol) []).

(** ** The whole life *)

(** [coins[i]] and its value. *)
Definition funded (coins : list OutPoint) (i : nat) : LM (OutPoint * Z) :=
  c ← expect_some "index" (coins !! i); v ← expect_some "index" (values !! i); mret (c, v).

Definition lifecycle (dep : Deployment) (owner : bytes) : LM (list Step) :=
  let owner_pk := keypair_pk owner in
  let p := ctx_params (dep_ctx dep) in
  coins ← must "funding" (fund_optrue (Domain.policy p) values);
  '(c0, v0) ← funded coins 0; '(c1, v1) ← funded coins 1; '(c2, v2) ← funded coins 2;
  '(c3, _) ← funded coins 3; '(c4, _) ← funded coins 4; '(c5, _) ← funded coins 5; '(c6, _) ← funded coins 6;
  poke ← poke_step dep (dep_protocol dep) c3;
  '(open_a, vault_a, obol_a) ← open_step dep owner_pk (st_protocol poke) c0 v0;
  '(repay, vault_a, obol_a) ← repay_step dep owner (st_protocol open_a) vault_a obol_a c4;
  '(draw, vault_a, obol_draw) ← draw_step dep owner (st_protocol repay) vault_a;
  '(refresh, vault_a) ← refresh_step dep (st_protocol draw) vault_a c5;
  '(liquidate, vault_a) ← liquidate_step dep (st_protocol refresh) vault_a obol_draw;
  bad_debt ← bad_debt_step dep (st_protocol liquidate) vault_a obol_a c6;
  '(open_f, vault_f, obol_f) ← open_at_150 dep owner_pk c1 v1 (st_protocol bad_debt) [];
  '(open_c, vault_c, obol_c) ← open_at_150 dep owner_pk c2 v2 (st_protocol open_f) [vault_f];
  merged ← must "merge" (merge_obol (Domain.policy p) (obol p) [(obol_f, 5000000); (obol_c, 5000000)]);
  '(full_liq, obol_change) ← full_liq_step dep (st_protocol open_c) vault_f vault_c merged;
  '(redeem, vault_c, obol_change) ← redeem_step dep (st_protocol full_liq) vault_c obol_change;
  close ← close_step dep owner (st_protocol redeem) vault_c obol_change;
  mret [poke; open_a; repay; draw; refresh; liquidate; bad_debt; open_f; open_c; full_liq; redeem; close].

End Driver.
