(* ===== verification/LifecycleSpec.v ===== *)
(** * What a run of the driver shows

    That every step of the scripted life is confirmed, and its amounts.  The node is a state
    that calls move: [asks] are the calls that confirm nothing, and a step ends in the one call
    that sends its transaction and mines ([send_and_mine]). *)

From Stdlib Require Import ZArith Lia.
From stdpp Require Import base gmap strings option list.
From S2P Require Import Prelude Hex Units CrMath Elements Floats Oracle Simf Encode Domain Artifacts Effects.
From S2P Require Import Jets CovVault CovReserve CovIssuer Plan BuildOwner BuildKeeper Accept CovLemmas.
From S2P Require Import CovAccept Sound SoundOwner SoundKeeper Protocol Node Funding Ceremony Keeper Lifecycle.

(** ** The amounts of a step *)

(** OBOL of the pot and sats of the reserve. *)
Definition held (p : ProtocolState) : Z * Z := (Obol.raw (oc_value (pot p)), Sats.raw (oc_value (reserve p))).
(** Debt and collateral of a vault. *)
Definition owed (v : OnChain VaultState) : Z * Z := (Obol.raw (debt (state v)), Sats.raw (oc_value v)).
(** A row of the trace: pot, reserve, and the debts alive. *)
Definition row (st : Step) : string * (Z * Z) * list Z :=
  (st_label st, held (st_protocol st), (fun v => (owed v).1) <$> st_vaults st).

(** ** What reaches the node *)

Section Calls.
Context `{HL : Lib, TC : TxCodec}.
Context {A N J : Type} `{AD : Addresses A, RP : Rpc N, WR : !WalletRpc N J}.

(** One call that confirms nothing: a read, or a transaction of the wallet or a tampered one
    put to the node.  The call that mines, [generatetoaddress], is not among them. *)
Inductive asks : N -> N -> Prop :=
| asks_height n : asks n (getblockcount n).2
| asks_address n : asks n (getnewaddress n).2
| asks_coins n : asks n (listunspent n).2
| asks_tx txid n : asks n (gettransaction_hex txid n).2
| asks_sign raw n : asks n (signrawtransaction_hex raw n).2
| asks_send tx n : asks n (sendrawtransaction tx n).2.

Abbreviation run m := (triple (fun _ : N => True) (rtc asks) m (fun _ => True)) (only parsing).

Lemma calls_ok {E X} (m : Eff N E X) n r n' : run m -> m n = (r, n') -> rtc asks n n'.
Proof. intros Hm E1. destruct (Hm n I) as [Hr _]. by rewrite E1 in Hr. Qed.
Lemma calls_call {E X} (m : Eff N E X) : (forall n, asks n (m n).2) -> run m.
Proof. intros Hm n _. split; [by apply rtc_once|done]. Qed.
Lemma calls_bind {E X Y} (m : Eff N E X) (f : X -> Eff N E Y) : run m -> (forall x, run (f x)) -> run (m ≫= f).
Proof. intros Hm Hf. eapply triple_bind; [apply _|done|exact Hm|]. intros x _. apply Hf. Qed.
Lemma calls_ret {E X} (x : X) : run (mret x : Eff N E X).
Proof. by apply triple_ret; [apply _|]. Qed.
Lemma calls_throw {E X} (e : E) : run (throw e : Eff N E X).
Proof. apply triple_throw. apply _. Qed.
Lemma calls_lift {E X} (r : result E X) : run (lift r : Eff N E X).
Proof. by apply triple_lift; [apply _|]. Qed.
Lemma calls_try {E F X} (m : Eff N F X) : run m -> run (try m : Eff N E _).
Proof. intros Hm. eapply triple_any, triple_try, Hm. Qed.
Lemma calls_map_error {E F X} (f : E -> F) (m : Eff N E X) : run m -> run (map_error f m).
Proof. apply triple_map_error. Qed.

#[local] Hint Resolve calls_bind calls_ret calls_throw calls_lift calls_try calls_map_error : calls.
#[local] Hint Constructors asks : calls.
Ltac calls := intros; repeat case_match; try (apply calls_bind; [|calls]); eauto with calls.

Lemma calls_height : run height.
Proof. apply calls_call. constructor. Qed.
Lemma calls_send tx : run (send tx).
Proof.
  apply calls_call. intros n. unfold send. pose proof (asks_send tx n) as Ha.
  by destruct (sendrawtransaction tx n) as [[|[]] n1].
Qed.
Lemma calls_new_address : run new_address.
Proof. apply calls_bind; [apply calls_call; constructor|]. calls. Qed.
Lemma calls_biggest_coin : run biggest_coin.
Proof. apply calls_bind; [apply calls_call; constructor|]. calls. Qed.
Lemma calls_sign_and_send tx : run (sign_and_send tx).
Proof.
  apply calls_bind; [apply calls_call; constructor|]. intros hex. do 3 (apply calls_bind; [apply calls_lift|intros ?]).
  apply calls_bind; [apply calls_try, calls_send|]. calls.
Qed.
Lemma calls_find_out txid spk v : run (find_out txid spk v).
Proof. apply calls_bind; [apply calls_bind; [apply calls_call; constructor|]|]; calls. Qed.
Lemma calls_fund_optrue policy values : run (fund_optrue policy values).
Proof.
  apply calls_bind; [apply calls_biggest_coin|]. intros [[op sats] a]. apply calls_bind; [apply calls_lift|intros change].
  apply calls_bind; [apply calls_new_address|intros ?]. apply calls_bind; [apply calls_sign_and_send|calls].
Qed.
Lemma calls_merge_obol policy obol parts : run (merge_obol policy obol parts).
Proof.
  apply calls_bind; [apply calls_biggest_coin|]. intros [[op sats] a]. apply calls_bind; [apply calls_lift|intros change].
  apply calls_bind; [apply calls_new_address|intros ?].
  apply calls_bind; [apply calls_sign_and_send|intros ?; apply calls_find_out].
Qed.
Lemma calls_assert_rejects tx : run (assert_node_rejects tx).
Proof. apply calls_bind; [apply calls_try, calls_send|calls]. Qed.
Lemma calls_tick_now `{SH : SigHash} dep p : run (tick_now dep p).
Proof.
  apply calls_bind; [apply calls_map_error, calls_height|intros h]. unfold tick. cbv zeta.
  do 3 (apply calls_bind; [apply calls_bind; [apply calls_lift|intros ?]; apply calls_bind; [apply calls_lift|calls]|intros ?]).
  apply calls_lift.
Qed.

End Calls.

Section Spec.
Context `{HL : Lib, SH : SigHash, RD : Redeemer, TS : TxSize, TC : TxCodec}.
Context {A N J : Type} `{AD : Addresses A, RP : Rpc N, WR : !WalletRpc N J, CK : Clock N}.

Lemma expect_ok {E X} what (r : result E X) (n n' : N) x : expect what r n = (Ok x, n') -> r = Ok x.
Proof. unfold expect, lift. intros [= Hr _]. by apply map_err_ok in Hr. Qed.

(** One price, signed three times. *)
Lemma tick_range dep h p (n n' : N) t :
  0 < p < U32_MAX -> tick dep h p n = (Ok t, n') ->
  OracleTick.lo t = Price.new p /\ OracleTick.hi t = Price.new p /\
  OracleTick.backing_k t = K_PAR.
Proof.
  intros Hp Ht. unfold tick in Ht. cbv zeta in Ht.
  repeat (apply eff_bind_ok in Ht as ([s q] & ? & Hq & Ht); apply eff_bind_ok in Hq as (sl & ? & Hs & Hq);
    apply expect_ok in Hs; injection Hs as <-; apply eff_bind_ok in Hq as (? & ? & _ & Hq); injection Hq as <- <- _).
  apply expect_ok in Ht. unfold OracleTick.new in Ht. destruct (_ <=? _); [done|].
  cbn [OracleTick.place OracleSlot.index OracleSlot.idx replicate] in Ht. injection Ht as <-.
  unfold OracleTick.lo, OracleTick.hi, OracleTick.price_range.
  cbn -[Z.ltb Price.min Price.max U32_MAX]. unfold Price.min, Price.max, U32_MAX in *.
  repeat (cbn [Price.raw]; match goal with |- context [?a <? ?b] => destruct (Z.ltb_spec a b); try lia end).
  all: split_and!; reflexivity.
Qed.

(** A tick at the tip, and a transaction of the driver: only the tick's prices matter here. *)
Lemma tick_now_range dep p (n n' : N) t :
  0 < p < U32_MAX -> tick_now dep p n = (Ok t, n') ->
  OracleTick.lo t = Price.new p /\ OracleTick.hi t = Price.new p /\ OracleTick.backing_k t = K_PAR.
Proof. intros Hp Ht. unfold tick_now in Ht. eff_peel_step Ht. by eapply tick_range. Qed.

(** [walk H] peels a step of the driver down to its builder. *)
Ltac walk H :=
  eff_peel H;
  repeat match goal with
  | Ht : tick_now _ ?p _ = (Ok _, _) |- _ =>
      apply (tick_now_range _ p) in Ht as (? & ? & ?); [|by unfold U32_MAX]
  | He : map_err _ _ = Ok _ |- _ => apply map_err_ok in He
  | He : expect _ _ _ = (Ok _, _) |- _ => apply expect_ok in He
  end.

Context (dep : Deployment) (kp : bytes).

(** *** Confirmations *)

(** What a step of the script does: the protocol and the vaults alive before it, the plan its
    checked builder makes of them (with the owner's signature where one is due), and the state
    that builder announces. *)
Inductive performs (p : ProtocolState) : list (OnChain VaultState) -> TxPlan -> Step -> Prop :=
| performs_poke vs i b id : poke (dep_ctx dep) (issuer p) i = Ok b ->
    performs p vs (plan b) (mkStep "poke" id (with_issuer (pkd_issuer (expected b)) p) vs)
| performs_open vs i b id : open (dep_ctx dep) p i = Ok b ->
    performs p vs (plan b) (mkStep "open" id (opened (expected b)) (vs ++ [od_vault (expected b)]))
| performs_repay v vs i b pl id : repay (dep_ctx dep) (pot p) v i = Ok b ->
    owner_sign (dep_ctx dep) (plan b) kp = Ok pl ->
    performs p (v :: vs) pl
      (mkStep "repay" id (with_pot (rpd_pot (expected b)) p) (rpd_vault (expected b) :: vs))
| performs_draw v vs i b pl id : draw (dep_ctx dep) p v i = Ok b ->
    owner_sign (dep_ctx dep) (plan b) kp = Ok pl ->
    performs p (v :: vs) pl
      (mkStep "draw" id (with_issuer (dd_issuer (expected b)) (with_pot (dd_pot (expected b)) p))
        (dd_vault (expected b) :: vs))
| performs_refresh v vs i b id : refresh (dep_ctx dep) v i = Ok b ->
    performs p (v :: vs) (plan b) (mkStep "refresh" id p (rfd_vault (expected b) :: vs))
| performs_liquidate v vs i b id : liquidate (dep_ctx dep) p v i = Ok b ->
    performs p (v :: vs) (plan b)
      (mkStep "liquidate" id (with_reserve (ld_reserve (expected b)) (with_pot (ld_pot (expected b)) p))
        (ld_vault (expected b) :: vs))
| performs_bad_debt v vs i b id : bad_debt (dep_ctx dep) p v i = Ok b ->
    performs p (v :: vs) (plan b)
      (mkStep "bad_debt" id (mkProtocol (bdd_pot (expected b)) (bdd_reserve (expected b)) (bdd_issuer (expected b))) vs)
| performs_full_liq v vs i b id : full_liq (dep_ctx dep) p v i = Ok b ->
    performs p (v :: vs) (plan b)
      (mkStep "full_liq" id (with_reserve (fd_reserve (expected b)) (with_pot (fd_pot (expected b)) p)) vs)
| performs_redeem v vs i b id : redeem (dep_ctx dep) p v i = Ok b ->
    performs p (v :: vs) (plan b)
      (mkStep "redeem" id (with_reserve (rdd_reserve (expected b)) (with_pot (rdd_pot (expected b)) p))
        (rdd_vault (expected b) :: vs))
| performs_close v vs i b pl id : close (dep_ctx dep) (pot p) v i = Ok b ->
    owner_sign (dep_ctx dep) (plan b) kp = Ok pl ->
    performs p (v :: vs) pl (mkStep "close" id (with_pot (cd_pot (expected b)) p) vs).

(** The step is confirmed between two states of the node: after reads and refused sends, the
    finalized transaction of its plan is sent, taken by the node and mined on. *)
Definition confirms (p : ProtocolState) (vs : list (OnChain VaultState)) (st : Step) (n n' : N) : Prop :=
  exists n1 pl tx id, rtc asks n n1 /\ performs p vs pl st /\ finalize (dep_ctx dep) pl = Ok tx /\
    st_txid st = txid_of tx /\ send_and_mine tx n1 = (Ok id, n').

(** The steps of a trace, each confirmed from the state the one before it announced. *)
Inductive plays : ProtocolState -> list (OnChain VaultState) -> N -> list Step -> N -> Prop :=
| plays_done p vs n : plays p vs n [] n
| plays_step p vs n n1 st trace n' :
    confirms p vs st n n1 -> plays (st_protocol st) (st_vaults st) n1 trace n' ->
    plays p vs n (st :: trace) n'.

Lemma confirms_after p vs st n n0 n' : rtc asks n n0 -> confirms p vs st n0 n' -> confirms p vs st n n'.
Proof. intros Ha (n1 & pl & tx & id & Hb & Hc). exists n1, pl, tx, id. split; [by etrans|done]. Qed.

Lemma broadcast_mines pl (n n' : N) tx :
  broadcast dep pl n = (Ok tx, n') ->
  finalize (dep_ctx dep) pl = Ok tx /\ exists id, send_and_mine tx n = (Ok id, n').
Proof.
  unfold broadcast. intros Hb. eff_peel_step Hb. apply map_err_ok in Hx. destruct (_ <? _); [done|].
  eff_peel Hb. injection Hb as <- <-. split; [done|by eexists].
Qed.

Lemma spot_check_mines pl spoil what (n n' : N) tx :
  spot_check dep pl spoil what n = (Ok tx, n') ->
  finalize (dep_ctx dep) pl = Ok tx /\ exists n1 id, rtc asks n n1 /\ send_and_mine tx n1 = (Ok id, n').
Proof.
  unfold spot_check. intros Hb. eff_peel Hb. apply map_err_ok in Hx. injection Hb as <- <-.
  split; [done|]. eexists _, _. split; [|done]. eapply calls_ok; [apply calls_assert_rejects|done].
Qed.

Lemma confirms_broadcast p vs st pl (n n1 n' : N) tx :
  rtc asks n n1 -> performs p vs pl st -> st_txid st = txid_of tx -> broadcast dep pl n1 = (Ok tx, n') ->
  confirms p vs st n n'.
Proof. intros Ha Hp Ht [Hf [id Hm]]%broadcast_mines. by exists n1, pl, tx, id. Qed.

Lemma confirms_spot_check p vs st pl spoil what (n n1 n' : N) tx :
  rtc asks n n1 -> performs p vs pl st -> st_txid st = txid_of tx ->
  spot_check dep pl spoil what n1 = (Ok tx, n') -> confirms p vs st n n'.
Proof.
  intros Ha Hp Ht (Hf & n2 & id & Hb & Hm)%spot_check_mines.
  exists n2, pl, tx, id. split; [by etrans|done].
Qed.

(** [mined H]: the step of [H] ends in one of the two, after at most a look at the tip. *)
Ltac mined H :=
  eff_peel H; injection H; intros; subst;
  repeat match goal with
  | Ht : tick_now _ _ _ = _ |- _ => apply (calls_ok (tick_now _ _) _ _ _ (calls_tick_now _ _)) in Ht
  | He : map_err _ _ = Ok _ |- _ => apply map_err_ok in He
  end;
  split; [|reflexivity];
  first [eapply confirms_broadcast; [..|eassumption]|eapply confirms_spot_check; [..|eassumption]];
  [first [eassumption|reflexivity]|first [eapply (performs_open _ []); eassumption|econstructor; eassumption]|reflexivity].

Lemma poke_step_confirms p c (n n' : N) st :
  poke_step dep p c n = (Ok st, n') -> confirms p [] st n n' /\ st_vaults st = [].
Proof. unfold poke_step. intros Hs. mined Hs. Qed.

Lemma open_step_confirms p c value (n n' : N) st v o :
  open_step dep (keypair_pk kp) p c value n = (Ok (st, v, o), n') -> confirms p [] st n n' /\ st_vaults st = [v].
Proof. unfold open_step. intros Hs. mined Hs. Qed.

Lemma open_150_confirms p c value alive (n n' : N) st v o :
  open_at_150 dep (keypair_pk kp) c value p alive n = (Ok (st, v, o), n') ->
  confirms p alive st n n' /\ st_vaults st = alive ++ [v].
Proof. unfold open_at_150. intros Hs. mined Hs. Qed.

Lemma repay_step_confirms p v payer fee_coin (n n' : N) st v' o :
  repay_step dep kp p v payer fee_coin n = (Ok (st, v', o), n') -> confirms p [v] st n n' /\ st_vaults st = [v'].
Proof. unfold repay_step. intros Hs. mined Hs. Qed.

Lemma draw_step_confirms p v (n n' : N) st v' o :
  draw_step dep kp p v n = (Ok (st, v', o), n') -> confirms p [v] st n n' /\ st_vaults st = [v'].
Proof. unfold draw_step. intros Hs. mined Hs. Qed.

Lemma refresh_step_confirms p v fee_coin (n n' : N) st v' :
  refresh_step dep p v fee_coin n = (Ok (st, v'), n') -> confirms p [v] st n n' /\ st_vaults st = [v'].
Proof. unfold refresh_step. intros Hs. mined Hs. Qed.

Lemma liquidate_step_confirms p v keeper (n n' : N) st v' :
  liquidate_step dep p v keeper n = (Ok (st, v'), n') -> confirms p [v] st n n' /\ st_vaults st = [v'].
Proof. unfold liquidate_step. intros Hs. mined Hs. Qed.

Lemma bad_debt_step_confirms p v keeper fee_coin (n n' : N) st :
  bad_debt_step dep p v keeper fee_coin n = (Ok st, n') -> confirms p [v] st n n' /\ st_vaults st = [].
Proof. unfold bad_debt_step. intros Hs. mined Hs. Qed.

Lemma full_liq_step_confirms p v vc keeper (n n' : N) st o :
  full_liq_step dep p v vc keeper n = (Ok (st, o), n') -> confirms p [v; vc] st n n' /\ st_vaults st = [vc].
Proof. unfold full_liq_step. intros Hs. mined Hs. Qed.

Lemma redeem_step_confirms p v redeemer (n n' : N) st v' o :
  redeem_step dep p v redeemer n = (Ok (st, v', o), n') -> confirms p [v] st n n' /\ st_vaults st = [v'].
Proof. unfold redeem_step. intros Hs. mined Hs. Qed.

Lemma close_step_confirms p v payer (n n' : N) st :
  close_step dep kp p v payer n = (Ok st, n') -> confirms p [v] st n n' /\ st_vaults st = [].
Proof. unfold close_step. intros Hs. mined Hs. Qed.

Lemma poke_step_row p c (n n' : N) st :
  poke_step dep p c n = (Ok st, n') -> row st = ("poke"%string, held p, []) /\ held (st_protocol st) = held p.
Proof. unfold poke_step. intros Hs. walk Hs. injection Hs as <- _. done. Qed.

(** What a builder of the script announces, in amounts. *)
Section Rows.
Context (p : ProtocolState) (X R : Z) (Hp : held p = (X, R)) (HX : 0 <= X <= 1000000000) (HR : 0 <= R <= MAX_MONEY).

Lemma open_row owner coll c value t b :
  OracleTick.lo t = Price.new 120000 ->
  open (dep_ctx dep) p (open_intent owner coll c value t) = Ok b ->
  held (opened (expected b)) = (X - 5000000, R + 208333) /\ owed (od_vault (expected b)) = (5000000, coll).
Proof.
  intros Hlo Hb. guards. unfold held, owed in *.
  injection Hp as E1 E2. cbn in *. rewrite Hlo, E1, E2 in *.
  change (at_cr principal (Price.new 120000) K_FEE_HALF_PERCENT) with 208333 in *.
  unfold principal, MAX_MONEY in *. split; f_equal; uint.
Qed.

Lemma repay_row v c payer fee_coin b :
  owed v = (5000000, c) ->
  repay (dep_ctx dep) (pot p) v (mkRepayIntent (Obol.new 2000000) (obol_coin payer 5000000) op_true
    (coin fee_coin 1000000) op_true FEE) = Ok b ->
  held (with_pot (rpd_pot (expected b)) p) = (X + 2000000, R) /\ owed (rpd_vault (expected b)) = (3000000, c).
Proof.
  intros Hv Hb. guards. unfold held, owed in *.
  injection Hp as E1 E2. injection Hv as E3 E4. cbn in *. rewrite E1, E2, E3, E4, u64_wadd_id by lia. split; f_equal; uint.
Qed.

Lemma draw_row v c t b :
  owed v = (3000000, c) -> 10000 <= c <= MAX_MONEY ->
  draw (dep_ctx dep) p v (mkDrawIntent (Obol.new 1000000) op_true t FEE) = Ok b ->
  held (with_issuer (dd_issuer (expected b)) (with_pot (dd_pot (expected b)) p)) = (X - 1000000, R) /\
  owed (dd_vault (expected b)) = (4000000, c - 10000).
Proof.
  intros Hv Hc Hb. guards. unfold held, owed, MAX_MONEY in *.
  injection Hp as E1 E2. injection Hv as E3 E4. cbn in *. rewrite E1, E2, E3, E4 in *. split; f_equal; uint.
Qed.

Lemma refresh_row v fee_coin t b :
  refresh (dep_ctx dep) v (mkRefreshIntent t fee_coin op_true FEE) = Ok b -> owed (rfd_vault (expected b)) = owed v.
Proof. intros Hb. by guards. Qed.

Lemma liquidate_row v c t keeper b :
  OracleTick.hi t = Price.new 50000 -> owed v = (4000000, c) ->
  liquidate (dep_ctx dep) p v (mkLiquidateIntent (Obol.new 1000000) (Sats.new 80000000) keeper op_true op_true t FEE)
    = Ok b ->
  held (with_reserve (ld_reserve (expected b)) (with_pot (ld_pot (expected b)) p)) = (X + 1000000, R + 1000000) /\
  owed (ld_vault (expected b)) = (3000000, 80000000).
Proof.
  intros Hhi Hv Hb. guards. unfold held, owed, MAX_MONEY in *.
  injection Hp as E1 E2. injection Hv as E3 E4. cbn in *. rewrite Hhi, E1, E2, E3 in *.
  change (Sats.raw (coll_at_cr 1000000 (Price.new 50000) K_RESERVE_SHARE)) with 1000000.
  split; f_equal; uint.
Qed.

(** A state with a concrete debt. *)
Lemma owed_debt v d c : owed v = (d, c) -> debt (state v) = Obol.new d /\ oc_value v = Sats.new c.
Proof. unfold owed. destruct v as [[[d'] ? ?] ? [c']]. cbn. by intros [= -> ->]. Qed.
Lemma held_reserve : oc_value (reserve p) = Sats.new R.
Proof. unfold held in Hp. destruct p as [? [? ? [r]] ?]. cbn in *. by injection Hp as _ ->. Qed.

Lemma bad_debt_row v keeper fee_coin t b :
  OracleTick.hi t = Price.new 35000 -> owed v = (3000000, 80000000) ->
  bad_debt (dep_ctx dep) p v (mkBadDebtIntent keeper op_true op_true fee_coin op_true t FEE) = Ok b ->
  held (mkProtocol (bdd_pot (expected b)) (bdd_reserve (expected b)) (bdd_issuer (expected b)))
    = (X + 3000000, Z.max 0 (R - 9999999)).
Proof.
  intros Hhi [E3 E4]%owed_debt Hb. guards. unfold MAX_MONEY in *.
  pose proof held_reserve as Er. unfold held in *. injection Hp as E1 E2. cbn in *. rewrite Hhi, E1, E3, E4, Er in *. cbn in *.
  assert (Epay : Sats.raw (bad_debt_reserve_pay 3000000 (Price.new 35000) (Sats.new 80000000) (Sats.new R)) = Z.min 9999999 R).
  { unfold bad_debt_reserve_pay.
    change (Sats.raw (coll_at_cr 3000000 (Price.new 35000) K_PAR)) with 85714285.
    change (Sats.raw (coll_at_cr 3000000 (Price.new 35000) K_RESERVE_SHARE)) with 4285714.
    change (Sats.raw (coll_at_cr 3000000 (Price.new 35000) K_BAD_DEBT_CAP)) with 17142857.
    cbn -[Z.min]. uint. }
  rewrite Epay. f_equal; uint.
Qed.

Lemma full_liq_row v keeper t b :
  OracleTick.hi t = Price.new 85000 -> owed v = (5000000, 62500000) ->
  full_liq (dep_ctx dep) p v (mkFullLiqIntent keeper op_true op_true t FEE) = Ok b ->
  held (with_reserve (fd_reserve (expected b)) (with_pot (fd_pot (expected b)) p)) = (X + 5000000, R + 1225490).
Proof.
  intros Hhi [E3 E4]%owed_debt Hb. guards. unfold held, MAX_MONEY in *. injection Hp as E1 E2. cbn in *.
  rewrite Hhi, E1, E2, E3, E4 in *. cbn in *.
  change (Sats.raw (coll_at_cr 5000000 (Price.new 85000) K_PAR)) with 58823529.
  change (u64_sat_sub 62500000 58823529 / 3) with 1225490. f_equal; uint.
Qed.

Lemma redeem_row v redeemer t b :
  OracleTick.hi t = Price.new 120000 -> OracleTick.backing_k t = K_PAR -> owed v = (5000000, 62500000) ->
  redeem (dep_ctx dep) p v (mkRedeemIntent (Obol.new 1000000) redeemer op_true op_true t FEE) = Ok b ->
  held (with_reserve (rdd_reserve (expected b)) (with_pot (rdd_pot (expected b)) p)) = (X + 1000000, R + 41666) /\
  owed (rdd_vault (expected b)) = (4000000, 54166667).
Proof.
  intros Hhi Hk [E3 E4]%owed_debt Hb. guards. unfold held, owed, MAX_MONEY in *. injection Hp as E1 E2. cbn in *.
  rewrite Hhi, Hk, E1, E2, E3, E4 in *. cbn in *.
  change (Sats.raw (coll_at_cr 1000000 (Price.new 120000) K_FEE_HALF_PERCENT)) with 41666.
  change (Sats.raw (coll_at_cr 1000000 (Price.new 120000) (RatioK.min K_PAR K_PAR))) with 8333333.
  split; f_equal; uint.
Qed.

Lemma close_row v c payer b :
  owed v = (4000000, c) ->
  close (dep_ctx dep) (pot p) v (mkCloseIntent payer op_true op_true FEE) = Ok b ->
  held (with_pot (cd_pot (expected b)) p) = (X + 4000000, R).
Proof.
  intros [E3 E4]%owed_debt Hb. guards. unfold held in *. injection Hp as E1 E2. cbn in *.
  rewrite E1, E2, E3. cbn. rewrite u64_wadd_id by lia. done.
Qed.

(** *** The steps *)

Lemma open_step_row c value (n n' : N) st v o :
  open_step dep (keypair_pk kp) p c value n = (Ok (st, v, o), n') ->
  st_label st = "open"%string /\ held (st_protocol st) = (X - 5000000, R + 208333) /\
  st_vaults st = [v] /\ owed v = (5000000, 100000000).
Proof.
  unfold open_step. intros Hs. walk Hs. injection Hs as <- <- _ _.
  match goal with Hb : open _ _ _ = Ok _ |- _ => apply open_row in Hb as [? ?]; [|done] end. done.
Qed.

Lemma open_150_row c value alive (n n' : N) st v o :
  open_at_150 dep (keypair_pk kp) c value p alive n = (Ok (st, v, o), n') ->
  st_label st = "open"%string /\ held (st_protocol st) = (X - 5000000, R + 208333) /\
  st_vaults st = alive ++ [v] /\ owed v = (5000000, 62500000).
Proof.
  unfold open_at_150. intros Hs. walk Hs. injection Hs as <- <- _ _.
  match goal with Hb : open _ _ _ = Ok _ |- _ => apply open_row in Hb as [? ?]; [|done] end. done.
Qed.

Lemma repay_step_row v c payer fee_coin (n n' : N) st v' o :
  owed v = (5000000, c) -> repay_step dep kp p v payer fee_coin n = (Ok (st, v', o), n') ->
  st_label st = "repay"%string /\ held (st_protocol st) = (X + 2000000, R) /\
  st_vaults st = [v'] /\ owed v' = (3000000, c).
Proof.
  unfold repay_step. intros Hv Hs. walk Hs. injection Hs as <- <- _ _.
  match goal with Hb : repay _ _ _ _ = Ok _ |- _ => eapply repay_row in Hb as [? ?]; [|done] end. done.
Qed.

Lemma draw_step_row v c (n n' : N) st v' o :
  owed v = (3000000, c) -> 10000 <= c <= MAX_MONEY -> draw_step dep kp p v n = (Ok (st, v', o), n') ->
  st_label st = "draw"%string /\ held (st_protocol st) = (X - 1000000, R) /\
  st_vaults st = [v'] /\ owed v' = (4000000, c - 10000).
Proof.
  unfold draw_step. intros Hv Hc Hs. walk Hs. injection Hs as <- <- _ _.
  match goal with Hb : draw _ _ _ _ = Ok _ |- _ => eapply draw_row in Hb as [? ?]; [|done..] end. done.
Qed.

Lemma refresh_step_row v fee_coin (n n' : N) st v' :
  refresh_step dep p v fee_coin n = (Ok (st, v'), n') ->
  st_label st = "refresh"%string /\ held (st_protocol st) = (X, R) /\ st_vaults st = [v'] /\ owed v' = owed v.
Proof.
  unfold refresh_step. intros Hs. walk Hs. injection Hs as <- <- _.
  match goal with Hb : refresh _ _ _ = Ok _ |- _ => apply refresh_row in Hb end. done.
Qed.

Lemma liquidate_step_row v c keeper (n n' : N) st v' :
  owed v = (4000000, c) -> liquidate_step dep p v keeper n = (Ok (st, v'), n') ->
  st_label st = "liquidate"%string /\ held (st_protocol st) = (X + 1000000, R + 1000000) /\
  st_vaults st = [v'] /\ owed v' = (3000000, 80000000).
Proof.
  unfold liquidate_step. intros Hv Hs. walk Hs. injection Hs as <- <- _.
  match goal with Hb : liquidate _ _ _ _ = Ok _ |- _ => eapply liquidate_row in Hb as [? ?]; [|done..] end. done.
Qed.

Lemma bad_debt_step_row v keeper fee_coin (n n' : N) st :
  owed v = (3000000, 80000000) -> bad_debt_step dep p v keeper fee_coin n = (Ok st, n') ->
  st_label st = "bad_debt"%string /\ held (st_protocol st) = (X + 3000000, Z.max 0 (R - 9999999)) /\ st_vaults st = [].
Proof.
  unfold bad_debt_step. intros Hv Hs. walk Hs. injection Hs as <- _.
  match goal with Hb : bad_debt _ _ _ _ = Ok _ |- _ => apply bad_debt_row in Hb; [|done..] end. done.
Qed.

Lemma full_liq_step_row v vc keeper (n n' : N) st o :
  owed v = (5000000, 62500000) -> full_liq_step dep p v vc keeper n = (Ok (st, o), n') ->
  st_label st = "full_liq"%string /\ held (st_protocol st) = (X + 5000000, R + 1225490) /\ st_vaults st = [vc].
Proof.
  unfold full_liq_step. intros Hv Hs. walk Hs. injection Hs as <- _ _.
  match goal with Hb : full_liq _ _ _ _ = Ok _ |- _ => apply full_liq_row in Hb; [|done..] end. done.
Qed.

Lemma redeem_step_row v redeemer (n n' : N) st v' o :
  owed v = (5000000, 62500000) -> redeem_step dep p v redeemer n = (Ok (st, v', o), n') ->
  st_label st = "redeem"%string /\ held (st_protocol st) = (X + 1000000, R + 41666) /\
  st_vaults st = [v'] /\ owed v' = (4000000, 54166667).
Proof.
  unfold redeem_step. intros Hv Hs. walk Hs. injection Hs as <- <- _ _.
  match goal with Hb : redeem _ _ _ _ = Ok _ |- _ => apply redeem_row in Hb as [? ?]; [|done..] end. done.
Qed.

Lemma close_step_row v c payer (n n' : N) st :
  owed v = (4000000, c) -> close_step dep kp p v payer n = (Ok st, n') ->
  st_label st = "close"%string /\ held (st_protocol st) = (X + 4000000, R) /\ st_vaults st = [].
Proof.
  unfold close_step. intros Hv Hs. walk Hs. injection Hs as <- _.
  match goal with Hb : close _ _ _ _ = Ok _ |- _ => eapply close_row in Hb; [|done] end. done.
Qed.

End Rows.

Lemma row_of st l h vs ds :
  st_label st = l -> held (st_protocol st) = h -> st_vaults st = vs -> ((fun v => (owed v).1) <$> vs) = ds ->
  row st = (l, h, ds).
Proof. unfold row. by intros -> -> -> ->. Qed.

(** [amount_at H X R]: the pot and the reserve of [H], computed. *)
Ltac amount_at H X R :=
  match type of H with
  | held _ = (?a, ?b) => replace a with X in H by (unfold SUPPLY; lia); replace b with R in H by lia
  end.
(** [played lem Hp X R]: the step [lem] is about, played from the state of [Hp]. *)
Ltac played Hx lem Hp X R :=
  let L := fresh "L" in let H := fresh "HS" in
  eapply (lem _ _ _ Hp) in Hx; [destruct Hx as (L & H & Hx); amount_at H X R|first [unfold MAX_MONEY; lia|eassumption]..].

(** The whole script, peeled into its steps. *)
Ltac script H :=
  unfold lifecycle in H; cbv zeta in H;
  repeat (eff_peel_step H; repeat match goal with x : _ * _ |- _ => destruct x end); injection H as <- <-.

Lemma funded_pure coins i (n n' : N) x : funded coins i n = (Ok x, n') -> n' = n.
Proof. unfold funded, expect_some. intros Hf. eff_peel Hf. by injection Hf as _ <-. Qed.

(** The table of a run from a reserve of [r] sats. *)
Definition table (r : Z) : list (string * (Z * Z) * list Z) :=
  let s := Z.max 0 (r - 8791666) in
  [("poke", (100000000, r), []);
   ("open", (95000000, r + 208333), [5000000]);
   ("repay", (97000000, r + 208333), [3000000]);
   ("draw", (96000000, r + 208333), [4000000]);
   ("refresh", (96000000, r + 208333), [4000000]);
   ("liquidate", (97000000, r + 1208333), [3000000]);
   ("bad_debt", (100000000, s), []);
   ("open", (95000000, s + 208333), [5000000]);
   ("open", (90000000, s + 416666), [5000000; 5000000]);
   ("full_liq", (95000000, s + 1642156), [5000000]);
   ("redeem", (96000000, s + 1683822), [4000000]);
   ("close", (100000000, s + 1683822), [])]%string.

(** Every step of a run that returns is confirmed, from the state the one before announced. *)
Lemma lifecycle_plays (n n' : N) (trace : list Step) :
  lifecycle dep kp n = (Ok trace, n') ->
  exists n0, rtc asks n n0 /\ plays (dep_protocol dep) [] n0 trace n'.
Proof.
  intros Hl. script Hl.
  repeat match goal with Hf : funded _ _ _ = _ |- _ => apply funded_pure in Hf as -> end.
  match goal with Hx : fund_optrue _ _ _ = _ |- _ => apply calls_ok in Hx; [|apply calls_fund_optrue] end.
  match goal with Hx : merge_obol _ _ _ _ = _ |- _ => apply calls_ok in Hx as Hm; [|apply calls_merge_obol] end.
  eexists. split; [eassumption|].
  repeat match goal with
  | Hx : poke_step _ _ _ _ = _ |- _ => apply poke_step_confirms in Hx as [? ?]
  | Hx : open_step _ _ _ _ _ _ = _ |- _ => apply open_step_confirms in Hx as [? ?]
  | Hx : repay_step _ _ _ _ _ _ _ = _ |- _ => apply repay_step_confirms in Hx as [? ?]
  | Hx : draw_step _ _ _ _ _ = _ |- _ => apply draw_step_confirms in Hx as [? ?]
  | Hx : refresh_step _ _ _ _ _ = _ |- _ => apply refresh_step_confirms in Hx as [? ?]
  | Hx : liquidate_step _ _ _ _ _ = _ |- _ => apply liquidate_step_confirms in Hx as [? ?]
  | Hx : bad_debt_step _ _ _ _ _ _ = _ |- _ => apply bad_debt_step_confirms in Hx as [? ?]
  | Hx : open_at_150 _ _ _ _ _ _ _ = _ |- _ => apply open_150_confirms in Hx as [? ?]
  | Hx : full_liq_step _ _ _ _ _ _ = _ |- _ => apply full_liq_step_confirms in Hx as [? ?]
  | Hx : redeem_step _ _ _ _ _ = _ |- _ => apply redeem_step_confirms in Hx as [? ?]
  | Hx : close_step _ _ _ _ _ _ = _ |- _ => apply close_step_confirms in Hx as [? ?]
  end.
  repeat match goal with
  | |- plays _ _ _ [] _ => apply plays_done
  | |- plays _ _ _ (_ :: _) _ =>
      eapply plays_step; [first [eassumption|eapply confirms_after; eassumption]|];
      match goal with Hv : st_vaults ?st = _ |- plays (st_protocol ?st) _ _ _ _ => rewrite Hv end
  end.
Qed.

(** The amounts of a run that returns. *)
Lemma lifecycle_table (r : Z) (n n' : N) (trace : list Step) :
  held (dep_protocol dep) = (SUPPLY, r) -> 0 <= r <= MAX_MONEY - 10000000 ->
  lifecycle dep kp n = (Ok trace, n') -> row <$> trace = table r.
Proof.
  intros Hd Hr Hl. script Hl. unfold table. cbv zeta. unfold MAX_MONEY in Hr.
  match goal with Hx : poke_step _ _ _ _ = _ |- _ => apply poke_step_row in Hx as [L0 H0] end.
  rewrite Hd in L0, H0.
  match goal with Hx : open_step _ _ _ _ _ _ = _ |- _ => rename Hx into S1 end.
  match goal with Hx : repay_step _ _ _ _ _ _ _ = _ |- _ => rename Hx into S2 end.
  match goal with Hx : draw_step _ _ _ _ _ = _ |- _ => rename Hx into S3 end.
  match goal with Hx : refresh_step _ _ _ _ _ = _ |- _ => rename Hx into S4 end.
  match goal with Hx : liquidate_step _ _ _ _ _ = _ |- _ => rename Hx into S5 end.
  match goal with Hx : bad_debt_step _ _ _ _ _ _ = _ |- _ => rename Hx into S6 end.
  match goal with Hx : open_at_150 _ _ _ _ _ [] _ = _ |- _ => rename Hx into S7 end.
  match goal with Hx : open_at_150 _ _ _ _ _ [_] _ = _ |- _ => rename Hx into S8 end.
  match goal with Hx : full_liq_step _ _ _ _ _ _ = _ |- _ => rename Hx into S9 end.
  match goal with Hx : redeem_step _ _ _ _ _ = _ |- _ => rename Hx into S10 end.
  match goal with Hx : close_step _ _ _ _ _ _ = _ |- _ => rename Hx into S11 end.
  played S1 open_step_row H0 95000000 (r + 208333). destruct S1 as [V1 W1].
  played S2 repay_step_row HS 97000000 (r + 208333). destruct S2 as [V2 W2].
  played S3 draw_step_row HS0 96000000 (r + 208333). destruct S3 as [V3 W3].
  played S4 refresh_step_row HS1 96000000 (r + 208333). destruct S4 as [V4 W4]. rewrite W3 in W4.
  played S5 liquidate_step_row HS2 97000000 (r + 1208333). destruct S5 as [V5 W5].
  played S6 bad_debt_step_row HS3 100000000 (Z.max 0 (r - 8791666)). rename S6 into V6.
  played S7 open_150_row HS4 95000000 (Z.max 0 (r - 8791666) + 208333). destruct S7 as [V7 W7].
  played S8 open_150_row HS5 90000000 (Z.max 0 (r - 8791666) + 416666). destruct S8 as [V8 W8].
  played S9 full_liq_step_row HS6 95000000 (Z.max 0 (r - 8791666) + 1642156). rename S9 into V9.
  played S10 redeem_step_row HS7 96000000 (Z.max 0 (r - 8791666) + 1683822). destruct S10 as [V10 W10].
  played S11 close_step_row HS8 100000000 (Z.max 0 (r - 8791666) + 1683822). rename S11 into V11.
  rewrite !fmap_cons. repeat f_equal; [exact L0|..].
  all: eapply row_of; [eassumption..|]. all: cbn -[owed]; rewrite ?W1, ?W2, ?W3, ?W4, ?W5, ?W7, ?W8, ?W10; try done.
Qed.

(** C37: The scripted life confirms every operation and conserves the protocol.  Each of the
    twelve steps of a run that returns is the plan a checked builder made of the state the step
    before announced, finalized, taken by the node and mined on, with nothing mined in between;
    and after each of them pot, reserve and open debts are those of the table: every debt is
    issued out of the pot and comes back to it, the run ends with no vault and the full supply,
    and the reserve keeps what fees and shares brought in, less what the bad debt took, which is
    9,999,999 sats or all there is.  For any deployment whose pot holds the supply and whose
    reserve, empty or not, leaves room for ten million sats below the money supply. *)
Theorem lifecycle_restores (r : Z) (n n' : N) (trace : list Step) :
  held (dep_protocol dep) = (SUPPLY, r) -> 0 <= r <= MAX_MONEY - 10000000 ->
  lifecycle dep kp n = (Ok trace, n') ->
  (exists n0, rtc asks n n0 /\ plays (dep_protocol dep) [] n0 trace n') /\ row <$> trace = table r.
Proof. intros Hd Hr Hl. split; [by apply lifecycle_plays|by eapply lifecycle_table]. Qed.

End Spec.
