(* ===== verification/SpotChecks.v ===== *)
(** * The spot-checks of the driver

    The transactions the driver tampers with and puts to the node are refused by the
    covenants: the reserve's output of an open and of a liquidation is fixed to the sat, and a
    redemption leaves no sat more to the redeemer. *)

From Stdlib Require Import ZArith Lia.
From stdpp Require Import base gmap strings option list.
From S2P Require Import Prelude Hex Units CrMath Elements Floats Oracle Simf Encode Domain Artifacts Effects.
From S2P Require Import Jets CovVault CovReserve CovIssuer Plan BuildOwner BuildKeeper Accept CovLemmas.
From S2P Require Import CovAccept Sound SoundOwner SoundKeeper Node Funding Ceremony Keeper Pset Lifecycle.

(** Some covenant input of the plan refuses the transaction. *)
Definition refused `{Lib, SigHash} (ctx : Ctx) (tx : Transaction) (plan : TxPlan) : Prop :=
  Exists (fun s => slot_accepts ctx tx (p_utxos plan) s = false) (p_slots plan).

(** [cov_inv H]: what a covenant that accepted has checked, one hypothesis per check. *)
Ltac cov_inv H :=
  cbv zeta in H;
  repeat (match type of H with
    | (_ ≫= _) = Some _ => apply bind_Some in H as (? & ? & H)
    | (if ?b then _ else None) = Some _ => let G := fresh "G" in destruct b eqn:G; [|discriminate H]
    | (let '(_, _) := ?q in _) = Some _ => let G := fresh "G" in destruct q eqn:G
    end; cbv beta zeta in H).

Section SpotChecks.
Context `{HL : Lib, !LibSpec HL, CP : Compiler, SH : SigHash, !SigHashSpec SH, RD : Redeemer}.
Context (ctx : Ctx) (Hctx : deploy_ok ctx).
Abbreviation p := (ctx_params ctx).
Abbreviation a := (ctx_artifacts ctx).

(** ** What an accepted input has checked *)

Lemma slot_vault_inv tx utxos i s op :
  vault_wf s -> vault_op_wf op -> slot_accepts ctx tx utxos (mkSlot i (KVault s op)) = true ->
  exists cb, VaultCov.dispatch (vault_param p a) (slot_env ctx tx utxos i (a_vault a) cb)
    (Obol.raw (debt s)) (owner s) (BlockHeight.raw (last_height s)) (lower_vault_op op) = Some tt.
Proof.
  intros (Hd & Ho & Hh) Hop. pose proof (proj1 Hctx) as HA. pose proof (deploy_keys ctx Hctx) as HK.
  unfold slot_accepts, slot_program. cbn [ws_kind ws_input].
  pose proof (vault_control_block_some a s) as Hcb. rewrite Hcb. intros Hm%bool_decide_eq_true. unfold run_program in Hm.
  destruct (prog_covs p a HA) as (_ & _ & _ & Ec & _). rewrite Ec in Hm.
  rewrite (vault_params_ok p a HA HK) in Hm. cbn [mbind option_bind] in Hm. unfold VaultCov.main in Hm.
  unfold vault_witness, witness_values in Hm. cbn [foldl fst snd] in Hm. simpl_map. cbn [mbind option_bind] in Hm.
  unfold vault_op_value in Hm.
  rewrite !read_value in Hm by (try done; by apply lower_vault_op_wf). cbn [mbind option_bind] in Hm.
  unfold VaultCov.body in Hm. cov_inv Hm. eexists. exact Hm.
Qed.

Lemma slot_issuer_inv tx utxos i s op :
  u32 (BlockHeight.raw (last_mint_height s)) -> issuer_op_wf op ->
  slot_accepts ctx tx utxos (mkSlot i (KIssuer s op)) = true ->
  exists cb, IssuerCov.dispatch (issuer_param p a) (slot_env ctx tx utxos i (a_issuer a) cb)
    (BlockHeight.raw (last_mint_height s)) (lower_issuer_op op) = Some tt.
Proof.
  intros Hh Hop. pose proof (proj1 Hctx) as HA. pose proof (deploy_keys ctx Hctx) as HK.
  unfold slot_accepts, slot_program. cbn [ws_kind ws_input].
  rewrite issuer_control_block_some. intros Hm%bool_decide_eq_true. unfold run_program in Hm.
  destruct (prog_covs p a HA) as (_ & _ & _ & _ & Ec). rewrite Ec in Hm.
  rewrite (issuer_params_ok p a HA HK) in Hm. cbn [mbind option_bind] in Hm. unfold IssuerCov.main in Hm.
  unfold issuer_witness, witness_values in Hm. cbn [foldl fst snd] in Hm. simpl_map. cbn [mbind option_bind] in Hm.
  unfold issuer_op_value in Hm.
  rewrite !read_value in Hm by (try done; by apply lower_issuer_op_wf). cbn [mbind option_bind] in Hm.
  unfold IssuerCov.body in Hm. cov_inv Hm. eexists. exact Hm.
Qed.

(** The amount of an output as the covenants read it. *)
Lemma output_amount_at E i v spk asset :
  output (env_tx E) !! Z.to_nat i = Some (txout v spk asset) -> explicit_output_amount E i = Some v.
Proof. intros Ho. unfold explicit_output_amount, output_amount. by rewrite Ho. Qed.
Lemma input_amount_at E i v spk asset :
  env_utxos E !! Z.to_nat i = Some (claimed v spk asset) -> explicit_input_amount E i = Some v.
Proof. intros Hu. unfold explicit_input_amount, input_amount. by rewrite Hu. Qed.

Lemma add_64_exact x y c s : 0 <= x -> 0 <= y -> add_64 x y = (c, s) -> negb c = true -> s = x + y /\ x + y <= U64_MAX.
Proof.
  unfold add_64. intros Hx Hy [= <- <-] Hc%negb_true_iff%Z.ltb_ge. unfold U64_MAX in *.
  rewrite Z.mod_small by lia. done.
Qed.

(** [exact_sum Hin]: a checked sum of an input's amount fixes an output. *)
Ltac exact_sum Hin :=
  lazymatch goal with
  | Ha : add_64 ?x ?y = (_, ?s), Hc : negb _ = true, Hs : (?o =? ?s) = true,
    Hi : explicit_input_amount _ _ = Some ?x, Ho : explicit_output_amount _ _ = Some ?o
    |- explicit_output_amount _ _ = Some (_ + ?z) =>
      rewrite (input_amount_at _ 3 _ _ _ Hin) in Hi; injection Hi as <-;
      apply Z.eqb_eq in Hs as ->; rewrite Ho;
      let E := fresh in assert (E : y = z); [|try rewrite E in Ha;
        apply add_64_exact in Ha as [-> _]; [reflexivity|..]]
  end.

(** The reserve's output of an accepted open. *)
Lemma open_reserve_exact E lm x own t rin rspk rasset :
  tick_accepted p E t -> u32 x -> 0 <= rin -> 0 <= at_cr x (OracleTick.lo t) K_FEE_HALF_PERCENT ->
  env_utxos E !! 3%nat = Some (claimed rin rspk rasset) ->
  IssuerCov.open (issuer_param p a) E lm x own (lower_tick t) = Some tt ->
  explicit_output_amount E 3 = Some (rin + at_cr x (OracleTick.lo t) K_FEE_HALF_PERCENT).
Proof.
  intros Ht Hx Hr Hfee Hin Ho. unfold IssuerCov.open, lower_tick in Ho. cbn [u32_val] in Ho.
  cbn [IssuerCov.ORACLE_PK issuer_param] in Ho. rewrite (quorum_ok p E (deploy_keys ctx Hctx) t Ht) in Ho.
  cbn [mbind option_bind] in Ho. cov_inv Ho.
  exact_sum Hin; [|done..]. rewrite rightmost_id by done. exact (cov_at_cr x (OracleTick.lo t) K_FEE_HALF_PERCENT).
Qed.

(** The reserve's output where a vault's arm makes it grow. *)
Lemma stability_exact E share rin rspk rasset :
  0 <= share -> 0 <= rin -> env_utxos E !! 3%nat = Some (claimed rin rspk rasset) ->
  VaultCov.stability_grows_by (vault_param p a) E share = Some tt ->
  explicit_output_amount E 3 = Some (rin + share).
Proof.
  intros Hs Hr Hin Ho. unfold VaultCov.stability_grows_by in Ho. cov_inv Ho. by exact_sum Hin.
Qed.
(** The reserve's output of an accepted liquidation. *)
Lemma liquidate_reserve_exact E d own lh dd t rin rspk rasset :
  tick_accepted p E t -> u32 dd -> 0 <= rin -> 0 <= at_cr dd (OracleTick.hi t) K_RESERVE_SHARE ->
  env_utxos E !! 3%nat = Some (claimed rin rspk rasset) ->
  VaultCov.liquidate (vault_param p a) E d own lh dd (lower_tick t) = Some tt ->
  explicit_output_amount E 3 = Some (rin + at_cr dd (OracleTick.hi t) K_RESERVE_SHARE).
Proof.
  intros Ht Hx Hr Hfee Hin Ho. unfold VaultCov.liquidate, lower_tick in Ho. cbn [u32_val] in Ho.
  cbn [VaultCov.ORACLE_PK vault_param] in Ho. rewrite (quorum_ok p E (deploy_keys ctx Hctx) t Ht) in Ho.
  cbn [mbind option_bind] in Ho. cov_inv Ho. rewrite rightmost_id in Ho by done.
  change 10000000 with (RatioK.raw K_RESERVE_SHARE) in Ho. rewrite cov_at_cr in Ho.
  by apply (stability_exact E _ rin rspk rasset) in Ho.
Qed.

(** What an accepted redemption leaves in the vault. *)
Lemma redeem_residual_bound E d own lh x t coll cspk out :
  tick_accepted p E t -> u32 x -> 0 <= out <= coll -> u64 coll -> env_ix E = 0 ->
  env_utxos E !! 0%nat = Some (claimed coll cspk (policy p)) -> explicit_output_amount E 0 = Some out ->
  VaultCov.redeem (vault_param p a) E d own lh x (lower_tick t) = Some tt ->
  coll - out <= at_cr x (OracleTick.hi t) (RatioK.min (OracleTick.backing_k t) K_PAR).
Proof.
  intros Ht Hx Hout Hc Hix Hin Hoa Ho. unfold VaultCov.redeem, lower_tick in Ho. cbn [u32_val] in Ho.
  cbn [VaultCov.ORACLE_PK vault_param] in Ho. rewrite (quorum_ok p E (deploy_keys ctx Hctx) t Ht) in Ho.
  cbn [mbind option_bind] in Ho. cov_inv Ho.
  match goal with H1 : explicit_output_amount E 0 = Some ?y, H2 : VaultCov.current_collateral _ E = Some ?z |- _ =>
    rewrite Hoa in H1; injection H1 as <-;
    rewrite (collateral_ok p a E coll cspk Hix Hin) in H2; injection H2 as <- end.
  assert (Ek : min_32 200000000 (RatioK.raw (OracleTick.backing_k t))
    = RatioK.raw (RatioK.min (OracleTick.backing_k t) K_PAR)).
  { rewrite ratio_min_raw. unfold min_32. change (RatioK.raw K_PAR) with 200000000. lia. }
  match goal with G : (_ <=? _) = true |- _ => apply Z.leb_le in G; rewrite Ek, rightmost_id, cov_at_cr in G by done end.
  match goal with G : subtract_64 coll out = _ |- _ => rewrite subtract_64_ok in G by uint; injection G as <- <- end.
  done.
Qed.

(** ** Tampering *)

Lemma tamper_body i f tx1 tx2 tx1' :
  body tx1 = body tx2 -> tamper i f tx1 = Some tx1' ->
  exists tx2', tamper i f tx2 = Some tx2' /\ body tx1' = body tx2'.
Proof.
  unfold tamper. intros Hb. pose proof (body_output _ _ Hb) as Ho. rewrite Ho.
  intros (o & Hi & Ht)%bind_Some. rewrite Hi. cbn. destruct (to_value o) as [|v|]; [done| |done].
  apply bind_Some in Ht as (w & Hw & [= <-]). rewrite Hw. cbn. eexists. split; [done|].
  unfold body in *. cbn. injection Hb as -> -> -> _. done.
Qed.

(** It is enough to look at the plan's own transaction. *)
Lemma refused_body tx1 tx2 pl : body tx1 = body tx2 -> refused ctx tx1 pl -> refused ctx tx2 pl.
Proof.
  intros Hb He. eapply Exists_impl; [exact He|]. intros s. cbn beta. by rewrite (slot_accepts_body ctx tx1 tx2 _ _ Hb).
Qed.

Lemma not_accepted pl tx s :
  s ∈ p_slots pl -> (slot_accepts ctx tx (p_utxos pl) s = true -> False) -> refused ctx tx pl.
Proof. intros Hs Hn. apply Exists_exists. exists s. split; [done|]. by apply not_true_iff_false. Qed.

Lemma minus_one_ok v w : minus_one v = Some w -> w = v - 1 /\ 1 <= v.
Proof. unfold minus_one, u64_checked_sub. destruct (_ <=? _) eqn:E; [|done]. intros [= <-]. boolz. lia. Qed.

(** C38: The transactions the driver tampers with are refused by the covenants.  With the
    reserve's output of a built open or liquidation one sat short, or one sat of a built
    redemption moved from the vault to the redeemer, some covenant input of the finalized
    transaction does not accept, whatever the coins and the signed tick. *)
Theorem spot_checks_refused (pr : ProtocolState) :
  protocol_wf pr ->
  (forall intent b tx tx',
    tick_signed (oracle_pks p) (op_tick intent) -> length (op_owner intent) = 32%nat ->
    0 <= Obol.raw (op_principal intent) -> open ctx pr intent = Ok b -> finalize ctx (plan b) = Ok tx ->
    short_reserve tx = Some tx' -> refused ctx tx' (plan b)) /\
  (forall v intent b tx tx',
    vault_on_wf v -> tick_signed (oracle_pks p) (lq_tick intent) -> 0 <= Obol.raw (lq_dd intent) ->
    liquidate ctx pr v intent = Ok b -> finalize ctx (plan b) = Ok tx ->
    short_reserve tx = Some tx' -> refused ctx tx' (plan b)) /\
  (forall v intent b tx tx',
    vault_on_wf v -> u32 (Obol.raw (debt (state v))) -> tick_signed (oracle_pks p) (rd_tick intent) ->
    0 <= Obol.raw (rd_x intent) ->
    redeem ctx pr v intent = Ok b -> finalize ctx (plan b) = Ok tx ->
    greedy_redeemer tx = Some tx' -> refused ctx tx' (plan b)).
Proof.
  intros Hp. split_and!.
  - intros intent b tx tx' Ht Ho Hx0 Hb Hf Htam.
    apply open_ok_iff in Hb as ([Hz Ha]%check_tick_ok & Hx & Hx32 & Hg & Hpot & Hfund & _ & _ & ->).
    apply finalize_slots_body in Hf. apply (tamper_body _ _ _ _ _ Hf) in Htam as (tx2 & Htam & Hb2).
    apply (refused_body tx2); [done|]. clear Hf Hb2.
    apply bind_Some in Htam as (o & [= <-] & Htam). cbn in Htam.
    apply bind_Some in Htam as (w & [-> Hw]%minus_one_ok & [= <-]).
    destruct (range_pos _ (proj1 (proj1 Ht)) Hz) as [Hlo Hhi].
    pose proof (at_cr_bound (Obol.raw (op_principal intent)) (OracleTick.lo (op_tick intent)) K_FEE_HALF_PERCENT
      ltac:(uint) Hlo ltac:(by vm_compute)) as Hbf.
    eapply not_accepted; [do 2 right; left; reflexivity|]. intros Hacc.
    apply slot_issuer_inv in Hacc as [cb Hd]; [|apply Hp|split_and!; [amounts|done|apply Ht]].
    cbn [IssuerCov.dispatch lower_issuer_op] in Hd.
    eapply open_reserve_exact with (t := op_tick intent) (rin := Sats.raw (oc_value (reserve pr))) in Hd;
      [|by eapply locked_tick; [apply deploy_keys|..]|cbn; uint|apply Hp|cbn; lia|reflexivity].
    erewrite (output_amount_at _ 3) in Hd by reflexivity. injection Hd as Hd. revert Hd. amounts.
  - intros v intent b tx tx' Hv Ht Hdd0 Hb Hf Htam.
    apply liquidate_ok_iff in Hb as (Hz & Hr%check_ratchet_ok & Hd & Hg & Hdz & Hlt & _ & Hband &
      Hres & Hdd & Hcap & Hpay & _ & Hsh & ->).
    apply finalize_slots_body in Hf. apply (tamper_body _ _ _ _ _ Hf) in Htam as (tx2 & Htam & Hb2).
    apply (refused_body tx2); [done|]. clear Hf Hb2.
    apply bind_Some in Htam as (o & [= <-] & Htam). cbn in Htam.
    apply bind_Some in Htam as (w & [-> Hw]%minus_one_ok & [= <-]).
    destruct (range_pos _ (proj1 (proj1 Ht)) Hz) as [Hlo Hhi].
    pose proof (at_cr_bound (Obol.raw (lq_dd intent)) (OracleTick.hi (lq_tick intent)) K_RESERVE_SHARE
      ltac:(uint) Hhi ltac:(by vm_compute)) as Hbf.
    rewrite (cents_exact (lq_dd intent) _ _ Hdd) in Hw |- *.
    eapply not_accepted; [do 2 right; left; reflexivity|]. intros Hacc.
    apply slot_vault_inv in Hacc as [cb Hdp]; [|apply Hv|split; [amounts|apply Ht]].
    cbn [VaultCov.dispatch lower_vault_op] in Hdp.
    eapply liquidate_reserve_exact with (t := lq_tick intent) (rin := Sats.raw (oc_value (reserve pr))) in Hdp;
      [|by eapply locked_tick; [apply deploy_keys|..]|cbn; uint|apply Hp|cbn; lia|reflexivity].
    erewrite (output_amount_at _ 3) in Hdp by reflexivity. injection Hdp as Hdp. revert Hdp. amounts.
  - intros v intent b tx tx' Hv Hd Ht Hx0 Hb Hf Htam.
    apply redeem_ok_iff in Hb as (Hz & Hr%check_ratchet_ok & Hxz & Hxd & Hpay & Hx & Hw & _ & Hsh & ->).
    apply finalize_slots_body in Hf. unfold greedy_redeemer in Htam.
    apply bind_Some in Htam as (tx1 & Htam & Htam2).
    apply (tamper_body _ _ _ _ _ Hf) in Htam as (tx3 & Htam & Hb3).
    apply (tamper_body _ _ _ _ _ Hb3) in Htam2 as (tx4 & Htam2 & Hb4).
    apply (refused_body tx4); [done|]. clear Hf Hb3 Hb4 tx tx' tx1.
    apply bind_Some in Htam as (o & [= <-] & Htam). cbn in Htam.
    apply bind_Some in Htam as (w & [-> Hw1]%minus_one_ok & [= <-]).
    apply bind_Some in Htam2 as (o & [= <-] & Htam2). cbn in Htam2.
    apply bind_Some in Htam2 as (w & _ & [= <-]).
    destruct (range_pos _ (proj1 (proj1 Ht)) Hz) as [Hlo Hhi].
    pose proof (cents_exact (rd_x intent) (OracleTick.hi (rd_tick intent))
      (RatioK.min (OracleTick.backing_k (rd_tick intent)) K_PAR) Hx) as Hcw.
    assert (Hw0 : 0 <= at_cr (Obol.raw (rd_x intent)) (OracleTick.hi (rd_tick intent))
      (RatioK.min (OracleTick.backing_k (rd_tick intent)) K_PAR)).
    { apply at_cr_nonneg; [lia|lia|]. rewrite ratio_min_raw. pose proof (wf_backing _ (proj1 (proj1 Ht))).
      change (RatioK.raw K_PAR) with 200000000. uint. }
    eapply not_accepted; [do 2 right; left; reflexivity|]. intros Hacc.
    apply slot_vault_inv in Hacc as [cb Hdp]; [|apply Hv|split; [amounts|apply Ht]].
    cbn [VaultCov.dispatch lower_vault_op] in Hdp.
    eapply redeem_residual_bound with (t := rd_tick intent) (coll := Sats.raw (oc_value v)) in Hdp;
      [|by eapply locked_tick; [apply deploy_keys|..]|cbn; uint| |amounts|done|reflexivity..].
    + cbn in Hdp. rewrite Hcw in Hdp, Hw1. revert Hdp. amounts.
    + rewrite Hcw in Hw1 |- *. amounts.
Qed.

End SpotChecks.
