(* ===== verification/Explorer.v ===== *)
(** * The explorer ([styx-explorer/src/state.rs], [config.rs], [main.rs])

    A public view of the protocol: the index without candidate owners, a ring of recent
    events, the freshest tick and the recency of each oracle slot.  The sync loop and the
    quote loop share the state behind locks; a pass of either is one definition.  Instants
    are nanoseconds, read once per call.  The text of an event is its derived [Debug] form, a
    parameter. *)

From Stdlib Require Import ZArith Lia.
From stdpp Require Import base gmap strings option list.
From S2P Require Import Prelude Hex Units CrMath Elements Oracle Simf Encode Domain Artifacts Jets.
From S2P Require Import CovVault CovReserve CovIssuer Plan BuildOwner BuildKeeper Accept CovLemmas.
From S2P Require Import CovAccept Sound Quotes SoundOwner SoundKeeper Decide Pset Effects Node.
From S2P Require Import Index Sync Snapshot Config Sockets OracleService Gate Wallet Ops Keeper.

Definition EVENTS_KEPT : nat := 100.
Definition TICK_MAX_AGE : Z := 180000000000.
Definition TICK_FRESH : Z := 90000000000.

(** ** Configuration *)

Inductive ExplorerConfigError : Type :=
| ExIo
| ExToml
| ExListen (text : bytes)
| ExAuth
| ExAppUrl (url : bytes).

Record ExplorerConfig : Type := mkExplorerConfig {
  ec_styxnet : bytes;
  ec_rpc_url : bytes;
  ec_rpc_user : option bytes;
  ec_rpc_password : option bytes;
  ec_rpc_cookie : option bytes;
  ec_snapshot : bytes;
  ec_listen : bytes;
  ec_poll_ms : Z;
  ec_app_url : option bytes
}.

(** The serde defaults. *)
Definition default_explorer_listen : bytes := ascii_bytes "127.0.0.1:9790".
Definition default_explorer_poll_ms : Z := 2000.

Module ExplorerFile.

Definition listen_addr (cfg : ExplorerConfig) : result ExplorerConfigError SocketAddr :=
  ok_or (ExListen (ec_listen cfg)) (parse_socket (ec_listen cfg)).

Definition parse `{Toml ExplorerConfig} (text : bytes) : result ExplorerConfigError ExplorerConfig :=
  cfg ← ok_or ExToml (parse_toml text);
  _ ← listen_addr cfg;
  match ec_app_url cfg with
  | Some url =>
      if bool_decide (is_Some (strip_prefix (ascii_bytes "https://") url)) then Ok cfg
      else Err (ExAppUrl url)
  | None => Ok cfg
  end.

Definition load `{Toml ExplorerConfig} {F : Type} `{Files F} (path : bytes) (fs : F)
    : result ExplorerConfigError ExplorerConfig :=
  text ← ok_or ExIo (read_text path fs); parse text.

Definition auth (cfg : ExplorerConfig) : result ExplorerConfigError Auth :=
  match ec_rpc_cookie cfg, ec_rpc_user cfg, ec_rpc_password cfg with
  | Some cookie, None, None => Ok (CookieFile cookie)
  | None, Some user, Some pass => Ok (UserPass user pass)
  | _, _, _ => Err ExAuth
  end.

End ExplorerFile.

(** ** Views *)

Record SingletonView : Type := mkSingletonView { gv_name : string; gv_outpoint : bytes; gv_txid : bytes }.
Record ProtocolView : Type := mkProtocolView {
  pv_pot_units : Z; pv_reserve_sats : Z; pv_issuer_anchor : Z; pv_singletons : list SingletonView
}.
Record TickView : Type := mkTickView {
  tw_height : Z; tw_lo : Z; tw_hi : Z; tw_age_secs : Z; tw_block_hash : option bytes
}.
Record VaultView : Type := mkVaultView {
  vv_outpoint : bytes; vv_txid : bytes; vv_debt_units : Z; vv_collateral_sats : Z;
  vv_last_height : Z; vv_cr_percent : option Z; vv_band : string
}.
Record EventView : Type := mkEventView { ew_height : Z; ew_txid : bytes; ew_what : bytes }.
Record View : Type := mkView {
  vw_height : Z;
  vw_protocol : option ProtocolView;
  vw_tick : option TickView;
  vw_pricing_stale : bool;
  vw_vaults : list VaultView;
  vw_lost : nat;
  vw_events : list EventView;
  vw_oracle_age_secs : list (option Z);
  vw_oracle_name : list (option bytes);
  vw_oracle_price : list (option Z);
  vw_relay : option bytes
}.

(** [OutPoint]'s [Display] of the [elements] crate, and a block hash's: bytes in display
    order. *)
Definition outpoint_text (op : OutPoint) : bytes :=
  ascii_bytes "[elements]" ++ txid_string (op_txid op) ++ ascii_bytes ":" ++ show_dec (op_vout op).
Definition hash_text (h : BlockHash) : bytes := hex (rev h).

Module Explorer.

Record t : Type := mk {
  index : IndexState;
  events : list Notice;
  tick_slot : option (OracleTick.t * Z * option BlockHash);
  slot_seen : list (option Z);
  slot_name : list (option bytes);
  slot_price : list (option Z);
  relay : option bytes
}.

Definition new (ix : IndexState) (r : option bytes) : t :=
  mk ix [] None (replicate 5 None) (replicate 5 None) (replicate 5 None) r.

Definition with_index (ix : IndexState) (s : t) : t :=
  mk ix (events s) (tick_slot s) (slot_seen s) (slot_name s) (slot_price s) (relay s).

(** Each notice to the front, then [truncate]. *)
Definition push_events (notices : list Notice) (s : t) : t :=
  mk (index s) (take EVENTS_KEPT (foldl (fun ev n => n :: ev) (events s) notices)) (tick_slot s)
    (slot_seen s) (slot_name s) (slot_price s) (relay s).

Definition set_tick (tick : OracleTick.t) (hash : option BlockHash) (now : Z) (s : t) : t :=
  mk (index s) (events s) (Some (tick, now, hash)) (slot_seen s) (slot_name s) (slot_price s) (relay s).

(** The tick with its age, unless it went stale. *)
Definition ticked (now : Z) (s : t) : option (OracleTick.t * Z * option BlockHash) :=
  '(tick, at_, hash) ← tick_slot s;
  let age := OracleState.elapsed now at_ in
  if age <=? TICK_MAX_AGE then Some (tick, age / 1000000000, hash) else None.

Definition tick (now : Z) (s : t) : option OracleTick.t := (fun x => x.1.1) <$> ticked now s.

(** [get_mut(slot)]: out of range, nothing. *)
Definition saw_slot (slot : nat) (name : bytes) (price now : Z) (s : t) : t :=
  mk (index s) (events s) (tick_slot s)
    (<[slot := Some now]> (slot_seen s))
    (<[slot := if bool_decide (name = []) then None else Some name]> (slot_name s))
    (<[slot := Some price]> (slot_price s)) (relay s).

Definition cr_percent (debt : Obol.t) (coll : Sats.t) (hi : option Price.t) : option Z :=
  hi ← hi;
  cents ← ok (Obol.covenant_cents debt);
  if negb (0 <? cents) then None else
  let par := Sats.raw (coll_at_cr cents hi K_PAR) in
  if par =? 0 then None else
  let percent := u64_sat_mul (Sats.raw coll) 100 / par in
  if percent <=? U32_MAX then Some percent else None.

Definition band (debt : Obol.t) (coll : Sats.t) (hi : option Price.t) : string :=
  if bool_decide (debt = Obol.ZERO) then "husk" else
  match hi, Obol.covenant_cents debt with
  | Some hi, Ok cents =>
      let floor := coll_at_cr cents hi K_PAR in
      let cap := coll_at_cr cents hi K_FULL_LIQ_CAP in
      let gate := coll_at_cr cents hi K_HEALTH_GATE in
      if Sats.raw coll <? Sats.raw floor then "bad-debt"
      else if Sats.raw coll <=? Sats.raw cap then "full-liq"
      else if Sats.raw coll <? Sats.raw gate then "partial"
      else "healthy"
  | _, _ => "unpriced"
  end.

Section View.
Context `{OutPointOrder} (event_text : Event -> bytes).

Definition protocol_view (p : ProtocolState) : ProtocolView :=
  let singleton name op := mkSingletonView name (outpoint_text op) (txid_string (op_txid op)) in
  mkProtocolView (Obol.raw (oc_value (pot p))) (Sats.raw (oc_value (reserve p)))
    (BlockHeight.raw (last_mint_height (state (issuer p))))
    [singleton "pot"%string (outpoint (pot p)); singleton "reserve"%string (outpoint (reserve p));
     singleton "issuer"%string (outpoint (issuer p))].

Definition vault_view (hi : option Price.t) (x : OutPoint * TrackedVault) : VaultView :=
  let '(op, v) := x in
  mkVaultView (outpoint_text op) (txid_string (op_txid op)) (Obol.raw (tv_debt v)) (Sats.raw (tv_value v))
    (BlockHeight.raw (tv_last_height v)) (cr_percent (tv_debt v) (tv_value v) hi)
    (band (tv_debt v) (tv_value v) hi).

Definition cr_le (x y : VaultView) : bool :=
  default U32_MAX (vv_cr_percent x) <=? default U32_MAX (vv_cr_percent y).

Definition tick_view (x : OracleTick.t * Z * option BlockHash) : TickView :=
  let '(t, age, hash) := x in
  let '(lo, hi) := OracleTick.price_range t in
  mkTickView (BlockHeight.raw (OracleTick.height t)) (Price.raw lo) (Price.raw hi) age (hash_text <$> hash).

Definition view (now : Z) (s : t) : View :=
  let tk := ticked now s in
  let hi : option Price.t := (fun x => (OracleTick.price_range x.1.1).2) <$> tk in
  mkView (ix_height (index s)) (protocol_view <$> protocol (index s)) (tick_view <$> tk)
    (match tk with Some (_, age, _) => TICK_FRESH / 1000000000 <? age | None => false end)
    (sort_by cr_le (vault_view hi <$> btree_iter (ix_vaults (index s))))
    (length (map_to_list (ix_lost (index s))))
    ((fun n => mkEventView (n_height n) (txid_string (n_txid n)) (event_text (n_event n))) <$> events s)
    ((fun x : option Z => (fun at_ => OracleState.elapsed now at_ / 1000000000) <$> x) <$> slot_seen s)
    (slot_name s) (slot_price s) (relay s).

End View.

(** ** The loops ([main.rs]) *)

Section Loops.
Context `{Lib, XOnlyParse} {N D : Type} `{Rpc N, Display, OutPointOrder, Json, Disk D}.

(** One pass of [sync_loop]: a working copy is caught up, then swapped in; after a reorg the
    index starts over at the anchor. *)
Definition sync_pass (ctx : Ctx) (anchor : Z) (x : N * D * t) : N * D * t :=
  let '(n, d, s) := x in
  let '(r, (n, work)) := catch_up ctx [] (n, index s) in
  match r with
  | Ok notices =>
      let d := if bool_decide (notices = []) then d else (save work d).2 in
      (n, d, push_events notices (with_index work s))
  | Err (Reorg _) =>
      let '(r, n) := block_hash anchor n in
      match r with Ok hash => (n, d, with_index (at_height anchor hash) s) | Err _ => (n, d, s) end
  | Err (SyncNode _) => (n, d, s)
  end.

(** One quote of [quote_loop]; [None] is a panic of the book. *)
Definition quote_pass (q : WireQuote.t) (now : Z) (x : N * QuoteBook.t * t) : option (N * QuoteBook.t * t) :=
  let '(n, book, s) := x in
  let tip := ix_height (index s) in
  r ← QuoteBook.insert book q (BlockHeight.new tip);
  Some match r with
       | Err _ => (n, book, s)
       | Ok book =>
           let s := saw_slot (Z.to_nat (WireQuote.slot q)) (WireQuote.name q) (WireQuote.price q) now s in
           let lo := u32_sat_sub tip 8 in
           match Keeper.first_tick book tip (Z.to_nat (tip - lo + 1)) with
           | Some tick =>
               let '(hash, n) := block_hash (BlockHeight.raw (OracleTick.height tick)) n in
               (n, book, set_tick tick (ok hash) now s)
           | None => (n, book, s)
           end
       end.

End Loops.
End Explorer.
