(* ===== verification/ExplorerSpec.v ===== *)
(** * What the explorer shows

    The band of a vault stands for the keeper's verdict on it, up to the ratchet, the mint
    anchor and the sizing the page leaves out, and the feed misses nothing: over any sequence
    of passes, failures included, index and feed are those of one replay of the chain. *)

From Stdlib Require Import ZArith Lia.
From stdpp Require Import base gmap strings option list.
From S2P Require Import Prelude Hex Units CrMath Elements Oracle Simf Encode Domain Artifacts Jets.
From S2P Require Import CovVault CovReserve CovIssuer Plan BuildOwner BuildKeeper Accept CovLemmas.
From S2P Require Import CovAccept Sound Quotes SoundOwner SoundKeeper Decide Pset Effects Node.
From S2P Require Import Index Sync Snapshot Config Sockets OracleService Gate Wallet Ops Keeper Explorer.

(** ** Bands *)

(** The percentage shown, when one is shown. *)
Lemma cr_percent_some debt coll hi p :
  Explorer.cr_percent debt coll (Some hi) = Some p ->
  0 < Obol.raw debt <= U32_MAX /\
  let par := Sats.raw (coll_at_cr (Obol.raw debt) hi K_PAR) in
  par <> 0 /\ p = u64_sat_mul (Sats.raw coll) 100 / par.
Proof.
  unfold Explorer.cr_percent. cbn [mbind option_bind].
  destruct (Obol.covenant_cents debt) as [cents|] eqn:Ec; [|done]. cbn [ok mbind option_bind].
  apply covenant_cents_ok in Ec as [Hmax ->]. destruct (Z.ltb_spec 0 (Obol.raw debt)); [|done].
  cbn [negb]. destruct (Z.eqb_spec (Sats.raw (coll_at_cr (Obol.raw debt) hi K_PAR)) 0); [done|].
  case_match; [|done]. intros [= <-]. split_and!; [lia|done|done|done].
Qed.

(** What a band stands for, once the tick is above the ratchet of the vault: the three
    conditions of the ladder the page leaves out are the mint anchor (bad debt), a size the
    builder accepts (partial) and the lag of the ratchet (refresh). *)
Definition stands_for (b : string) (v : OnChain VaultState) (tick : OracleTick.t)
    (anchor : BlockHeight.t) (lag : Z) (fee : Sats.t) : Action.t :=
  let h := BlockHeight.raw (OracleTick.height tick) in
  if bool_decide (b = "bad-debt"%string) then
    if h <? BlockHeight.raw anchor then Action.Nothing else Action.BadDebt
  else if bool_decide (b = "full-liq"%string) then Action.FullLiq
  else if bool_decide (b = "partial"%string) then
    match plan_partial (debt (state v)) (oc_value v) (OracleTick.hi tick) fee with
    | Some (dd, residual) => Action.Partial dd residual
    | None => Action.Nothing
    end
  else if bool_decide (b = "healthy"%string) then
    if lag <? h - BlockHeight.raw (last_height (state v)) then Action.Refresh else Action.Nothing
  else Action.Nothing.

(** The cases of a band, with the tests of the ladder. *)
Lemma band_unfold debt coll hi :
  Obol.raw debt <> 0 -> Obol.raw debt <= U32_MAX ->
  Explorer.band debt coll (Some hi) =
    if Sats.raw coll <? at_cr (Obol.raw debt) hi K_PAR then "bad-debt"%string
    else if Sats.raw coll <=? at_cr (Obol.raw debt) hi K_FULL_LIQ_CAP then "full-liq"%string
    else if Sats.raw coll <? at_cr (Obol.raw debt) hi K_HEALTH_GATE then "partial"%string
    else "healthy"%string.
Proof.
  intros Hz Hd. unfold Explorer.band. rewrite obol_eq_zero.
  destruct (Z.eqb_spec (Obol.raw debt) 0); [done|].
  by rewrite (proj2 (covenant_cents_ok _ _) (conj Hd eq_refl)).
Qed.

Lemma band_husk debt coll hi :
  Explorer.band debt coll (Some hi) = "husk"%string <-> Obol.raw debt = 0.
Proof.
  unfold Explorer.band. rewrite obol_eq_zero. destruct (Z.eqb_spec (Obol.raw debt) 0); [done|].
  split; [|done]. destruct (Obol.covenant_cents debt); repeat case_match; done.
Qed.

Lemma band_unpriced debt coll hi :
  Explorer.band debt coll (Some hi) = "unpriced"%string <-> U32_MAX < Obol.raw debt.
Proof.
  destruct (decide (Obol.raw debt = 0)) as [Hz|Hz].
  { rewrite (proj2 (band_husk _ coll hi) Hz), Hz. split; [done|]. unfold U32_MAX. lia. }
  destruct (Z.lt_ge_cases U32_MAX (Obol.raw debt)) as [Hbig|Hd].
  - split; [done|]. intros _. unfold Explorer.band. rewrite obol_eq_zero.
    destruct (Z.eqb_spec (Obol.raw debt) 0); [done|].
    destruct (Obol.covenant_cents debt) eqn:E; [|done]. apply covenant_cents_ok in E. lia.
  - rewrite band_unfold by done. split; [repeat case_match; done|lia].
Qed.

(** The percentage is below 100 exactly when the collateral is below par. *)
Lemma percent_below_par debt coll hi p :
  0 <= Sats.raw coll <= MAX_MONEY -> 0 <= Price.raw hi ->
  Explorer.cr_percent debt coll (Some hi) = Some p ->
  0 < Obol.raw debt <= U32_MAX /\ (p < 100 <-> Sats.raw coll < at_cr (Obol.raw debt) hi K_PAR).
Proof.
  intros Hval Hprice (Hd & Hpar & ->)%cr_percent_some. split; [done|]. fold (at_cr (Obol.raw debt) hi K_PAR) in *.
  assert (0 <= at_cr (Obol.raw debt) hi K_PAR) by (apply coll_at_cr_nonneg; [lia|done..]).
  rewrite u64_sat_mul_eq, Z.min_l by (unfold MAX_MONEY in *; lia). split; intros Hlt.
  - destruct (Z.lt_ge_cases (Sats.raw coll) (at_cr (Obol.raw debt) hi K_PAR)) as [|Hge]; [done|].
    assert (100 <= Sats.raw coll * 100 / at_cr (Obol.raw debt) hi K_PAR); [|lia].
    apply Z.div_le_lower_bound; lia.
  - apply Z.div_lt_upper_bound; lia.
Qed.

(** C31: The band on the public page determines the keeper's verdict.  For every vault and
    tick, the ladder does nothing at or below the vault's ratchet, whatever the band, and above
    it does exactly what the band at the tick's highest quote stands for: bad debt is
    liquidated unless the tick is below the mint anchor, a partial liquidation has the size
    the plan finds or does not happen, a healthy vault is refreshed once its ratchet lags, and
    husks and unpriced debts are left alone.  A husk is exactly a vault without debt, an
    unpriced one exactly a debt beyond the covenants' 32 bits; and beside a collateral within
    the money supply the percentage is below 100 exactly for bad debt. *)
Theorem band_agrees (v : OnChain VaultState) (tick : OracleTick.t) (anchor : BlockHeight.t)
    (lag : Z) (fee : Sats.t) :
  let hi := Some (OracleTick.hi tick) in
  let b := Explorer.band (debt (state v)) (oc_value v) hi in
  Ladder.decide v tick anchor lag fee =
    (if BlockHeight.raw (OracleTick.height tick) <=? BlockHeight.raw (last_height (state v))
     then Action.Nothing else stands_for b v tick anchor lag fee) /\
  (b = "husk"%string <-> Obol.raw (debt (state v)) = 0) /\
  (b = "unpriced"%string <-> U32_MAX < Obol.raw (debt (state v))) /\
  forall p, 0 <= Sats.raw (oc_value v) <= MAX_MONEY -> 0 <= Price.raw (OracleTick.hi tick) ->
    Explorer.cr_percent (debt (state v)) (oc_value v) hi = Some p ->
    (p < 100 <-> b = "bad-debt"%string).
Proof.
  intros hi b. subst hi b. split_and!; [|apply band_husk|apply band_unpriced|].
  - destruct (Z.leb_spec (BlockHeight.raw (OracleTick.height tick)) (BlockHeight.raw (last_height (state v))));
      [by rewrite decide_early by auto|].
    destruct (decide (Obol.raw (debt (state v)) = 0)) as [Hz|Hz].
    { by rewrite decide_early, (proj2 (band_husk _ _ _) Hz) by auto. }
    destruct (Z.lt_ge_cases U32_MAX (Obol.raw (debt (state v)))) as [Hbig|Hd].
    { by rewrite decide_early, (proj2 (band_unpriced _ _ _) Hbig) by auto. }
    rewrite decide_unfold, band_unfold by done. cbv zeta.
    destruct (_ <? at_cr _ _ K_PAR); [done|]. destruct (_ <=? _); [done|]. by destruct (_ <? _).
  - intros p Hval Hprice [Hd ->]%percent_below_par; [|done..]. rewrite band_unfold by lia.
    destruct (Z.ltb_spec (Sats.raw (oc_value v)) (at_cr (Obol.raw (debt (state v))) (OracleTick.hi tick) K_PAR));
      [done|]. split; [lia|]. repeat case_match; done.
Qed.

(** ** The feed *)

Section Feed.
Context `{HL : Lib, XP : XOnlyParse} {N D : Type} `{HN : Rpc N, DP : Display, OO : OutPointOrder}.
Context `{JS : Json, DK : Disk D} (ctx : Ctx) (anchor : Z).
Context (chain : list (BlockHash * Block)) (root : BlockHash).

(** What the loops do in any order: passes of the sync loop over whatever the node and the
    disk have become, and updates of the quote loop, which leave index and feed alone. *)
Inductive explores : Explorer.t -> Explorer.t -> Prop :=
| explores_none s : explores s s
| explores_sync (n n' : N) (d d' : D) s s1 s' :
    Explorer.sync_pass ctx anchor (n, d, s) = (n', d', s1) -> explores s1 s' -> explores s s'
| explores_quote (n n' : N) book book' q now s s1 s' :
    Explorer.quote_pass q now (n, book, s) = Some (n', book', s1) -> explores s1 s' -> explores s s'.

Lemma push_front_all {A} (ns ev : list A) : foldl (fun ev n => n :: ev) ev ns = rev ns ++ ev.
Proof.
  revert ev. induction ns as [|n ns IH]; intros ev; cbn; [done|]. by rewrite IH, <- app_assoc.
Qed.

Lemma take_append_take {A} n (l ev : list A) : take n (l ++ take n ev) = take n (l ++ ev).
Proof. rewrite !take_app, take_take. f_equal. f_equal. lia. Qed.

(** Each block extends the one before. *)
Definition linked : Prop :=
  forall i a b, chain !! i = Some a -> chain !! S i = Some b -> prev_blockhash b.2 = a.1.

(** The index and the feed after the first [k] blocks above the anchor. *)
Definition shows (s : Explorer.t) (k : nat) : Prop :=
  exists ns,
    replay ctx [] (anchor + 1) (take k (drop (Z.to_nat (anchor + 1)) chain)) (at_height anchor root)
      = (Explorer.index s, ns) /\
    Explorer.events s = take EVENTS_KEPT (rev ns) /\
    ix_height (Explorer.index s) = anchor + Z.of_nat k /\
    fst <$> chain !! Z.to_nat (anchor + Z.of_nat k) = Some (ix_tip (Explorer.index s)).

Context (Hanchor : 0 <= anchor) (Hreplies : replies chain) (Hlinked : linked).

Lemma replay_tip h blocks st st' ns b :
  replay ctx [] h (blocks ++ [b]) st = (st', ns) -> ix_tip st' = b.1.
Proof.
  rewrite replay_app. destruct (replay ctx [] h blocks st) as [st1 ns1]. cbn.
  destruct (replay_block ctx [] _ b st1) as [st2 ns2] eqn:E. intros [= <- _].
  by apply replay_block_sealed in E as [_ ?].
Qed.

Lemma sync_shows n n' (d d' : D) s s1 k :
  shows s k -> Explorer.sync_pass ctx anchor (n, d, s) = (n', d', s1) ->
  exists k', (k <= k')%nat /\ shows s1 k'.
Proof.
  intros (ns & Hrp & Hev & Hh & Htip) Hp. unfold Explorer.sync_pass in Hp.
  destruct (catch_up ctx [] (n, Explorer.index s)) as [r [n1 work]] eqn:Ec.
  unfold catch_up, Sync.on_node, map_error, zoom, mbind, eff_bind in Ec. cbn [fst snd gets] in Ec.
  destruct (height n) as [[tip|e] n2] eqn:Et; cbn in Ec;
    [|injection Ec as <- <- <-; injection Hp as _ _ <-; exists k; split; [done|by exists ns]].
  apply (scan_blocks_spec ctx [] chain Hreplies) in Ec as (m & ns2 & Hm & Hrp2 & Hlen & Hr); [|lia..].
  rewrite Hh in Hrp2, Hlen.
  assert (Eh : Z.to_nat (anchor + Z.of_nat k + 1) = (Z.to_nat (anchor + 1) + k)%nat) by lia.
  rewrite Eh, <- drop_drop in Hrp2, Hlen. set (rest := drop (Z.to_nat (anchor + 1)) chain) in *.
  assert (Hk : (k <= length rest)%nat).
  { unfold rest. rewrite length_drop. destruct (chain !! Z.to_nat (anchor + Z.of_nat k)) eqn:E; [|done].
    apply lookup_lt_Some in E. lia. }
  assert (Hall : replay ctx [] (anchor + 1) (take (k + m) rest) (at_height anchor root) = (work, ns ++ ns2)).
  { rewrite <- (take_drop k (take (k + m) rest)), take_take, skipn_firstn_comm.
    replace (k `min` (k + m))%nat with k by lia. replace (k + m - k)%nat with m by lia.
    rewrite replay_app, Hrp, length_take, Nat.min_l by lia.
    replace (anchor + 1 + Z.of_nat k) with (anchor + Z.of_nat k + 1) by lia. by rewrite Hrp2. }
  assert (Hwh : ix_height work = anchor + Z.of_nat (k + m)).
  { apply replay_height in Hrp2; [|lia]. rewrite length_take in Hrp2. lia. }
  assert (Hwt : fst <$> chain !! Z.to_nat (anchor + Z.of_nat (k + m)) = Some (ix_tip work)).
  { destruct m as [|m].
    - cbn in Hrp2. injection Hrp2 as <- _. by rewrite Nat.add_0_r.
    - destruct (lookup_lt_is_Some_2 (drop k rest) m) as [b Hb]; [lia|].
      rewrite (take_S_r _ _ _ Hb) in Hrp2. apply replay_tip in Hrp2. rewrite Hrp2.
      unfold rest in Hb. rewrite !lookup_drop in Hb.
      replace (Z.to_nat (anchor + Z.of_nat (k + S m))) with (Z.to_nat (anchor + 1) + (k + m))%nat by lia.
      by rewrite Hb. }
  destruct r as [ns'|[e|h']].
  - destruct Hr as [-> _]. injection Hp as _ _ <-. exists (k + m)%nat. split; [lia|].
    exists (ns ++ ns2). split_and!; [done| |done|done].
    cbn. rewrite push_front_all, Hev, take_append_take. by rewrite rev_app_distr.
  - injection Hp as _ _ <-. exists k. split; [done|]. by exists ns.
  - destruct Hr as (-> & hb & Hhb & Hne). rewrite Hwh in Hhb.
    replace (Z.to_nat (anchor + Z.of_nat (k + m) + 1)) with (S (Z.to_nat (anchor + Z.of_nat (k + m)))) in Hhb by lia.
    destruct (chain !! Z.to_nat (anchor + Z.of_nat (k + m))) as [a|] eqn:Ea; [|done].
    injection Hwt as Hwt. destruct Hne. rewrite (Hlinked _ _ _ Ea Hhb). done.
Qed.

Lemma quote_keeps (n n' : N) book book' q now s s1 :
  Explorer.quote_pass q now (n, book, s) = Some (n', book', s1) ->
  Explorer.index s1 = Explorer.index s /\ Explorer.events s1 = Explorer.events s.
Proof.
  unfold Explorer.quote_pass. intros (r & _ & Hr)%bind_Some. injection Hr as Hr.
  destruct r as [b|e]; [|by injection Hr as _ _ <-]. destruct (Keeper.first_tick _ _ _) as [tick|].
  - destruct (block_hash _ n) as [hash n2]. by injection Hr as _ _ <-.
  - by injection Hr as _ _ <-.
Qed.

Lemma explores_shows s s' k : explores s s' -> shows s k -> exists k', (k <= k')%nat /\ shows s' k'.
Proof.
  intros He. revert k. induction He as [s|n n' d d' s s1 s' Hp _ IH|n n' book book' q now s s1 s' Hp _ IH];
    intros k Hs.
  - by exists k.
  - eapply sync_shows in Hs as (k1 & Hk1 & Hs); [|done]. destruct (IH _ Hs) as (k2 & Hk2 & Hs2).
    exists k2. split; [lia|done].
  - apply quote_keeps in Hp as [Ei Ee]. apply IH.
    destruct Hs as (ns & Hs). exists ns. by rewrite Ei, Ee.
Qed.

End Feed.

(** C32: The public feed misses nothing and repeats nothing.  However many passes fail, and
    wherever, on a chain without reorganizations the index of the explorer is the replay of a
    prefix of the chain from the anchor, and the feed is the newest hundred notices of that
    very replay, latest first; the prefix only grows. *)
Theorem explorer_feed `{HL : Lib, XP : XOnlyParse} {N D : Type} `{HN : Rpc N, DP : Display}
    `{OO : OutPointOrder, JS : Json, DK : Disk D} (ctx : Ctx) (anchor : Z)
    (chain : list (BlockHash * Block)) (start : BlockHash * Block) (relay : option bytes)
    (s s' : Explorer.t) :
  0 <= anchor -> replies (N := N) chain -> linked chain -> chain !! Z.to_nat anchor = Some start ->
  explores (N := N) (D := D) ctx anchor (Explorer.new (at_height anchor start.1) relay) s ->
  explores (N := N) (D := D) ctx anchor s s' ->
  let shown s k := exists ns,
    replay ctx [] (anchor + 1) (take k (drop (Z.to_nat (anchor + 1)) chain)) (at_height anchor start.1)
      = (Explorer.index s, ns) /\
    Explorer.events s = take EVENTS_KEPT (rev ns) in
  exists k k', (k <= k')%nat /\ shown s k /\ shown s' k'.
Proof.
  intros Ha Hr Hl Hstart Hs Hs' shown.
  assert (H0 : shows ctx anchor chain start.1 (Explorer.new (at_height anchor start.1) relay) 0).
  { exists []. cbn. split_and!; try done; [lia|]. by rewrite Z.add_0_r, Hstart. }
  destruct (explores_shows ctx anchor chain start.1 Ha Hr Hl _ _ _ Hs H0) as (k & _ & Hk).
  destruct (explores_shows ctx anchor chain start.1 Ha Hr Hl _ _ _ Hs' Hk) as (k' & Hle & Hk').
  exists k, k'. split; [done|]. destruct Hk as (ns & ? & ? & _), Hk' as (ns' & ? & ? & _).
  split; [by exists ns|by exists ns'].
Qed.
