(* ===== verification/Render.v ===== *)
(** * The explorer's page ([styx-explorer/src/render.rs], [serve.rs])

    The page as a function of one [View], text as UTF-8 bytes.  In the literals below a
    backquote stands for the double quote of the source; [html] puts it back.  The two
    slices of the first eight bytes are of identifiers, which are ASCII. *)

From Stdlib Require Import ZArith Lia.
From stdpp Require Import base strings option list.
From S2P Require Import Prelude Hex Elements Sockets Explorer.

Definition html (s : string) : bytes :=
  (fun b => if bool_decide (b = Byte.x60) then Byte.x22 else b) <$> ascii_bytes s.

(** [str::replace] of one ASCII character. *)
Definition replace (c : Byte.byte) (r s : bytes) : bytes :=
  s ≫= (fun b => if bool_decide (b = c) then r else [b]).

Definition esc (s : bytes) : bytes :=
  replace Byte.x22 (html "&quot;") (replace Byte.x3e (html "&gt;")
    (replace Byte.x3c (html "&lt;") (replace Byte.x26 (html "&amp;") s))).

(** Thousands separators. *)
Fixpoint group (s : bytes) (i len : nat) : bytes :=
  match s with
  | [] => []
  | c :: s =>
      (if (0 <? i)%nat && ((len - i) mod 3 =? 0)%nat then html "," else []) ++ c :: group s (S i) len
  end.
Definition fmt (n : Z) : bytes := let s := show_dec n in group s 0 (length s).

(** [{:02}]. *)
Definition two_digits (n : Z) : bytes := (if n <? 10 then html "0" else []) ++ show_dec n.
Definition usd (cents : Z) : bytes :=
  html "$" ++ fmt (cents / 100) ++ html "." ++ two_digits (cents mod 100).

(** [rsplit_once(':')]. *)
Fixpoint rsplit_colon (s : bytes) : option (bytes * bytes) :=
  match s with
  | [] => None
  | b :: s =>
      match rsplit_colon s with
      | Some (l, r) => Some (b :: l, r)
      | None => if bool_decide (b = Byte.x3a) then Some ([], s) else None
      end
  end.

Definition strip_elements (s : bytes) : bytes :=
  let p := html "[elements]" in
  if bool_decide (take (length p) s = p) then drop (length p) s else s.

Definition short (outpoint : bytes) : bytes :=
  let '(txid, vout) := default (outpoint, html "?") (rsplit_colon outpoint) in
  take 8 (strip_elements txid) ++ html ":" ++ vout.

(** ** The page's parts *)

Definition chain_line (v : View) : bytes :=
  html "<div class=`chainline`><span>height <b>" ++ show_dec (vw_height v) ++ html "</b></span>" ++
  match vw_tick v with
  | Some t =>
      if tw_lo t =? tw_hi t
      then html "<span>price <b>$" ++ fmt (tw_hi t) ++ html "</b></span>"
      else html "<span>price <b>$" ++ fmt (tw_lo t) ++ html " - $" ++ fmt (tw_hi t) ++ html "</b></span>"
  | None => html "<span>price <b>no quorum</b></span>"
  end.

Definition tick_age (v : View) : bytes :=
  match vw_tick v with
  | None => []
  | Some t =>
      let height := match tw_block_hash t with
        | Some hash =>
            html "<a href=`https://liquid.network/testnet/block/" ++ esc hash ++
            html "` target=`_blank` rel=`noopener`>h" ++ show_dec (tw_height t) ++ html "</a>"
        | None => html "h" ++ show_dec (tw_height t)
        end in
      html "<span class=`tickage " ++ (if vw_pricing_stale v then html "stale" else []) ++ html "`>tick " ++
      height ++ html " &middot; " ++ show_dec (tw_age_secs t) ++ html "s ago" ++
      (if vw_pricing_stale v then html " (stale)" else []) ++ html "</span>"
  end.

Definition protocol_line (v : View) : bytes :=
  match vw_protocol v with
  | None => []
  | Some p =>
      html "<span>pot <b>" ++ usd (pv_pot_units p) ++ html "</b></span><span>reserve <b>" ++
      fmt (pv_reserve_sats p) ++ html "</b> sats</span><span>anchor <b>" ++
      show_dec (pv_issuer_anchor p) ++ html "</b></span>"
  end.

Definition vault_row (stale : bool) (vt : VaultView) : bytes :=
  let cr := match vv_cr_percent vt with Some c => show_dec c ++ html "%" | None => html "-" end in
  html "<tr><td><a href=`https://liquid.network/testnet/tx/" ++ esc (vv_txid vt) ++
  html "` target=`_blank` rel=`noopener`>" ++ esc (short (vv_outpoint vt)) ++ html "</a></td><td>" ++
  usd (vv_debt_units vt) ++ html "</td><td>" ++ fmt (vv_collateral_sats vt) ++ html "</td><td>" ++ cr ++
  html "</td><td><span class=`" ++ html (if stale then "band stale" else "band") ++ html " " ++
  html (vv_band vt) ++ html "`>" ++ html (vv_band vt) ++ html "</span></td><td>" ++
  show_dec (vv_last_height vt) ++ html "</td></tr>".

Definition vault_section (v : View) : bytes :=
  html "<section class=`card wide`><h2>Vaults</h2>" ++
  match vw_vaults v with
  | [] => html "<p class=`muted`>no open vaults</p>"
  | _ =>
      html "<table><thead><tr><th>outpoint</th><th>debt (OBOL)</th><th>collateral (sats)</th><th>CR</th><th>band</th><th>ratchet</th></tr></thead><tbody>" ++
      concat (vault_row (vw_pricing_stale v) <$> vw_vaults v) ++ html "</tbody></table>" ++
      html "<p class=`muted`>bands are priced at the current tick's max quote; acting on a vault additionally needs a tick above its own ratchet height.</p>"
  end ++
  (if (0 <? vw_lost v)%nat
   then html "<p class=`muted`>" ++ show_dec (Z.of_nat (vw_lost v)) ++ html " lost outpoint(s) tracked</p>"
   else []) ++
  html "</section>".

Definition singleton_row (s : SingletonView) : bytes :=
  html "<tr><td>" ++ html (gv_name s) ++ html "</td><td><a href=`https://liquid.network/testnet/tx/" ++
  esc (gv_txid s) ++ html "` target=`_blank` rel=`noopener`>" ++ esc (short (gv_outpoint s)) ++
  html "</a></td></tr>".

Definition singleton_section (v : View) : bytes :=
  match vw_protocol v with
  | None => []
  | Some p =>
      html "<section class=`card`><h2>Singletons</h2><p class=`muted`>the protocol's on-chain outputs - open each on liquid.network to verify</p><table><tbody>" ++
      concat (singleton_row <$> pv_singletons p) ++ html "</tbody></table></section>"
  end.

(** One oracle slot: its age, name and price. *)
Definition slot_span (v : View) (slot : nat) (age : option Z) : bytes :=
  let '(cls, text) := match age with
    | Some a => (if a <=? 120 then "ok"%string else "stale"%string, show_dec a ++ html "s ago")
    | None => ("never"%string, html "never")
    end in
  let label := match mjoin (vw_oracle_name v !! slot) with
    | Some name => esc name
    | None => html "slot " ++ show_dec (Z.of_nat slot)
    end in
  let price := match mjoin (vw_oracle_price v !! slot) with
    | Some p => html "<br>$" ++ fmt p
    | None => []
    end in
  html "<span class=`slot " ++ html cls ++ html "`>" ++ label ++ html "<br><b>" ++ text ++ html "</b>" ++
  price ++ html "</span>".

Definition oracle_section (v : View) : bytes :=
  html "<section class=`card`><h2>Oracles</h2>" ++
  match vw_relay v with
  | Some relay => html "<p class=`muted`>quote relay: <code>" ++ esc relay ++ html "</code></p>"
  | None => []
  end ++
  html "<div class=`slots`>" ++ concat (imap (slot_span v) (vw_oracle_age_secs v)) ++ html "</div></section>".

Definition event_row (e : EventView) : bytes :=
  html "<li><span class=`h`>" ++ show_dec (ew_height e) ++ html "</span> <span class=`tx`>" ++
  esc (take 8 (ew_txid e)) ++ html "</span> " ++ esc (ew_what e) ++ html "</li>".

Definition event_section (v : View) : bytes :=
  html "<section class=`card wide`><h2>Events</h2>" ++
  match vw_events v with
  | [] => html "<p class=`muted`>nothing yet</p>"
  | _ => html "<ul class=`events`>" ++ concat (event_row <$> vw_events v) ++ html "</ul>"
  end ++ html "</section>".

Definition app_section (app_url : option bytes) : bytes :=
  match app_url with
  | None => []
  | Some url =>
      html "<section class=`card`><h2>Open a vault</h2><p class=`muted`>the wallet and the keeper run on YOUR machine - keys never leave it.</p><p><a class=`cta` href=`" ++
      esc url ++ html "`>get styx-app</a></p></section>"
  end.

Definition page (v : View) (app_url : option bytes) : bytes :=
  html "<!doctype html><html lang=`en`><head><meta charset=`utf-8`><meta name=`viewport` content=`width=device-width, initial-scale=1`><meta http-equiv=`refresh` content=`10`><title>STYX explorer</title><link rel=`icon` href=`/favicon.svg`><link rel=`stylesheet` href=`/explorer.css`></head><body>" ++
  html "<header><h1>ΣΤΥΞ <span class=`sub`>explorer</span></h1>" ++
  chain_line v ++ tick_age v ++ protocol_line v ++ html "</div></header><main>" ++
  vault_section v ++ html "<div class=`pair`>" ++ singleton_section v ++ oracle_section v ++
  html "</div>" ++ event_section v ++ app_section app_url ++ html "</main></body></html>".

Example fmt_grouped : fmt 1234567 = html "1,234,567" /\ fmt 100 = html "100" /\ usd 100005 = html "$1,000.05".
Proof. by vm_compute. Qed.
Example short_elements : short (html "[elements]0123456789ab:7") = html "01234567:7".
Proof. by vm_compute. Qed.

(** ** What a reader's browser parses *)

(** The bytes that open or close a tag or an attribute. *)
Definition markup (l : bytes) : bytes :=
  filter (fun b => b = Byte.x3c \/ b = Byte.x3e \/ b = Byte.x22) l.

(** The same view with every text blanked. *)
Definition blank_tick (t : TickView) : TickView :=
  mkTickView (tw_height t) (tw_lo t) (tw_hi t) (tw_age_secs t) ((fun _ => []) <$> tw_block_hash t).
Definition blank_singleton (s : SingletonView) : SingletonView := mkSingletonView (gv_name s) [] [].
Definition blank_protocol (p : ProtocolView) : ProtocolView :=
  mkProtocolView (pv_pot_units p) (pv_reserve_sats p) (pv_issuer_anchor p)
    (blank_singleton <$> pv_singletons p).
Definition blank_vault (v : VaultView) : VaultView :=
  mkVaultView [] [] (vv_debt_units v) (vv_collateral_sats v) (vv_last_height v) (vv_cr_percent v) (vv_band v).
Definition blank_event (e : EventView) : EventView := mkEventView (ew_height e) [] [].
Definition blank (v : View) : View :=
  mkView (vw_height v) (blank_protocol <$> vw_protocol v) (blank_tick <$> vw_tick v) (vw_pricing_stale v)
    (blank_vault <$> vw_vaults v) (vw_lost v) (blank_event <$> vw_events v) (vw_oracle_age_secs v)
    ((fun n : option bytes => (fun _ => []) <$> n) <$> vw_oracle_name v) (vw_oracle_price v)
    ((fun _ => []) <$> vw_relay v).

Lemma markup_app l1 l2 : markup (l1 ++ l2) = markup l1 ++ markup l2.
Proof. apply filter_app. Qed.

Lemma markup_concat (ls : list bytes) : markup (concat ls) = concat (markup <$> ls).
Proof. induction ls as [|l ls IH]; cbn; [done|]. by rewrite markup_app, IH. Qed.

Lemma elem_replace b c r s : b ∈ replace c r s -> b ∈ r \/ b ∈ s /\ b <> c.
Proof.
  unfold replace. intros (a & Hb & Ha)%list_elem_of_bind. case_bool_decide; [by left|].
  apply list_elem_of_singleton in Hb as ->. by right.
Qed.

Lemma markup_esc s : markup (esc s) = [].
Proof.
  destruct (markup (esc s)) as [|b l] eqn:E; [done|].
  assert (Hb : b ∈ markup (esc s)) by (rewrite E; by left).
  apply list_elem_of_filter in Hb as [Hm Hb]. unfold esc in Hb.
  assert (Hno : forall b t, b ∈ html t -> (b = Byte.x3c \/ b = Byte.x3e \/ b = Byte.x22) ->
    markup (html t) <> []).
  { intros b' t Hin Hm' En. assert (Hx : b' ∈ markup (html t)) by by apply list_elem_of_filter.
    rewrite En in Hx. by apply not_elem_of_nil in Hx. }
  apply elem_replace in Hb as [Hb|[Hb Hq]]; [by destruct (Hno _ _ Hb Hm)|].
  apply elem_replace in Hb as [Hb|[Hb Hg]]; [by destruct (Hno _ _ Hb Hm)|].
  apply elem_replace in Hb as [Hb|[_ Hl]]; [by destruct (Hno _ _ Hb Hm)|].
  by destruct Hm as [->|[->| ->]].
Qed.

#[local] Opaque html esc fmt usd short show_dec markup.

Lemma markup_rows {A} (f : A -> bytes) (b : A -> A) (l : list A) :
  (forall x, markup (f x) = markup (f (b x))) ->
  markup (concat (f <$> l)) = markup (concat (f <$> (b <$> l))).
Proof.
  intros Hf. induction l as [|x l IH]; cbn; [done|]. by rewrite !markup_app, Hf, IH.
Qed.

(** Splits into parts, and drops the escaped ones. *)
Ltac parts := repeat rewrite markup_app; repeat rewrite markup_esc; rewrite ?app_nil_l.

Lemma slot_inert v slot age : markup (slot_span v slot age) = markup (slot_span (blank v) slot age).
Proof.
  unfold slot_span. cbn [blank vw_oracle_name vw_oracle_price]. rewrite list_lookup_fmap.
  destruct (vw_oracle_name v !! slot) as [[n|]|]; cbn [mjoin option_join fmap option_fmap option_map];
    [|done..]. destruct age as [a|]; by parts.
Qed.

Lemma markup_imap {A} (f g : nat -> A -> bytes) (l : list A) :
  (forall i x, markup (f i x) = markup (g i x)) ->
  markup (concat (imap f l)) = markup (concat (imap g l)).
Proof.
  revert f g. induction l as [|x l IH]; intros f g Hfg; [done|]. rewrite !imap_cons. cbn [concat].
  rewrite !markup_app, Hfg. f_equal. apply IH. intros i y. apply Hfg.
Qed.

(** C34: Nothing shown on the public page can write markup.  Oracle names off the wire, the
    relay, event texts, outpoints and the link of the configuration may hold any bytes: the
    page has the same angle brackets and double quotes, in the same order, as the page of the
    view with all of these blanked. *)
Theorem page_inert (v : View) (app_url : option bytes) :
  markup (page v app_url) = markup (page (blank v) ((fun _ => []) <$> app_url)).
Proof.
  assert (Htick : markup (tick_age v) = markup (tick_age (blank v))).
  { unfold tick_age. cbn [blank vw_tick vw_pricing_stale]. destruct (vw_tick v) as [t|]; [|done]. cbn.
    destruct (tw_block_hash t); cbn; by parts. }
  assert (Hchain : chain_line v = chain_line (blank v)).
  { unfold chain_line. cbn [blank vw_tick vw_height]. by destruct (vw_tick v). }
  assert (Hline : protocol_line v = protocol_line (blank v)).
  { unfold protocol_line. cbn [blank vw_protocol]. by destruct (vw_protocol v). }
  assert (Hvaults : markup (vault_section v) = markup (vault_section (blank v))).
  { unfold vault_section. cbn [blank vw_vaults vw_pricing_stale vw_lost]. parts. f_equal. f_equal.
    assert (Hrow : forall y, markup (vault_row (vw_pricing_stale v) y) =
      markup (vault_row (vw_pricing_stale v) (blank_vault y))) by (intros y; unfold vault_row; by parts).
    pose proof (markup_rows _ blank_vault (vw_vaults v) Hrow) as Hrows.
    destruct (vw_vaults v) as [|x l]; [done|]. cbn [fmap list_fmap] in *. parts. by rewrite Hrows. }
  assert (Hsingle : markup (singleton_section v) = markup (singleton_section (blank v))).
  { unfold singleton_section. cbn [blank vw_protocol]. destruct (vw_protocol v) as [p|]; [|done]. cbn.
    parts. f_equal. f_equal. apply (markup_rows _ blank_singleton). intros y.
    unfold singleton_row. by parts. }
  assert (Horacle : markup (oracle_section v) = markup (oracle_section (blank v))).
  { unfold oracle_section. parts. f_equal. f_equal; [|f_equal; f_equal; apply markup_imap; intros; apply slot_inert].
    cbn. destruct (vw_relay v); cbn; by parts. }
  assert (Hevents : markup (event_section v) = markup (event_section (blank v))).
  { unfold event_section. cbn [blank vw_events]. parts. f_equal. f_equal.
    assert (Hrow : forall y, markup (event_row y) = markup (event_row (blank_event y)))
      by (intros y; unfold event_row; by parts).
    pose proof (markup_rows _ blank_event (vw_events v) Hrow) as Hrows.
    destruct (vw_events v) as [|x l]; [done|]. cbn [fmap list_fmap] in *. parts. by rewrite Hrows. }
  assert (Happ : markup (app_section app_url) = markup (app_section ((fun _ => []) <$> app_url))).
  { destruct app_url; cbn; [|done]. by parts. }
  unfold page. rewrite !markup_app, Hchain, Htick, Hline, Hvaults, Hsingle, Horacle, Hevents, Happ. done.
Qed.
