(* ===== verification/Api.v ===== *)
(** * The application server ([styx-app/src/api.rs])

    One wallet session behind a lock, served to many requests at once.  A request runs in
    two halves: the asynchronous one reads the tick, checks the body and makes a job; the
    job is the closure that runs under the wallet's lock.  Keeper loops share the wallet and
    take the lock once per section of a step.  [Server] is the whole, and an [Event] one
    atomic step of it, so any order of events is an interleaving.

    Error and event texts are the values they are made of; the event stream's transport and
    the parsing of request bodies are the web framework's. *)

From Stdlib Require Import ZArith Lia.
From stdpp Require Import base gmap strings option list.
From S2P Require Import Prelude Hex Units CrMath Elements Oracle Simf Encode Domain Artifacts Jets.
From S2P Require Import CovVault CovReserve CovIssuer Plan BuildOwner Decide Pset Quotes Effects Node.
From S2P Require Import Index Sync Snapshot Config Sockets OracleService Gate Wallet Ops Keeper.

(** Nanoseconds: three minutes. *)
Definition TICK_MAX_AGE : Z := 180000000000.
Definition PENDING_CAP : nat := 32.

(** [FromStr] of an outpoint. *)
Class OutPointParse : Type := parse_outpoint : bytes -> option OutPoint.

(** ** Errors and events *)

Inductive ApiError : Type :=
| AWallet (e : WalletError)
| ANoQuorum
| ABadRequest (message : string)
| AStale (message : string)
| AInternal (message : string).

Definition is_refusal (e : WalletError) : bool :=
  match e with
  | WBuild _ | WMath _ | NotLive | VaultNotFound _ | VaultNotMine _ | InsufficientLbtc _ _
  | InsufficientObol _ _ | AmbiguousVault _ | NoVault | ConflictExhausted _ _ => true
  | _ => false
  end.

Definition api_status (e : ApiError) : Z :=
  match e with
  | AWallet e => if is_refusal e then 409 else 500
  | ANoQuorum => 409
  | ABadRequest _ => 400
  | AStale _ => 409
  | AInternal _ => 500
  end.

Inductive KeeperMode : Type := KIdle | KRunning | KAlert (e : KeeperError).

Inductive Detail : Type :=
| DHeight (h : Z)
| DTxid (txid : bytes)
| DFailed (what : string) (e : WalletError)
| DPerformed (p : Performed)
| DKeeper (e : KeeperError)
| DText (s : string).

Record AppEvent : Type := mkEvent { ev_kind : string; ev_detail : Detail }.

(** ** Views *)

Record VaultView : Type := mkVaultView {
  vv_outpoint : bytes; vv_debt_units : Z; vv_collateral_sats : Z; vv_last_height : Z;
  vv_cr_percent : option Z
}.
Record TickView : Type := mkTickView { tw_height : Z; tw_lo : Z; tw_hi : Z }.
Record ProtocolView : Type := mkProtocolView {
  pv_pot_units : Z; pv_reserve_sats : Z; pv_issuer_anchor : Z
}.
Record Status : Type := mkStatus {
  st_height : Z; st_funding : Script; st_lbtc_sats : Z; st_obol_units : Z;
  st_vaults : list VaultView; st_protocol : option ProtocolView; st_tick : option TickView;
  st_keeper : KeeperMode
}.
Record OpView : Type := mkOpView { ow_txid : bytes; ow_vault : option VaultView }.

Inductive Body : Type :=
| BStatus (s : Status)
| BOp (v : OpView)
| BRequest (r : OwnerSigningRequest)
| BText (s : string).

(** [format!("{}:{}", op.txid, op.vout)]. *)
Definition outpoint_str (op : OutPoint) : bytes :=
  txid_string (op_txid op) ++ ascii_bytes ":" ++ show_dec (op_vout op).

Definition cr_percent (debt : Obol.t) (coll : Sats.t) (hi : option Price.t) : option Z :=
  hi ← hi;
  cents ← ok (Obol.covenant_cents debt);
  if negb (0 <? cents) then None else
  let par := Sats.raw (coll_at_cr cents hi K_PAR) in
  if par =? 0 then None else
  let percent := u64_sat_mul (Sats.raw coll) 100 / par in
  if percent <=? U32_MAX then Some percent else None.

Definition vault_view (hi : option Price.t) (v : OnChain VaultState) : VaultView :=
  mkVaultView (outpoint_str (outpoint v)) (Obol.raw (debt (state v))) (Sats.raw (oc_value v))
    (BlockHeight.raw (last_height (state v))) (cr_percent (debt (state v)) (oc_value v) hi).

(** Op responses skip the ratio. *)
Definition op_view (report : OpReport) : OpView :=
  mkOpView (txid_string (or_txid report)) (vault_view None <$> or_vault report).

Definition tick_view (tick : OracleTick.t) : TickView :=
  let '(lo, hi) := OracleTick.price_range tick in
  mkTickView (BlockHeight.raw (OracleTick.height tick)) (Price.raw lo) (Price.raw hi).

(** ** Requests and jobs *)

Inductive Request : Type :=
| RStatus
| ROpen (principal : Z) (collateral cr : option Z)
| RRepay (vault : option bytes) (amount : Z)
| RDraw (vault : option bytes) (amount : Z)
| RRefresh (vault : option bytes)
| RClose (vault : option bytes)
| RRedeem (vault : option bytes) (amount : Z)
| RExport (op : string) (vault : option bytes) (amount : option Z)
| RApply (txid owner_sig : bytes)
| RKeeperStart
| RKeeperStop.

(** The owner operation a closure captured. *)
Inductive AppOp : Type :=
| AOpen (principal : Obol.t) (collateral : Sats.t) (tick : OracleTick.t)
| ARepay (which : option OutPoint) (amount : Obol.t)
| ADraw (which : option OutPoint) (amount : Obol.t) (tick : OracleTick.t)
| ARefresh (which : option OutPoint) (tick : OracleTick.t)
| AClose (which : option OutPoint)
| ARedeem (which : option OutPoint) (x : Obol.t) (tick : OracleTick.t).

Inductive Job : Type :=
| JStatus (keeper : KeeperMode) (tick : option OracleTick.t)
| JOp (kind : string) (o : AppOp)
| JExport (op : string) (which : option OutPoint) (tick : option OracleTick.t) (amount : option Obol.t)
| JApply (txid owner_sig : bytes)
| JApplying (txid owner_sig : bytes) (plan : TxPlan).

(** ** The queue of exported plans, oldest first *)

Abbreviation Queue := (list (bytes * TxPlan)) (only parsing).

Definition drop_pending (txid : bytes) (q : Queue) : Queue := filter (fun x => x.1 <> txid) q.
(** [while q.len() > PENDING_CAP { q.pop_front() }] leaves the last [PENDING_CAP]. *)
Definition stash_pending (txid : bytes) (plan : TxPlan) (q : Queue) : Queue :=
  let q := drop_pending txid q ++ [(txid, plan)] in
  drop (length q - PENDING_CAP) q.
Definition take_pending (txid : bytes) (q : Queue) : option TxPlan :=
  snd <$> find (fun x => bool_decide (x.1 = txid)) q.

Module App.

Record t (N D : Type) : Type := mk {
  wallet : Wallet.t N D;
  events : list AppEvent;
  tick_slot : option (OracleTick.t * Z);
  mode : KeeperMode;
  stop : option nat;
  keeper_opts : KeeperOpts;
  pending : Queue
}.
Arguments mk {N D} _ _ _ _ _ _ _.
Arguments wallet {N D} _.
Arguments events {N D} _.
Arguments tick_slot {N D} _.
Arguments mode {N D} _.
Arguments stop {N D} _.
Arguments keeper_opts {N D} _.
Arguments pending {N D} _.

Section App.
Context `{Lib, XOnlyParse, SigHash, Redeemer, KeySpend, TxSize, OutPointParse}.
Context {N D : Type} `{Rpc N, Display, OutPointOrder, Json, Disk D}.

Abbreviation W := (Wallet.t N D) (only parsing).
Abbreviation WM := (Eff (Wallet.t N D) WalletError) (only parsing).
Abbreviation M := (Eff (t N D) ApiError) (only parsing).

Definition with_wallet (w : W) (s : t N D) : t N D :=
  mk w (events s) (tick_slot s) (mode s) (stop s) (keeper_opts s) (pending s).
Definition emit (kind : string) (d : Detail) (s : t N D) : t N D :=
  mk (wallet s) (mkEvent kind d :: events s) (tick_slot s) (mode s) (stop s) (keeper_opts s) (pending s).
Definition set_tick (tick : OracleTick.t) (now : Z) (s : t N D) : t N D :=
  mk (wallet s) (events s) (Some (tick, now)) (mode s) (stop s) (keeper_opts s) (pending s).
Definition with_ctl (m : KeeperMode) (f : option nat) (s : t N D) : t N D :=
  mk (wallet s) (events s) (tick_slot s) m f (keeper_opts s) (pending s).
Definition with_pending (q : Queue) (s : t N D) : t N D :=
  mk (wallet s) (events s) (tick_slot s) (mode s) (stop s) (keeper_opts s) q.

Definition new (w : W) (opts : KeeperOpts) : t N D := mk w [] None KIdle None opts [].

(** The injected tick, unless it went stale. *)
Definition tick (now : Z) (s : t N D) : option OracleTick.t :=
  '(tick, at_) ← tick_slot s;
  if OracleState.elapsed now at_ <=? TICK_MAX_AGE then Some tick else None.

Definition current_tick (now : Z) (s : t N D) : result ApiError OracleTick.t :=
  ok_or ANoQuorum (tick now s).

(** ** The asynchronous half of a handler *)

Definition vault_arg (v : option bytes) : result ApiError (option OutPoint) :=
  match v with
  | None => Ok None
  | Some text => op ← ok_or (ABadRequest "vault: expected txid:vout") (parse_outpoint text); Ok (Some op)
  end.

Definition accept_open (principal : Z) (collateral cr : option Z) (now : Z) (s : t N D)
    : result ApiError Job :=
  tick ← current_tick now s;
  let principal := Obol.new principal in
  collateral ←
    match collateral, cr with
    | Some sats, None => Ok (Sats.new sats)
    | None, cr => map_err AWallet (Ops.collateral_for principal tick cr)
    | Some _, Some _ => Err (ABadRequest "collateral and cr_percent are exclusive")
    end;
  Ok (JOp "open" (AOpen principal collateral tick)).

Definition accept_export (op : string) (vault : option bytes) (amount : option Z) (now : Z) (s : t N D)
    : result ApiError Job :=
  which ← vault_arg vault;
  tick ← (if bool_decide (op = "draw"%string) then t ← current_tick now s; Ok (Some t) else Ok None);
  Ok (JExport op which tick (Obol.new <$> amount)).

(** The requests that run a job; the keeper's two answer at once. *)
Definition accept (r : Request) (now : Z) (s : t N D) : result ApiError (option Job) :=
  match r with
  | RStatus => Ok (Some (JStatus (mode s) (tick now s)))
  | ROpen principal collateral cr => Some <$> accept_open principal collateral cr now s
  | RRepay vault amount =>
      which ← vault_arg vault; Ok (Some (JOp "repay" (ARepay which (Obol.new amount))))
  | RDraw vault amount =>
      tick ← current_tick now s; which ← vault_arg vault;
      Ok (Some (JOp "draw" (ADraw which (Obol.new amount) tick)))
  | RRefresh vault =>
      tick ← current_tick now s; which ← vault_arg vault; Ok (Some (JOp "refresh" (ARefresh which tick)))
  | RClose vault => which ← vault_arg vault; Ok (Some (JOp "close" (AClose which)))
  | RRedeem vault amount =>
      tick ← current_tick now s; which ← vault_arg vault;
      Ok (Some (JOp "redeem" (ARedeem which (Obol.new amount) tick)))
  | RExport op vault amount => Some <$> accept_export op vault amount now s
  | RApply txid sig => Ok (Some (JApply txid sig))
  | RKeeperStart | RKeeperStop => Ok None
  end.

(** ** The jobs, under the wallet's lock *)

Definition locked {A} (m : WM A) : M A := map_error AWallet (zoom wallet with_wallet m).

Definition status_job (keeper : KeeperMode) (tick : option OracleTick.t) : M Body :=
  status ← locked (
    _ ← Wallet.sync;
    w ← gets id;
    lbtc ← Wallet.lbtc_coins;
    obol ← Wallet.obol_coins;
    let hi := (fun t => (OracleTick.price_range t).2) <$> tick in
    let protocol := (fun p => mkProtocolView (Obol.raw (oc_value (pot p))) (Sats.raw (oc_value (reserve p)))
      (BlockHeight.raw (last_mint_height (state (issuer p))))) <$> ok (Wallet.protocol w) in
    mret (mkStatus (ix_height (Wallet.state w)) (Wallet.funding_spk w) (sum_coins lbtc) (sum_coins obol)
      (vault_view hi <$> Wallet.my_vaults w) protocol (tick_view <$> tick) keeper));
  _ ← update (emit "status" (DHeight (st_height status)));
  mret (BStatus status).

Definition app_op (o : AppOp) : WM OpReport :=
  match o with
  | AOpen p c tick => Ops.open p c tick
  | ARepay which a => Ops.repay which a
  | ADraw which a tick => Ops.draw which a tick
  | ARefresh which tick => Ops.refresh which tick
  | AClose which => Ops.close which
  | ARedeem which x tick => Ops.redeem which x tick
  end.

(** [run_op]: a sync, the operation, and an event for either outcome. *)
Definition op_job (kind : string) (o : AppOp) : M Body :=
  outcome ← try (zoom wallet with_wallet (_ ← Wallet.sync; app_op o));
  match outcome with
  | Err e =>
      _ ← update (emit (if is_refusal e then "rejected" else "op_error") (DFailed kind e));
      throw (AWallet e)
  | Ok report =>
      let view := op_view report in
      _ ← update (emit kind (DTxid (ow_txid view)));
      mret (BOp view)
  end.

Definition miss : ApiError := ABadRequest "the amount is required for this op".

Definition unsigned_plan (op : string) (which : option OutPoint) (tick : option OracleTick.t)
    (amount : option Obol.t) : M TxPlan :=
  if bool_decide (op = "close"%string) then locked (Ops.close_unsigned which)
  else if bool_decide (op = "repay"%string) then
    a ← lift (ok_or miss amount); locked (Ops.repay_unsigned which a)
  else if bool_decide (op = "draw"%string) then
    tick ← lift (ok_or ANoQuorum tick);
    a ← lift (ok_or miss amount); locked (Ops.draw_unsigned which a tick)
  else throw (ABadRequest "not an owner op").

Definition export_job (op : string) (which : option OutPoint) (tick : option OracleTick.t)
    (amount : option Obol.t) : M Body :=
  plan ← unsigned_plan op which tick amount;
  s ← gets id;
  request ← lift (map_err (fun _ => AInternal "signing request")
                    (owner_signing_request (Wallet.ctx (wallet s)) plan));
  _ ← update (fun s => with_pending (stash_pending (rq_txid request) plan (pending s)) s);
  _ ← update (emit "export" (DTxid (rq_txid request)));
  mret (BRequest request).

(** The second half of [apply_signed], on the clone of the stashed plan. *)
Definition apply_job (txid owner_sig : bytes) (plan : TxPlan) : M Body :=
  s ← gets id;
  plan ← lift (map_err (fun _ => ABadRequest "owner signature")
                 (apply_owner_sig (Wallet.ctx (wallet s)) plan owner_sig));
  outcome ← try (zoom wallet with_wallet (Ops.finalize_broadcast plan));
  match outcome with
  | Ok sent =>
      _ ← update (fun s => with_pending (drop_pending txid (pending s)) s);
      _ ← update (emit "apply" (DTxid (txid_string sent)));
      mret (BOp (mkOpView (txid_string sent) None))
  | Err (WBroadcast (Conflict message)) =>
      _ ← update (fun s => with_pending (drop_pending txid (pending s)) s);
      throw (AStale message)
  | Err e => throw (AWallet e)
  end.

(** The first half of [apply_signed]. *)
Definition take_job (txid owner_sig : bytes) (s : t N D) : result ApiError Job :=
  plan ← ok_or (ABadRequest "no pending plan") (take_pending txid (pending s));
  Ok (JApplying txid owner_sig plan).

(** One atomic section of a job: its answer, or the job it goes on as. *)
Definition run_job (j : Job) : M (Body + Job) :=
  match j with
  | JStatus keeper tick => inl <$> status_job keeper tick
  | JOp kind o => inl <$> op_job kind o
  | JExport op which tick amount => inl <$> export_job op which tick amount
  | JApply txid sig => fun s => (j ← take_job txid sig s; Ok (inr j), s)
  | JApplying txid sig plan => inl <$> apply_job txid sig plan
  end.

End App.
End App.
