(* ===== verification/Cli.v ===== *)
(** * The wallet's command line ([styx-wallet/src/main.rs])

    One command: load the configuration, open and sync the session, take a tick from the
    relays where the operation needs one, run the operation, print.  [dispatch] works on the
    session beside the relays.  Parsing the arguments is [clap]'s; what is printed is a
    value of [Printed]; a panic is an error of its own. *)

From Stdlib Require Import ZArith Lia.
From stdpp Require Import base gmap strings option list.
From S2P Require Import Prelude Hex Units CrMath Elements Oracle Simf Domain Encode Artifacts.
From S2P Require Import Jets CovVault CovReserve CovIssuer Plan BuildOwner BuildKeeper Accept.
From S2P Require Import CovLemmas CovAccept Sound Quotes Decide Pset Effects Node Funding Index.
From S2P Require Import Sync Snapshot Config Relay Wallet Ops WalletSpec OpsSpec Keeper.
From S2P Require Import KeeperSpec Patrol Daemon Api.

Inductive Cmd : Type :=
| Keygen
| Address
| Fund (sats : Z)
| Status
| CmdOpen (principal : Z) (collateral : option Z) (cr : option Z)
| CmdRepay (vault : option bytes) (amount : Z)
| CmdDraw (vault : option bytes) (amount : Z)
| CmdRefresh (vault : option bytes)
| CmdClose (vault : option bytes)
| CmdRedeem (vault : option bytes) (x : Z)
| CmdSend (to : bytes) (amount : Z) (lbtc : bool).

Record Cli : Type := mkCli { cli_config : option bytes; cli_cmd : Cmd }.

Inductive CliError : Type :=
| CliNoConfig
| CliConfig (e : WalletConfigError)
| CliStyxnet (e : ConfigError)
| CliWallet (e : WalletError)
| CliNode (e : NodeError)
| CliAuthor
| CliQuorum (n : nat)
| CliTransport (e : TransportError)
| CliNoTick
| CliOutPoint (text : bytes)
| CliAddress
| CliPanic.

(** A vault as it is printed: its outpoint and its three numbers. *)
Record VaultLine : Type := mkVaultLine { vl_outpoint : bytes; vl_debt : Z; vl_coll : Z; vl_last : Z }.

(** The protocol line of [status]: the pot, the reserve and the anchor. *)
Definition ProtocolLine : Type := (Z * Z * Z)%type.

Inductive Printed : Type :=
| PrintKeys (owner funding : bytes)
| PrintAddress (funding_spk : Script) (owner : XOnlyPublicKey)
| PrintFunded (sats : Z) (op : OutPoint)
| PrintStatus (height : Z) (protocol : option ProtocolLine) (vaults : list VaultLine)
    (lbtc obol : Z * nat)
| PrintReport (label : string) (txid : Txid) (vault : option VaultLine)
| PrintSent (txid : Txid).

(** The exit code of [main]. *)
Definition exit_status {A} (r : result CliError A) : Z :=
  match r with Ok _ => 0 | Err CliPanic => 101 | Err _ => 1 end.

Definition parse_vault `{OutPointParse} (s : bytes) : result CliError OutPoint :=
  ok_or (CliOutPoint s) (parse_outpoint s).

Definition vault_arg `{OutPointParse} (v : option bytes) : result CliError (option OutPoint) :=
  match v with None => Ok None | Some s => op ← parse_vault s; Ok (Some op) end.

Definition vault_line `{Display} (v : OnChain VaultState) : VaultLine :=
  mkVaultLine (outpoint_str (outpoint v)) (Obol.raw (debt (state v))) (Sats.raw (oc_value v))
    (BlockHeight.raw (last_height (state v))).

Definition print_report `{Display} (label : string) (r : OpReport) : Printed :=
  PrintReport label (or_txid r) (vault_line <$> or_vault r).

Definition TICK_WALKBACK : Z := 8.
Definition FETCH_TIMEOUT_MS : Z := 5000.

Module Cli.

Section Cli.
Context `{Lib, XOnlyParse, SigHash, Redeemer, KeySpend, Compiler, OutPointParse, TxCodec}.
Context {N D A J : Type} `{Addresses A, Rpc N, !WalletRpc N J, Clock N}.
Context `{Display, OutPointOrder, Json, Disk D, AssetParse, SecretKey}.
Context {F : Type} `{Toml WalletConfig, Toml StyxnetConfig, Files F} {R : Type} `{QuoteSerde, Client R}.

Abbreviation W := (Wallet.t N D) (only parsing).
Abbreviation M := (Eff (Wallet.t N D * R) CliError) (only parsing).

(** A call of the wallet, and one of the relays. *)
Definition session {X} (m : Eff W WalletError X) : M X := map_error CliWallet (Ops.session m).
Definition relays {X} (m : Eff R TransportError X) : M X :=
  map_error CliTransport (zoom snd (fun r x => (x.1, r)) m).

(** [Node::height] on the session's node. *)
Definition tip : M Z := fun x =>
  let '(r, n) := height (Wallet.node x.1) in (map_err CliNode r, (Wallet.with_node x.1 n, x.2)).

(** The walk of [assemble_tick]: [n] heights from [h] down. *)
Fixpoint tick_walk (sub : NostrQuotes.t) (tip : BlockHeight.t) (n : nat) (h : Z) (b : QuoteBook.t)
    : M OracleTick.t :=
  match n with
  | O => throw CliNoTick
  | S n =>
      quotes ← relays (NostrQuotes.fetch sub h FETCH_TIMEOUT_MS);
      b ← lift (ok_or CliPanic (absorb_all b ((fun q => (q, tip)) <$> quotes)));
      match QuoteBook.assemble_tick b (BlockHeight.new h) with
      | Some tick => mret tick
      | None => tick_walk sub tip n (h - 1) b
      end
  end.

Definition assemble_tick (net : StyxnetConfig) (ephemeral : bytes) : M OracleTick.t :=
  authors ← lift (ok_or CliAuthor (NostrQuotes.relay_authors (sn_oracles net)));
  if (length authors <? 3)%nat then throw (CliQuorum (length authors)) else
  sub ← relays (NostrQuotes.subscriber ephemeral (no_relays (sn_nostr net)) authors);
  tip ← tip;
  pks ← gets (fun x => oracle_pks (ctx_params (Wallet.ctx x.1)));
  tick_walk sub (BlockHeight.new tip) (Z.to_nat (tip - u32_sat_sub tip TICK_WALKBACK + 1)) tip
    (QuoteBook.new pks).

(** [Wallet::fund]: the node's wallet pays the funding script. *)
Definition fund (sats : Z) : Eff W WalletError OutPoint := fun w =>
  Wallet.on_node WNode (fund_address (policy (ctx_params (Wallet.ctx w))) (Wallet.funding_spk w) sats) w.

Definition protocol_line (p : ProtocolState) : ProtocolLine :=
  (Obol.raw (oc_value (pot p)), Sats.raw (oc_value (reserve p)),
   BlockHeight.raw (last_mint_height (state (issuer p)))).

Definition status : M Printed :=
  w ← gets fst;
  lbtc ← session Wallet.lbtc_coins;
  obol ← session Wallet.obol_coins;
  mret (PrintStatus (ix_height (Wallet.state w)) (protocol_line <$> Index.protocol (Wallet.state w))
          (vault_line <$> Wallet.my_vaults w)
          (sum_coins lbtc, length lbtc) (sum_coins obol, length obol)).

(** The match of [run] on the command. *)
Definition dispatch (net : StyxnetConfig) (ephemeral : bytes) (cmd : Cmd) : M Printed :=
  match cmd with
  | Keygen => throw CliPanic
  | Address =>
      w ← gets fst; mret (PrintAddress (Wallet.funding_spk w) (Wallet.owner_pk w))
  | Fund sats => op ← session (fund sats); mret (PrintFunded sats op)
  | Status => status
  | CmdOpen principal collateral cr =>
      tick ← assemble_tick net ephemeral;
      let principal := Obol.new principal in
      collateral ← lift (match collateral with
                         | Some c => Ok (Sats.new c)
                         | None => map_err CliWallet (Ops.collateral_for principal tick cr)
                         end);
      report ← session (Ops.open principal collateral tick);
      mret (print_report "open" report)
  | CmdRepay vault amount =>
      which ← lift (vault_arg vault);
      report ← session (Ops.repay which (Obol.new amount));
      mret (print_report "repay" report)
  | CmdDraw vault amount =>
      tick ← assemble_tick net ephemeral;
      which ← lift (vault_arg vault);
      report ← session (Ops.draw which (Obol.new amount) tick);
      mret (print_report "draw" report)
  | CmdRefresh vault =>
      tick ← assemble_tick net ephemeral;
      which ← lift (vault_arg vault);
      report ← session (Ops.refresh which tick);
      mret (print_report "refresh" report)
  | CmdClose vault =>
      which ← lift (vault_arg vault);
      report ← session (Ops.close which);
      mret (print_report "close" report)
  | CmdRedeem vault x =>
      tick ← assemble_tick net ephemeral;
      which ← lift (vault_arg vault);
      report ← session (Ops.redeem which (Obol.new x) tick);
      mret (print_report "redeem" report)
  | CmdSend to amount lbtc =>
      a ← lift (ok_or CliAddress (parse_address to));
      let dest := script_pubkey a in
      txid ← session (if lbtc then Ops.send_lbtc dest (Sats.new amount)
                      else Ops.send_obol dest (Obol.new amount));
      mret (PrintSent txid)
  end.

(** The configuration and the session of a command. *)
Definition open (cli : Cli) (fs : F) (n : N) (d : D) : result CliError (StyxnetConfig * W) :=
  path ← ok_or CliNoConfig (cli_config cli);
  cfg ← map_err CliConfig (WalletFile.load path fs);
  net ← map_err CliStyxnet (Styxnet.load (wc_styxnet cfg) fs);
  opened ← ok_or CliPanic (Wallet.open_session cfg net n d);
  w ← map_err CliWallet opened;
  Ok (net, w).

(** [run]: [drawn] is the entropy of the two generated keys and of the subscriber's.  Beside
    the result, the session and the relays at the end, when a session was opened. *)
Definition run (cli : Cli) (drawn : bytes * bytes * bytes) (fs : F) (n : N) (d : D) (r : R)
    : result CliError Printed * option (W * R) :=
  let '(owner, funding, ephemeral) := drawn in
  match cli_cmd cli with
  | Keygen => (Ok (PrintKeys owner funding), None)
  | cmd =>
      match open cli fs n d with
      | Err e => (Err e, None)
      | Ok (net, w) =>
          let m := _ ← session Wallet.sync; dispatch net ephemeral cmd in
          let '(x, end_) := m (w, r) in (x, Some end_)
      end
  end.

End Cli.
End Cli.

(** ** What a command of the wallet promises

    Every transaction a command hands to the node is sound, and an operation that takes a
    price runs on a tick of the last few blocks, signed by the deploy's oracles. *)
Import Cli.

Section Commands.
Context `{HL : Lib, XP : XOnlyParse, HS : SigHash, RD : Redeemer, KS : KeySpend, CO : Compiler}.
Context `{OP : OutPointParse, TX : TxCodec} {N D A J : Type}.
Context `{AD : Addresses A, RP : Rpc N, WR : !WalletRpc N J, CK : Clock N}.
Context `{DP : Display, OO : OutPointOrder, JS : Json, DK : Disk D, AP : AssetParse, SK : SecretKey}.
Context {F : Type} `{TK : Toml WalletConfig, TN : Toml StyxnetConfig, FF : Files F}.
Context {R : Type} `{QS : QuoteSerde, CL : Client R}.

Abbreviation W := (Wallet.t N D) (only parsing).

(** ** What is sent *)

Section Triples.
Context (c : Seat).

Abbreviation crun m Φ := (triple (fun x : W * R => in_deploy c x.1) (fun x y => grows x.1 y.1) m Φ) (only parsing).

Lemma crun_then {E X Y} (m : Eff (W * R) E X) (f : X -> Eff (W * R) E Y) :
  crun m (fun _ => True) -> (forall a, crun (f a) (fun _ => True)) -> crun (m ≫= f) (fun _ => True).
Proof.
  intros Hm Hf. eapply triple_bind; [|intros x y; apply grows_deploy|exact Hm|intros a _; apply Hf].
  split; [intros x; reflexivity|intros x y z ??; by etrans].
Qed.
Lemma crun_ret {E X} (a : X) : crun (mret a : Eff _ E _) (fun _ => True).
Proof. intros x _. split; [reflexivity|done]. Qed.
Lemma crun_throw {E X} (e : E) : crun (throw e : Eff _ E X) (fun _ => True).
Proof. intros x _. split; [reflexivity|done]. Qed.
Lemma crun_lift {E X} (a : result E X) : crun (lift a) (fun _ => True).
Proof. intros x _. split; [reflexivity|done]. Qed.
Lemma crun_gets {E X} (f : W * R -> X) : crun (gets f : Eff _ E X) (fun _ => True).
Proof. intros x _. split; [reflexivity|done]. Qed.
Lemma crun_session {X} (m : Eff W WalletError X) Φ :
  triple (in_deploy (N := N) (D := D) c) grows m Φ -> crun (session m) (fun _ => True).
Proof. intros Hm. apply triple_map_error. eapply triple_any, run_session, Hm. Qed.
Lemma crun_relays {X} (m : Eff R TransportError X) : crun (relays m) (fun _ => True).
Proof.
  intros [w r] _. unfold relays, map_error, zoom. cbn [fst snd]. destruct (m r) as [x r']. split; [reflexivity|done].
Qed.
Lemma crun_tip : crun tip (fun _ => True).
Proof.
  intros [w r] _. unfold tip. cbn [fst snd]. destruct (height (Wallet.node w)) as [x n]. split; [|done].
  split; [done..|]. by exists [].
Qed.

Hint Resolve crun_ret crun_throw crun_lift crun_gets crun_relays crun_tip : command.

Lemma crun_walk sub t n h b : crun (tick_walk sub t n h b) (fun _ => True).
Proof.
  revert h b. induction n as [|n IH]; intros h b; cbn [tick_walk]; [auto with command|].
  apply crun_then; [auto with command|]. intros qs. apply crun_then; [auto with command|]. intros b1.
  destruct (QuoteBook.assemble_tick _ _); auto with command.
Qed.

Lemma crun_tick net eph : crun (assemble_tick net eph) (fun _ => True).
Proof.
  unfold assemble_tick. apply crun_then; [auto with command|]. intros authors.
  destruct (_ <? 3)%nat; [auto with command|]. apply crun_then; [auto with command|]. intros sub.
  apply crun_then; [auto with command|]. intros t. apply crun_then; [auto with command|]. intros pks.
  apply crun_walk.
Qed.

Lemma run_fund sats : triple (in_deploy (N := N) (D := D) c) grows (fund sats) (fun _ => True).
Proof. intros w Hw. exact (run_node c _ _ w Hw). Qed.

(** The wallet's operations, at the session. *)
Lemma crun_retried what op :
  triple (in_deploy (N := N) (D := D) c) grows op (fun _ => True) -> crun (session (Ops.retried what op)) (fun _ => True).
Proof. intros Hop. eapply crun_session, run_retried, Hop. Qed.

Lemma crun_status : crun status (fun _ => True).
Proof.
  unfold status. apply crun_then; [auto with command|]. intros w.
  apply crun_then; [eapply crun_session, run_lbtc|]. intros lbtc.
  apply crun_then; [eapply crun_session, run_obol|]. auto with command.
Qed.

Lemma crun_dispatch net eph cmd : crun (dispatch net eph cmd) (fun _ => True).
Proof.
  destruct cmd; cbn [dispatch]; try apply crun_status;
    repeat first [apply crun_tick | solve [auto with command] | apply crun_then; [|intros ?]].
  - eapply crun_session, run_fund.
  - eapply crun_session, run_open.
  - eapply crun_retried, run_repay_once.
  - eapply crun_retried, run_draw_once.
  - eapply crun_retried, run_refresh_once.
  - eapply crun_retried, run_close_once.
  - eapply crun_retried, run_redeem_once.
  - eapply crun_session. destruct lbtc; [apply run_send_lbtc|apply run_send_obol].
Qed.

End Triples.

(** ** The tick *)

(** A tick of the deploy's oracles, at most eight blocks below the tip. *)
Record fresh_tick (pks : list XOnlyPublicKey) (tip : Z) (tick : OracleTick.t) : Prop := {
  ft_signed : tick_signed pks tick;
  ft_priced : check_zero_price tick = Ok tt;
  ft_recent : u32_sat_sub tip TICK_WALKBACK <= BlockHeight.raw (OracleTick.height tick) <= tip
}.

Lemma fetch_typed (sub : NostrQuotes.t) h ms (r r' : R) qs :
  serde_typed -> NostrQuotes.fetch sub h ms r = (Ok qs, r') -> Forall wire_wf qs.
Proof.
  intros Hs Hf. unfold NostrQuotes.fetch in Hf. eff_peel Hf. injection Hf as <- _.
  apply Forall_forall. intros q (e & _ & He%parse_content)%list_elem_of_omap. by eapply Hs.
Qed.

Lemma walk_fresh (sub : NostrQuotes.t) tip n h b (x x' : W * R) tick pks :
  serde_typed -> book_wf b -> QuoteBook.oracle_pks b = pks ->
  tick_walk sub (BlockHeight.new tip) n h b x = (Ok tick, x') ->
  tick_signed pks tick /\ check_zero_price tick = Ok tt /\
  h - Z.of_nat n < BlockHeight.raw (OracleTick.height tick) <= h /\ x'.1 = x.1.
Proof.
  intros Hs. revert h b x. induction n as [|n IH]; intros h b x Hb Hpks Hw; cbn [tick_walk] in Hw; [done|].
  eff_peel_step Hw. eff_peel_step Hw. unfold relays in Hx.
  destruct x as [w r]. unfold zoom in Hx. cbn in Hx.
  destruct (NostrQuotes.fetch _ _ _ r) as [y r1] eqn:Ef. injection Hx as -> <-.
  apply ok_or_ok in Hx0. apply fetch_typed in Ef; [|done].
  apply absorb_wf in Hx0 as [Hb1 Hpks1]; [|done|].
  2:{ apply Forall_fmap. eapply Forall_impl; [exact Ef|]. done. }
  rewrite Hpks in Hpks1. destruct (QuoteBook.assemble_tick _ _) as [t|] eqn:Et.
  - injection Hw as -> <-. apply assemble_signed in Et as (Hh & Hsg & Hz); [|done]. rewrite Hpks1 in Hsg.
    rewrite Hh. split_and!; [done..|cbn; lia|cbn; lia|done].
  - apply IH in Hw as (? & ? & ? & ?); [|done..]. split_and!; [done..|lia|lia|done].
Qed.

Lemma tick_fresh net eph (x x' : W * R) tick :
  serde_typed -> length (oracle_pks (ctx_params (Wallet.ctx x.1))) = 5%nat ->
  assemble_tick net eph x = (Ok tick, x') ->
  exists tip n, height (Wallet.node x.1) = (Ok tip, n) /\ x'.1 = Wallet.with_node x.1 n /\
    (0 <= tip -> fresh_tick (oracle_pks (ctx_params (Wallet.ctx x.1))) tip tick).
Proof.
  intros Hs Hl Ht. unfold assemble_tick in Ht. eff_peel_step Ht. destruct (_ <? 3)%nat; [done|].
  eff_peel_step Ht. eff_peel_step Ht. eff_peel_step Ht.
  destruct x as [w r]. unfold relays, zoom in Hx0. cbn in Hx0.
  destruct (NostrQuotes.subscriber _ _ _ r) as [y r1]. injection Hx0 as -> <-.
  unfold tip in Hx1. cbn in Hx1. destruct (height (Wallet.node w)) as [hr n] eqn:Eh. injection Hx1 as Hhr <-.
  injection Hx2 as <-. apply map_err_ok in Hhr as ->. cbn [fst] in *.
  eapply walk_fresh in Ht as (Hsg & Hz & Hr & Hx'); [|done|by apply new_wf|done]. cbn in Hx'.
  eexists _, n. split; [done|]. split; [done|]. intros Htip. split; [done..|]. revert Hr. unfold TICK_WALKBACK. uint.
Qed.

(** ** The commands *)

(** What a command with a price did with its tick. *)
Definition ran (cmd : Cmd) (tick : OracleTick.t) (w1 w' : W) (rep : OpReport) (label : string) : Prop :=
  match cmd with
  | CmdOpen principal collateral cr => label = "open"%string /\ exists coll,
      match collateral with
      | Some s => coll = Sats.new s
      | None => Ops.collateral_for (Obol.new principal) tick cr = Ok coll
      end /\ Ops.open (Obol.new principal) coll tick w1 = (Ok rep, w')
  | CmdDraw vault amount => label = "draw"%string /\ exists which,
      vault_arg vault = Ok which /\ Ops.draw which (Obol.new amount) tick w1 = (Ok rep, w')
  | CmdRefresh vault => label = "refresh"%string /\ exists which,
      vault_arg vault = Ok which /\ Ops.refresh which tick w1 = (Ok rep, w')
  | CmdRedeem vault x => label = "redeem"%string /\ exists which,
      vault_arg vault = Ok which /\ Ops.redeem which (Obol.new x) tick w1 = (Ok rep, w')
  | _ => False
  end.

Definition takes_tick (cmd : Cmd) : bool :=
  match cmd with CmdOpen _ _ _ | CmdDraw _ _ | CmdRefresh _ | CmdRedeem _ _ => true | _ => false end.

Lemma session_inv {X} (m : Eff W WalletError X) (x x' : W * R) a :
  Ops.session m x = (Ok a, x') -> m x.1 = (Ok a, x'.1).
Proof. unfold Ops.session, zoom. destruct (m x.1) as [y w]. by intros [= -> <-]. Qed.

Lemma dispatch_ran net eph cmd (x x' : W * R) p :
  takes_tick cmd = true -> dispatch net eph cmd x = (Ok p, x') ->
  exists tick x1 rep label, assemble_tick net eph x = (Ok tick, x1) /\
    ran cmd tick x1.1 x'.1 rep label /\ p = print_report label rep.
Proof.
  destruct cmd; cbn [takes_tick dispatch]; try done; intros _ Hd;
    do 3 eff_peel_step Hd; cbn zeta in *; injection Hd as <- <-;
    match goal with H : Ops.session _ _ = _ |- _ => apply session_inv in H end;
    do 4 eexists; (split; [exact Hx|]); (split; [|done]); cbn; (split; [done|]); eexists; (split; [|eassumption]).
  - destruct collateral; [by injection Hx0 as <-|by apply map_err_ok in Hx0].
  - done.
  - done.
  - done.
Qed.

Lemma open_session_of cli fs n d net (w : W) :
  Cli.open cli fs n d = Ok (net, w) ->
  exists path cfg, cli_config cli = Some path /\ WalletFile.load path fs = Ok cfg /\
    Styxnet.load (wc_styxnet cfg) fs = Ok net /\ Wallet.open_session cfg net n d = Some (Ok w).
Proof.
  unfold Cli.open. intros (path & Hp & Ho)%bind_ok. apply bind_ok in Ho as (cfg & Hc & Ho).
  apply bind_ok in Ho as (net' & Hn & Ho). apply bind_ok in Ho as (op & Hop & Ho).
  apply bind_ok in Ho as (w' & Hw & [= -> ->]).
  apply ok_or_ok in Hp, Hop. apply map_err_ok in Hc, Hn, Hw. subst op. by exists path, cfg.
Qed.


End Commands.
