(* ===== verification/Server.v ===== *)
(** * The running application ([start_keeper], [request_keeper_stop] and the router of
      [styx-app/src/api.rs], the tick loop of [main.rs])

    The state of the process around [App.t]: the jobs in flight, the keeper loops and the
    stop flags they share with the control block.  [handle] is one atomic step. *)

From Stdlib Require Import ZArith Lia.
From stdpp Require Import base gmap strings option list.
From S2P Require Import Prelude Hex Units CrMath Elements Oracle Simf Encode Domain Artifacts Jets.
From S2P Require Import CovVault CovReserve CovIssuer Plan BuildOwner Decide Pset Quotes Effects Node.
From S2P Require Import Index Sync Snapshot Config Sockets OracleService Gate Wallet Ops Keeper Api.

(** ** The tick loop

    One pass of [tick_loop] ([main.rs]): from the tip down, the quotes the relays hold for a
    height ([None]: the fetch failed) go into a fresh book, until it makes a tick. *)

Definition TICK_WALKBACK : Z := 8.

Fixpoint tick_walk `{Lib} (fetch : Z -> option (list WireQuote.t)) (tip : BlockHeight.t) (n : nat) (h : Z)
    (b : QuoteBook.t) : option (option OracleTick.t) :=
  match n with
  | O => Some None
  | S n =>
      match fetch h with
      | None => tick_walk fetch tip n (h - 1) b
      | Some quotes =>
          b ← absorb_all b ((fun q => (q, tip)) <$> quotes);
          match QuoteBook.assemble_tick b (BlockHeight.new h) with
          | Some tick => Some (Some tick)
          | None => tick_walk fetch tip n (h - 1) b
          end
      end
  end.

(** [None]: a panic of the book. *)
Definition tick_pass `{Lib} (pks : list XOnlyPublicKey) (fetch : Z -> option (list WireQuote.t)) (tip : Z)
    : option (option OracleTick.t) :=
  tick_walk fetch (BlockHeight.new tip) (Z.to_nat (tip - u32_sat_sub tip TICK_WALKBACK + 1)) tip
    (QuoteBook.new pks).

Module Server.

(** A keeper loop: its flag, and its keeper once the spawned closure has made one.  The
    keeper's purse is the shared wallet, put in at each use. *)
Record Loop (N D : Type) : Type := mkLoop { lp_flag : nat; lp_keeper : option (Keeper.t N D) }.
Arguments mkLoop {N D} _ _.
Arguments lp_flag {N D} _.
Arguments lp_keeper {N D} _.

Record t (N D : Type) : Type := mk {
  app : App.t N D;
  flags : gmap nat bool;
  next_flag : nat;
  jobs : list Job;
  loops : list (Loop N D)
}.
Arguments mk {N D} _ _ _ _ _.
Arguments app {N D} _.
Arguments flags {N D} _.
Arguments next_flag {N D} _.
Arguments jobs {N D} _.
Arguments loops {N D} _.

(** What a keeper runs under one guard of the shared wallet; what lies between two sections
    only reads the wallet. *)
Inductive KeeperSection : Type :=
| SecSync
| SecPartial (vault : OutPoint) (v : OnChain VaultState) (tick : OracleTick.t) (lag : Z)
| SecFullLiq (v : OnChain VaultState) (tick : OracleTick.t)
| SecBadDebt (v : OnChain VaultState) (tick : OracleTick.t)
| SecRefresh (v : OnChain VaultState) (tick : OracleTick.t)
| SecPoke (tick : OracleTick.t).

Section Server.
Context `{Lib, XOnlyParse, SigHash, Redeemer, KeySpend, TxSize, OutPointParse}.
Context {N D : Type} `{Rpc N, Display, OutPointOrder, Json, Disk D}.

Definition with_app (a : App.t N D) (s : t N D) : t N D :=
  mk a (flags s) (next_flag s) (jobs s) (loops s).
Definition with_jobs (l : list Job) (s : t N D) : t N D :=
  mk (app s) (flags s) (next_flag s) l (loops s).
Definition with_loops (l : list (Loop N D)) (s : t N D) : t N D :=
  mk (app s) (flags s) (next_flag s) (jobs s) l.

Definition boot (w : Wallet.t N D) (opts : KeeperOpts) : t N D := mk (App.new w opts) ∅ 0 [] [].

Definition is_running (m : KeeperMode) : bool := match m with KRunning => true | _ => false end.

Definition start_keeper (s : t N D) : result ApiError (t N D) :=
  if is_running (App.mode (app s)) then Err (ABadRequest "the keeper is already running") else
  let f := next_flag s in
  Ok (mk (App.with_ctl KRunning (Some f) (app s)) (<[f := false]> (flags s)) (S f) (jobs s)
        (loops s ++ [mkLoop f None])).

Definition request_keeper_stop (s : t N D) : string * t N D :=
  match App.mode (app s), App.stop (app s) with
  | KRunning, Some f =>
      ("stopping"%string, mk (app s) (<[f := true]> (flags s)) (next_flag s) (jobs s) (loops s))
  | KAlert _, f => ("idle"%string, with_app (App.with_ctl KIdle f (app s)) s)
  | _, _ => ("idle"%string, s)
  end.

(** ** The loop *)

Definition without (f : nat) (l : list (Loop N D)) : list (Loop N D) := filter (fun x => lp_flag x <> f) l.
Definition find_loop (f : nat) (s : t N D) : option (Loop N D) :=
  find (fun x => bool_decide (lp_flag x = f)) (loops s).

(** [Keeper::new] on the shared wallet. *)
Definition begin_loop (f : nat) (s : t N D) : t N D :=
  let k := Keeper.new (App.wallet (app s)) (App.keeper_opts (app s)) in
  with_app (App.emit "keeper" (DText "started") (app s))
    (with_loops ((fun x => if bool_decide (lp_flag x = f) then mkLoop f (Some k) else x) <$> loops s) s).

(** The loop has seen its flag. *)
Definition end_loop (f : nat) (s : t N D) : t N D :=
  with_loops (without f (loops s))
    (with_app (App.emit "keeper" (DText "stopped") (App.with_ctl KIdle None (app s))) s).

(** What the loop makes of a step's outcome, and the keeper it goes on with. *)
Definition after_step (f : nat) (k : Keeper.t N D) (r : result KeeperError (option Performed))
    (s : t N D) : t N D :=
  let s := with_loops
    ((fun x => if bool_decide (lp_flag x = f) then mkLoop f (Some k) else x) <$> loops s) s in
  match r with
  | Ok (Some done) => with_app (App.emit "performed" (DPerformed done) (app s)) s
  | Ok None => s
  | Err (KRejected what message as e) =>
      with_loops (without f (loops s))
        (with_app (App.with_ctl (KAlert e) None (App.emit "rejected" (DKeeper e) (app s))) s)
  | Err e => with_app (App.emit "keeper_error" (DKeeper e) (app s)) s
  end.

(** One pass of the loop, its sections uninterrupted. *)
Definition turn (f : nat) (k : Keeper.t N D) (now : Z) (s : t N D) : t N D :=
  if bool_decide (flags s !! f = Some true) then end_loop f s else
  match App.tick now (app s) with
  | None => s
  | Some tick =>
      let '(r, k') := Keeper.step tick (Keeper.with_purse (App.wallet (app s)) k) in
      after_step f k' r (with_app (App.with_wallet (Keeper.purse k') (app s)) s)
  end.

Definition section (x : KeeperSection) : Eff (Wallet.t N D) WalletError unit :=
  match x with
  | SecSync => _ ← Wallet.sync; mret tt
  | SecPartial vault v tick lag => _ ← Keeper.partial_section vault v tick lag; mret tt
  | SecFullLiq v tick => _ ← Keeper.full_liq_section v tick; mret tt
  | SecBadDebt v tick => _ ← Keeper.bad_debt_section v tick; mret tt
  | SecRefresh v tick => _ ← Keeper.refresh_section v tick; mret tt
  | SecPoke tick => _ ← Keeper.poke_section tick; mret tt
  end.

(** ** Events *)

Inductive Event : Type :=
| EvRequest (headers : string -> option bytes) (r : Request) (now : Z)
| EvJob (i : nat)
| EvTick (tick : OracleTick.t) (now : Z)
| EvBegin (f : nat)
| EvTurn (f : nat) (now : Z)
| EvSection (f : nat) (x : KeeperSection)
| EvStepped (f : nat) (k : Keeper.t N D) (r : result KeeperError (option Performed)).

(** A request past the gate. *)
Definition route (r : Request) (now : Z) (s : t N D) : t N D :=
  match r with
  | RKeeperStart => match start_keeper s with Ok s' => s' | Err _ => s end
  | RKeeperStop => (request_keeper_stop s).2
  | _ =>
      match App.accept r now (app s) with
      | Ok (Some j) => with_jobs (jobs s ++ [j]) s
      | _ => s
      end
  end.

(** The [i]-th job runs its next section. *)
Definition advance (i : nat) (s : t N D) : t N D :=
  match jobs s !! i with
  | None => s
  | Some j =>
      let '(r, a) := App.run_job j (app s) in
      let rest := delete i (jobs s) in
      with_app a (with_jobs (match r with Ok (inr j') => rest ++ [j'] | _ => rest end) s)
  end.

Definition handle (g : Gate.t) (s : t N D) (e : Event) : t N D :=
  match e with
  | EvRequest headers r now =>
      match Gate.check g headers with Ok _ => route r now s | Err _ => s end
  | EvJob i => advance i s
  | EvTick tick now =>
      with_app (App.emit "tick" (DHeight (BlockHeight.raw (OracleTick.height tick)))
                  (App.set_tick tick now (app s))) s
  | EvBegin f =>
      match find_loop f s with Some (mkLoop _ None) => begin_loop f s | _ => s end
  | EvTurn f now =>
      match find_loop f s with Some (mkLoop _ (Some k)) => turn f k now s | _ => s end
  | EvSection f x =>
      match find_loop f s with
      | Some (mkLoop _ (Some k)) =>
          with_app (App.with_wallet (section x (App.wallet (app s))).2 (app s)) s
      | _ => s
      end
  | EvStepped f k r =>
      match find_loop f s with
      | Some (mkLoop _ (Some _)) => after_step f k r s
      | _ => s
      end
  end.

Definition run (g : Gate.t) (s : t N D) (es : list Event) : t N D := foldl (handle g) s es.

End Server.
End Server.
