(* ===== verification/ApiSpec.v ===== *)
(** * What the application promises

    Over any interleaving of requests, jobs and keeper loops: nothing unsound is handed to
    the node and the queue of exported plans stays bounded; at most one keeper loop exists
    and a stop request ends it; an exported plan comes back as the transaction that signing
    in process would have sent. *)

From Stdlib Require Import ZArith Lia.
From stdpp Require Import base gmap strings option list.
From S2P Require Import Prelude Hex Units CrMath Elements Oracle Simf Encode Domain Artifacts Jets.
From S2P Require Import CovVault CovReserve CovIssuer Plan BuildOwner BuildKeeper Accept CovLemmas.
From S2P Require Import CovAccept Sound Decide Pset Quotes Effects Node Index Sync Snapshot Config.
From S2P Require Import Sockets OracleService Gate Wallet Ops WalletSpec OpsSpec Keeper KeeperSpec.
From S2P Require Import Api Server.

(** ** The tick loop *)

(** What the tick loop injects is signed by the deploy's oracles. *)
Lemma tick_walk_signed `{Lib} pks fetch tip n h b t :
  book_wf b -> QuoteBook.oracle_pks b = pks -> (forall h qs, fetch h = Some qs -> Forall wire_wf qs) ->
  tick_walk fetch tip n h b = Some (Some t) -> tick_signed pks t /\ check_zero_price t = Ok tt.
Proof.
  intros Hb Hpks Hf. revert h b Hb Hpks. induction n as [|n IH]; intros h b Hb Hpks Hw; cbn in Hw; [done|].
  destruct (fetch h) as [qs|] eqn:Eq; [|by eapply IH].
  apply bind_Some in Hw as (b1 & Ha & Hw). apply absorb_wf in Ha as [Hb1 Hpks1]; [|done|].
  - rewrite Hpks in Hpks1. destruct (QuoteBook.assemble_tick _ _) as [t'|] eqn:Et; [|by eapply IH].
    injection Hw as ->. apply assemble_signed in Et as (_ & Hs & Hz); [|done]. by rewrite Hpks1 in Hs.
  - apply Forall_fmap. eapply Forall_impl; [by apply (Hf h)|]. done.
Qed.

Lemma tick_pass_signed `{Lib} pks fetch tip t :
  length pks = 5%nat -> (forall h qs, fetch h = Some qs -> Forall wire_wf qs) ->
  tick_pass pks fetch tip = Some (Some t) -> tick_signed pks t /\ check_zero_price t = Ok tt.
Proof. intros Hp Hf. apply tick_walk_signed; [by apply new_wf|done|done]. Qed.

(** ** The queue of exported plans *)

(** What may happen to the queue while an export waits. *)
Inductive QueueOp : Type := QStash (txid : bytes) (plan : TxPlan) | QDrop (txid : bytes).
Definition queue_op (q : list (bytes * TxPlan)) (o : QueueOp) : list (bytes * TxPlan) :=
  match o with QStash txid plan => stash_pending txid plan q | QDrop txid => drop_pending txid q end.
Definition op_key (o : QueueOp) : bytes := match o with QStash txid _ | QDrop txid => txid end.
Fixpoint stashes (ops : list QueueOp) : nat :=
  match ops with [] => 0 | QStash _ _ :: ops => S (stashes ops) | QDrop _ :: ops => stashes ops end.

(** An entry with at most [n] entries after it, the first under its key. *)
Definition held (txid : bytes) (plan : TxPlan) (n : nat) (q : list (bytes * TxPlan)) : Prop :=
  exists front back, q = front ++ (txid, plan) :: back /\ txid ∉ (fst <$> front) /\ (length back <= n)%nat.

Lemma held_stashed txid plan q : held txid plan 0 (stash_pending txid plan q).
Proof.
  unfold stash_pending. set (q' := drop_pending txid q).
  exists (drop (length (q' ++ [(txid, plan)]) - PENDING_CAP) q'), []. split_and!; [| |done].
  - apply drop_app_le. rewrite length_app. unfold PENDING_CAP. cbn. lia.
  - intros ([k pl] & -> & Hin)%list_elem_of_fmap.
    assert (Hin' : (k, pl) ∈ q') by (by eapply elem_of_submseteq, sublist_submseteq, sublist_drop).
    by apply list_elem_of_filter in Hin' as [? _].
Qed.

Lemma held_drop txid plan n key q : key <> txid -> held txid plan n q -> held txid plan n (drop_pending key q).
Proof.
  intros Hne (front & back & -> & Hf & Hb). exists (drop_pending key front), (drop_pending key back).
  unfold drop_pending. rewrite filter_app, filter_cons_True by (cbn; congruence). split_and!; [done| |].
  - intros ([k pl] & -> & [_ Hin]%list_elem_of_filter)%list_elem_of_fmap. apply Hf.
    apply list_elem_of_fmap. by exists (k, pl).
  - etrans; [apply length_filter|done].
Qed.

Lemma held_op txid plan n o q :
  op_key o <> txid -> (n < PENDING_CAP - 1)%nat -> held txid plan n q ->
  held txid plan (match o with QStash _ _ => S n | QDrop _ => n end) (queue_op q o).
Proof.
  intros Hk Hn Hh. destruct o as [key pl|key]; cbn [queue_op op_key] in *; [|by apply held_drop].
  apply (held_drop _ _ _ key) in Hh as (front & back & E & Hf & Hb); [|done]. unfold stash_pending.
  rewrite E. set (m := (length _ - PENDING_CAP)%nat).
  assert (Hm : (m <= length front)%nat).
  { unfold m. rewrite !length_app. cbn [length]. unfold PENDING_CAP in *. lia. }
  exists (drop m front), (back ++ [(key, pl)]). split_and!.
  - rewrite <- app_assoc. cbn [app]. by rewrite drop_app_le.
  - intros Hin. apply Hf. rewrite fmap_drop in Hin. by eapply elem_of_submseteq, sublist_submseteq, sublist_drop.
  - rewrite length_app. cbn [length]. lia.
Qed.

Lemma held_ops txid plan n ops q :
  Forall (fun o => op_key o <> txid) ops -> (n + stashes ops < PENDING_CAP)%nat -> held txid plan n q ->
  held txid plan (n + stashes ops) (foldl queue_op q ops).
Proof.
  revert n q. induction ops as [|o ops IH]; intros n q Hk Hn Hh; cbn [foldl].
  { cbn. by rewrite Nat.add_0_r. }
  apply Forall_cons in Hk as [Ho Hk]. destruct o as [key pl|key]; cbn [stashes] in *.
  - rewrite <- Nat.add_succ_comm in *.
    apply IH; [done|done|]. apply (held_op _ _ n (QStash key pl)); [done|lia|done].
  - apply IH; [done|done|].
    by apply (held_drop _ _ n key).
Qed.

Lemma held_taken txid plan n q : held txid plan n q -> take_pending txid q = Some plan.
Proof.
  intros (front & back & -> & Hf & _). unfold take_pending. induction front as [|[k pl] front IH]; cbn.
  - by rewrite bool_decide_true.
  - rewrite fmap_cons in Hf. apply not_elem_of_cons in Hf as [Hk Hf].
    rewrite bool_decide_false by (cbn in *; congruence). by apply IH.
Qed.

Section Queue.
Context `{HL : Lib, XP : XOnlyParse, HS : SigHash, RD : Redeemer, KS : KeySpend}.
Context (c : Seat).

Record queue_ok (q : list (bytes * TxPlan)) : Prop := {
  qo_bounded : (length q <= PENDING_CAP)%nat;
  qo_keys : NoDup (fst <$> q);
  qo_plans : Forall (fun x => authorized c x.2) q
}.

Lemma queue_ok_nil : queue_ok [].
Proof. split; [unfold PENDING_CAP; cbn; lia|apply NoDup_nil_2|constructor]. Qed.

Lemma Forall_sublist {B} (P : B -> Prop) (l l' : list B) : Forall P l -> l' `sublist_of` l -> Forall P l'.
Proof.
  rewrite !Forall_forall. intros Hl Hs x Hx. apply Hl.
  by eapply elem_of_submseteq, sublist_submseteq.
Qed.

Lemma drop_pending_sublist txid (q : list (bytes * TxPlan)) : drop_pending txid q `sublist_of` q.
Proof. apply sublist_filter. Qed.

Lemma queue_ok_sublist q q' : q' `sublist_of` q -> queue_ok q -> queue_ok q'.
Proof.
  intros Hs [Hb Hk Hp]. split.
  - apply sublist_length in Hs. lia.
  - eapply sublist_NoDup; [done|by apply fmap_sublist].
  - by eapply Forall_sublist.
Qed.

Lemma drop_pending_fresh txid (q : list (bytes * TxPlan)) : txid ∉ (fst <$> drop_pending txid q).
Proof. intros ([k pl] & -> & [Hne _]%list_elem_of_filter)%list_elem_of_fmap. done. Qed.

Lemma queue_ok_stash txid plan q : queue_ok q -> authorized c plan -> queue_ok (stash_pending txid plan q).
Proof.
  intros Hq Ha. unfold stash_pending.
  destruct (queue_ok_sublist _ _ (drop_pending_sublist txid q) Hq) as [Hb Hk Hp].
  set (q' := drop_pending txid q ++ [(txid, plan)]). split.
  - rewrite length_drop. lia.
  - rewrite fmap_drop. eapply sublist_NoDup; [|apply sublist_drop]. unfold q'. rewrite fmap_app.
    apply NoDup_app. split_and!; [done| |apply NoDup_singleton].
    intros k Hin ->%list_elem_of_singleton. by apply drop_pending_fresh in Hin.
  - apply Forall_drop, Forall_app. split; [done|]. by apply Forall_singleton.
Qed.

Lemma take_pending_in txid (q : list (bytes * TxPlan)) plan : take_pending txid q = Some plan -> (txid, plan) ∈ q.
Proof.
  unfold take_pending. intros ([k pl] & Hf & ->)%fmap_Some.
  apply List.find_some in Hf as [Hin Hk]. apply bool_decide_eq_true in Hk. cbn in Hk. subst k.
  by apply list_elem_of_In.
Qed.

End Queue.

(** ** Jobs *)

Section Serving.
Context `{HL : Lib, XP : XOnlyParse, HS : SigHash, RD : Redeemer, KS : KeySpend, TS : TxSize}.
Context `{OP : OutPointParse}.
Context {N D : Type} `{RP : Rpc N, DP : Display, OO : OutPointOrder, JS : Json, DK : Disk D}.

Abbreviation W := (Wallet.t N D) (only parsing).
Abbreviation A := (App.t N D) (only parsing).

Section Triples.
Context (c : Seat).

Record app_ok (s : A) : Prop := {
  ao_deploy : in_deploy c (App.wallet s);
  ao_queue : queue_ok c (App.pending s)
}.

(** The wallet grows, and the queue stays in order. *)
Definition moves (s s' : A) : Prop :=
  grows (App.wallet s) (App.wallet s') /\ (queue_ok c (App.pending s) -> queue_ok c (App.pending s')).
(** A job, moreover, leaves the keeper's controls alone. *)
Definition serves (s s' : A) : Prop :=
  moves s s' /\ App.mode s' = App.mode s /\ App.stop s' = App.stop s.

#[export] Instance moves_preorder : PreOrder moves.
Proof. split; [by intros s|]. intros s1 s2 s3 [] []. split; [by etrans|auto]. Qed.
#[export] Instance serves_preorder : PreOrder serves.
Proof. split; [by intros s|]. intros s1 s2 s3 (? & ? & ?) (? & ? & ?). split_and!; [by etrans|congruence..]. Qed.

Lemma moves_ok s s' : app_ok s -> moves s s' -> app_ok s'.
Proof. intros [Hd Hq] [Hg Hq']. split; [by eapply grows_deploy|auto]. Qed.
Lemma serves_ok s s' : app_ok s -> serves s s' -> app_ok s'.
Proof. intros Hs [Hm _]. by eapply moves_ok. Qed.

Abbreviation run m Φ := (triple (in_deploy (N := N) (D := D) c) grows m Φ) (only parsing).
Abbreviation arun m Φ := (triple app_ok serves m Φ) (only parsing).

Lemma arun_bind {E B C} (m : Eff A E B) (f : B -> Eff A E C) Φ Ψ :
  arun m Φ -> (forall a, Φ a -> arun (f a) Ψ) -> arun (m ≫= f) Ψ.
Proof. apply triple_bind; [apply _|apply serves_ok]. Qed.
Lemma arun_then {E B C} (m : Eff A E B) (f : B -> Eff A E C) Ψ :
  arun m (fun _ => True) -> (forall a, arun (f a) Ψ) -> arun (m ≫= f) Ψ.
Proof. intros Hm Hf. eapply arun_bind; [exact Hm|]. intros a _. apply Hf. Qed.
Lemma arun_zoom {E B} (m : Eff W E B) Φ : run m Φ -> arun (zoom App.wallet App.with_wallet m) Φ.
Proof. intros Hm. eapply triple_zoom; [exact Hm|by intros s []|]. intros s w _ Hg. by split. Qed.
Lemma arun_locked {B} (m : Eff W WalletError B) Φ : run m Φ -> arun (App.locked m) Φ.
Proof. intros Hm. by apply triple_map_error, arun_zoom. Qed.
Lemma arun_ret {E B} (a : B) : arun (mret a : Eff A E B) (fun _ => True).
Proof. by apply triple_ret; [apply _|]. Qed.
Lemma arun_throw {E B} (e : E) (Φ : B -> Prop) : arun (throw e) Φ.
Proof. apply triple_throw. apply _. Qed.
Lemma arun_lift {E B} (r : result E B) (Φ : B -> Prop) :
  (forall a, r = Ok a -> Φ a) -> arun (lift r : Eff A E B) Φ.
Proof. by apply triple_lift, _. Qed.
Lemma arun_gets {E} : arun (gets id : Eff A E A) app_ok.
Proof. by apply triple_gets; [apply _|]. Qed.
Lemma arun_emit {E} kind d : arun (update (App.emit kind d) : Eff A E unit) (fun _ => True).
Proof. by apply triple_update. Qed.
Lemma arun_drop {E} txid :
  arun (update (fun s => App.with_pending (drop_pending txid (App.pending s)) s) : Eff A E unit) (fun _ => True).
Proof.
  apply triple_update; [|done]. intros s _. split; [|done].
  split; [reflexivity|]. apply queue_ok_sublist, drop_pending_sublist.
Qed.
Lemma arun_stash {E} txid plan :
  authorized c plan ->
  arun (update (fun s => App.with_pending (stash_pending txid plan (App.pending s)) s) : Eff A E unit)
    (fun _ => True).
Proof.
  intros Ha. apply triple_update; [|done]. intros s _. split; [|done].
  split; [reflexivity|]. intros Hq.
  by apply queue_ok_stash.
Qed.
Lemma arun_fmap {E B C} (f : B -> C) (m : Eff A E B) (Φ : C -> Prop) :
  arun m (fun b => Φ (f b)) -> arun (f <$> m) Φ.
Proof. apply triple_fmap. Qed.

Create HintDb serving.
#[local] Hint Resolve arun_ret arun_throw arun_emit arun_drop arun_locked arun_zoom : serving.

Lemma run_app_op o : run (App.app_op o) (fun _ => True).
Proof.
  destruct o; cbn [App.app_op].
  - apply run_open.
  - apply run_retried, run_repay_once.
  - apply run_retried, run_draw_once.
  - apply run_retried, run_refresh_once.
  - apply run_retried, run_close_once.
  - apply run_retried, run_redeem_once.
Qed.

Lemma arun_status keeper tick : arun (App.status_job keeper tick) (fun _ => True).
Proof.
  apply arun_then.
  - apply arun_locked. apply run_then; [apply run_sync|]. intros _.
    apply run_then; [by apply run_gets_any|]. intros w.
    apply run_then; [apply run_lbtc|]. intros lbtc. apply run_then; [apply run_obol|]. intros obol.
    apply run_ret_any.
  - intros st. apply arun_then; auto with serving.
Qed.

Lemma arun_op kind o : arun (App.op_job kind o) (fun _ => True).
Proof.
  eapply arun_bind.
  - apply triple_try, arun_zoom. apply run_then; [apply run_sync|intros _; apply run_app_op].
  - intros [report|e] _; apply arun_then; auto with serving.
Qed.

(** A plan without the owner's signature comes from a checked builder. *)
Lemma run_unsigned {B} (m : Eff W WalletError (Built B)) :
  run m (fun b => authorized c (plan b)) ->
  run (_ ← Wallet.sync; b ← m; mret (plan b)) (authorized c).
Proof.
  intros Hm. apply run_then; [apply run_sync|]. intros _. eapply ops_bind; [exact Hm|].
  intros b Hb. apply triple_ret; [apply _|done].
Qed.

Lemma arun_unsigned op which tick amount :
  arun (App.unsigned_plan op which tick amount) (authorized c).
Proof.
  unfold App.unsigned_plan. case_bool_decide; [apply arun_locked, run_unsigned, run_close_plan|].
  case_bool_decide.
  { eapply arun_bind; [by apply (arun_lift _ (fun _ => True))|]. intros a _.
    apply arun_locked, run_unsigned, run_repay_plan. }
  case_bool_decide; [|apply arun_throw].
  eapply arun_bind; [by apply (arun_lift _ (fun _ => True))|]. intros t _.
  eapply arun_bind; [by apply (arun_lift _ (fun _ => True))|]. intros a _.
  apply arun_locked, run_unsigned, run_draw_plan.
Qed.

Lemma arun_export op which tick amount : arun (App.export_job op which tick amount) (fun _ => True).
Proof.
  eapply arun_bind; [apply arun_unsigned|]. intros pl Hpl. eapply arun_bind; [apply arun_gets|].
  intros s _. eapply arun_bind; [by apply (arun_lift _ (fun _ => True))|]. intros rq _.
  apply arun_then; [by apply arun_stash|]. intros _. apply arun_then; auto with serving.
Qed.

Lemma arun_apply txid sig plan : authorized c plan -> arun (App.apply_job txid sig plan) (fun _ => True).
Proof.
  intros Ha. eapply arun_bind; [apply arun_gets|]. intros s _.
  eapply arun_bind; [apply (arun_lift _ (authorized c))|].
  { intros pl Hpl%map_err_ok. apply apply_owner_sig_safe in Hpl as (o & d & sg & _ & _ & _ & _ & -> & _).
    by apply auth_signed. }
  intros pl Hpl. eapply arun_bind; [by apply triple_try, arun_zoom, run_sign_and_broadcast|].
  intros [t|e] _.
  - apply arun_then; [auto with serving|]. intros _. apply arun_then; auto with serving.
  - destruct e as [| | | | | | | | |[]| | | | | | | | | | | | |]; try apply arun_throw.
    apply arun_then; auto with serving.
Qed.

(** A job in flight holds only authorized plans. *)
Definition job_ok (j : Job) : Prop := match j with JApplying _ _ plan => authorized c plan | _ => True end.

Lemma accept_job r now (s : A) j : App.accept r now s = Ok (Some j) -> job_ok j.
Proof.
  destruct r; cbn [App.accept]; intros Ha; try (by injection Ha as <-);
    try (repeat (apply bind_ok in Ha as (? & _ & Ha)); injection Ha as <-; done); try done.
  - destruct (App.accept_open _ _ _ _ _) as [j'|] eqn:E; [|done]. injection Ha as <-.
    unfold App.accept_open in E. apply bind_ok in E as (t & _ & E). apply bind_ok in E as (x & _ & E).
    by injection E as <-.
  - destruct (App.accept_export _ _ _ _ _) as [j'|] eqn:E; [|done]. injection Ha as <-.
    unfold App.accept_export in E. apply bind_ok in E as (w & _ & E). apply bind_ok in E as (t & _ & E).
    by injection E as <-.
Qed.

Lemma arun_job j : job_ok j ->
  arun (App.run_job j) (fun x => match x with inr j' => job_ok j' | inl _ => True end).
Proof.
  intros Hj. destruct j; cbn [App.run_job].
  - apply arun_fmap, arun_status.
  - apply arun_fmap, arun_op.
  - apply arun_fmap, arun_export.
  - intros s [_ Hq]. split; [reflexivity|]. cbn. unfold App.take_job. intros x Hx.
    apply bind_ok in Hx as (j & Hj' & [= <-]). apply bind_ok in Hj' as (pl & Hp%ok_or_ok & [= <-]).
    apply take_pending_in in Hp. destruct Hq as [_ _ Hf]. rewrite Forall_forall in Hf.
    by apply (Hf (txid, pl)).
  - by apply arun_fmap, arun_apply.
Qed.

Lemma run_section x : run (Server.section x) (fun _ => True).
Proof.
  destruct x; cbn [Server.section]; (apply run_then; [|intros ?; apply run_ret_any]).
  - apply run_sync.
  - apply run_partial_section.
  - apply run_full_liq_section.
  - apply run_bad_debt_section.
  - apply run_refresh_section.
  - apply run_poke_section.
Qed.

(** ** Events *)

Abbreviation S := (Server.t N D) (only parsing).

Definition server_ok (s : S) : Prop := app_ok (Server.app s) /\ Forall job_ok (Server.jobs s).
Definition progress (s s' : S) : Prop :=
  moves (Server.app s) (Server.app s') /\ Forall job_ok (Server.jobs s').

Lemma progress_same (s s' : S) :
  Forall job_ok (Server.jobs s) -> Server.jobs s' = Server.jobs s ->
  App.wallet (Server.app s') = App.wallet (Server.app s) ->
  App.pending (Server.app s') = App.pending (Server.app s) -> progress s s'.
Proof. intros Hj Ej Ew Eq. unfold progress, moves. rewrite Ej, Ew, Eq. split; [by split|done]. Qed.

Lemma progress_after_step f k r (s0 s : S) :
  progress s0 s -> progress s0 (Server.after_step f k r s).
Proof.
  intros [[Hg Hq] Hj].
  assert (Hs : forall s' : S, Server.jobs s' = Server.jobs s ->
    App.wallet (Server.app s') = App.wallet (Server.app s) ->
    App.pending (Server.app s') = App.pending (Server.app s) -> progress s0 s').
  { intros s' Ej Ew Eq. unfold progress, moves. by rewrite Ej, Ew, Eq. }
  unfold Server.after_step. destruct r as [[p|]|[]]; by apply Hs.
Qed.

Lemma progress_advance i (s : S) : server_ok s -> progress s (Server.advance i s).
Proof.
  intros [Ha Hj]. unfold Server.advance. destruct (Server.jobs s !! i) as [j|] eqn:Ei; [|by apply progress_same].
  assert (Hji : job_ok j) by (by eapply Forall_lookup_1 in Ei).
  destruct (arun_job j Hji (Server.app s) Ha) as [Hs Hr].
  destruct (App.run_job j (Server.app s)) as [r a]. cbn in Hs, Hr. split; [apply Hs|]. cbn.
  assert (Hd : Forall job_ok (delete i (Server.jobs s))) by (eapply Forall_sublist; [done|apply sublist_delete]).
  destruct r as [[b|j']|e]; [done| |done]. apply Forall_app. split; [done|].
  apply Forall_singleton. exact (Hr (inr j') eq_refl).
Qed.

Lemma progress_route r now (s : S) : server_ok s -> progress s (Server.route r now s).
Proof.
  intros [Ha Hj].
  assert (Hjob : forall r,
    progress s (match App.accept r now (Server.app s) with
                | Ok (Some j) => Server.with_jobs (Server.jobs s ++ [j]) s
                | _ => s
                end)).
  { intros r'. destruct (App.accept r' now (Server.app s)) as [[j|]|e] eqn:E; try by apply progress_same.
    split; [reflexivity|]. cbn. apply Forall_app. split; [done|]. apply Forall_singleton. by eapply accept_job. }
  destruct r eqn:Er; cbn [Server.route]; try (rewrite <- Er; exact (Hjob r)).
  - unfold Server.start_keeper. destruct (Server.is_running (App.mode (Server.app s))); by apply progress_same.
  - unfold Server.request_keeper_stop. destruct (App.mode (Server.app s)), (App.stop (Server.app s)); by apply progress_same.
Qed.

Lemma progress_turn f k now (s : S) : server_ok s -> progress s (Server.turn f k now s).
Proof.
  intros [Ha Hj]. unfold Server.turn. case_bool_decide; [by apply progress_same|].
  destruct (App.tick now (Server.app s)) as [tick|]; [|by apply progress_same].
  destruct (krun_step c tick (Keeper.with_purse (App.wallet (Server.app s)) k)) as [[Hg _] _].
  { apply Ha. }
  destruct (Keeper.step _ _) as [r k']. apply progress_after_step. by split.
Qed.

Lemma progress_handle g e (s : S) : server_ok s -> progress s (Server.handle g s e).
Proof.
  intros Hs. pose proof Hs as [Ha Hj]. destruct e; cbn [Server.handle].
  - destruct (Gate.check g headers); [by apply progress_route|by apply progress_same].
  - by apply progress_advance.
  - by apply progress_same.
  - destruct (Server.find_loop f s) as [[? [k|]]|]; by apply progress_same.
  - destruct (Server.find_loop f s) as [[? [k|]]|]; [by apply progress_turn|by apply progress_same..].
  - destruct (Server.find_loop f s) as [[? [k|]]|]; [|by apply progress_same..].
    destruct (run_section x (App.wallet (Server.app s))) as [Hg _]; [apply Ha|]. by split.
  - destruct (Server.find_loop f s) as [[? [k'|]]|]; [|by apply progress_same..].
    apply progress_after_step. by apply progress_same.
Qed.

Lemma progress_run g es (s : S) : server_ok s -> progress s (Server.run g s es).
Proof.
  revert s. induction es as [|e es IH]; intros s Hs; cbn [Server.run foldl].
  { destruct Hs. by apply progress_same. }
  destruct (progress_handle g e s Hs) as [H1 Hj1].
  assert (Hs1 : server_ok (Server.handle g s e)) by (split; [eapply moves_ok; [apply Hs|done]|done]).
  destruct (IH _ Hs1) as [H2 Hj2]. split; [|done]. by etrans.
Qed.

End Triples.


(** ** The keeper's controls *)

(** At most one loop lives: the one the controls know, exactly while the mode is running. *)
Record controlled (s : Server.t N D) : Prop := {
  ct_mode : match Server.loops s with
            | [] => App.mode (Server.app s) <> KRunning
            | [l] => App.mode (Server.app s) = KRunning /\
                     App.stop (Server.app s) = Some (Server.lp_flag l)
            | _ => False
            end;
  ct_flags l : l ∈ Server.loops s -> is_Some (Server.flags s !! Server.lp_flag l);
  ct_next f : is_Some (Server.flags s !! f) -> (f < Server.next_flag s)%nat
}.

Lemma controlled_boot (w : W) opts : controlled (Server.boot w opts).
Proof. split; [done|by intros l ?%not_elem_of_nil|]. intros f [b Hb]. cbn in Hb. by rewrite lookup_empty in Hb. Qed.

(** What keeps loops, flags and controls keeps the invariant. *)
Lemma controlled_same (s s' : Server.t N D) :
  Server.lp_flag <$> Server.loops s' = Server.lp_flag <$> Server.loops s ->
  Server.flags s' = Server.flags s -> Server.next_flag s' = Server.next_flag s ->
  App.mode (Server.app s') = App.mode (Server.app s) ->
  App.stop (Server.app s') = App.stop (Server.app s) -> controlled s -> controlled s'.
Proof.
  intros El Ef En Em Es [H1 H2 H3]. split.
  - rewrite Em, Es. destruct (Server.loops s) as [|l [|]], (Server.loops s') as [|l' [|]]; try done.
    injection El as El. by rewrite El.
  - intros l Hl. rewrite Ef. assert (Hf : Server.lp_flag l ∈ Server.lp_flag <$> Server.loops s).
    { rewrite <- El. by apply list_elem_of_fmap_2. }
    apply list_elem_of_fmap in Hf as (l0 & -> & Hl0). auto.
  - intros f. rewrite Ef, En. auto.
Qed.

(** The end of the only loop. *)
Lemma controlled_ended (s s' : Server.t N D) :
  Server.loops s' = [] -> Server.flags s' = Server.flags s -> Server.next_flag s' = Server.next_flag s ->
  App.mode (Server.app s') <> KRunning -> controlled s -> controlled s'.
Proof.
  intros El Ef En Em [H1 H2 H3]. split.
  - by rewrite El.
  - intros l. rewrite El. by intros ?%not_elem_of_nil.
  - intros f. rewrite Ef, En. auto.
Qed.

Lemma find_loop_only f l (s : Server.t N D) :
  controlled s -> Server.find_loop f s = Some l -> Server.loops s = [l] /\ Server.lp_flag l = f.
Proof.
  intros [Hm _ _] Hf. unfold Server.find_loop in Hf. destruct (Server.loops s) as [|l0 [|]]; try done.
  cbn in Hf. case_bool_decide; [|done]. by injection Hf as <-.
Qed.

Lemma without_only f (l : Server.Loop N D) : Server.lp_flag l = f -> Server.without f [l] = [].
Proof. intros Hl. unfold Server.without. rewrite filter_cons_False; [done|]. by intros []. Qed.

Lemma replaced_flags f k (l : list (Server.Loop N D)) :
  Server.lp_flag <$> ((fun x => if bool_decide (Server.lp_flag x = f) then Server.mkLoop f k else x) <$> l)
  = Server.lp_flag <$> l.
Proof.
  rewrite <- list_fmap_compose. apply list_fmap_ext. intros i x _. cbn. by case_bool_decide.
Qed.

Lemma job_controls c j (a : A) : app_ok c a -> job_ok c j ->
  App.mode (App.run_job j a).2 = App.mode a /\ App.stop (App.run_job j a).2 = App.stop a.
Proof. intros Ha Hj. destruct (arun_job c j Hj a Ha) as [[_ ?] _]. done. Qed.

Lemma controlled_after_step f l k r (s : Server.t N D) :
  controlled s -> Server.find_loop f s = Some l -> controlled (Server.after_step f k r s).
Proof.
  intros Hs Hf. pose proof (find_loop_only f l s Hs Hf) as [El Hl].
  destruct r as [[p|]|e]; cbn [Server.after_step];
    try (apply (controlled_same s); [apply replaced_flags|done..]).
  destruct e; try (apply (controlled_same s); [apply replaced_flags|done..]).
  apply (controlled_ended s); [|done..]. cbn. rewrite El. cbn. rewrite bool_decide_true by done.
  by apply without_only.
Qed.

Lemma controlled_route r now (s : Server.t N D) : controlled s -> controlled (Server.route r now s).
Proof.
  intros Hs.
  assert (Hjob : forall r, controlled (match App.accept r now (Server.app s) with
      | Ok (Some j) => Server.with_jobs (Server.jobs s ++ [j]) s | _ => s end)).
  { intros r'. destruct (App.accept r' now (Server.app s)) as [[j|]|e]; by apply (controlled_same s). }
  destruct r eqn:Er; cbn [Server.route]; try (rewrite <- Er; exact (Hjob r)); pose proof Hs as [H1 H2 H3].
  - unfold Server.start_keeper. destruct (App.mode (Server.app s)) eqn:Em; [|done|];
      (destruct (Server.loops s) as [|l [|]] eqn:El; [|by destruct H1|done]; split; cbn;
       [done|intros l ->%list_elem_of_singleton; cbn; rewrite lookup_insert_eq; eauto|];
       intros f [b Hb]; destruct (decide (f = Server.next_flag s)) as [->|Hne];
       [lia|rewrite lookup_insert_ne in Hb by done; assert (f < Server.next_flag s)%nat by eauto; lia]).
  - unfold Server.request_keeper_stop. destruct (App.mode (Server.app s)) as [| |e] eqn:Em; [done| |].
    + destruct (App.stop (Server.app s)) as [f|] eqn:Es; [|done].
      destruct (Server.loops s) as [|l [|]] eqn:El; try done. destruct H1 as [_ [= ->]].
      split; cbn.
      * by rewrite ?El, Em, Es.
      * intros l0. rewrite ?El. intros ->%list_elem_of_singleton. rewrite lookup_insert_eq. eauto.
      * intros f [b Hb]. destruct (decide (f = Server.lp_flag l)) as [->|Hne].
        -- apply H3, H2. by left.
        -- rewrite lookup_insert_ne in Hb by done. eauto.
    + destruct (Server.loops s) as [|l [|]] eqn:El; [|by destruct H1|done].
      by apply (controlled_ended s); cbn.
Qed.

Lemma controlled_handle c g e (s : Server.t N D) :
  server_ok c s -> controlled s -> controlled (Server.handle g s e).
Proof.
  intros [Ha Hj] Hs. destruct e; cbn [Server.handle].
  - destruct (Gate.check g headers); [by apply controlled_route|done].
  - unfold Server.advance. destruct (Server.jobs s !! i) as [j|] eqn:Ei; [|done].
    destruct (job_controls c j (Server.app s) Ha) as [Em Es]; [by eapply Forall_lookup_1 in Ei|].
    destruct (App.run_job j (Server.app s)) as [r a]. by apply (controlled_same s).
  - by apply (controlled_same s).
  - destruct (Server.find_loop f s) as [[? [k|]]|]; [done| |done].
    apply (controlled_same s); [apply replaced_flags|done..].
  - destruct (Server.find_loop f s) as [[f' [k|]]|] eqn:Ef; [|done..].
    unfold Server.turn. case_bool_decide.
    + apply (controlled_ended s); [|done..]. cbn.
      destruct (find_loop_only _ _ _ Hs Ef) as [-> Hl]. by apply without_only.
    + destruct (App.tick now (Server.app s)) as [tick|]; [|done]. destruct (Keeper.step _ _) as [r k'].
      eapply controlled_after_step; [by apply (controlled_same s)|exact Ef].
  - destruct (Server.find_loop f s) as [[? [k|]]|]; [|done..]. by apply (controlled_same s).
  - destruct (Server.find_loop f s) as [[? [k'|]]|] eqn:Ef; [|done..].
    by eapply controlled_after_step.
Qed.

Lemma run_invariants c g es (s : Server.t N D) :
  server_ok c s -> controlled s -> server_ok c (Server.run g s es) /\ controlled (Server.run g s es).
Proof.
  revert s. induction es as [|e es IH]; intros s Hs Hc; [done|]. apply IH.
  - destruct (progress_handle c g e s Hs) as [H1 Hj1]. split; [|done]. eapply moves_ok; [apply Hs|done].
  - by eapply controlled_handle.
Qed.

(** A flag once set stays set. *)
Definition told (f : nat) (s : Server.t N D) : Prop :=
  Server.flags s !! f = Some true /\ (f < Server.next_flag s)%nat.

Lemma told_handle f g e (s : Server.t N D) : told f s -> told f (Server.handle g s e).
Proof.
  intros Hf. assert (Hstep : forall f' k r (s : Server.t N D), told f s -> told f (Server.after_step f' k r s)).
  { clear. intros f' k r s Hf. by destruct r as [[p|]|[]]. }
  destruct e; cbn [Server.handle].
  - destruct (Gate.check g headers); [|done].
    assert (Hjob : forall r, told f (match App.accept r now (Server.app s) with
        | Ok (Some j) => Server.with_jobs (Server.jobs s ++ [j]) s | _ => s end)).
    { intros r'. by destruct (App.accept r' now (Server.app s)) as [[j|]|e]. }
    destruct r eqn:Er; cbn [Server.route]; try (rewrite <- Er; exact (Hjob r)).
    + unfold Server.start_keeper. destruct (Server.is_running (App.mode (Server.app s))); [done|].
      destruct Hf as [Hf Hn]. split; cbn; [|lia]. rewrite lookup_insert_ne by lia. done.
    + unfold Server.request_keeper_stop.
      destruct (App.mode (Server.app s)), (App.stop (Server.app s)) as [f'|]; try done.
      destruct Hf as [Hf Hn]. split; cbn; [|done]. destruct (decide (f' = f)) as [->|Hne].
      * by rewrite lookup_insert_eq.
      * by rewrite lookup_insert_ne.
  - unfold Server.advance. destruct (Server.jobs s !! i) as [j|]; [|done].
    by destruct (App.run_job j (Server.app s)).
  - done.
  - by destruct (Server.find_loop f0 s) as [[? [k|]]|].
  - destruct (Server.find_loop f0 s) as [[? [k|]]|]; [|done..]. unfold Server.turn.
    case_bool_decide; [done|]. destruct (App.tick now (Server.app s)); [|done].
    destruct (Keeper.step _ _) as [r k']. by apply Hstep.
  - by destruct (Server.find_loop f0 s) as [[? [k|]]|].
  - destruct (Server.find_loop f0 s) as [[? [k'|]]|]; [|done..]. by apply Hstep.
Qed.

Lemma told_run f g es (s : Server.t N D) : told f s -> told f (Server.run g s es).
Proof. revert s. induction es as [|e es IH]; intros s Hf; [done|]. by apply IH, told_handle. Qed.

Lemma stop_ok c (s : Server.t N D) :
  server_ok c s -> controlled s ->
  server_ok c (Server.request_keeper_stop s).2 /\ controlled (Server.request_keeper_stop s).2.
Proof.
  intros Hs Hc. split; [|by apply (controlled_route RKeeperStop 0 s)].
  destruct (progress_route c RKeeperStop 0 s Hs) as [H1 Hj1]. split; [|done]. eapply moves_ok; [apply Hs|done].
Qed.

(** C29: The controls of the keeper hold over any run.  There is at most one keeper loop; the
    mode is running exactly while there is one, and only without one can a keeper start.  A
    stop request ends the loop: whatever happens after it, as long as that loop lives its
    flag is set, and its next pass leaves no loop, the mode idle and the wallet untouched. *)
Theorem keeper_control (g : Gate.t) (w : W) (opts : KeeperOpts) (es es' : list Server.Event) :
  let s := Server.run g (Server.boot w opts) es in
  let s' := Server.run g (Server.request_keeper_stop s).2 es' in
  match Server.loops s with
  | [] => App.mode (Server.app s) <> KRunning /\ is_ok (Server.start_keeper s) = true
  | [l] => App.mode (Server.app s) = KRunning /\ is_ok (Server.start_keeper s) = false /\
      forall l', l' ∈ Server.loops s' -> Server.lp_flag l' = Server.lp_flag l ->
        Server.loops s' = [l'] /\ Server.flags s' !! Server.lp_flag l' = Some true /\
        forall k now, Server.lp_keeper l' = Some k ->
          let s2 := Server.handle g s' (Server.EvTurn (Server.lp_flag l') now) in
          Server.loops s2 = [] /\ App.mode (Server.app s2) = KIdle /\
          App.wallet (Server.app s2) = App.wallet (Server.app s')
  | _ => False
  end.
Proof.
  set (c := seat w).
  assert (H0 : server_ok c (Server.boot w opts)).
  { split; [|constructor]. split; [done|]. apply queue_ok_nil. }
  destruct (run_invariants c g es _ H0 (controlled_boot w opts)) as [Hs Hc].
  cbv zeta. set (s := Server.run g (Server.boot w opts) es) in *.
  destruct (stop_ok c s Hs Hc) as [Hs1 Hc1]. destruct (run_invariants c g es' _ Hs1 Hc1) as [_ Hc'].
  pose proof Hc as [Hm Hfl Hnx]. unfold Server.start_keeper. destruct (Server.loops s) as [|l [|]] eqn:El; [| |done].
  - split; [done|]. by destruct (App.mode (Server.app s)).
  - destruct Hm as [Em Es]. rewrite Em. split_and!; [done|done|].
    assert (Ht : told (Server.lp_flag l) (Server.request_keeper_stop s).2).
    { unfold Server.request_keeper_stop. rewrite Em, Es. split; cbn; [by rewrite lookup_insert_eq|].
      apply Hnx, Hfl. by left. }
    apply (told_run _ g es') in Ht. set (s' := Server.run g (Server.request_keeper_stop s).2 es') in *.
    intros l' Hl' Hf. destruct Hc' as [Hm' _ _]. destruct (Server.loops s') as [|l0 [|]] eqn:El'; try done.
    { by apply not_elem_of_nil in Hl'. }
    apply list_elem_of_singleton in Hl' as ->. destruct Ht as [Ht _]. rewrite <- Hf in Ht.
    split_and!; [done|done|]. intros k now Ek. cbn [Server.handle].
    assert (Ef : Server.find_loop (Server.lp_flag l0) s' = Some l0).
    { unfold Server.find_loop. rewrite El'. cbn. by rewrite bool_decide_true. }
    rewrite Ef. destruct l0 as [f0 k0]. cbn in Ek |- *. subst k0. unfold Server.turn.
    rewrite bool_decide_true by done. cbn. rewrite El'. split_and!; [|done|done]. by apply without_only.
Qed.

(** ** Exported plans *)

Lemma take_dropped txid (q : list (bytes * TxPlan)) : take_pending txid (drop_pending txid q) = None.
Proof.
  destruct (take_pending txid (drop_pending txid q)) as [plan|] eqn:E; [|done].
  apply take_pending_in in E. destruct (drop_pending_fresh txid q).
  apply list_elem_of_fmap. by exists (txid, plan).
Qed.

Lemma export_stashes op which tick amount (s s1 : A) rq :
  App.export_job op which tick amount s = (Ok (BRequest rq), s1) ->
  exists plan, owner_signing_request (Wallet.ctx (App.wallet s1)) plan = Ok rq /\
    held (rq_txid rq) plan 0 (App.pending s1).
Proof.
  unfold App.export_job. intros (plan & s0 & _ & He)%eff_bind_ok. exists plan.
  apply eff_bind_ok in He as (a & b & [= <- <-] & He). unfold lift in He. cbn [id] in He.
  unfold mbind at 1, eff_bind at 1 in He.
  destruct (owner_signing_request (Wallet.ctx (App.wallet s0)) plan) as [rq'|] eqn:Eq; [|done].
  cbn in He. injection He as -> <-. split; [exact Eq|]. apply held_stashed.
Qed.

(** An exported plan completes as if it had been signed in process.  The request returned
    by an export carries the digest; the signature of the owner's key over it, applied while
    fewer than 32 other plans were exported since and this one was not applied, installs
    exactly what signing in process installs, and the session signs and broadcasts that plan.
    On success, and on a conflict, which is reported as stale, the plan leaves the queue;
    after any other failure the queue is unchanged and the signature can be applied again. *)
Theorem exported_plan_applies `{!LibSpec HL} (op : string) (which : option OutPoint)
    (tick : option OracleTick.t) (amount : option Obol.t) (s s1 s2 : A) (rq : OwnerSigningRequest)
    (kp : bytes) (ops : list QueueOp) :
  App.export_job op which tick amount s = (Ok (BRequest rq), s1) ->
  rq_owner rq = hex (keypair_pk kp) ->
  Forall (fun o => op_key o <> rq_txid rq) ops -> (stashes ops < PENDING_CAP)%nat ->
  App.pending s2 = foldl queue_op (App.pending s1) ops ->
  Wallet.ctx (App.wallet s2) = Wallet.ctx (App.wallet s1) ->
  exists digest plan signed,
    rq_sighash rq = hex digest /\ rq_txid rq = txid_string (plan_txid plan) /\
    owner_sign (Wallet.ctx (App.wallet s1)) plan kp = Ok signed /\
    let sig := hex (sign_schnorr kp digest) in
    App.take_job (rq_txid rq) sig s2 = Ok (JApplying (rq_txid rq) sig plan) /\
    let '(r, s3) := App.apply_job (rq_txid rq) sig plan s2 in
    let '(outcome, w3) := Ops.finalize_broadcast signed (App.wallet s2) in
    App.wallet s3 = w3 /\
    match outcome with
    | Ok txid => r = Ok (BOp (mkOpView (txid_string txid) None)) /\
                 take_pending (rq_txid rq) (App.pending s3) = None
    | Err (WBroadcast (Conflict m)) => r = Err (AStale m) /\
                 take_pending (rq_txid rq) (App.pending s3) = None
    | Err e => r = Err (AWallet e) /\ App.pending s3 = App.pending s2
    end.
Proof.
  intros He Hown Hops Hn Hq Hc. apply export_stashes in He as (plan & Hrq & Hheld).
  unfold owner_signing_request in Hrq. apply bind_ok in Hrq as (o & Ho%ok_or_ok & Hrq).
  apply bind_ok in Hrq as (digest & Hd%map_err_ok & [= <-]). cbn [rq_txid rq_owner rq_sighash] in *.
  apply (f_equal decode_pairs) in Hown. rewrite !decode_pairs_hex in Hown. injection Hown as ->.
  exists digest, plan, (install_owner_sig plan (mkSig (sign_schnorr kp digest))).
  split_and!; [done|done|by unfold owner_sign; rewrite Hd| |].
  { unfold App.take_job. apply held_ops with (ops := ops) in Hheld; [|done|lia].
    rewrite <- Hq in Hheld. by rewrite (held_taken _ _ _ _ Hheld). }
  unfold App.apply_job, mbind at 1, eff_bind at 1, gets, id, mbind at 1, eff_bind at 1, lift.
  rewrite Hc, (apply_signature _ _ _ digest) by done. cbn [map_err].
  unfold mbind at 1, eff_bind at 1, try, zoom.
  destruct (Ops.finalize_broadcast _ (App.wallet s2)) as [outcome w3].
  destruct outcome as [txid|e]; [cbn; split_and!; [done|done|apply take_dropped]|].
  destruct e as [| | | | | | | | |[]| | | | | | | | | | | | |]; cbn; split_and!; try done.
  apply take_dropped.
Qed.

End Serving.
