(* ===== verification/Public.v ===== *)
(** * The binaries around the relays ([main.rs] of the explorer, the application, the oracle)

    How the explorer, the application and the oracle start, and the loops over the relays: the
    explorer's quote loop beside its sync loop, the application's tick loop.  A subscription
    is the endpoint of [Relay]; entropy, instants and what arrives are arguments of a step.
    At the end: what the public page shows of the oracles. *)

From Stdlib Require Import ZArith Lia.
From stdpp Require Import base gmap strings option list.
From S2P Require Import Prelude Hex Units CrMath Elements Oracle Simf Encode Domain Artifacts Jets.
From S2P Require Import CovVault CovReserve CovIssuer Plan BuildOwner BuildKeeper Accept CovLemmas.
From S2P Require Import CovAccept Sound Quotes Decide Pset Effects Node Index Sync Snapshot Config.
From S2P Require Import Sockets OracleFeed Relay OracleService Gate Wallet Ops Keeper Daemon Explorer Api Cli Server ApiSpec.

(** The oracles' transport keys that parse. *)
Definition listed_authors {R : Type} `{Client R} (net : StyxnetConfig) : list bytes :=
  omap parse_nostr_pk (omap oe_nostr_pk (sn_oracles net)).

(** ** The explorer *)

Inductive ExplorerError : Type :=
| XConfig (e : ExplorerConfigError)
| XStyxnet (e : ConfigError)
| XNoProtocol
| XNode (e : NodeError)
| XGenesis (config node : BlockHash)
| XArtifacts (e : DeployError)
| XSnapshot (e : SnapshotError).

(** What [main] hands to its tasks. *)
Record Site : Type := mkSite {
  si_addr : SocketAddr;
  si_net : StyxnetConfig;
  si_ctx : Ctx;
  si_anchor : Z;
  si_state : Explorer.t
}.

(** The state of the quote loop beside what it shares with the page. *)
Record Public (N : Type) : Type := mkPublic {
  pb_node : N;
  pb_book : QuoteBook.t;
  pb_sub : option NostrQuotes.t;
  pb_shown : Explorer.t
}.
Arguments mkPublic {N} _ _ _ _.
Arguments pb_node {N} _.
Arguments pb_book {N} _.
Arguments pb_sub {N} _.
Arguments pb_shown {N} _.

Module PublicSite.

Section Site.
Context `{Lib, XOnlyParse, Compiler} {N D : Type} `{Rpc N, Display, OutPointOrder, Json, Disk D, AssetParse}.
Context {F : Type} `{Toml ExplorerConfig, Toml StyxnetConfig, Files F} {R : Type} `{QuoteSerde, Client R}.

(** [main] up to its tasks. *)
Definition start (path : bytes) (fs : F) (d : D) : Eff N ExplorerError Site :=
  cfg ← lift (map_err XConfig (ExplorerFile.load path fs));
  addr ← lift (map_err XConfig (ExplorerFile.listen_addr cfg));
  net ← lift (map_err XStyxnet (Styxnet.load (ec_styxnet cfg) fs));
  params ← lift (map_err XStyxnet (Styxnet.params net));
  genesis ← lift (map_err XStyxnet (Styxnet.genesis net));
  anchor ← lift (ok_or XNoProtocol (issuer_anchor_genesis <$> sn_protocol net));
  _ ← lift (map_err XConfig (ExplorerFile.auth cfg));
  node_genesis ← map_error XNode (block_hash 0);
  if bool_decide (node_genesis <> genesis) then throw (XGenesis genesis node_genesis) else
  artifacts ← lift (map_err XArtifacts (compile_artifacts params));
  index ← (if file_exists d then lift (map_err XSnapshot (load d))
           else hash ← map_error XNode (block_hash anchor); mret (at_height anchor hash));
  mret (mkSite addr net (mkCtx params artifacts genesis) anchor
          (Explorer.new index (head (no_relays (sn_nostr net))))).

(** The quote loop before its first subscription. *)
Definition boot (node : N) (site : Site) : Public N :=
  mkPublic node (QuoteBook.new (oracle_pks (ctx_params (si_ctx site)))) None (si_state site).

(** Whether there is anything to listen to. *)
Definition loop_on (net : StyxnetConfig) : bool :=
  negb (bool_decide (listed_authors net = [])) && negb (bool_decide (no_relays (sn_nostr net) = [])).

(** One step of [quote_loop]: a subscription, or the next read of it; [None] is a panic of
    the book. *)
Definition quote_step (net : StyxnetConfig) (ephemeral : bytes) (now : Z) (arrived : Inbox Notification)
    (p : Public N) (r : R) : option (Public N * R) :=
  if negb (loop_on net) then Some (p, r) else
  match pb_sub p with
  | None =>
      let '(sub, r) := NostrQuotes.subscriber ephemeral (no_relays (sn_nostr net)) (listed_authors net) r in
      Some (mkPublic (pb_node p) (pb_book p) (ok sub) (pb_shown p), r)
  | Some sub =>
      let '(x, sub) := NostrQuotes.recv (NostrQuotes.arrive arrived sub) in
      match x with
      | Some (Ok q) =>
          '(n, book, s) ← Explorer.quote_pass q now (pb_node p, pb_book p, pb_shown p);
          Some (mkPublic n book (Some sub) s, r)
      | Some (Err _) => Some (mkPublic (pb_node p) (pb_book p) None (pb_shown p), r)
      | None => Some (mkPublic (pb_node p) (pb_book p) (Some sub) (pb_shown p), r)
      end
  end.

Definition show (s : Explorer.t) (p : Public N) : Public N := mkPublic (pb_node p) (pb_book p) (pb_sub p) s.

End Site.
End PublicSite.

(** ** The application *)

Inductive AppError : Type :=
| AppCfg (e : AppConfigError)
| AppWallet (e : WalletError)
| AppStyxnet (e : ConfigError)
| AppAuth (e : WalletConfigError).

Module AppMain.

Section App.
Context `{Lib, XOnlyParse, SigHash, Redeemer, KeySpend, TxSize, Compiler, OutPointParse}.
Context {N D : Type} `{Rpc N, Display, OutPointOrder, Json, Disk D, AssetParse, SecretKey}.
Context {F : Type} `{Toml AppConfig, Toml StyxnetConfig, Files F} {R : Type} `{QuoteSerde, Client R}.

(** [run] up to the listener: [env] is the listen address of the environment, [seed] the
    entropy of the token.  [None]: a panic in [parse_seckey]. *)
Definition start (env : option bytes) (path : bytes) (fs : F) (n : N) (d : D) (seed : bytes)
    : option (result AppError (SocketAddr * Gate.t * StyxnetConfig * Server.t N D)) :=
  match map_err AppCfg (cfg ← AppFile.load env path fs; a ← AppFile.bind cfg env; Ok (cfg, a)) with
  | Err e => Some (Err e)
  | Ok (cfg, (addr, hosts, origins)) =>
      opened ← Daemon.open_purse (ac_purse cfg) fs n d;
      Some (wallet ← map_err AppWallet opened;
            net ← map_err AppStyxnet (Styxnet.load (wc_styxnet (ac_purse cfg)) fs);
            _ ← map_err AppAuth (WalletFile.auth (ac_purse cfg));
            Ok (addr, Gate.mint_proxied addr seed hosts origins, net,
                Server.boot wallet (section_opts (ac_keeper cfg))))
  end.

Definition loop_on (net : StyxnetConfig) : bool :=
  (3 <=? length (listed_authors net))%nat && negb (bool_decide (no_relays (sn_nostr net) = [])).

(** The walk of [tick_loop] over the relays as they are; [None]: a panic of the book. *)
Fixpoint fetch_walk (sub : NostrQuotes.t) (tip : BlockHeight.t) (n : nat) (h : Z) (b : QuoteBook.t) (r : R)
    : option (option OracleTick.t) * R :=
  match n with
  | O => (Some None, r)
  | S n =>
      match NostrQuotes.fetch sub h 5000 r with
      | (Err _, r) => fetch_walk sub tip n (h - 1) b r
      | (Ok quotes, r) =>
          match absorb_all b ((fun q => (q, tip)) <$> quotes) with
          | None => (None, r)
          | Some b =>
              match QuoteBook.assemble_tick b (BlockHeight.new h) with
              | Some tick => (Some (Some tick), r)
              | None => fetch_walk sub tip n (h - 1) b r
              end
          end
      end
  end.

(** One pass of [tick_loop] once it is subscribed, [tip] the node's answer; [None]: a panic. *)
Definition tick_step (sub : NostrQuotes.t) (pks : list XOnlyPublicKey) (tip : result NodeError Z) (now : Z)
    (s : App.t N D) (r : R) : option (App.t N D * R) :=
  match tip with
  | Err _ => Some (s, r)
  | Ok tip =>
      let '(x, r) := fetch_walk sub (BlockHeight.new tip) (Z.to_nat (tip - u32_sat_sub tip TICK_WALKBACK + 1)) tip
                       (QuoteBook.new pks) r in
      found ← x;
      Some (match found with
            | Some tick =>
                App.emit "tick" (DHeight (BlockHeight.raw (OracleTick.height tick))) (App.set_tick tick now s)
            | None => s
            end, r)
  end.

End App.
End AppMain.

(** ** The oracle ([styx-oracle/src/main.rs]) *)

(** [nostr_sdk::Keys]: parsing a secret key, and a generated one as text. *)
Class NostrKeys : Type := {
  parse_keys : bytes -> option bytes;
  secret_hex : bytes -> bytes;
  public_hex : bytes -> bytes
}.

Inductive OracleMainError : Type :=
| OmNoConfig
| OmConfig (e : OracleConfigError)
| OmStart (e : OracleService.StartError)
| OmNostrKey
| OmTransport (e : TransportError)
| OmBackend (name : string)
| OmPanic.

(** What [keygen] prints. *)
Record Identity : Type := mkIdentity {
  id_protocol_seckey : bytes; id_nostr_seckey : bytes; id_protocol_pk : bytes; id_nostr_pk : bytes
}.

Module OracleMain.

Section Oracle.
Context `{Lib, SecretKey, Display, NostrKeys} {F : Type} `{Toml OracleConfig, Files F}.
Context {R : Type} `{QuoteSerde, Client R}.

(** [parse_protocol_key] with its panic. *)
Definition protocol_key (text : bytes) : result OracleMainError bytes :=
  match parse_protocol_key text with
  | None => Err OmPanic
  | Some r => map_err OmStart r
  end.

(** [protocol] and [nostr] are what [Keys::generate] drew. *)
Definition keygen (protocol nostr : bytes) : result OracleMainError Identity :=
  kp ← protocol_key (secret_hex protocol);
  Ok (mkIdentity (secret_hex protocol) (secret_hex nostr) (show_pk (keypair_pk kp)) (public_hex nostr)).

(** [main] up to its tasks. *)
Definition start (config : option bytes) (fs : F)
    : Eff R OracleMainError (OracleState.t * NostrQuotes.t * option OracleFeed.Backend) :=
  path ← lift (ok_or OmNoConfig config);
  cfg ← lift (map_err OmConfig (OracleFile.load path fs));
  state ← lift (match OracleService.start cfg with None => Err OmPanic | Some r => map_err OmStart r end);
  nostr_keys ← lift (ok_or OmNostrKey (parse_keys (oc_nostr_seckey cfg)));
  _ ← lift (map_err OmConfig (OracleFile.auth cfg));
  transport ← map_error OmTransport (NostrQuotes.publisher (oc_relays cfg) nostr_keys);
  backend ← lift (match oc_feed cfg with
                  | None => Ok None
                  | Some f => b ← ok_or (OmBackend (fd_backend f)) (Feed.from_str (fd_backend f)); Ok (Some b)
                  end);
  mret (state, transport, backend).

End Oracle.
End OracleMain.

(** A generated identity configures the oracle it names: with its secret in the file the
    daemon signs under the protocol key that was printed for [styxnet.toml]. *)
Lemma identity_configures `{HL : Lib, SK : SecretKey, DP : Display, NK : NostrKeys} protocol nostr id cfg s :
  secret_hex protocol = hex protocol -> OracleMain.keygen protocol nostr = Ok id ->
  oc_protocol_seckey cfg = id_protocol_seckey id -> OracleService.start cfg = Some (Ok s) ->
  OracleState.keypair s = protocol /\ id_protocol_pk id = show_pk (keypair_pk (OracleState.keypair s)).
Proof.
  intros Hh Hk Hc Hs. unfold OracleMain.keygen, OracleMain.protocol_key in Hk. rewrite Hh in Hk.
  unfold OracleService.start in Hs. destruct (OracleSlot.new _) as [slot|]; [|done].
  apply bind_ok in Hk as (kp & Hk & [= <-]). cbn in Hc. rewrite Hc in Hs.
  assert (parse_protocol_key (hex protocol) = Some (Ok kp) /\ kp = protocol) as [Hp ->].
  { unfold parse_protocol_key in *. case_bool_decide; [done|]. rewrite sig_pairs_hex in *. cbn in *.
    destruct (valid_seckey protocol); [|done]. by injection Hk as <-. }
  rewrite Hp in Hs. cbn in Hs. by injection Hs as <-.
Qed.

(** *** The walk is the pass of [Server]

    Over relays that change as they are asked, a walk is the one [Server.tick_walk] makes of
    the replies, so that its tick is signed. *)

Section Walk.
Context `{HL : Lib} {R : Type} `{QS : QuoteSerde, CL : Client R}.

Lemma tick_walk_ext (f g : Z -> option (list WireQuote.t)) tip n h b :
  (forall x, x <= h -> f x = g x) -> tick_walk f tip n h b = tick_walk g tip n h b.
Proof.
  revert h b. induction n as [|n IH]; intros h b Hfg; [done|]. cbn. rewrite Hfg by lia.
  assert (Hlo : forall x, x <= h - 1 -> f x = g x) by (intros; apply Hfg; lia).
  destruct (g h) as [quotes|]; [|by apply IH]. destruct (absorb_all b _) as [b1|]; [|done]. cbn.
  destruct (QuoteBook.assemble_tick _ _); [done|]. by apply IH.
Qed.

Lemma fetch_walk_replies sub tip n h b (r r' : R) x :
  AppMain.fetch_walk sub tip n h b r = (x, r') ->
  exists fetch, tick_walk fetch tip n h b = x /\
    forall k quotes, fetch k = Some quotes -> exists r1 r2, NostrQuotes.fetch sub k 5000 r1 = (Ok quotes, r2).
Proof.
  revert h b r. induction n as [|n IH]; intros h b r Hw; cbn [AppMain.fetch_walk] in Hw.
  { injection Hw as <- _. by exists (fun _ => None). }
  destruct (NostrQuotes.fetch sub h 5000 r) as [y r1] eqn:Ef.
  assert (Hstep : forall rest, (forall k quotes, rest k = Some quotes -> exists r1 r2, NostrQuotes.fetch sub k 5000 r1 = (Ok quotes, r2)) ->
    forall k quotes, (if k =? h then ok y else rest k) = Some quotes -> exists r1 r2, NostrQuotes.fetch sub k 5000 r1 = (Ok quotes, r2)).
  { intros rest Hr k quotes. destruct (Z.eqb_spec k h) as [->|]; [|apply Hr]. intros Hy. exists r, r1. rewrite Ef. by destruct y as [|]; [injection Hy as ->|]. }
  assert (Hrest : forall rest x b1, tick_walk rest tip n (h - 1) b1 = x ->
    tick_walk (fun k => if k =? h then ok y else rest k) tip n (h - 1) b1 = x).
  { intros rest z b1 <-. apply tick_walk_ext. intros k Hk. by rewrite (proj2 (Z.eqb_neq k h)) by lia. }
  destruct y as [quotes|e].
  - destruct (absorb_all b _) as [b1|] eqn:Ea.
    + destruct (QuoteBook.assemble_tick b1 (BlockHeight.new h)) as [t|] eqn:Et.
      * injection Hw as <- _. exists (fun k => if k =? h then Some quotes else None). split; [|by apply (Hstep (fun _ => None))].
        cbn. rewrite Z.eqb_refl. cbn. rewrite Ea. cbn. by rewrite Et.
      * apply IH in Hw as (rest & Hw & Hf). eexists. split; [|exact (Hstep rest Hf)].
        cbn. rewrite Z.eqb_refl. cbn. rewrite Ea. cbn. rewrite Et. exact (Hrest rest x b1 Hw).
    + injection Hw as <- _. exists (fun k => if k =? h then Some quotes else None). split; [|by apply (Hstep (fun _ => None))].
      cbn. rewrite Z.eqb_refl. cbn. by rewrite Ea.
  - apply IH in Hw as (rest & Hw & Hf). eexists. split; [|exact (Hstep rest Hf)].
    cbn. rewrite Z.eqb_refl. cbn. exact (Hrest rest x b Hw).
Qed.

(** What a pass of the application's tick loop leaves: the tick it had, or a signed one. *)
Lemma tick_step_signed {N D : Type} sub pks tip now (s s' : App.t N D) (r r' : R) :
  serde_typed -> length pks = 5%nat -> AppMain.tick_step sub pks tip now s r = Some (s', r') ->
  App.tick_slot s' = App.tick_slot s \/
  exists t, App.tick_slot s' = Some (t, now) /\ tick_signed pks t /\ check_zero_price t = Ok tt.
Proof.
  intros Hs Hl Ht. unfold AppMain.tick_step in Ht. destruct tip as [tip|e]; [|injection Ht as <- _; by left].
  destruct (AppMain.fetch_walk _ _ _ _ _ r) as [x r1] eqn:Ew.
  apply bind_Some in Ht as (found & -> & [= <- _]). destruct found as [t|]; [|by left].
  right. exists t. split; [done|]. apply fetch_walk_replies in Ew as (fetch & Hw & Hf).
  eapply (tick_pass_signed pks fetch tip); [done| |exact Hw]. intros k qs (r2 & r3 & Hq)%Hf. by eapply fetch_typed.
Qed.

End Walk.

(** ** What the page shows of the oracles *)
Import PublicSite.

Section Shown.
Context `{HL : Lib, XP : XOnlyParse, CO : Compiler} {N D : Type} `{RP : Rpc N, DP : Display, OO : OutPointOrder}.
Context `{JS : Json, DK : Disk D, AP : AssetParse} {F : Type}.
Context `{TX : Toml ExplorerConfig, TN : Toml StyxnetConfig, FF : Files F} {R : Type} `{QS : QuoteSerde, CL : Client R}.

(** The two loops in any order: passes of the sync loop over whatever the node and the disk
    have become, and steps of the quote loop, whatever the relays have become. *)
Inductive publishes (site : Site) : Public N -> Public N -> Prop :=
| publishes_none p : publishes site p p
| publishes_sync (n n' : N) (d d' : D) p s1 p' :
    Explorer.sync_pass (si_ctx site) (si_anchor site) (n, d, pb_shown p) = (n', d', s1) ->
    publishes site (show s1 p) p' -> publishes site p p'
| publishes_quote eph now arrived (r r' : R) p p1 p' :
    quote_step (si_net site) eph now arrived p r = Some (p1, r') ->
    publishes site p1 p' -> publishes site p p'.

(** A price beside a slot: of a quote its key signed. *)
Definition vouched (pks : list XOnlyPublicKey) (i : nat) (price : Z) : Prop :=
  exists pk q sig, pks !! i = Some pk /\ WireQuote.price q = price /\ price <> 0 /\
    WireQuote.slot q = Z.of_nat i /\ WireQuote.sig_bytes q = Some (Ok sig) /\
    verify_schnorr pk (tick_digest (WireQuote.payload q)) sig = true.

(** What the page relies on. *)
Record honest_page (pks : list XOnlyPublicKey) (s : Explorer.t) : Prop := {
  hp_tick t now hash : Explorer.tick_slot s = Some (t, now, hash) ->
    tick_signed pks t /\ check_zero_price t = Ok tt;
  hp_price i price : Explorer.slot_price s !! i = Some (Some price) -> vouched pks i price
}.
Record honest_site (pks : list XOnlyPublicKey) (p : Public N) : Prop := {
  hs_book : book_wf (pb_book p);
  hs_keys : QuoteBook.oracle_pks (pb_book p) = pks;
  hs_page : honest_page pks (pb_shown p)
}.

(** A pass of the sync loop leaves ticks and slots alone. *)
Lemma sync_keeps_slots ctx anchor (n n' : N) (d d' : D) s s1 :
  Explorer.sync_pass ctx anchor (n, d, s) = (n', d', s1) ->
  Explorer.tick_slot s1 = Explorer.tick_slot s /\ Explorer.slot_price s1 = Explorer.slot_price s.
Proof.
  unfold Explorer.sync_pass. destruct (catch_up ctx [] _) as [r [n2 work]]. intros Hp.
  destruct r as [ns|[e|height]]; [by injection Hp as _ _ <-|by injection Hp as _ _ <-|].
  destruct (block_hash anchor n2) as [[hash|e] n3]; by injection Hp as _ _ <-.
Qed.

(** An accepted quote: the slot it stamps, the label and the price beside it. *)
Lemma quote_shown (n : N) q now book s book' :
  QuoteBook.insert book q (BlockHeight.new (ix_height (Explorer.index s))) = Some (Ok book') ->
  exists n' s', Explorer.quote_pass q now (n, book, s) = Some (n', book', s') /\
    Explorer.slot_price s' = <[Z.to_nat (WireQuote.slot q) := Some (WireQuote.price q)]> (Explorer.slot_price s) /\
    Explorer.slot_name s' = <[Z.to_nat (WireQuote.slot q) :=
      if bool_decide (WireQuote.name q = []) then None else Some (WireQuote.name q)]> (Explorer.slot_name s) /\
    (Explorer.tick_slot s' = Explorer.tick_slot s \/
     exists t hash h k, Explorer.tick_slot s' = Some (t, now, hash) /\ Keeper.first_tick book' h k = Some t).
Proof.
  intros Hi. unfold Explorer.quote_pass. rewrite Hi. cbn [mbind option_bind].
  destruct (Keeper.first_tick _ _ _) as [t|] eqn:Et.
  - destruct (block_hash _ n) as [hash n2]. eexists n2, _. split_and!; [done..|]. right. by eexists t, (ok hash), _, _.
  - eexists n, _. split_and!; [done..|]. by left.
Qed.

Lemma quote_honest pks (n n' : N) q now book book' s s' :
  book_wf book -> QuoteBook.oracle_pks book = pks -> honest_page pks s -> wire_wf q ->
  Explorer.quote_pass q now (n, book, s) = Some (n', book', s') ->
  book_wf book' /\ QuoteBook.oracle_pks book' = pks /\ honest_page pks s'.
Proof.
  intros Hb Hk Hs Hq Hp. pose proof Hp as Hr. unfold Explorer.quote_pass in Hr.
  apply bind_Some in Hr as (r & Hi & Hr). injection Hr as Hr.
  destruct r as [b1|e]; [|by injection Hr as _ <- <-]. clear Hr.
  destruct (quote_shown n q now book s b1 Hi) as (n2 & s2 & Hp2 & Hpr & _ & Ht).
  rewrite Hp in Hp2. injection Hp2 as _ <- <-. destruct (insert_wf _ _ _ _ Hb Hq Hi) as [Hb1 Hk1].
  rewrite Hk in Hk1. split_and!; [done|done|]. split.
  - intros t now' hash Hts. destruct Ht as [Ht|(t' & hash' & h & k & Ht & Hf)].
    + rewrite Ht in Hts. by eapply hp_tick.
    + rewrite Ht in Hts. injection Hts as -> <- <-. apply first_tick_signed in Hf; [|done]. by rewrite Hk1 in Hf.
  - intros i price Hx. rewrite Hpr in Hx. apply list_lookup_insert_Some in Hx as [(Hix & [= <-] & _)|[_ Hx]].
    2:{ by eapply hp_price. }
    apply insert_inv in Hi as (slot & pk & sig & Hsl & Hz & Hsig & Hpk & Hv & _).
    unfold OracleSlot.new in Hsl. destruct (_ <? _); [done|]. injection Hsl as <-.
    exists pk, q, sig. destruct Hq as ([Hq0 _] & _). rewrite Hk in Hpk.
    unfold OracleSlot.index in Hpk. cbn in Hpk. split_and!; [by rewrite <- Hix|done|done|lia|done|done].
Qed.

(** A step of the quote loop keeps the page honest. *)
Lemma step_honest pks net eph now arrived (r r' : R) (p p' : Public N) :
  serde_typed -> honest_site pks p -> quote_step net eph now arrived p r = Some (p', r') -> honest_site pks p'.
Proof.
  intros Hs Hp Hq. unfold quote_step in Hq. destruct (negb (loop_on net)); [by injection Hq as <- _|].
  destruct (pb_sub p) as [sub|].
  - destruct (NostrQuotes.recv _) as [x sub'] eqn:Er. destruct x as [[q|e]|].
    + apply bind_Some in Hq as ([[n b] s] & Hq & [= <- _]). apply recv_quote in Er as (_ & text & Hj).
      destruct Hp as [Hb Hk Hpg]. eapply quote_honest in Hq as (? & ? & ?); [by split|done..|]. by eapply Hs.
    + injection Hq as <- _. by destruct Hp.
    + injection Hq as <- _. by destruct Hp.
  - destruct (NostrQuotes.subscriber _ _ _ r) as [x r1]. injection Hq as <- _. by destruct Hp.
Qed.

Lemma publishes_honest pks site (p p' : Public N) :
  serde_typed -> publishes site p p' -> honest_site pks p -> honest_site pks p'.
Proof.
  intros Hs. induction 1 as [p|n n' d d' p s1 p' Hp _ IH|eph now arrived r r' p p1 p' Hq _ IH]; intros Hh; [done| |].
  - apply IH. destruct Hh as [Hb Hk [Ht Hpr]]. apply sync_keeps_slots in Hp as [Et Ep]. split; [done|done|].
    split; cbn; [by rewrite Et|by rewrite Ep].
  - apply IH. by eapply step_honest.
Qed.

Lemma start_site path fs (d : D) (n n' : N) site :
  start path fs d n = (Ok site, n') ->
  exists cfg index m, ExplorerFile.load path fs = Ok cfg /\ Styxnet.load (ec_styxnet cfg) fs = Ok (si_net site) /\
    Styxnet.params (si_net site) = Ok (ctx_params (si_ctx site)) /\
    Styxnet.genesis (si_net site) = Ok (ctx_genesis (si_ctx site)) /\
    block_hash 0 n = (Ok (ctx_genesis (si_ctx site)), m) /\
    si_state site = Explorer.new index (head (no_relays (sn_nostr (si_net site)))).
Proof.
  intros Hs. unfold start in Hs. do 8 eff_peel_step Hs. case_bool_decide as Hg; [done|].
  do 2 eff_peel_step Hs. injection Hs as <- _. cbn.
  repeat match goal with H : map_err _ _ = Ok _ |- _ => apply map_err_ok in H end.
  subst. by eexists _, _, _.
Qed.

Lemma boot_honest site (n : N) index relay :
  length (oracle_pks (ctx_params (si_ctx site))) = 5%nat -> si_state site = Explorer.new index relay ->
  honest_site (oracle_pks (ctx_params (si_ctx site))) (boot n site).
Proof.
  intros Hl Hi. split; [by apply new_wf|done|]. cbn. rewrite Hi. split; [done|]. intros i price Hx. cbn in Hx.
  by apply (lookup_replicate 5 None) in Hx as [? _].
Qed.

(** A quote the book takes, relabelled and republished by any listed author. *)
Definition relabelled (name : bytes) (q : WireQuote.t) : WireQuote.t :=
  WireQuote.mk (WireQuote.slot q) (WireQuote.height q) (WireQuote.price q) (WireQuote.backing_k q)
    (WireQuote.sig q) name.

Lemma insert_relabelled b q name tip : QuoteBook.insert b (relabelled name q) tip = QuoteBook.insert b q tip.
Proof. done. Qed.

Lemma recv_event sub e q :
  NostrQuotes.notifications sub = [] -> NostrQuotes.parse (NostrQuotes.authors sub) e = Some q ->
  NostrQuotes.recv (NostrQuotes.arrive [Ok (NEvent e)] sub) = (Some (Ok q), sub).
Proof.
  intros Hn Hp. unfold NostrQuotes.recv, NostrQuotes.arrive. cbn [NostrQuotes.notifications NostrQuotes.authors].
  rewrite Hn. cbn [app recv_loop NostrQuotes.event_quote]. rewrite Hp. destruct sub. cbn in *. by rewrite Hn.
Qed.

(** C33: What the public page shows of the oracles, from the explorer's start on and whatever
    the node, the disk and the relays do: its deploy is the configured one, on the node's
    chain; the tick carries the signatures of three of the deploy's oracles, no price zero;
    and each price beside a slot is one that slot's key signed.  The label beside it is not
    the oracle's: any listed author can republish a quote the book takes under its own event
    with another name, and the page shows that name for the slot. *)
Theorem page_vouched (path : bytes) (fs : F) (d : D) (n n' m : N) (site : Site) (p : Public N) :
  serde_typed -> start path fs d n = (Ok site, n') -> publishes site (boot m site) p ->
  let pks := oracle_pks (ctx_params (si_ctx site)) in
  (exists cfg k, ExplorerFile.load path fs = Ok cfg /\ Styxnet.load (ec_styxnet cfg) fs = Ok (si_net site) /\
     Styxnet.params (si_net site) = Ok (ctx_params (si_ctx site)) /\
     block_hash 0 n = (Ok (ctx_genesis (si_ctx site)), k)) /\
  (forall now tick, Explorer.tick now (pb_shown p) = Some tick ->
     tick_signed pks tick /\ check_zero_price tick = Ok tt) /\
  (forall i price, Explorer.slot_price (pb_shown p) !! i = Some (Some price) -> vouched pks i price) /\
  (forall sub q b name keys created now eph (r : R),
     loop_on (si_net site) = true -> pb_sub p = Some sub -> NostrQuotes.notifications sub = [] ->
     QuoteBook.insert (pb_book p) q (BlockHeight.new (ix_height (Explorer.index (pb_shown p)))) = Some (Ok b) ->
     is_Some (Explorer.slot_name (pb_shown p) !! Z.to_nat (WireQuote.slot q)) ->
     nostr_pk keys ∈ NostrQuotes.authors sub -> name <> [] ->
     from_json (to_json (relabelled name q)) = Some (relabelled name q) ->
     exists p', quote_step (si_net site) eph now
         [Ok (NEvent (NostrQuotes.event_of keys (relabelled name q) created))] p r = Some (p', r) /\
       Explorer.slot_name (pb_shown p') !! Z.to_nat (WireQuote.slot q) = Some (Some name)).
Proof.
  intros Hserde Hstart Hrun pks. apply start_site in Hstart as (cfg & index & k & Hcfg & Hnet & Hpar & _ & Hg & Hst).
  destruct (publishes_honest pks site (boot m site) p Hserde Hrun) as [_ _ [Htick Hprice]].
  { eapply boot_honest; [by eapply params_keys|exact Hst]. }
  split; [by exists cfg, k|]. split.
  { intros now tick Ht. unfold Explorer.tick, Explorer.ticked in Ht.
    destruct (Explorer.tick_slot (pb_shown p)) as [[[t at_] hash]|] eqn:Ets; [|done]. cbn in Ht.
    destruct (_ <=? _); [|done]. injection Ht as <-. by eapply Htick. }
  split; [exact Hprice|]. intros sub q b name keys created now eph r Hon Hsub Hin Hins Hslot Ha Hname Hj.
  rewrite <- (insert_relabelled _ q name) in Hins.
  destruct (quote_shown (pb_node p) _ now _ _ _ Hins) as (n2 & s2 & Hq & _ & Hnm & _).
  unfold quote_step. rewrite Hon, Hsub. cbn [negb].
  rewrite (recv_event sub _ (relabelled name q) Hin (parse_event _ keys (relabelled name q) created Ha Hj)).
  rewrite Hq. cbn [mbind option_bind]. eexists. split; [reflexivity|]. cbn [pb_shown]. rewrite Hnm.
  cbn [WireQuote.name relabelled]. rewrite bool_decide_false by done.
  destruct Hslot as [x Hx]. rewrite list_lookup_insert_eq; [done|]. by eapply lookup_lt_Some.
Qed.

End Shown.
