(* ===== verification/Samples.v ===== *)
(** * A concrete deploy

    An executable compiler, sighash and redeemer beside the toy library, the deploy they
    compile from [sample_params], and the builder theorems applied to it: every operation
    on a concrete protocol state, its hypotheses evaluated. *)

From Stdlib Require Import ZArith Lia.
From stdpp Require Import base gmap strings option list.
From S2P Require Import Prelude Hex Units CrMath Elements Toy Oracle Simf Domain Encode Artifacts.
From S2P Require Import Jets CovVault CovReserve CovIssuer Plan BuildOwner BuildKeeper Accept.
From S2P Require Import CovLemmas CovAccept Sound SoundOwner SoundKeeper Pset Protocol Index.
From S2P Require Import IndexSpec IndexSim.

(** ** Instances *)

#[export] Instance toy_compiler : Compiler := fun cov _ =>
  Some (be_bytes 32 (match cov with
    | ReserveRepay => 1001 | PotOutflow => 1002 | Stability => 1003 | Vault => 1004
    | Issuer => 1005 end)).

#[export] Instance toy_sighash : SigHash := fun E =>
  sha256 (txid_of (env_tx E) ++ env_genesis E ++ env_cmr E ++ be_bytes 4 (env_ix E)).

#[export] Instance toy_sighash_spec : SigHashSpec toy_sighash.
Proof.
  intros E1 E2 [Hb Hu Hi Hc Hcb Hg]. unfold sighash_all, toy_sighash.
  by rewrite (txid_body _ _ Hb), Hi, Hc, Hg.
Qed.

#[export] Instance toy_redeemer : Redeemer := {
  satisfy prog _ := Some (prog_cmr prog, []);
  pruned_bytes prog _ _ := (prog_cmr prog, []);
  cb_serialize cb := cb_internal_key cb
}.

#[export] Instance toy_redeemer_spec : RedeemerSpec toy_redeemer.
Proof. intros p wv E _. by eexists. Qed.

#[export] Instance toy_xonly : XOnlyParse := fun k => bool_decide (length k = 32%nat).

#[export] Instance toy_key_spend : KeySpend := {
  key_spend_hash tx i _ _ g := Some (sha256 (txid_of tx ++ be_bytes 4 (Z.of_nat i) ++ g));
  key_tweak kp := Some (tap_tweak kp None)
}.

#[export] Instance toy_key_spend_spec : KeySpendSpec toy_key_spend.
Proof. split; intros kp t [= <-]; done. Qed.

(** ** The deploy *)

Definition sample_artifacts : Artifacts :=
  match compile_artifacts sample_params with
  | Ok a => a
  | Err _ => mkArtifacts (mkProg Vault ∅ []) (mkProg Vault ∅ []) (mkProg Vault ∅ [])
               (mkProg Vault ∅ []) (mkProg Vault ∅ []) (mkInfo [] None []) (mkInfo [] None [])
  end.

Definition sample_ctx : Ctx := mkCtx sample_params sample_artifacts (be_bytes 32 9).

Lemma sample_deploy_ok : deploy_ok sample_ctx.
Proof.
  split; [|split_and!; repeat constructor; by vm_compute].
  apply compile_artifacts_ok. unfold sample_ctx, sample_artifacts. cbn [ctx_params ctx_artifacts].
  assert (Ho : is_ok (compile_artifacts sample_params) = true) by (vm_compute; reflexivity).
  by destruct (compile_artifacts sample_params).
Qed.

Lemma three_signed `{HL : Lib, !LibSpec HL} k1 k3 k5 pk2 pk4 h k p1 p3 p5 :
  0 <= BlockHeight.raw h < LOCK_TIME_HEIGHT_THRESHOLD -> u32 (RatioK.raw k) ->
  u32 (Price.raw p1) -> u32 (Price.raw p3) -> u32 (Price.raw p5) ->
  tick_signed [keypair_pk k1; pk2; keypair_pk k3; pk4; keypair_pk k5]
    (OracleTick.mk h k [Some (sign_quote k1 (mkPayload h p1 k)); None;
       Some (sign_quote k3 (mkPayload h p3 k)); None; Some (sign_quote k5 (mkPayload h p5 k))]).
Proof.
  intros Hh Hk H1 H3 H5. split; [split; [constructor|]|]; cbn;
    try done; [by repeat (apply Forall_cons; split; [done|])| |].
  { repeat (apply Forall_cons; split; [apply sign_length|]). done. }
  intros i pk q Hpk Hq.
  destruct i as [|[|[|[|[|i]]]]]; cbn in Hpk, Hq; simplify_eq; apply sign_verify.
Qed.

Lemma sample_tick_signed h k p1 p3 p5 :
  0 <= h < LOCK_TIME_HEIGHT_THRESHOLD -> u32 k -> u32 p1 -> u32 p3 -> u32 p5 ->
  tick_signed (oracle_pks sample_params) (signed_tick h k p1 p3 p5).
Proof.
  intros. exact (three_signed (be_bytes 32 11) (be_bytes 32 13) (be_bytes 32 15) (be_bytes 32 12)
    (be_bytes 32 14) (BlockHeight.new h) (RatioK.new k) (Price.new p1) (Price.new p3) (Price.new p5)
    ltac:(done) ltac:(done) ltac:(done) ltac:(done) ltac:(done)).
Qed.

(** ** The state the operations start from *)

Definition sample_owner : bytes := be_bytes 32 77.
Definition sample_wallet_spk : Script := byte_of_Z 0x51 :: be_bytes 32 99.
Definition sample_pot : OnChain PotState :=
  mkOn thePot (mkOutPoint (be_bytes 32 50) 0) (Obol.new 1000000000).
Definition sample_reserve : OnChain ReserveState :=
  mkOn theReserve (mkOutPoint (be_bytes 32 51) 0) (Sats.new 500000000).
Definition sample_issuer : OnChain IssuerState :=
  mkOn (mkIssuer (BlockHeight.new 900)) (mkOutPoint (be_bytes 32 52) 0) 1.
Definition sample_protocol : ProtocolState := mkProtocol sample_pot sample_reserve sample_issuer.
Definition sample_vault_on (debt coll : Z) : OnChain VaultState :=
  mkOn (mkVault (Obol.new debt) sample_owner (BlockHeight.new 500))
    (mkOutPoint (be_bytes 32 53) 0) (Sats.new coll).
Definition sample_funding : FundingCoin :=
  mkFunding (mkOutPoint (be_bytes 32 54) 1) (Sats.new 300000000) sample_wallet_spk.
Definition sample_obol : ObolCoin :=
  mkObolCoin (mkOutPoint (be_bytes 32 55) 2) (Obol.new 5000000) sample_wallet_spk.

Lemma sample_protocol_wf : protocol_wf sample_protocol.
Proof. split_and!; by vm_compute. Qed.

(** ** The builder theorems, applied *)

Definition sample_tick_at (h price : Z) : OracleTick.t := signed_tick h 260000000 price price price.

Lemma sample_tick_at_signed h p :
  0 <= h < LOCK_TIME_HEIGHT_THRESHOLD -> u32 p ->
  tick_signed (oracle_pks (ctx_params sample_ctx)) (sample_tick_at h p).
Proof. intros. by apply sample_tick_signed. Qed.

(** A builder that succeeds by evaluation. *)
Lemma is_ok_inv {E A} (r : result E A) : is_ok r = true -> exists a, r = Ok a.
Proof. destruct r; [eauto|done]. Qed.

(** Fact by evaluation: amounts, ranges, lengths. *)
Ltac eval_fact := lazymatch goal with
  | |- deploy_ok _ => exact sample_deploy_ok
  | |- protocol_wf _ => exact sample_protocol_wf
  | |- tick_signed _ _ =>
      apply sample_tick_at_signed; split; vm_compute; congruence
  | |- _ = _ => vm_compute; reflexivity
  | |- _ => repeat split; vm_compute; congruence
  end.

Definition sample_poke : PokeIntent :=
  mkPokeIntent (sample_tick_at 1000 60000) sample_funding sample_wallet_spk (Sats.new 1000).

Lemma poke_sound_witness :
  exists b, poke sample_ctx sample_issuer sample_poke = Ok b /\
    finalizes sample_ctx (plan b) /\ balanced (plan b).
Proof.
  destruct (is_ok_inv (poke sample_ctx sample_issuer sample_poke)) as [b Hb];
    [vm_compute; reflexivity|]. exists b. split; [exact Hb|].
  refine (let H := poke_sound sample_ctx _ sample_issuer sample_poke b _ _ _ _ Hb in
    conj (proj1 H) (proj1 (proj2 H))); eval_fact.
Defined.

Definition sample_refresh : RefreshIntent :=
  mkRefreshIntent (sample_tick_at 1000 60000) sample_funding sample_wallet_spk (Sats.new 1000).
Definition healthy_vault : OnChain VaultState := sample_vault_on 1000000 40000000.

Lemma refresh_sound_witness :
  exists b, refresh sample_ctx healthy_vault sample_refresh = Ok b /\
    finalizes sample_ctx (plan b) /\ balanced (plan b).
Proof.
  destruct (is_ok_inv (refresh sample_ctx healthy_vault sample_refresh)) as [b Hb];
    [vm_compute; reflexivity|]. exists b. split; [exact Hb|].
  refine (let H := refresh_sound sample_ctx _ healthy_vault sample_refresh b _ _ _ _ Hb in
    conj (proj1 H) (proj1 (proj2 H))); eval_fact.
Defined.

Definition sample_open : OpenIntent :=
  mkOpenIntent sample_owner (Obol.new 1000000) (Sats.new 40000000) sample_wallet_spk
    (mkFunding (mkOutPoint (be_bytes 32 54) 1)
       (Sats.new (40000000 + Sats.raw (coll_at_cr 1000000 (Price.new 60000) K_FEE_HALF_PERCENT) + 1000))
       sample_wallet_spk)
    (sample_tick_at 1000 60000) (Sats.new 1000).

Lemma open_sound_witness :
  exists b, open sample_ctx sample_protocol sample_open = Ok b /\
    finalizes sample_ctx (plan b) /\ balanced (plan b).
Proof.
  destruct (is_ok_inv (open sample_ctx sample_protocol sample_open)) as [b Hb];
    [vm_compute; reflexivity|]. exists b. split; [exact Hb|].
  refine (let H := open_sound sample_ctx _ sample_protocol sample_open b _ _ _ _ _ _ _ Hb in
    conj (proj1 H) (proj1 (proj2 H))); eval_fact.
Defined.

Definition sample_repay : RepayIntent :=
  mkRepayIntent (Obol.new 400000) sample_obol sample_wallet_spk sample_funding sample_wallet_spk
    (Sats.new 1000).

Lemma repay_sound_witness :
  exists b, repay sample_ctx sample_pot healthy_vault sample_repay = Ok b /\
    owner_finalizes sample_ctx (plan b) sample_owner /\ balanced (plan b).
Proof.
  destruct (is_ok_inv (repay sample_ctx sample_pot healthy_vault sample_repay)) as [b Hb];
    [vm_compute; reflexivity|]. exists b. split; [exact Hb|].
  refine (let H := repay_sound sample_ctx _ sample_pot healthy_vault sample_repay sample_owner b
    _ _ _ _ _ _ _ _ Hb in conj (proj1 H) (proj1 (proj2 H))); eval_fact.
Defined.

Definition sample_close : CloseIntent :=
  mkCloseIntent sample_obol sample_wallet_spk sample_wallet_spk (Sats.new 1000).

Lemma close_sound_witness :
  exists b, close sample_ctx sample_pot healthy_vault sample_close = Ok b /\
    owner_finalizes sample_ctx (plan b) sample_owner /\ balanced (plan b).
Proof.
  destruct (is_ok_inv (close sample_ctx sample_pot healthy_vault sample_close)) as [b Hb];
    [vm_compute; reflexivity|]. exists b. split; [exact Hb|].
  refine (let H := close_sound sample_ctx _ sample_pot healthy_vault sample_close sample_owner b
    _ _ _ _ _ _ Hb in conj (proj1 H) (proj1 (proj2 H))); eval_fact.
Defined.

Definition sample_draw : DrawIntent :=
  mkDrawIntent (Obol.new 100000) sample_wallet_spk (sample_tick_at 1000 60000) (Sats.new 1000).
Definition rich_vault : OnChain VaultState := sample_vault_on 1000000 80000000.

Lemma draw_sound_witness :
  exists b, draw sample_ctx sample_protocol rich_vault sample_draw = Ok b /\
    owner_finalizes sample_ctx (plan b) sample_owner /\ balanced (plan b).
Proof.
  destruct (is_ok_inv (draw sample_ctx sample_protocol rich_vault sample_draw)) as [b Hb];
    [vm_compute; reflexivity|]. exists b. split; [exact Hb|].
  refine (let H := draw_sound sample_ctx _ sample_protocol rich_vault sample_draw sample_owner b
    _ _ _ _ _ _ Hb in conj (proj1 H) (proj1 (proj2 H))); eval_fact.
Defined.

(** A vault of 10,000 OBOL at a collateral ratio of [k] under the sample price. *)
Definition vault_at_ratio (k : Z) : OnChain VaultState :=
  sample_vault_on 1000000 (Sats.raw (coll_at_cr 1000000 (Price.new 60000) (RatioK.new k))).

Definition sample_liquidate : LiquidateIntent :=
  mkLiquidateIntent (Obol.new 500000)
    (coll_at_cr 500000 (Price.new 60000) (RatioK.new 268000000))
    sample_obol sample_wallet_spk sample_wallet_spk (sample_tick_at 1000 60000) (Sats.new 1000).

Lemma liquidate_sound_witness :
  exists b, liquidate sample_ctx sample_protocol (vault_at_ratio 240000000) sample_liquidate = Ok b /\
    finalizes sample_ctx (plan b) /\ balanced (plan b).
Proof.
  destruct (is_ok_inv (liquidate sample_ctx sample_protocol (vault_at_ratio 240000000)
    sample_liquidate)) as [b Hb]; [vm_compute; reflexivity|]. exists b. split; [exact Hb|].
  refine (let H := liquidate_sound sample_ctx _ sample_protocol (vault_at_ratio 240000000)
    sample_liquidate b _ _ _ _ _ _ _ Hb in conj (proj1 H) (proj1 (proj2 H))); eval_fact.
Defined.

Definition sample_full_liq : FullLiqIntent :=
  mkFullLiqIntent sample_obol sample_wallet_spk sample_wallet_spk (sample_tick_at 1000 60000)
    (Sats.new 1000).

Lemma full_liq_sound_witness :
  exists b, full_liq sample_ctx sample_protocol (vault_at_ratio 220000000) sample_full_liq = Ok b /\
    finalizes sample_ctx (plan b).
Proof.
  destruct (is_ok_inv (full_liq sample_ctx sample_protocol (vault_at_ratio 220000000)
    sample_full_liq)) as [b Hb]; [vm_compute; reflexivity|]. exists b. split; [exact Hb|].
  refine (proj1 (full_liq_sound sample_ctx _ sample_protocol (vault_at_ratio 220000000)
    sample_full_liq b _ _ _ _ _ Hb)); eval_fact.
Defined.

Definition sample_bad_debt : BadDebtIntent :=
  mkBadDebtIntent sample_obol sample_wallet_spk sample_wallet_spk sample_funding sample_wallet_spk
    (sample_tick_at 1000 60000) (Sats.new 1000).

Lemma bad_debt_sound_witness :
  exists b, bad_debt sample_ctx sample_protocol (vault_at_ratio 180000000) sample_bad_debt = Ok b /\
    finalizes sample_ctx (plan b) /\ balanced (plan b).
Proof.
  destruct (is_ok_inv (bad_debt sample_ctx sample_protocol (vault_at_ratio 180000000)
    sample_bad_debt)) as [b Hb]; [vm_compute; reflexivity|]. exists b. split; [exact Hb|].
  refine (let H := bad_debt_sound sample_ctx _ sample_protocol (vault_at_ratio 180000000)
    sample_bad_debt b _ _ _ _ _ _ Hb in conj (proj1 H) (proj1 (proj2 H))); eval_fact.
Defined.

Definition sample_redeem : RedeemIntent :=
  mkRedeemIntent (Obol.new 100000) sample_obol sample_wallet_spk sample_wallet_spk
    (sample_tick_at 1000 60000) (Sats.new 1000).

Lemma redeem_sound_witness :
  exists b, redeem sample_ctx sample_protocol (vault_at_ratio 300000000) sample_redeem = Ok b /\
    finalizes sample_ctx (plan b) /\ balanced (plan b).
Proof.
  destruct (is_ok_inv (redeem sample_ctx sample_protocol (vault_at_ratio 300000000)
    sample_redeem)) as [b Hb]; [vm_compute; reflexivity|]. exists b. split; [exact Hb|].
  refine (let H := redeem_sound sample_ctx _ sample_protocol (vault_at_ratio 300000000)
    sample_redeem b _ _ _ _ _ _ _ Hb in conj (proj1 H) (proj1 (proj2 H))); eval_fact.
Defined.

(** ** Signing, applied *)

Definition sample_plan : TxPlan :=
  plan (repay_unchecked sample_ctx sample_pot healthy_vault sample_repay).

Lemma external_sign_agrees_witness :
  exists plan' digest, owner_sign sample_ctx sample_plan sample_owner = Ok plan' /\
    apply_owner_sig sample_ctx sample_plan (hex (sign_schnorr sample_owner digest)) = Ok plan'.
Proof.
  destruct (is_ok_inv (owner_sign sample_ctx sample_plan sample_owner)) as [p' Hp];
    [vm_compute; reflexivity|].
  destruct (external_sign_agrees (HL := toy_lib) sample_ctx sample_plan p' sample_owner
    ltac:(vm_compute; reflexivity) Hp)
    as (digest & _ & Ha).
  exists p', digest. split; [exact Hp|exact Ha].
Defined.

Definition sample_digest : bytes :=
  match vault_sighash sample_ctx sample_plan with Ok d => d | Err _ => [] end.

Lemma apply_owner_sig_safe_witness :
  exists plan', apply_owner_sig sample_ctx sample_plan
      (hex (sign_schnorr sample_owner sample_digest)) = Ok plan' /\
    p_tx plan' = p_tx sample_plan.
Proof.
  destruct (is_ok_inv (apply_owner_sig sample_ctx sample_plan
    (hex (sign_schnorr sample_owner sample_digest)))) as [p' Hp]; [vm_compute; reflexivity|].
  exists p'. split; [exact Hp|].
  destruct (apply_owner_sig_safe sample_ctx sample_plan p' _ Hp)
    as (? & ? & ? & _ & _ & _ & _ & _ & _ & Htx & _). exact Htx.
Defined.

(** A refresh plan funded by a key-path coin of the wallet, and its PSET. *)
Definition sample_key : bytes := be_bytes 32 88.
Definition sample_refresh_plan : TxPlan :=
  plan (refresh_unchecked sample_ctx healthy_vault
    (mkRefreshIntent (sample_tick_at 1000 60000)
       (mkFunding (mkOutPoint (be_bytes 32 54) 1) (Sats.new 300000000)
          (byte_of_Z 0x51 :: byte_of_Z 0x20 :: tap_tweak sample_key None))
       sample_wallet_spk (Sats.new 1000))).
Definition sample_pset : Pset :=
  match to_pset sample_ctx sample_refresh_plan with Ok p => p | Err _ => mkPset (mkTx 0 0 [] []) [] end.
Definition sample_signed_pset : Pset :=
  match sign_funding sample_ctx sample_refresh_plan sample_pset 1 sample_key with
  | Ok p => p | Err _ => sample_pset end.

Lemma finalize_pset_safe_witness :
  exists tx, finalize_pset sample_ctx sample_refresh_plan sample_signed_pset = Ok tx /\
    body tx = body (p_tx sample_refresh_plan).
Proof.
  destruct (is_ok_inv (finalize_pset sample_ctx sample_refresh_plan sample_signed_pset)) as [tx Ht];
    [vm_compute; reflexivity|]. exists tx. split; [exact Ht|].
  destruct (finalize_pset_safe sample_ctx sample_refresh_plan _ tx Ht) as (? & _ & Hb & _). exact Hb.
Defined.

Lemma sign_funding_finalizes_witness :
  exists ps' tx', sign_funding sample_ctx sample_refresh_plan sample_pset 1 sample_key = Ok ps' /\
    finalize_pset sample_ctx sample_refresh_plan ps' = Ok tx'.
Proof.
  destruct (is_ok_inv (finalize_pset sample_ctx sample_refresh_plan sample_pset)) as [tx Ht];
    [vm_compute; reflexivity|].
  destruct (is_ok_inv (sign_funding sample_ctx sample_refresh_plan sample_pset 1 sample_key))
    as [ps' Hs]; [vm_compute; reflexivity|].
  destruct (sign_funding_finalizes (HL := toy_lib) sample_ctx sample_refresh_plan sample_pset ps' 1 sample_key _ tx
    Ht eq_refl ltac:(vm_compute; reflexivity) (ex_intro _ _ eq_refl) Hs) as [tx' Ht'].
  exists ps', tx'. split; [exact Hs|exact Ht'].
Defined.

(** ** The protocol and its index, applied *)

Definition lean_vault : OnChain VaultState := vault_at_ratio 240000000.
Definition sample_sys : Sys := mkSys sample_protocol {[outpoint lean_vault := lean_vault]}.
Definition sample_liq : Built LiquidateDelta :=
  liquidate_unchecked sample_ctx sample_protocol lean_vault sample_liquidate.
Definition sample_sys' : Sys :=
  mkSys (mkProtocol (ld_pot (expected sample_liq)) (ld_reserve (expected sample_liq)) sample_issuer)
    (replace_vault lean_vault (ld_vault (expected sample_liq)) {[outpoint lean_vault := lean_vault]}).

Lemma sample_vault_only op v :
  sys_vaults sample_sys !! op = Some v -> op = outpoint lean_vault /\ v = lean_vault.
Proof. unfold sample_sys. cbn [sys_vaults]. intros [<- <-]%lookup_singleton_Some. done. Qed.

Lemma sample_sys_wf : sys_wf sample_sys.
Proof.
  split.
  - exact sample_protocol_wf.
  - reflexivity.
  - intros op v [-> ->]%sample_vault_only.
    split; [reflexivity|repeat split; vm_compute; congruence|split; vm_compute; congruence].
  - vm_compute. congruence.
  - apply NoDup3. split_and!; vm_compute; congruence.
  - vm_compute. reflexivity.
  - vm_compute. reflexivity.
  - vm_compute. reflexivity.
Qed.

Lemma sample_confirmed : confirmed sample_sys (plan sample_liq).
Proof.
  split.
  - intros op Hl. assert (Hop : op = outpoint sample_pot \/ op = outpoint sample_reserve \/
      op = outpoint sample_issuer \/ op = outpoint lean_vault).
    { destruct Hl as [? | [? | [? | [v Hv]]]]; auto. do 3 right.
      by apply sample_vault_only in Hv as [-> _]. }
    destruct Hop as [-> | [-> | [-> | ->]]]; vm_compute; congruence.
  - assert (Hall : Forall (fun o => match to_value o with VExplicit v => v <= MAX_MONEY | _ => True end)
      (output (p_tx (plan sample_liq)))).
    { repeat (apply Forall_cons; split; [vm_compute; congruence|]). apply Forall_nil_2. }
    intros o v Ho Hv. rewrite Forall_forall in Hall. specialize (Hall o Ho). by rewrite Hv in Hall.
Qed.

Lemma sample_step : step sample_ctx sample_sys (plan sample_liq) sample_sys'.
Proof.
  apply (step_liquidate sample_ctx sample_sys lean_vault sample_liquidate sample_liq).
  - vm_compute. reflexivity.
  - eval_fact.
  - eval_fact.
  - eval_fact.
  - eval_fact.
  - eval_fact.
  - intros [? | [? | [? | [v Hv]]]]; [by vm_compute in *..|].
    apply sample_vault_only in Hv as [Hv _]. by vm_compute in Hv.
  - vm_compute. reflexivity.
  - exact sample_confirmed.
Qed.

Lemma supply_conserved_witness :
  sys_wf sample_sys' /\ supply sample_sys' = supply sample_sys.
Proof.
  exact (supply_conserved sample_ctx sample_sys [plan sample_liq] sample_sys' sample_sys_wf
    (steps_cons _ _ _ _ _ _ sample_step (steps_nil _ _))).
Defined.

Lemma step_ratchets_witness :
  BlockHeight.raw (last_mint_height (state (issuer (sys_protocol sample_sys)))) <=
  BlockHeight.raw (last_mint_height (state (issuer (sys_protocol sample_sys')))).
Proof. exact (proj1 (step_ratchets sample_ctx sample_sys _ sample_sys' sample_sys_wf sample_step)). Defined.

Lemma permissionless_take_bounded_witness :
  exists t, tick_signed (oracle_pks (ctx_params sample_ctx)) t /\
    Sats.raw (oc_value lean_vault) - Sats.raw (lq_residual sample_liquidate) <=
      at_cr (Obol.raw (debt (state lean_vault)) - 500000) (OracleTick.hi t) K_FULL_LIQ_CAP.
Proof.
  destruct (permissionless_take_bounded sample_ctx sample_sys (plan sample_liq) sample_sys' lean_vault
    sample_sys_wf sample_step ltac:(vm_compute; reflexivity) ltac:(vm_compute; reflexivity)
    ltac:(vm_compute; reflexivity)) as (t & Ht & Hb).
  exists t. split; [exact Ht|].
  assert (E : left_of sample_sys' (plan sample_liq) = (Sats.raw (lq_residual sample_liquidate), 500000))
    by (vm_compute; reflexivity).
  rewrite E in Hb. exact Hb.
Defined.

Definition sample_index : IndexState :=
  mkIndex 999 (be_bytes 32 5) (Some sample_pot) (Some sample_reserve) (Some sample_issuer)
    (tracked_of sample_ctx <$> sys_vaults sample_sys) ∅.

Lemma sample_synced : synced sample_ctx sample_sys sample_index.
Proof. by split. Qed.

Lemma sample_indexable : indexable sample_ctx sample_sys' (plan sample_liq).
Proof.
  split.
  - vm_compute. lia.
  - intros o x _ _. exists (ld_vault (expected sample_liq)). vm_compute. reflexivity.
  - assert (Hall : Forall (fun sl => match ws_kind sl with
        | KVault x (VFullLiq _) => Obol.raw (debt x) <> 0
        | _ => True end) (p_slots (plan sample_liq))).
    { repeat (apply Forall_cons; split; [exact I|]). apply Forall_nil_2. }
    intros sl Hsl. rewrite Forall_forall in Hall. by apply Hall.
Qed.

Lemma sample_owner_resolves v :
  newborn sample_sys sample_sys' v -> owner_resolves sample_ctx [sample_owner] (p_tx (plan sample_liq)) v.
Proof.
  intros [Hn Hs]. apply (f_equal size) in Hs. rewrite map_size_insert_None in Hs by exact Hn.
  vm_compute in Hs. discriminate Hs.
Qed.

(** The owner of a vault that is opened, too, when it is a candidate: the unsigned transaction
    shows no other. *)
Example sample_open_resolves :
  match open sample_ctx sample_protocol sample_open with
  | Ok b => owner_resolves sample_ctx [op_owner sample_open] (p_tx (plan b)) (od_vault (expected b))
  | Err _ => False
  end.
Proof.
  destruct (is_ok_inv (open sample_ctx sample_protocol sample_open)) as [b Hb]; [vm_compute; reflexivity|].
  assert (Hc : match open sample_ctx sample_protocol sample_open with
    | Ok b => forallb (fun t => bool_decide (script_witness t = [])) (input (p_tx (plan b))) &&
              bool_decide (owner (state (od_vault (expected b))) = op_owner sample_open)
    | Err _ => false end = true) by (vm_compute; reflexivity).
  rewrite Hb in *. apply andb_true_iff in Hc as [Hw Ho%bool_decide_eq_true].
  unfold owner_resolves. rewrite Ho. split; [left; by left|]. intros c [Hin|(t & e & k & Ht & He & _)] _.
  - by apply list_elem_of_singleton in Hin.
  - rewrite forallb_forall in Hw. apply list_elem_of_lookup_2, list_elem_of_In, Hw, bool_decide_eq_true in Ht.
    rewrite Ht in He. by apply elem_of_nil in He.
Qed.

Lemma index_follows_witness :
  synced sample_ctx sample_sys'
    (apply_tx sample_ctx [sample_owner] 1000 (p_tx (plan sample_liq)) sample_index).1.
Proof.
  exact (index_follows sample_ctx [sample_owner] 1000 sample_sys (plan sample_liq) sample_sys'
    sample_index (p_tx (plan sample_liq)) sample_deploy_ok sample_sys_wf sample_synced sample_step
    sample_indexable sample_owner_resolves eq_refl ltac:(vm_compute; congruence)).
Defined.

Lemma apply_tx_tracks_witness :
  tracks sample_ctx [p_tx (plan sample_liq)]
    (apply_tx sample_ctx [] 1000 (p_tx (plan sample_liq)) (genesis (be_bytes 32 5))).1.
Proof.
  refine (apply_tx_tracks sample_ctx [] 1000 (p_tx (plan sample_liq)) [] (genesis (be_bytes 32 5)) _).
  split; intros; discriminate.
Defined.

(** The intent of a repayment of zero cents. *)
Definition zero_repay : RepayIntent :=
  mkRepayIntent (Obol.new 0) sample_obol sample_wallet_spk sample_funding sample_wallet_spk
    (Sats.new 1000).

(** A repayment of zero passes the builder and every covenant input of its transaction, and
    an index in step with the live coins then loses the vault that is still on chain: the pot
    did not grow, so the spend is taken for none of the vault's operations. *)
Theorem zero_repay_drops_vault :
  exists b, repay sample_ctx sample_pot lean_vault zero_repay = Ok b /\
  let st' := (apply_tx sample_ctx [sample_owner] 1000 (p_tx (plan b)) sample_index).1 in
  ix_vaults st' = ∅ /\ is_Some (ix_lost st' !! outpoint lean_vault).
Proof.
  exists (repay_unchecked sample_ctx sample_pot lean_vault zero_repay).
  split; [vm_compute; reflexivity|]. split; vm_compute; eauto.
Qed.
