(* ===== verification/ToyHost.v ===== *)
(** * A concrete host

    Executable stand-ins for what the wallet runs on: text forms, the JSON of a snapshot,
    an in-memory disk and a node with fixed coins.  The laws the theorems ask of them hold
    by evaluation or by a short proof; none is a model of the real library. *)

From Stdlib Require Import ZArith Lia.
From stdpp Require Import base gmap strings option list countable.
From S2P Require Import Prelude Units Elements Floats Toy Oracle Simf Encode Domain Artifacts Jets.
From S2P Require Import CovVault CovReserve CovIssuer Plan Effects Node Index Sync Snapshot Keeper.
From S2P Require Import Wallet IndexTyped Samples.

(** ** Text forms and order *)

#[export] Instance toy_display : Display := {
  show_hash h := h;
  parse_hash h := if bool_decide (length h = 32%nat) then Some h else None;
  show_pk k := k;
  parse_pk k := Some k;
  show_hex b := b;
  parse_hex b := Some b
}.
#[export] Instance toy_display_spec : DisplaySpec toy_display.
Proof. split; [|done|done]. intros h Hh. cbn. by rewrite bool_decide_eq_true_2. Qed.

#[export] Instance toy_order : OutPointOrder := fun a b =>
  be_value (op_txid a) * 4294967296 + op_vout a <=? be_value (op_txid b) * 4294967296 + op_vout b.

(** ** JSON: a document as a tree of leaves, written bit by bit *)

Definition Leaf : Type := Z + bytes + string.
Abbreviation Tree := (gen_tree Leaf).

Definition lz (x : Z) : Tree := GenLeaf (inl (inl x)).
Definition lb (x : bytes) : Tree := GenLeaf (inl (inr x)).
Definition ls (x : string) : Tree := GenLeaf (inr x).
Definition lo {A} (f : A -> Tree) (x : option A) : Tree :=
  match x with Some a => GenNode 1 [f a] | None => GenNode 0 [] end.

Definition zt (t : Tree) : Z := match t with GenLeaf (inl (inl x)) => x | _ => 0 end.
Definition bt (t : Tree) : bytes := match t with GenLeaf (inl (inr x)) => x | _ => [] end.
Definition st (t : Tree) : string := match t with GenLeaf (inr x) => x | _ => ""%string end.
Definition ot {A} (f : Tree -> A) (t : Tree) : option A :=
  match t with GenNode 1 [x] => Some (f x) | _ => None end.

Definition op_tree (d : OutPointDoc) : Tree := GenNode 0 [lb (od_txid d); lz (od_vout d)].
Definition tree_op (t : Tree) : OutPointDoc :=
  match t with GenNode _ [x; y] => mkOutPointDoc (bt x) (zt y) | _ => mkOutPointDoc [] 0 end.
Definition single_tree (d : SingletonDoc) : Tree := GenNode 0 [op_tree (sd_outpoint d); lz (sd_value d)].
Definition tree_single (t : Tree) : SingletonDoc :=
  match t with GenNode _ [x; y] => mkSingletonDoc (tree_op x) (zt y) | _ => mkSingletonDoc (tree_op t) 0 end.
Definition issuer_tree (d : IssuerDoc) : Tree := GenNode 0 [op_tree (id_outpoint d); lz (id_anchor d)].
Definition tree_issuer (t : Tree) : IssuerDoc :=
  match t with GenNode _ [x; y] => mkIssuerDoc (tree_op x) (zt y) | _ => mkIssuerDoc (tree_op t) 0 end.
Definition vault_tree (v : VaultDoc) : Tree :=
  GenNode 0 [op_tree (vd_outpoint v); lz (vd_debt v); lz (vd_last_height v); lz (vd_value v);
             lo lb (vd_owner v); lb (vd_spk v)].
Definition tree_vault (t : Tree) : VaultDoc :=
  match t with
  | GenNode _ [o; d; h; v; k; s] => mkVaultDoc (tree_op o) (zt d) (zt h) (zt v) (ot bt k) (bt s)
  | _ => mkVaultDoc (tree_op t) 0 0 0 None []
  end.
Definition lost_tree (l : LostDoc) : Tree :=
  GenNode 0 [op_tree (ld_vault l); lb (ld_txid l); ls (ld_reason l)].
Definition tree_lost (t : Tree) : LostDoc :=
  match t with
  | GenNode _ [o; x; r] => mkLostDoc (tree_op o) (bt x) (st r)
  | _ => mkLostDoc (tree_op t) [] ""
  end.
Definition tree_list (t : Tree) : list Tree := match t with GenNode _ l => l | _ => [] end.

Definition doc_tree (d : Doc) : Tree :=
  GenNode 0 [lz (dc_version d); lz (dc_height d); lb (dc_tip d); lo single_tree (dc_pot d);
    lo single_tree (dc_reserve d); lo issuer_tree (dc_issuer d);
    GenNode 0 (vault_tree <$> dc_vaults d); GenNode 0 (lost_tree <$> dc_lost d)].
Definition tree_doc (t : Tree) : option Doc :=
  match t with
  | GenNode _ [v; h; tip; q; r; i; vs; ls] =>
      Some (mkDoc (zt v) (zt h) (bt tip) (ot tree_single q) (ot tree_single r) (ot tree_issuer i)
              (tree_vault <$> tree_list vs) (tree_lost <$> tree_list ls))
  | _ => None
  end.

Lemma tree_vault_inv v : tree_vault (vault_tree v) = v.
Proof. by destruct v as [[? ?] ? ? ? [?|] ?]. Qed.
Lemma tree_lost_inv l : tree_lost (lost_tree l) = l.
Proof. by destruct l as [[? ?] ? ?]. Qed.
Lemma tree_doc_inv d : tree_doc (doc_tree d) = Some d.
Proof.
  destruct d as [v h t q r i vs ls]. cbn. rewrite <- !list_fmap_compose.
  rewrite (list_fmap_ext _ id vs), (list_fmap_ext _ id ls), !list_fmap_id.
  - destruct q as [[[? ?] ?]|], r as [[[? ?] ?]|], i as [[[? ?] ?]|]; done.
  - intros ? x _. apply tree_lost_inv.
  - intros ? x _. apply tree_vault_inv.
Qed.

Fixpoint bits_of (p : positive) : bytes :=
  match p with
  | xH => []
  | xO p => Byte.x00 :: bits_of p
  | xI p => Byte.x01 :: bits_of p
  end.
Fixpoint of_bits (l : bytes) : positive :=
  match l with
  | [] => xH
  | b :: l => if bool_decide (b = Byte.x01) then xI (of_bits l) else xO (of_bits l)
  end.
Lemma of_bits_of p : of_bits (bits_of p) = p.
Proof. induction p as [p IH|p IH|]; cbn; [by rewrite IH|by rewrite IH|done]. Qed.

#[export] Instance toy_json : Json := {
  to_json d := Ok (bits_of (encode (doc_tree d)));
  from_json l := ok_or "syntax"%string (t ← decode (of_bits l); tree_doc t)
}.
#[export] Instance toy_json_spec : JsonSpec toy_json.
Proof.
  intros d text [= <-]. cbn -[doc_tree tree_doc]. rewrite of_bits_of, decode_encode.
  cbn -[doc_tree tree_doc]. by rewrite tree_doc_inv.
Qed.

(** ** The disk: the target file and its sibling *)

Record ToyDisk : Type := mkToyDisk { td_file : option bytes; td_tmp : option bytes }.

#[export] Instance toy_disk : Disk ToyDisk := {
  file_exists d := bool_decide (is_Some (td_file d));
  read_file d := ok_or "no such file"%string (td_file d);
  write_tmp text d := (Ok tt, mkToyDisk (td_file d) (Some text));
  rename_tmp d := match td_tmp d with
                  | Some text => (Ok tt, mkToyDisk (Some text) None)
                  | None => (Err "no such file"%string, d)
                  end
}.
#[export] Instance toy_disk_spec : DiskSpec toy_disk.
Proof.
  split.
  - done.
  - intros d e d'. cbn. destruct (td_tmp d); [done|]. by intros [= _ <-].
  - intros text d d1 d' u u' [= _ <-] [= _ <-]. done.
Qed.

(** ** The node: a chain that ends at the indexed height or one block above it, with the
    sample liquidation, and coins by script *)

Definition toy_chain (moving : bool) : list (BlockHash * Block) :=
  (be_bytes 32 5, mkBlock [] []) ::
  if moving then [(be_bytes 32 6, mkBlock (be_bytes 32 5) [p_tx (plan sample_liq)])] else [].

Record ToyPurse : Type := mkPurse { tp_moving : bool; tp_coins : list (Script * Unspent) }.

#[export] Instance purse_rpc : Rpc ToyPurse := {
  getblockcount n := (Ok (if tp_moving n then 1000 else 999), n);
  getblockhash h n := (ok_or (RpcFailed "getblockhash" "Block height out of range")
                         (fst <$> toy_chain (tp_moving n) !! Z.to_nat (h - 999)), n);
  getblock hash n := (ok_or (RpcFailed "getblock" "Block not found")
                        (snd <$> head (filter (fun hb => hb.1 = hash) (toy_chain (tp_moving n)))), n);
  sendrawtransaction tx n := (Ok (txid_of tx), n);
  scantxoutset spk n := (Ok (snd <$> filter (fun c => c.1 = spk) (tp_coins n)), n);
  relayfee n := (Ok (Some (btc_of_sats 100)), n)
}.

Lemma toy_chain_typed moving hb :
  hb ∈ toy_chain moving -> length hb.1 = 32%nat /\ Forall tx_typed (txdata hb.2).
Proof.
  assert (Ht : Forall tx_typed [p_tx (plan sample_liq)]).
  { apply Forall_singleton. split; [by vm_compute|].
    assert (Hb : forallb (fun i => bool_decide (length (op_txid (previous_output i)) = 32%nat))
      (input (p_tx (plan sample_liq))) = true) by (vm_compute; reflexivity).
    rewrite Forall_forall. intros i Hi. rewrite List.forallb_forall in Hb.
    specialize (Hb i Hi). by apply bool_decide_eq_true in Hb. }
  unfold toy_chain. destruct moving; rewrite ?elem_of_cons.
  - intros [-> |[-> |?%not_elem_of_nil]]; [by split|by split|done].
  - intros [-> |?%not_elem_of_nil]; [by split|done].
Qed.

#[export] Instance purse_typed : RpcTyped (N := ToyPurse).
Proof.
  split.
  - intros h n hash n' Hg. unfold getblockhash, purse_rpc in Hg. cbv beta in Hg.
    destruct (toy_chain (tp_moving n) !! Z.to_nat (h - 999)) as [hb|] eqn:E; [|done].
    apply list_elem_of_lookup_2, toy_chain_typed in E as [? _]. by injection Hg as <- _.
  - intros hash n b n' Hg. unfold getblock, purse_rpc in Hg. cbv beta in Hg.
    destruct (filter _ (toy_chain (tp_moving n))) as [|hb l] eqn:E; [done|]. injection Hg as <- _.
    assert (Hin : hb ∈ filter (fun hb => hb.1 = hash) (toy_chain (tp_moving n)))
      by (rewrite E; by left).
    by apply list_elem_of_filter in Hin as [_ [_ Hin]%toy_chain_typed].
Qed.

(** Sizes: a fixed part and the outputs. *)
#[export] Instance toy_size : TxSize := fun tx => 500 + 40 * Z.of_nat (length (output tx)).
