(* ===== verification/SamplesWatch.v ===== *)
(** * The watchers on the concrete deploy

    A node that serves one chain, a book of quotes and a keeper's look at a vault, and the
    theorems of [Quotes], [Decide] and [Sync] applied to them. *)

From Stdlib Require Import ZArith Lia.
From stdpp Require Import base gmap strings option list.
From S2P Require Import Prelude Hex Units CrMath Elements Floats Toy Oracle Simf Domain Encode Artifacts.
From S2P Require Import Jets CovVault CovReserve CovIssuer Plan BuildOwner BuildKeeper Accept.
From S2P Require Import CovLemmas CovAccept Sound SoundOwner SoundKeeper Pset Protocol Index.
From S2P Require Import IndexSpec IndexSim Quotes Decide Effects Node Sync Samples.

(** ** Quotes *)

Definition sample_pks : list XOnlyPublicKey := oracle_pks sample_params.
Definition sample_height : BlockHeight.t := BlockHeight.new 1000.
Definition sample_ratio : RatioK.t := RatioK.new 260000000.

(** Three oracles of the sample deploy, with the prices they publish. *)
Definition sample_oracle (i key price : Z) : OracleSlot.t * bytes * Price.t :=
  (OracleSlot.mk i, be_bytes 32 key, Price.new price).
Definition sample_oracles : list (OracleSlot.t * bytes * Price.t) :=
  [sample_oracle 0 11 60000; sample_oracle 2 13 60100; sample_oracle 4 15 59900].

Definition sample_quotes : list (WireQuote.t * BlockHeight.t) :=
  (fun o => (honest_quote sample_height sample_ratio o, sample_height)) <$> sample_oracles.

Lemma assembled_tick_signed_witness :
  exists b t, absorb_all (QuoteBook.new sample_pks) sample_quotes = Some b /\
    QuoteBook.assemble_tick b sample_height = Some t /\ tick_signed sample_pks t.
Proof.
  destruct (absorb_all (QuoteBook.new sample_pks) sample_quotes) as [b|] eqn:Eb;
    [|by vm_compute in Eb].
  assert (Ht : is_Some (b0 ← absorb_all (QuoteBook.new sample_pks) sample_quotes;
    QuoteBook.assemble_tick b0 sample_height)).
  { apply (bool_decide_eq_true_1 _). vm_compute. reflexivity. }
  rewrite Eb in Ht. destruct Ht as [t Ht]. exists b, t. split; [done|]. split; [exact Ht|].
  refine (proj1 (proj2 (assembled_tick_signed sample_pks sample_quotes b sample_height t
    eq_refl _ Eb Ht))).
  unfold sample_quotes, sample_oracles. cbn [fmap list_fmap].
  repeat (apply Forall_cons; split; [repeat split; vm_compute; congruence|]). apply Forall_nil_2.
Defined.

Lemma quorum_assembles_witness :
  exists b t, absorb_all (QuoteBook.new sample_pks) sample_quotes = Some b /\
    QuoteBook.assemble_tick b sample_height = Some t.
Proof.
  destruct (quorum_assembles (QuoteBook.new sample_pks) sample_height sample_height sample_ratio
    (sample_oracle 0 11 60000) (sample_oracle 2 13 60100) (sample_oracle 4 15 59900)
    (new_wf sample_pks eq_refl)) as (b & t & Hb & Ht & _).
  - apply (bool_decide_eq_true_1 _). vm_compute. reflexivity.
  - repeat (apply Forall_cons; split; [repeat split; vm_compute; congruence|]). apply Forall_nil_2.
  - exists b, t. split; [exact Hb|exact Ht].
Defined.

Lemma insert_spec_witness :
  exists b', QuoteBook.insert (QuoteBook.new sample_pks)
      (honest_quote sample_height sample_ratio (sample_oracle 2 13 60100)) sample_height = Some (Ok b') /\
    is_Some (cached b' 1000 2).
Proof.
  assert (Hq : wire_wf (honest_quote sample_height sample_ratio (sample_oracle 2 13 60100)))
    by (repeat split; vm_compute; congruence).
  pose proof (insert_spec (QuoteBook.new sample_pks)
    (honest_quote sample_height sample_ratio (sample_oracle 2 13 60100)) sample_height
    (new_wf sample_pks eq_refl) Hq) as Hi.
  destruct (QuoteBook.insert _ _ _) as [[b'|e]|] eqn:E; [|by vm_compute in E..].
  exists b'. split; [done|]. destruct Hi as (_ & pk & sig & _ & _ & Hc).
  rewrite (Hc 1000 2%nat). vm_compute. by eexists.
Defined.

Lemma poison_panics_witness :
  QuoteBook.insert (QuoteBook.new sample_pks) (poison sample_height) sample_height = None.
Proof. apply (poison_panics sample_pks sample_height). split; vm_compute; congruence. Defined.

(** ** Decisions *)

(** A vault of 98 dollars at 120 per cent. *)
Lemma plan_partial_optimal_witness :
  exists dd res, plan_partial (Obol.new 9800) (Sats.new 196000) (Price.new 60000) (Sats.new 100)
      = Some (dd, res) /\
    forall dd' res', admissible 9800 196000 100 (Price.new 60000) dd' res' -> dd' <= Obol.raw dd.
Proof.
  pose proof (plan_partial_optimal 9800 196000 100 (Price.new 60000)
    ltac:(split; vm_compute; congruence) ltac:(split; vm_compute; congruence)
    ltac:(vm_compute; congruence) ltac:(split; vm_compute; congruence)) as Hp.
  destruct (plan_partial _ _ _ _) as [[dd res]|] eqn:E; [|by vm_compute in E].
  exists dd, res. split; [done|]. intros dd' res' Ha. by apply Hp in Ha as [? _].
Defined.

Lemma decide_agrees_witness :
  Ladder.decide lean_vault (sample_tick_at 1000 60000) (BlockHeight.new 900) 144 (Sats.new 1000)
    <> Action.Nothing /\
  verdict_ok sample_ctx sample_protocol lean_vault (sample_tick_at 1000 60000) (Sats.new 1000)
    (Ladder.decide lean_vault (sample_tick_at 1000 60000) (BlockHeight.new 900) 144 (Sats.new 1000)).
Proof.
  split; [vm_compute; congruence|].
  refine (proj1 (decide_agrees sample_ctx sample_protocol lean_vault (sample_tick_at 1000 60000) 144
    (Sats.new 1000) _ _ _ _)).
  - split; [repeat split; vm_compute; congruence|split; vm_compute; congruence].
  - exact (proj1 (proj1 (sample_tick_at_signed 1000 60000
      ltac:(split; vm_compute; congruence) ltac:(split; vm_compute; congruence)))).
  - vm_compute. reflexivity.
  - split; vm_compute; congruence.
Defined.

(** ** Catch-up *)

(** A node at height 1000 whose last block holds the sample liquidation. *)
Definition sample_chain : list (BlockHash * Block) :=
  replicate 1000 (be_bytes 32 5, mkBlock [] []) ++
  [(be_bytes 32 6, mkBlock (be_bytes 32 5) [p_tx (plan sample_liq)])].

Definition chain_block_of (chain : list (BlockHash * Block)) (hash : BlockHash) : option Block :=
  snd <$> head (filter (fun hb => hb.1 = hash) chain).

Inductive ToyNode : Type := toy_node.

#[export] Instance toy_rpc : Rpc ToyNode := {
  getblockcount n := (Ok (Z.of_nat (length sample_chain) - 1), n);
  getblockhash h n := (ok_or (RpcFailed "getblockhash" "Block height out of range")
                         (fst <$> sample_chain !! Z.to_nat h), n);
  getblock hash n := (ok_or (RpcFailed "getblock" "Block not found")
                        (chain_block_of sample_chain hash), n);
  sendrawtransaction tx n := (Ok (txid_of tx), n);
  scantxoutset spk n := (Ok [], n);
  relayfee n := (Ok (Some (btc_of_sats 100)), n)
}.

Lemma sample_serves : serves sample_chain.
Proof.
  split; [|by intros n h n' [= <- _]]. split.
  - intros h n hash n' Hg _. change (getblockhash h n) with
      (ok_or (RpcFailed "getblockhash" "Block height out of range")
         (fst <$> sample_chain !! Z.to_nat h), n) in Hg.
    destruct (sample_chain !! Z.to_nat h) as [[x b]|]; [|done]. injection Hg as <- _. by exists b.
  - intros h hash b b' n n' Hl Hg. change (getblock hash n) with
      (ok_or (RpcFailed "getblock" "Block not found") (chain_block_of sample_chain hash), n) in Hg.
    destruct (chain_block_of sample_chain hash) as [b1|] eqn:Eb; [|done]. injection Hg as <- _.
    unfold sample_chain in Hl. apply lookup_app_Some in Hl as [Hl|[_ Hl]].
    + apply lookup_replicate in Hl as [[= -> ->] _]. vm_compute in Eb. by injection Eb as <-.
    + apply list_lookup_singleton_Some in Hl as [_ Hl]. injection Hl as <- <-.
      apply (inj Some). rewrite <- Eb. vm_compute. reflexivity.
Qed.

Lemma sample_catch_up :
  exists ns st', catch_up sample_ctx [sample_owner] (toy_node, sample_index) = (Ok ns, (toy_node, st')).
Proof.
  assert (Hr : is_ok (catch_up sample_ctx [sample_owner] (toy_node, sample_index)).1 = true)
    by (vm_compute; reflexivity).
  destruct (catch_up _ _ _) as [[ns|e] [[] st']]; [|done]. by exists ns, st'.
Qed.

Lemma catch_up_resumes_witness :
  exists ns st', catch_up sample_ctx [sample_owner] (toy_node, sample_index) = (Ok ns, (toy_node, st')) /\
    replay sample_ctx [sample_owner] 1000 (unseen sample_chain sample_index) sample_index = (st', ns).
Proof.
  destruct sample_catch_up as (ns & st' & Hc). exists ns, st'. split; [exact Hc|].
  destruct (catch_up_resumes sample_ctx [sample_owner] sample_chain sample_serves toy_node
    sample_index (Ok ns) toy_node st' ltac:(split; vm_compute; congruence) Hc)
    as (k & ns' & Hr & [-> ->] & _).
  rewrite firstn_all in Hr. exact Hr.
Defined.

Lemma catch_up_follows_witness :
  exists st', (catch_up sample_ctx [sample_owner] (toy_node, sample_index)).2 = (toy_node, st') /\
    synced sample_ctx sample_sys' st'.
Proof.
  destruct sample_catch_up as (ns & st' & Hc). exists st'. rewrite Hc. split; [reflexivity|].
  refine (catch_up_follows sample_ctx [sample_owner] sample_chain sample_serves toy_node sample_index
    ns toy_node st' sample_sys sample_sys' sample_deploy_ok sample_sys_wf sample_synced _ _ Hc);
    [split; vm_compute; congruence|].
  change (unseen sample_chain sample_index) with
    [(be_bytes 32 6, mkBlock (be_bytes 32 5) [p_tx (plan sample_liq)])].
  eapply chain_block; [|apply chain_nil].
  eapply evolves_step; [exact sample_step|exact sample_indexable|vm_compute; reflexivity|exact sample_owner_resolves
    |reflexivity|vm_compute; congruence|apply evolves_nil].
Defined.
