(* ===== verification/SamplesWallet.v ===== *)
(** * The wallet and the keeper on the concrete deploy

    A purse on the host of [ToyHost], over the index of [Samples] with its thinly
    collateralised vault, and the theorems on sessions, operations and steps applied to it. *)

From Stdlib Require Import ZArith Lia Sorted.
From stdpp Require Import base gmap strings option list.
From S2P Require Import Prelude Hex Units CrMath Elements Floats Toy Oracle Simf Domain Encode Artifacts.
From S2P Require Import Jets CovVault CovReserve CovIssuer Plan BuildOwner BuildKeeper Accept Decide Pset.
From S2P Require Import Index Quotes Effects Node Sync Snapshot Config Wallet IndexTyped Ops.
From S2P Require Import WalletSpec OpsSpec OpsCases Keeper KeeperSpec Patrol Samples ToyHost.

Definition purse_key : bytes := be_bytes 32 88.
Definition purse_spk : Script :=
  byte_of_Z 0x51 :: byte_of_Z 0x20 :: tap_tweak (keypair_pk purse_key) None.
Definition unspent (asset : AssetId) (n vout amount : Z) : Script * Unspent :=
  (purse_spk, mkUnspent (Some asset) (Some (be_bytes 32 n)) (Some vout) (Some (btc_of_sats amount))).

Definition purse_coins (obol1 obol2 : Z) : list (Script * Unspent) :=
  [unspent (obol sample_params) 61 1 obol1; unspent (obol sample_params) 62 1 obol2;
   unspent (policy sample_params) 63 1 40000; unspent (policy sample_params) 64 1 900000].

Definition purse_on (moving : bool) (coins : list (Script * Unspent)) : Wallet.t ToyPurse ToyDisk :=
  Wallet.mk sample_ctx (mkPurse moving coins) sample_owner purse_key sample_index (mkToyDisk None None) [].

Definition sample_purse : Wallet.t ToyPurse ToyDisk := purse_on false (purse_coins 3000000 2000000).
Definition behind_purse : Wallet.t ToyPurse ToyDisk := purse_on true [].

(** A run that succeeds by evaluation. *)
Lemma run_inv {S E A} (m : Eff S E A) s : is_ok (m s).1 = true -> exists a s', m s = (Ok a, s').
Proof. destruct (m s) as [[a|e] s']; [eauto|done]. Qed.

(** ** Sessions *)

Lemma sample_index_typed : state_typed sample_index.
Proof.
  split; try (by vm_compute).
  - by intros q [= <-].
  - by intros r [= <-].
  - by intros i [= <-].
  - intros op v Hv. unfold sample_index in Hv. cbn [ix_vaults] in Hv.
    rewrite lookup_fmap in Hv. apply fmap_Some in Hv as (x & Hx & ->).
    apply sample_vault_only in Hx as [-> ->]. split; [by vm_compute|]. intros k [= <-]. by vm_compute.
Qed.

Lemma sync_restarts_witness :
  exists ns w', Wallet.sync behind_purse = (Ok ns, w') /\ load (Wallet.disk w') = Ok (Wallet.state w').
Proof.
  assert (Hr : is_ok (Wallet.sync behind_purse).1 = true) by (vm_compute; reflexivity).
  apply run_inv in Hr as (ns & w' & Hs).
  exists ns, w'. split; [exact Hs|].
  exact (proj2 (sync_restarts behind_purse w' (Ok ns) purse_typed toy_display_spec toy_json_spec
    toy_disk_spec eq_refl sample_index_typed Hs)).
Defined.

(** ** Operations *)

Definition sample_repayment : Operation := OpRepay None (Obol.new 900000).

Lemma operations_send_sound_witness :
  exists txid w' new, operate sample_repayment sample_purse = (Ok txid, w') /\
    Wallet.sent w' = new ++ [] /\ Forall (sound_tx (seat sample_purse)) new.
Proof.
  assert (Hr : is_ok (operate sample_repayment sample_purse).1 = true) by (vm_compute; reflexivity).
  apply run_inv in Hr as (txid & w' & Ho).
  destruct (operations_send_sound sample_repayment sample_purse w' (Ok txid) Ho)
    as (_ & _ & _ & new & Hs & Hn).
  exists txid, w', new. split; [exact Ho|]. split; [exact Hs|exact Hn].
Defined.

Lemma send_lbtc_pays_witness :
  exists txid w' tx, Ops.send_lbtc sample_wallet_spk (Sats.new 100000) sample_purse = (Ok txid, w') /\
    Wallet.sent w' = [tx] /\ previous_output <$> input tx = [mkOutPoint (be_bytes 32 64) 1].
Proof.
  assert (Hr : is_ok (Ops.send_lbtc sample_wallet_spk (Sats.new 100000) sample_purse).1 = true)
    by (vm_compute; reflexivity).
  apply run_inv in Hr as (txid & w' & Ho).
  destruct (send_lbtc_pays sample_purse w' sample_wallet_spk (Sats.new 100000) txid
    [(mkOutPoint (be_bytes 32 63) 1, 40000); (mkOutPoint (be_bytes 32 64) 1, 900000)]
    ltac:(vm_compute; congruence) ltac:(vm_compute; congruence) ltac:(vm_compute; reflexivity)
    ltac:(split; [repeat (apply Forall_cons; split; [vm_compute; congruence|]); apply Forall_nil_2|vm_compute; reflexivity])
    Ho) as (tx & taken & rest & change & fee & Hs & Hp & Hi & _ & _ & _ & _ & front & c & Ht & Hf).
  exists txid, w', tx. split; [exact Ho|]. split; [exact Hs|].
  assert (Hb : bool_decide ((previous_output <$> (input <$> Wallet.sent (Ops.send_lbtc sample_wallet_spk
    (Sats.new 100000) sample_purse).2) ≫= id) = [mkOutPoint (be_bytes 32 64) 1]) = true)
    by (vm_compute; reflexivity).
  apply bool_decide_eq_true in Hb. rewrite Ho in Hb. cbn [snd] in Hb. rewrite Hs in Hb.
  cbn in Hb. rewrite app_nil_r in Hb. exact Hb.
Defined.

(** A race lost once: the broadcast conflicts, and after the resync the vault is gone. *)
Definition lost_attempt : Eff nat WalletError Txid := fun n =>
  match n with
  | O => (Err (WBroadcast (Conflict "bad-txns-inputs-missingorspent")), O)
  | S _ => (Err (VaultNotFound (mkOutPoint [] 0)), n)
  end.
Definition count_resync : Eff nat WalletError unit := fun n => (Ok tt, S n).

Lemma retry_outcome_witness :
  retry_conflicts "full liquidate" count_resync lost_attempt Benign 0%nat = (Ok None, 1%nat) /\
  exists n w1, conflicted count_resync lost_attempt n 0%nat w1 /\ (n < 3)%nat.
Proof.
  split; [reflexivity|].
  destruct (retry_outcome "full liquidate" count_resync lost_attempt Benign 0%nat 1%nat (Ok None) eq_refl)
    as (n & w1 & Hc & [(_ & Hr & _)|(Hn & _)]); [discriminate Hr|].
  exists n, w1. split; [exact Hc|exact Hn].
Defined.

(** ** The merge and the repayment chained on it *)

(** A node whose confirmed coins never change. *)
Inductive SplitNode : Type := split_node.
Definition split_coins : ToyPurse := mkPurse false (purse_coins 600000 500000).
#[export] Instance split_rpc : Rpc SplitNode := {
  getblockcount n := ((getblockcount split_coins).1, n);
  getblockhash h n := ((getblockhash h split_coins).1, n);
  getblock hash n := ((getblock hash split_coins).1, n);
  sendrawtransaction tx n := (Ok (txid_of tx), n);
  scantxoutset spk n := ((scantxoutset spk split_coins).1, n);
  relayfee n := (Ok None, n)
}.
Definition split_purse : Wallet.t SplitNode ToyDisk :=
  Wallet.mk sample_ctx split_node sample_owner purse_key sample_index (mkToyDisk None None) [].
Definition split_obols : list Coin :=
  [(mkOutPoint (be_bytes 32 61) 1, 600000); (mkOutPoint (be_bytes 32 62) 1, 500000)].
Definition split_lbtc : list Coin :=
  [(mkOutPoint (be_bytes 32 63) 1, 40000); (mkOutPoint (be_bytes 32 64) 1, 900000)].

Lemma consolidation_double_spends_witness :
  exists r w' t1 t2, Ops.repay_once None (Obol.new 900000) split_purse = (r, w') /\
    Wallet.sent w' = [t2; t1] /\
    exists op, op ∈ previous_output <$> input t1 /\ op ∈ previous_output <$> input t2.
Proof.
  destruct (Ops.repay_once None (Obol.new 900000) split_purse) as [r w'] eqn:E.
  assert (Hn : length (Wallet.sent (Ops.repay_once None (Obol.new 900000) split_purse).2) = 2%nat)
    by (vm_compute; reflexivity).
  rewrite E in Hn. cbn [snd] in Hn.
  destruct (Wallet.sent w') as [|t2 [|t1 [|]]] eqn:Es; try discriminate Hn.
  exists r, w', t1, t2. split; [reflexivity|]. split; [exact Es|].
  refine (consolidation_double_spends (fun spk => (scantxoutset spk split_coins).1)
    (fun n spk => eq_refl) None (Obol.new 900000) split_purse w' r split_obols split_lbtc t1 t2
    _ _ _ _ E Es).
  - vm_compute. reflexivity.
  - intros c [-> |[-> |[]%not_elem_of_nil]%elem_of_cons]%elem_of_cons; reflexivity.
  - vm_compute. reflexivity.
  - intros tx n txid n' c _ [-> |[-> |[]%not_elem_of_nil]%elem_of_cons]%elem_of_cons; discriminate.
Defined.

(** ** The keeper *)

Definition sample_keeper : Keeper.t ToyPurse ToyDisk := Keeper.new sample_purse default_opts.
Definition keeper_tick : OracleTick.t := sample_tick_at 1000 60000.

Definition acts (r : result KeeperError (option Performed)) : bool :=
  match r with Ok (Some _) => true | _ => false end.

Lemma sample_acts :
  exists p k', Keeper.step keeper_tick sample_keeper = (Ok (Some p), k').
Proof.
  assert (Ha : acts (Keeper.step keeper_tick sample_keeper).1 = true) by (vm_compute; reflexivity).
  destruct (Keeper.step keeper_tick sample_keeper) as [[[p|]|e] k'];
    [by exists p, k'|discriminate Ha|discriminate Ha].
Qed.

Lemma keeper_sends_sound_witness :
  exists p k' new, Keeper.step keeper_tick sample_keeper = (Ok (Some p), k') /\
    Wallet.sent (Keeper.purse k') = new ++ [] /\ Forall (sound_tx (seat sample_purse)) new.
Proof.
  destruct sample_acts as (p & k' & Hs).
  destruct (keeper_sends_sound keeper_tick sample_keeper k' (Ok (Some p)) Hs)
    as (_ & _ & _ & _ & new & Hn & Hf).
  exists p, k', new. split; [exact Hs|]. split; [exact Hn|exact Hf].
Defined.

Lemma step_duty_witness :
  exists p k' pr ns w1, Keeper.step keeper_tick sample_keeper = (Ok (Some p), k') /\
    Wallet.sync sample_purse = (Ok ns, w1) /\ chosen sample_keeper w1 pr keeper_tick k' (Some p).
Proof.
  destruct sample_acts as (p & k' & Hs).
  destruct (step_duty keeper_tick sample_keeper k' (Some p) Hs) as (ns & w1 & pr & Hy & _ & Hc).
  exists p, k', pr, ns, w1. split; [exact Hs|]. split; [exact Hy|exact Hc].
Defined.

Lemma one_action_per_block_witness :
  exists p h k', patrol sample_keeper [(h, p)] k' /\ 999 <= h.
Proof.
  destruct sample_acts as (p & k1 & Hs).
  destruct (Wallet.sync (Keeper.purse sample_keeper)) as [rs w1] eqn:Hy.
  assert (Hp : patrol sample_keeper [(ix_height (Wallet.state w1), p)] k1).
  { eapply patrol_acts; [exact Hs|exact Hy|apply patrol_end]. }
  exists p, (ix_height (Wallet.state w1)), k1. split; [exact Hp|].
  destruct (one_action_per_block sample_purse default_opts _ k1 Hp) as [_ Hf].
  exact (Forall_inv Hf).
Defined.
