(* ===== verification/SamplesOracle.v ===== *)
(** * An oracle daemon on the concrete deploy

    The oracle of slot 0 of [sample_params], started from its configuration file, and a run
    that publishes one quote. *)

From Stdlib Require Import ZArith Lia Sorted.
From stdpp Require Import base gmap strings option list.
From S2P Require Import Prelude Hex Units CrMath Elements Floats Toy Oracle Simf Domain Encode Artifacts.
From S2P Require Import Jets CovVault CovReserve CovIssuer Plan Quotes Effects Node OracleFeed Snapshot.
From S2P Require Import Config OracleService OracleRuns Samples SamplesWatch.

#[export] Instance toy_seckey : SecretKey := fun k => bool_decide (length k = 32%nat).

(** A ticker whose body is the price itself. *)
#[export] Instance toy_value : JsonValue bytes := {
  parse_value body := Some body;
  index_key v _ := v;
  index_at v _ := v;
  as_str v := Some v;
  as_f64 v := parse_f64 v;
  as_object v := Some [([], v)]
}.

Definition sample_oracle_cfg : OracleConfig :=
  mkOracleConfig 0 [] (hex (be_bytes 32 11)) [] [] [] None None None [] 60000 500
    (Some (mkFeedConfig "kraken" None 5000 (Some 60))).

Definition sample_oracle_state : OracleState.t :=
  OracleState.with_max_feed_age (Some 60000000000)
    (OracleState.new (OracleSlot.mk 0) (be_bytes 32 11) (Price.new 60000)).

Lemma sample_starts : start sample_oracle_cfg = Some (Ok sample_oracle_state).
Proof. vm_compute. reflexivity. Qed.

(** A delivery, the gate at height 1000, and the publication. *)
Definition sample_fed : OracleState.t :=
  OracleState.set_feed_price (Price.new 60123) 5 sample_oracle_state.
Definition sample_published : WireQuote.t := OracleState.quote_for (BlockHeight.new 1000) sample_fed.

Lemma sample_oracle_run :
  daemon_run NODE_DOWN_FATAL (boot sample_oracle_state) [Published sample_published true]
    (mkDaemon (OracleState.store_published 1000 sample_fed) false (mkPublisher None false) None).
Proof.
  eapply (run_step _ _ [] _ [_]).
  { apply (step_feed _ _ Kraken (Some (ascii_bytes "60123.4")) 5 sample_fed false). vm_compute. reflexivity. }
  eapply (run_step _ _ [] _ [_]).
  { apply (step_gate _ _ (Ok 1000) 7 (mkPublisher None false) (Some 1000));
      [reflexivity|intros ? [= <-]; split; vm_compute; congruence|vm_compute; reflexivity]. }
  eapply (run_step _ _ [_] _ []); [|apply run_none].
  exact (step_publish NODE_DOWN_FATAL (mkDaemon sample_fed false (mkPublisher None false) (Some 1000)) 1000
    (fun _ => true) _ _ eq_refl eq_refl).
Qed.

Lemma oracle_signs_acceptable_witness :
  exists b', QuoteBook.insert (QuoteBook.new sample_pks) sample_published sample_height = Some (Ok b').
Proof.
  destruct (oracle_signs_acceptable sample_oracle_cfg sample_oracle_state NODE_DOWN_FATAL _ _
    sample_starts ltac:(vm_compute; congruence) ltac:(split; vm_compute; congruence) sample_oracle_run)
    as [_ Hx].
  destruct (Hx (Published sample_published true) ltac:(by left)) as (_ & _ & Hb).
  destruct (Hb (QuoteBook.new sample_pks) sample_height) as [b' Hb']; [reflexivity|].
  exists b'. exact Hb'.
Defined.

Lemma gate_bypassed_witness :
  exists q d, OracleState.publishable 7 sample_oracle_state = false /\
    daemon_run NODE_DOWN_FATAL (boot sample_oracle_state) [Published q true] d.
Proof.
  destruct (gate_bypassed sample_oracle_state NODE_DOWN_FATAL 60000000000 7 1000 50000 eq_refl eq_refl
    eq_refl ltac:(split; vm_compute; congruence) ltac:(vm_compute; reflexivity)
    ltac:(split; vm_compute; reflexivity)) as (Hp & _ & d & Hr & _).
  eexists _, d. split; [exact Hp|exact Hr].
Defined.
