(* ===== verification/SamplesApp.v ===== *)
(** * The application and the explorer on the concrete deploy

    An application configured behind a proxy, an exported repayment that comes back signed,
    an explorer that follows a short chain, and the theorems on them applied. *)

From Stdlib Require Import ZArith Lia Sorted.
From stdpp Require Import base gmap strings option list.
From S2P Require Import Prelude Hex Units CrMath Elements Floats Toy Oracle Simf Domain Encode Artifacts.
From S2P Require Import Jets CovVault CovReserve CovIssuer Plan BuildOwner BuildKeeper Accept Decide Pset.
From S2P Require Import Index Quotes Effects Node Sync Snapshot Config Sockets OracleService Gate.
From S2P Require Import Wallet IndexTyped Ops WalletSpec OpsSpec OpsCases Keeper KeeperSpec Patrol.
From S2P Require Import Sound Explorer ExplorerSpec Api Server ApiSpec Samples ToyHost SamplesWallet.

(** ** The perimeter *)

Definition sample_app_cfg : AppConfig :=
  mkAppConfig (mkWalletConfig [] [] None None None [] (hex (be_bytes 32 77)) (hex (be_bytes 32 88)))
    default_listen default_keeper_section default_app_poll_ms
    (Some (mkProxy (ascii_bytes "0.0.0.0:9780") [ascii_bytes "styx.example"] [ascii_bytes "https://styx.example"])).
Definition sample_headers : string -> option bytes := fun name =>
  if bool_decide (name = "host"%string) then Some (ascii_bytes "styx.example")
  else if bool_decide (name = "origin"%string) then Some (ascii_bytes "https://styx.example") else None.

Lemma perimeter_witness :
  exists addr, AppFile.bind sample_app_cfg None =
      Ok (addr, [ascii_bytes "styx.example"], [ascii_bytes "https://styx.example"]) /\
    Gate.check_page (Gate.mint_proxied addr (be_bytes 32 9) [ascii_bytes "styx.example"]
      [ascii_bytes "https://styx.example"]) sample_headers = Ok tt.
Proof.
  destruct (AppFile.bind sample_app_cfg None) as [[[addr hosts] origins]|e] eqn:E; [|by vm_compute in E].
  assert (Eh : hosts = [ascii_bytes "styx.example"] /\ origins = [ascii_bytes "https://styx.example"]).
  { vm_compute in E. by injection E as _ <- <-. }
  destruct Eh as [-> ->]. exists addr. split; [done|].
  destruct (perimeter sample_app_cfg None (be_bytes 32 9) addr _ _ (fun _ => []) sample_headers E
    ltac:(apply Forall_singleton; discriminate)) as (_ & _ & Hp & _).
  apply Hp. exists (ascii_bytes "styx.example"). split; [reflexivity|].
  split; [apply elem_of_app; right; by left|]. split; [|split; discriminate].
  intros o [= <-]. apply elem_of_app. right. by left.
Defined.

(** ** An exported repayment *)

#[export] Instance toy_outpoint_parse : OutPointParse := fun _ => None.
Definition sample_app : App.t ToyPurse ToyDisk := App.new sample_purse default_opts.

(** Two more exports, of plans under other keys, and the loss of one, before the signature. *)
Definition meanwhile : list QueueOp :=
  [QStash [Byte.x01] sample_plan; QDrop [Byte.x01]; QStash [Byte.x02] sample_plan].

Lemma exported_plan_applies_witness :
  exists rq s1 sig plan,
    App.export_job "repay" None None (Some (Obol.new 900000)) sample_app = (Ok (BRequest rq), s1) /\
    App.take_job (rq_txid rq) sig (App.with_pending (foldl queue_op (App.pending s1) meanwhile) s1)
      = Ok (JApplying (rq_txid rq) sig plan).
Proof.
  assert (Ho : match (App.export_job "repay" None None (Some (Obol.new 900000)) sample_app).1 with
    | Ok (BRequest rq) => Some (rq_owner rq, bool_decide (rq_txid rq = [Byte.x01]),
        bool_decide (rq_txid rq = [Byte.x02]))
    | _ => None
    end = Some (hex (keypair_pk sample_owner), false, false)) by (vm_compute; reflexivity).
  destruct (App.export_job "repay" None None (Some (Obol.new 900000)) sample_app) as [r s1] eqn:E.
  cbn [fst] in Ho. destruct r as [[| |rq|]|]; try discriminate Ho. injection Ho as Ho Hne1 Hne2.
  apply bool_decide_eq_false in Hne1, Hne2.
  destruct (exported_plan_applies (HL := toy_lib) "repay" None None (Some (Obol.new 900000)) sample_app s1
    (App.with_pending (foldl queue_op (App.pending s1) meanwhile) s1) rq sample_owner meanwhile E Ho)
    as (digest & plan & signed & _ & _ & _ & Ht & _).
  - unfold meanwhile. repeat (apply Forall_cons_2; [cbn [op_key]; apply not_eq_sym; assumption|]). apply Forall_nil_2.
  - unfold PENDING_CAP. cbn. lia.
  - reflexivity.
  - reflexivity.
  - exists rq, s1, (hex (sign_schnorr sample_owner digest)), plan. split; [reflexivity|exact Ht].
Defined.

(** ** The explorer *)

(** A chain of three linked blocks, the last with the sample liquidation. *)
Definition feed_chain : list (BlockHash * Block) :=
  [(be_bytes 32 4, mkBlock (be_bytes 32 3) []); (be_bytes 32 5, mkBlock (be_bytes 32 4) []);
   (be_bytes 32 6, mkBlock (be_bytes 32 5) [p_tx (plan sample_liq)])].

Inductive FeedNode : Type := feed_node.
#[export] Instance feed_rpc : Rpc FeedNode := {
  getblockcount n := (Ok 2, n);
  getblockhash h n := (ok_or (RpcFailed "getblockhash" "Block height out of range")
                         (fst <$> feed_chain !! Z.to_nat h), n);
  getblock hash n := (ok_or (RpcFailed "getblock" "Block not found")
                        (snd <$> head (filter (fun hb => hb.1 = hash) feed_chain)), n);
  sendrawtransaction tx n := (Ok (txid_of tx), n);
  scantxoutset spk n := (Ok [], n);
  relayfee n := (Ok (Some (btc_of_sats 100)), n)
}.

Lemma feed_replies : replies (N := FeedNode) feed_chain.
Proof.
  split.
  - intros h n hash n' Hg _. change (getblockhash h n) with
      (ok_or (RpcFailed "getblockhash" "Block height out of range")
         (fst <$> feed_chain !! Z.to_nat h), n) in Hg.
    destruct (feed_chain !! Z.to_nat h) as [[x b]|]; [|done]. injection Hg as <- _. by exists b.
  - intros h hash b b' n n' Hl Hg.
    assert (Hin : (hash, b) ∈ feed_chain) by (by eapply list_elem_of_lookup_2).
    unfold feed_chain in Hin.
    apply elem_of_cons in Hin as [Hin|Hin]; [|apply elem_of_cons in Hin as [Hin|Hin%list_elem_of_singleton]];
      injection Hin as -> ->; destruct n; (assert (Hb : getblock (N := FeedNode) _ feed_node = (Ok b', n')) by exact Hg);
      vm_compute in Hg |- *; congruence.
Qed.

Lemma feed_linked : linked feed_chain.
Proof.
  intros [|[|[|i]]] a b Ha Hb; try discriminate Hb; injection Ha as <-; injection Hb as <-; reflexivity.
Qed.

Definition feed_start : Explorer.t := Explorer.new (at_height 0 (be_bytes 32 4)) None.
Definition feed_passes (n : nat) : FeedNode * ToyDisk * Explorer.t :=
  Nat.iter n (Explorer.sync_pass sample_ctx 0) (feed_node, mkToyDisk None None, feed_start).

Lemma explorer_feed_witness :
  exists k ns, replay sample_ctx [] 1 (take k (drop 1 feed_chain)) (at_height 0 (be_bytes 32 4))
      = (Explorer.index (feed_passes 1).2, ns) /\
    Explorer.events (feed_passes 1).2 = take EVENTS_KEPT (rev ns).
Proof.
  assert (Hp : forall x, Explorer.sync_pass sample_ctx 0 (feed_node, mkToyDisk None None, feed_start) = x ->
    explores (N := FeedNode) (D := ToyDisk) sample_ctx 0 feed_start x.2).
  { intros [[n d] s] Hs. eapply explores_sync; [exact Hs|apply explores_none]. }
  specialize (Hp (feed_passes 1) eq_refl).
  destruct (explorer_feed sample_ctx 0 feed_chain (be_bytes 32 4, mkBlock (be_bytes 32 3) []) None
    (feed_passes 1).2 (feed_passes 1).2 ltac:(lia) feed_replies feed_linked eq_refl Hp
    (explores_none _ _ _)) as (k & _ & _ & (ns & Hr & He) & _).
  exists k, ns. split; [exact Hr|exact He].
Defined.

(** ** Bands *)

Lemma band_agrees_witness :
  exists p, Explorer.cr_percent (debt (state lean_vault)) (oc_value lean_vault) (Some (Price.new 60000)) = Some p /\
    ~ p < 100 /\
    Explorer.band (debt (state lean_vault)) (oc_value lean_vault) (Some (Price.new 60000)) = "partial"%string.
Proof.
  destruct (Explorer.cr_percent (debt (state lean_vault)) (oc_value lean_vault) (Some (Price.new 60000)))
    as [p|] eqn:Ep; [|exfalso; revert Ep; vm_compute; discriminate].
  destruct (band_agrees lean_vault (sample_tick_at 1000 60000) (BlockHeight.new 900) 144 (Sats.new 1000))
    as (_ & _ & _ & Hp).
  assert (Eb : Explorer.band (debt (state lean_vault)) (oc_value lean_vault) (Some (Price.new 60000)) = "partial"%string)
    by (vm_compute; reflexivity).
  exists p. split; [reflexivity|]. split; [|exact Eb]. intros Hlt.
  apply Hp in Hlt; [|split; vm_compute; congruence|vm_compute; congruence|exact Ep].
  assert (Eb' : Explorer.band (debt (state lean_vault)) (oc_value lean_vault) (Some (Price.new 60000)) = "bad-debt"%string)
    by exact Hlt.
  rewrite Eb in Eb'. discriminate Eb'.
Defined.
