(* ===== verification/SamplesDeploy.v ===== *)
(** * A deployment on a concrete node

    A node whose wallet pays, issues and reports what it sent, whose coins confirm after a
    second, and a file system of one file; the ceremony and the deployment run on them, and
    the theorems on payments, confirmations and deployments applied.  A txid here is the
    transaction's own encoding, so that the wallet's reports are consistent. *)

From Stdlib Require Import ZArith Lia.
From stdpp Require Import base gmap strings option list countable.
From S2P Require Import Prelude Hex Units CrMath Elements Floats Toy Oracle Simf Domain Encode Artifacts Effects.
From S2P Require Import Jets CovVault CovReserve CovIssuer Plan BuildOwner BuildKeeper Accept CovLemmas.
From S2P Require Import CovAccept Sound SoundOwner SoundKeeper Protocol Quotes Index Snapshot Config Node.
From S2P Require Import Funding FundingSpec Ceremony CeremonySpec Deploy DeploySpec Samples ToyHost.

(** ** Encodings *)

Definition ser_field (b : bytes) : bytes := be_bytes 2 (Z.of_nat (length b)) ++ b.
Definition ser_in (i : TxIn) : bytes :=
  ser_field (op_txid (previous_output i)) ++ be_bytes 4 (op_vout (previous_output i)).
Definition ser_out (o : TxOut) : bytes :=
  ser_field (to_spk o) ++ ser_field (match to_asset o with AExplicit a => a | _ => [] end) ++
  be_bytes 8 (match to_value o with VExplicit v => v | _ => 0 end).

Definition Reader (A : Type) : Type := bytes -> A * bytes.
Definition read_num (n : nat) : Reader Z := fun l => (be_value (take n l), drop n l).
Definition read_field : Reader bytes := fun l =>
  let '(n, l) := read_num 2 l in (take (Z.to_nat n) l, drop (Z.to_nat n) l).
Definition read_in : Reader TxIn := fun l =>
  let '(t, l) := read_field l in let '(v, l) := read_num 4 l in (txin (mkOutPoint t v), l).
Definition read_out : Reader TxOut := fun l =>
  let '(s, l) := read_field l in let '(a, l) := read_field l in let '(v, l) := read_num 8 l in
  (txout v s a, l).
Fixpoint read_list {A} (r : Reader A) (n : nat) : Reader (list A) := fun l =>
  match n with O => ([], l) | S n => let '(x, l) := r l in let '(xs, l) := read_list r n l in (x :: xs, l) end.

Definition forge_ser (tx : Transaction) : bytes :=
  be_bytes 1 (Z.of_nat (length (input tx))) ++ concat (ser_in <$> input tx) ++
  be_bytes 1 (Z.of_nat (length (output tx))) ++ concat (ser_out <$> output tx).
Definition forge_deser (l : bytes) : option Transaction :=
  let '(n, l) := read_num 1 l in
  let '(ins, l) := read_list read_in (Z.to_nat n) l in
  let '(n, l) := read_num 1 l in
  let '(outs, l) := read_list read_out (Z.to_nat n) l in
  if Z.of_nat (length outs) <? 4294967296 then Some (setup_tx (previous_output <$> ins) outs) else None.
Fixpoint forge_unhex (l : bytes) : option bytes :=
  match l with
  | a :: b :: l => x ← from_hex_pair a b; l ← forge_unhex l; Some (byte_of_Z x :: l)
  | _ => Some []
  end.

#[export] Instance forge_codec : TxCodec := {
  serialize_tx := forge_ser; deserialize_tx := forge_deser; unhex := forge_unhex
}.
#[export] Instance forge_addresses : Addresses Script := {
  parse_address b := Some b; show_address a := a; script_pubkey a := a; from_script s _ := Some s
}.
#[export] Instance forge_issuance : IssuanceId := fun op _ => be_bytes 32 (5000 + op_vout op).

(** ** The node: what it sent, the addresses it gave out, its clock *)

Definition forge_policy : AssetId := be_bytes 32 23.

Record ForgeNode : Type := mkForge { fn_log : list Transaction; fn_next : Z; fn_now : Z }.

Definition forge_spent (n : ForgeNode) : list OutPoint := concat ((fun t => previous_output <$> input t) <$> fn_log n).
Definition forge_coins (n : ForgeNode) : list Unspent :=
  let first := (mkOutPoint [Byte.x07] 0, txout 1000000000 [Byte.x77] forge_policy) in
  let outs := concat ((fun t => imap (fun i o => (mkOutPoint (forge_ser t) (Z.of_nat i), o)) (output t)) <$> fn_log n) in
  let mine := filter (fun c : OutPoint * TxOut =>
    c.1 ∉ forge_spent n /\ head (to_spk c.2) = Some Byte.x77 /\ to_asset c.2 = AExplicit forge_policy) (first :: outs) in
  (fun c => mkUnspent (Some forge_policy) (Some (op_txid c.1)) (Some (op_vout c.1))
     (Some (btc_of_sats (match to_value c.2 with VExplicit v => v | _ => 0 end)))) <$> mine.

#[export] Instance forge_rpc : Rpc ForgeNode := {
  getblockcount n := (Ok 700, n);
  getblockhash h n := (Ok (be_bytes 32 9), n);
  getblock hash n := (Ok (mkBlock [] []), n);
  sendrawtransaction tx n := (Ok (forge_ser tx), mkForge (fn_log n ++ [tx]) (fn_next n) (fn_now n));
  scantxoutset spk n := (Ok [], n);
  relayfee n := (Ok None, n)
}.

Definition forge_sats (x : f64) : Z := sats_of_btc x.

#[export] Instance forge_wallet : WalletRpc ForgeNode bytes := {
  text_value b := b;
  getnewaddress n := (Ok (Some [Byte.x77; byte_of_Z (fn_next n)]), mkForge (fn_log n) (fn_next n + 1) (fn_now n));
  generatetoaddress _ _ n := (Ok tt, n);
  getblockchaininfo_chain n := (Ok (Some "liquidregtest"%string), n);
  listunspent n := (Ok (Some (forge_coins n)), n);
  gettransaction_hex t n := (Ok (if bool_decide (t ∈ forge_ser <$> fn_log n) then Some (hex t) else None), n);
  signrawtransaction_hex j n := (Ok (Some j), n);
  gettxout_null _ n := (Ok (fn_now n <? 1000000000), n);
  createrawtransaction ins outs n :=
    (Ok (hex (forge_ser (setup_tx ins ((fun p =>
       txout (forge_sats p.2) (if bool_decide (p.1 = ascii_bytes "fee") then [] else p.1) forge_policy) <$> outs)))), n);
  rawissueasset j ds n :=
    (Ok (l ← forge_unhex j; tx ← forge_deser l;
         let issued := imap (fun i d => txout (forge_sats (is_amount d)) (is_address d)
           (new_issuance (default (mkOutPoint [] 0) (previous_output <$> input tx !! i)) zero_contract)) ds in
         Some [None; Some (hex (forge_ser (setup_tx (previous_output <$> input tx) (issued ++ output tx))))]), n)
}.
#[export] Instance forge_clock : Clock ForgeNode := {
  instant := fn_now;
  sleep d n := mkForge (fn_log n) (fn_next n) (fn_now n + d)
}.
#[export] Instance forge_admin : WalletAdmin ForgeNode := {
  for_wallet _ n := (Ok tt, n);
  createwallet _ n := (Err (RpcFailed "createwallet" "Database already exists"), n);
  loadwallet _ n := (Ok tt, n);
  getwalletinfo n := (Ok tt, n);
  rescanblockchain n := (Ok tt, n)
}.

#[export] Instance forge_clock_spec : ClockSpec (N := ForgeNode).
Proof. split; [done|]. intros d n. cbn. lia. Qed.
#[export] Instance forge_typed : WalletTyped (N := ForgeNode).
Proof.
  split.
  - intros n us n' u a [= <- _] Hu Ha. apply list_elem_of_fmap in Hu as (c & -> & _). cbn in Ha. by injection Ha as <-.
  - intros n h n' [= <- _]. done.
  - intros op contract. apply length_be_bytes.
Qed.

(** What the wallet says of a txid: the transaction it encodes. *)
Definition forge_tx_at (t : Txid) : option Transaction := l ← forge_unhex (hex t); forge_deser l.

Lemma forge_reports : wallet_reports (N := ForgeNode) forge_tx_at.
Proof.
  split.
  - intros t n h n' b tx Hg Hb Hd. cbn in Hg. case_bool_decide; [|done]. injection Hg as <- _.
    unfold forge_tx_at. cbn in Hb, Hd. by rewrite Hb.
  - intros t tx. unfold forge_tx_at. intros (l & _ & Hd)%bind_Some. unfold forge_deser in Hd.
    repeat case_match; try done. injection Hd as <-. cbn. lia.
Qed.

Definition forge : ForgeNode := mkForge [] 1 0.
Definition forge_pks : list XOnlyPublicKey := (fun s => keypair_pk (be_bytes 32 s)) <$> test_secrets.

Example forge_founds :
  match ceremony forge_pks 18000000 await_default forge with
  | (Ok (_, p), n') => fn_now n' = 1000000000 /\ length (fn_log n') = 3%nat /\
      Sats.raw (oc_value (reserve p)) = 18000000
  | _ => False
  end.
Proof. vm_compute. done. Qed.

(** ** The theorems applied *)

Lemma confirm_ends_witness :
  exists n', confirm_outpoint (mkOutPoint [] 0) await_default forge = (Ok tt, n') /\
    fn_now n' = 1000000000 /\ waits (mkOutPoint [] 0) 300000000000 forge (Ok tt) n'.
Proof.
  destruct (confirm_outpoint (mkOutPoint [] 0) await_default forge) as [r n'] eqn:E.
  assert (Er : r = Ok tt /\ fn_now n' = 1000000000) by (vm_compute in E; by injection E as <- <-).
  destruct Er as [-> En]. exists n'. split; [done|]. split; [exact En|].
  exact (proj1 (confirm_ends (mkOutPoint [] 0) 300000000000 forge n' (Ok tt) ltac:(lia) E)).
Defined.

(** A payment out of the first coin, with change. *)
Definition forge_outs : list (Script * Z) := [([Byte.x51], 250000); ([Byte.x52], 4000)].

Lemma pay_funds_witness :
  exists t n' tx, pay forge_policy forge_outs "sample" forge = (Ok t, n') /\
    total_out forge_policy (output tx) = 1000000000 /\ fst (sign_and_send tx (mkForge [] 2 0)) = Ok t.
Proof.
  destruct (pay forge_policy forge_outs "sample" forge) as [r n'] eqn:E.
  assert (Ec : policy_coins forge_policy forge = (Ok [(mkOutPoint [Byte.x07] 0, 1000000000)], forge))
    by (vm_compute; reflexivity).
  assert (Er : is_ok r = true) by (apply (f_equal fst) in E; cbn [fst] in E; rewrite <- E; vm_compute; reflexivity).
  destruct r as [t|]; [|done].
  assert (H1 : zsum [(mkOutPoint [Byte.x07] 0, 1000000000)].*2 < 18446744073709551616) by (vm_compute; reflexivity).
  assert (H2 : Forall (Z.le 0) forge_outs.*2) by (repeat constructor; discriminate).
  assert (H3 : zsum forge_outs.*2 + Sats.raw FEE < 18446744073709551616) by (vm_compute; reflexivity).
  destruct (pay_funds _ _ _ _ _ _ _ _ Ec H1 H2 H3 E) as (_ & _ & Hp).
  change (zsum _ <? _) with false in Hp. destruct Hp as (front & c & rest & Ecs & _ & Hb).
  destruct front as [|? front]; [|exfalso; by destruct front]. injection Ecs as <- <-.
  cbn -[new_address output total_out sign_and_send] in Hb. destruct Hb as [_ Hb].
  exists t, n'. eexists. split; [done|]. destruct Hb as [Hb1 Hb2]. split; [exact Hb1|].
  exact (f_equal fst Hb2).
Defined.

Lemma amount_exact_witness : sats_of_btc (btc_of_sats 12345678901) = 12345678901.
Proof. exact (proj1 (proj2 (amount_exact 12345678901 ltac:(lia)))). Defined.

Lemma ceremony_founds_witness :
  exists ctx p n', ceremony forge_pks 18000000 await_default forge = (Ok (ctx, p), n') /\
    deploy_ok ctx /\ sys_wf (mkSys p ∅).
Proof.
  destruct (ceremony forge_pks 18000000 await_default forge) as [r n'] eqn:E.
  assert (Ho : is_ok r = true) by (apply (f_equal fst) in E; cbn [fst] in E; rewrite <- E; vm_compute; reflexivity).
  destruct r as [[ctx p]|]; [|done]. exists ctx, p, n'. split; [done|].
  assert (Hs : stability_spk (ctx_artifacts ctx) <> pot_spk (ctx_artifacts ctx) /\
    stability_spk (ctx_artifacts ctx) <> issuer_spk (ctx_artifacts ctx) (state (issuer p))).
  { assert (Hb : match (ceremony forge_pks 18000000 await_default forge).1 with
      | Ok (c, q) => bool_decide (stability_spk (ctx_artifacts c) <> pot_spk (ctx_artifacts c)) &&
          bool_decide (stability_spk (ctx_artifacts c) <> issuer_spk (ctx_artifacts c) (state (issuer q)))
      | _ => false end = true) by (vm_compute; reflexivity).
    rewrite E in Hb. cbn [fst] in Hb. apply andb_true_iff in Hb as [H1 H2].
    apply bool_decide_eq_true in H1, H2. by split. }
  destruct Hs as [Hs1 Hs2].
  pose proof (ceremony_founds forge_tx_at forge_pks 18000000 await_default forge n' ctx p forge_reports eq_refl
    ltac:(repeat constructor) ltac:(unfold MAX_MONEY; lia) E Hs1 Hs2) as (Hd & _ & _ & _ & _ & _ & _ & _ & _ & Hw & _).
  split; [exact Hd|exact Hw].
Defined.

(** The same wallet asked for a reserve it cannot fund. *)
Lemma preflight_stops_witness :
  ceremony forge_pks 999700000 await_default forge = (Err (CNode (Funding "ceremony preflight")), forge).
Proof.
  refine (preflight_stops forge_pks 999700000 await_default forge forge forge forge (be_bytes 32 9)
    (mkOutPoint [Byte.x07] 0, 1000000000) forge_policy [(mkOutPoint [Byte.x07] 0, 1000000000)] _ _ _ _ _ _);
    [vm_compute; reflexivity..|unfold MAX_MONEY; lia|vm_compute; reflexivity].
Defined.

(** ** A deployment, recorded in a file *)

#[export] Instance forge_asset_parse : AssetParse := fun b => Some b.
#[export] Instance forge_asset_show : AssetShow := fun a => a.

Definition assets_tree (a : Assets) : Tree := GenNode 0 [lb (as_obol a); lb (as_issuer_token a); lb (as_policy a)].
Definition tree_assets (t : Tree) : Assets :=
  match t with GenNode _ [x; y; z] => mkAssets (bt x) (bt y) (bt z) | _ => mkAssets [] [] [] end.
Definition oracle_tree (o : OracleEntry) : Tree :=
  GenNode 0 [lz (oe_slot o); lb (oe_protocol_pk o); lo lb (oe_nostr_pk o); lo lb (oe_admin_url o)].
Definition tree_oracle (t : Tree) : OracleEntry :=
  match t with
  | GenNode _ [x; y; z; w] => mkOracleEntry (zt x) (bt y) (ot bt z) (ot bt w)
  | _ => mkOracleEntry 0 [] None None
  end.
Definition styxnet_tree (c : StyxnetConfig) : Tree :=
  GenNode 0 [ls (nw_chain (sn_network c)); lo lb (nw_genesis (sn_network c)); lo assets_tree (sn_assets c);
    lo (fun p => lz (issuer_anchor_genesis p)) (sn_protocol c); GenNode 0 (oracle_tree <$> sn_oracles c);
    GenNode 0 (lb <$> no_relays (sn_nostr c))].
Definition tree_styxnet (t : Tree) : option StyxnetConfig :=
  match t with
  | GenNode _ [ch; g; a; p; os; rs] =>
      Some (mkStyxnet (mkNetwork (st ch) (ot bt g)) (ot tree_assets a)
        (ot (fun t => mkProtocolSection (zt t)) p) (tree_oracle <$> tree_list os)
        (mkNostr (bt <$> tree_list rs)))
  | _ => None
  end.

Lemma tree_styxnet_inv c : tree_styxnet (styxnet_tree c) = Some c.
Proof.
  destruct c as [[ch g] a p os [rs]]. cbn. rewrite <- !list_fmap_compose.
  rewrite (list_fmap_ext _ id os), (list_fmap_ext _ id rs), !list_fmap_id; [| |intros ? x _].
  - destruct g, a as [[? ? ?]|], p as [[?]|]; done.
  - done.
  - by destruct x as [? ? [?|] [?|]].
Qed.

#[export] Instance forge_toml : Toml StyxnetConfig := {
  show_toml c := Some (bits_of (encode (styxnet_tree c)));
  parse_toml l := t ← decode (of_bits l); tree_styxnet t
}.
#[export] Instance forge_files : Files (option bytes) := {
  read_text _ fs := fs;
  write_text _ text _ := (Some tt, Some text)
}.

#[export] Instance forge_readable : Readable (N := ForgeNode) (F := option bytes).
Proof.
  split.
  - intros c t [= <-]. cbn -[styxnet_tree tree_styxnet]. rewrite of_bits_of, decode_encode.
    cbn -[styxnet_tree tree_styxnet]. by rewrite tree_styxnet_inv.
  - done.
  - by intros path text fs fs' [= <-].
  - by intros n g n' [= <- _].
Qed.

Definition forge_skeleton : StyxnetConfig :=
  mkStyxnet (mkNetwork "liquidregtest" None) None None [] (mkNostr []).
Definition forge_args : RunArgs := mkRunArgs 18000000 [] true false 300.

Lemma deploy_completes_witness :
  exists ctx p n' text, deploy_run forge_args [] (forge, show_toml forge_skeleton) = (Ok (ctx, p), (n', Some text)) /\
    forall args2 m, deploy_run args2 [] (m, Some text) = (Err AlreadyDeployed, (m, Some text)).
Proof.
  destruct (deploy_run forge_args [] (forge, show_toml forge_skeleton)) as [r [n' fs']] eqn:E.
  assert (Ho : is_ok r && bool_decide (is_Some fs') = true).
  { change (is_ok (r, (n', fs')).1 && bool_decide (is_Some (r, (n', fs')).2.2) = true). rewrite <- E.
    vm_compute. reflexivity. }
  apply andb_true_iff in Ho as [Ho Hf]. destruct r as [[ctx p]|]; [|done]. destruct fs' as [text|]; [|done].
  exists ctx, p, n', text. split; [done|].
  destruct (deploy_completes forge_args [] forge n' _ _ _ E) as (? & ? & ? & _ & _ & _ & _ & _ & _ & _ & _ & Hr & _).
  exact Hr.
Defined.
