(* ===== verification/SamplesLife.v ===== *)
(** * The driver on a concrete node

    A node that mines on request, refuses the transactions on its list and otherwise behaves
    as the wallet of the sample deployment; the whole scripted life on it, and the theorems on
    the driver applied. *)

From Stdlib Require Import ZArith Lia.
From stdpp Require Import base gmap strings option list countable.
From S2P Require Import Prelude Hex Units CrMath Elements Floats Toy Oracle Simf Domain Encode Artifacts Effects.
From S2P Require Import Jets CovVault CovReserve CovIssuer Plan BuildOwner BuildKeeper Accept CovLemmas.
From S2P Require Import CovAccept Sound SoundOwner SoundKeeper Protocol Node Funding Ceremony Keeper.
From S2P Require Import Lifecycle LifecycleSpec SpotChecks Samples ToyHost SamplesDeploy.

Record LifeNode : Type := mkLife { ln_forge : ForgeNode; ln_verdicts : list bool; ln_height : Z }.
Definition on_forge {X} (m : ForgeNode -> X * ForgeNode) (n : LifeNode) : X * LifeNode :=
  let '(x, f) := m (ln_forge n) in (x, mkLife f (ln_verdicts n) (ln_height n)).

(** One verdict per transaction sent. *)
#[export] Instance life_rpc : Rpc LifeNode := {
  getblockcount n := (Ok (ln_height n), n);
  getblockhash h := on_forge (getblockhash h);
  getblock hash := on_forge (getblock hash);
  sendrawtransaction tx n :=
    match ln_verdicts n with
    | false :: l =>
        (Err (RpcFailed "sendrawtransaction" "non-mandatory-script-verify-flag (Script failed)"),
         mkLife (ln_forge n) l (ln_height n))
    | l => on_forge (sendrawtransaction tx) (mkLife (ln_forge n) (tail l) (ln_height n))
    end;
  scantxoutset spk := on_forge (scantxoutset spk);
  relayfee := on_forge relayfee
}.
#[export] Instance life_wallet : WalletRpc LifeNode bytes := {
  text_value b := b;
  getnewaddress := on_forge getnewaddress;
  generatetoaddress k _ n := (Ok tt, mkLife (ln_forge n) (ln_verdicts n) (ln_height n + k));
  getblockchaininfo_chain := on_forge getblockchaininfo_chain;
  listunspent := on_forge listunspent;
  gettransaction_hex t := on_forge (gettransaction_hex t);
  signrawtransaction_hex j := on_forge (signrawtransaction_hex j);
  gettxout_null _ n := (Ok false, n);
  createrawtransaction ins outs := on_forge (createrawtransaction ins outs);
  rawissueasset j ds := on_forge (rawissueasset j ds)
}.
#[export] Instance life_clock : Clock LifeNode := {
  instant n := fn_now (ln_forge n);
  sleep d n := mkLife (sleep d (ln_forge n)) (ln_verdicts n) (ln_height n)
}.

(** The ceremony's three transactions and the funding; then the operations, each spot-check a
    refusal before its genuine transaction, and the merge. *)
Definition life : LifeNode := mkLife forge
  ([true; true; true; true] ++
   [true; false; true; true; true; true; false; true; true; true; true; true; true; false; true; true]) 700.

Definition life_deployed : option (Deployment * LifeNode) :=
  match deployed 18000000 life with (Ok dep, n) => Some (dep, n) | _ => None end.

Lemma lifecycle_restores_witness :
  exists dep n n0 trace n', life_deployed = Some (dep, n) /\ lifecycle dep sample_owner n = (Ok trace, n') /\
    plays dep sample_owner (dep_protocol dep) [] n0 trace n' /\
    (row <$> trace) !! 11%nat = Some ("close"%string, (100000000, 10892156), []).
Proof.
  destruct life_deployed as [[dep n]|] eqn:Ed; [|exfalso; revert Ed; vm_compute; discriminate].
  assert (Eh : match life_deployed with
    | Some (d, m) => bool_decide (held (dep_protocol d) = (SUPPLY, 18000000)) && is_ok (lifecycle d sample_owner m).1
    | None => false end = true) by (vm_compute; reflexivity).
  rewrite Ed in Eh. apply andb_true_iff in Eh as [Eh%bool_decide_eq_true Ho].
  destruct (lifecycle dep sample_owner n) as [r n'] eqn:El. cbn [fst] in Ho. destruct r as [trace|]; [|done].
  destruct (lifecycle_restores dep sample_owner 18000000 n n' trace Eh ltac:(unfold MAX_MONEY; lia) El)
    as [(n0 & _ & Hplay) Htable].
  exists dep, n, n0, trace, n'. split; [reflexivity|]. split; [exact El|]. split; [exact Hplay|].
  rewrite Htable. reflexivity.
Defined.

Lemma spot_checks_refused_witness :
  exists b tx tx', open sample_ctx sample_protocol sample_open = Ok b /\ finalize sample_ctx (plan b) = Ok tx /\
    short_reserve tx = Some tx' /\ refused sample_ctx tx' (plan b).
Proof.
  destruct (is_ok_inv (open sample_ctx sample_protocol sample_open)) as [b Hb]; [vm_compute; reflexivity|].
  assert (Hc : match open sample_ctx sample_protocol sample_open with
    | Ok b => match finalize sample_ctx (plan b) with
              | Ok tx => bool_decide (is_Some (short_reserve tx)) | Err _ => false end
    | Err _ => false end = true) by (vm_compute; reflexivity).
  rewrite Hb in Hc. destruct (finalize sample_ctx (plan b)) as [tx|] eqn:Hf; [|done].
  apply bool_decide_eq_true in Hc as [tx' Ht].
  exists b, tx, tx'. split; [exact Hb|]. split; [exact Hf|]. split; [exact Ht|].
  refine (proj1 (spot_checks_refused sample_ctx _ sample_protocol _) sample_open b tx tx' _ _ _ Hb Hf Ht); eval_fact.
Defined.
