(* ===== verification/SamplesDaemon.v ===== *)
(** * The commands and the daemon on the concrete deploy

    A relay that keeps the latest event of every address, a host whose node answers for a
    while and then goes down, the files of the sample deploy, and the theorems on published
    quotes, on the watchtower, on the wallet's commands, on the public page and on the
    canonical scenarios applied to them. *)

From Stdlib Require Import ZArith Lia Sorted.
From stdpp Require Import base gmap strings option list countable.
From S2P Require Import Prelude Hex Units CrMath Elements Floats Toy Oracle Simf Domain Encode Artifacts Effects.
From S2P Require Import Jets CovVault CovReserve CovIssuer Plan BuildOwner BuildKeeper Accept Testkit CovLemmas.
From S2P Require Import Sound Quotes Decide Sockets Pset Node Funding Index Sync Snapshot Config Relay.
From S2P Require Import OracleService Gate Wallet Ops WalletSpec OpsSpec Keeper KeeperSpec Patrol Daemon.
From S2P Require Import Explorer Api Cli Server Public.
From S2P Require Import Samples ToyHost SamplesWatch SamplesWallet SamplesOracle SamplesApp SamplesDeploy.

(** ** A relay *)

Definition quote_tree (q : WireQuote.t) : Tree :=
  GenNode 0 [lz (WireQuote.slot q); lz (WireQuote.height q); lz (WireQuote.price q);
             lz (WireQuote.backing_k q); lb (WireQuote.sig q); lb (WireQuote.name q)].
Definition tree_quote (t : Tree) : option WireQuote.t :=
  match t with
  | GenNode _ [s; h; p; k; g; n] => Some (WireQuote.mk (zt s) (zt h) (zt p) (zt k) (bt g) (bt n))
  | _ => None
  end.

(** Integers out of their range are refused. *)
#[export] Instance wire_wf_dec q : Decision (wire_wf q).
Proof. unfold wire_wf. apply _. Defined.

#[export] Instance toy_serde : QuoteSerde := {
  ser_quote q := Some (bits_of (encode (quote_tree q)));
  de_quote l :=
    t ← decode (of_bits l); q ← tree_quote t; if bool_decide (wire_wf q) then Some q else None
}.

Lemma toy_serde_typed : serde_typed.
Proof.
  intros s q (t & _ & Hq)%bind_Some. apply bind_Some in Hq as (q' & _ & Hq).
  case_bool_decide; [|done]. by injection Hq as <-.
Qed.

(** What was sent, the newest first. *)
Definition ToyRelay : Type := list Event.
Definition kept (r : ToyRelay) : gmap (bytes * Z * bytes) Event :=
  list_to_map ((fun e => (address e, e)) <$> r).

#[export] Instance wanted_dec f e : Decision (wanted f e).
Proof. unfold wanted. destruct (fl_identifier f); apply _. Defined.

#[export] Instance toy_client : Client ToyRelay := {
  nostr_pk k := k;
  parse_nostr_pk := Some;
  timestamp_add := Z.add;
  add_relay _ _ r := (Ok tt, r);
  connect_relays _ r := r;
  subscribe _ _ r := (Ok tt, r);
  fetch_events _ f _ r := (Ok (filter (wanted f) (snd <$> map_to_list (kept r))), r);
  send_event _ e r := (Ok tt, e :: r)
}.

Lemma kept_address r a e : kept r !! a = Some e -> a = address e.
Proof.
  intros He%elem_of_list_to_map_2. apply list_elem_of_fmap in He as (e' & [= -> ->] & _). done.
Qed.

#[export] Instance toy_relay_spec : RelaySpec ToyRelay.
Proof.
  refine {| held := kept |}.
  - exact kept_address.
  - done.
  - intros keys e r x r' [= _ <-] _ _ _ _. by left.
  - intros keys f timeout r es r' [= <- _] _ e. rewrite list_elem_of_filter, list_elem_of_fmap. split.
    + intros [Hw ([a e'] & -> & Hin%elem_of_map_to_list)]. split; [by exists a|done].
    + intros [[a Ha] Hw]. split; [done|]. exists (a, e). split; [done|]. by apply elem_of_map_to_list.
Defined.

(** An endpoint that posts twice at a height under one reading of the clock, and then above;
    an earlier one of the same key had posted there too. *)
Definition oracle_quote (i key price h : Z) : WireQuote.t :=
  honest_quote (BlockHeight.new h) sample_ratio (sample_oracle i key price).
Definition oracle_endpoint (key : Z) : NostrQuotes.t := NostrQuotes.mk (be_bytes 32 key) [] [] 0.
Definition consumer : NostrQuotes.t := NostrQuotes.mk (be_bytes 32 90) [] sample_pks 0.

Definition earlier_post : ToyRelay :=
  [NostrQuotes.event_of (be_bytes 32 11) (oracle_quote 0 11 59000 1000) 40].
Definition three_posts : (NostrQuotes.t * ToyRelay) :=
  let w := (NostrQuotes.publish 50 (oracle_quote 0 11 60000 1000) (oracle_endpoint 11, earlier_post)).2 in
  let w := (NostrQuotes.publish 50 (oracle_quote 0 11 60100 1000) w).2 in
  (NostrQuotes.publish 49 (oracle_quote 0 11 60200 1001) w).2.

Lemma posted now q (w w2 : NostrQuotes.t * ToyRelay) log :
  is_ok (NostrQuotes.publish now q w).1 = true -> posts (NostrQuotes.publish now q w).2 log w2 ->
  posts w (mkPost now q true :: log) w2.
Proof.
  destruct (NostrQuotes.publish now q w) as [x w1] eqn:E. cbn [fst snd]. intros <- Hp. by eapply posts_publish.
Qed.

Lemma latest_served_witness :
  exists quotes, NostrQuotes.fetch consumer 1000 0 three_posts.2 = (Ok quotes, three_posts.2) /\
    oracle_quote 0 11 60100 1000 ∈ quotes.
Proof.
  eexists. split; [vm_compute; reflexivity|].
  refine (proj1 (latest_served (oracle_endpoint 11, earlier_post) three_posts
    [mkPost 50 (oracle_quote 0 11 60000 1000) true] [mkPost 49 (oracle_quote 0 11 60200 1001) true]
    50 0 40 100 (oracle_quote 0 11 60100 1000) consumer _ three_posts.2 _ _ _ _ _ _ _ _ _)).
  - split; [vm_compute; congruence|]. intros a e He _. apply elem_of_list_to_map_2 in He.
    apply list_elem_of_singleton in He. injection He as _ ->. vm_compute. congruence.
  - vm_compute. congruence.
  - do 3 (eapply posted; [reflexivity|]). apply posts_none.
  - unfold clock_ok. cbn [app]. repeat (apply Forall_cons_2; [repeat split; vm_compute; congruence|]). apply Forall_nil_2.
  - vm_compute. congruence.
  - apply Forall_singleton. vm_compute. congruence.
  - vm_compute. reflexivity.
  - by left.
  - reflexivity.
Defined.

(** ** A host *)

(** A node that answers [hn_up] more calls for its height, then is down. *)
Record HostNode : Type := mkHost { hn_purse : ToyPurse; hn_up : nat }.
Definition on_purse {X} (m : ToyPurse -> X * ToyPurse) (n : HostNode) : X * HostNode :=
  let '(x, p) := m (hn_purse n) in (x, mkHost p (hn_up n)).

#[export] Instance host_rpc : Rpc HostNode := {
  getblockcount n :=
    match hn_up n with
    | O => (Err (RpcFailed "getblockcount" "connection refused"), n)
    | S up => on_purse getblockcount (mkHost (hn_purse n) up)
    end;
  getblockhash h n := if h =? 0 then (Ok (be_bytes 32 9), n) else on_purse (getblockhash h) n;
  getblock hash := on_purse (getblock hash);
  sendrawtransaction tx := on_purse (sendrawtransaction tx);
  scantxoutset spk := on_purse (scantxoutset spk);
  relayfee := on_purse relayfee
}.

Definition sample_oracle_entry (i : Z) : OracleEntry :=
  mkOracleEntry i (be_bytes 32 (11 + i)) (Some (be_bytes 32 (11 + i))) None.
Definition sample_net : StyxnetConfig :=
  mkStyxnet (mkNetwork "liquidregtest" (Some (be_bytes 32 9)))
    (Some (mkAssets (be_bytes 32 1) (be_bytes 32 2) (be_bytes 32 3)))
    (Some (mkProtocolSection 100)) (sample_oracle_entry <$> [0; 1; 2; 3; 4]) (mkNostr [ascii_bytes "wss://relay"]).

Definition sample_wallet_cfg : WalletConfig :=
  mkWalletConfig (ascii_bytes "styxnet.toml") [] None None (Some []) [] (hex sample_owner) (hex purse_key).
#[export] Instance sample_wallet_toml : Toml WalletConfig := {
  parse_toml _ := Some sample_wallet_cfg; show_toml _ := None
}.
#[export] Instance sample_keeper_toml : Toml KeeperConfig := {
  parse_toml _ := Some (mkKeeperConfig sample_wallet_cfg default_poke_lag default_refresh_lag
                          default_walkback default_poll_ms);
  show_toml _ := None
}.

Definition sample_fs : option bytes := show_toml sample_net.
Definition sample_disk : ToyDisk := (save sample_index (mkToyDisk None None)).2.
Definition sample_host (up : nat) : HostNode := mkHost (mkPurse false (purse_coins 3000000 2000000)) up.

(** Three oracles' quotes, at the relay. *)
Definition heard (price h : Z) : ToyRelay :=
  (fun i => NostrQuotes.event_of (be_bytes 32 (11 + i)) (oracle_quote i (11 + i) price h) 50) <$> [0; 2; 4].

(** ** The watchtower *)

Definition sample_attempts (up : nat) : list (Daemon.Attempt (N := HostNode) (D := ToyDisk) (F := option bytes)) :=
  [Daemon.mkAttempt sample_fs (sample_host 0) (mkToyDisk None None) 0; Daemon.mkAttempt sample_fs (sample_host up) sample_disk 2].

(** It hears, acts, and loses its node for good. *)
Definition sample_inputs : list (Z * list (result RecvError Notification)) :=
  [(1000000000, (fun e => Ok (NEvent e)) <$> heard 60000 999); (2000000000, []);
   (300000000000, [Err (RecvLagged 4)]); (602000000000, []); (603000000000, [])].

Abbreviation sample_start :=
  (Daemon.start (F := option bytes) (R := ToyRelay) [] sample_fs (sample_attempts 2) (be_bytes 32 90) [])
  (only parsing).

(** A start, and a run of one pass that acts and sends a transaction and three that find the
    node down. *)
Definition acted_then_down (x : result StartError (Daemon.Started (N := HostNode) (D := ToyDisk)) * ToyRelay) : bool :=
  match x.1 with
  | Ok (Daemon.Up s) =>
      bool_decide (Daemon.node_down_since s = None) &&
      match Daemon.run sample_inputs s with
      | Some ([Watched (Some (_, Ok (Some _))); Unsynced _ _; Unsynced _ _; Unsynced _ _],
              Some (NodeDown 600 _), s') =>
          bool_decide (length (Wallet.sent (Keeper.purse (Daemon.keeper s'))) = 1%nat)
      | _ => false
      end
  | _ => false
  end.

Lemma acted_inv x :
  acted_then_down x = true ->
  exists s r passes e s', x = (Ok (Daemon.Up s), r) /\ Daemon.node_down_since s = None /\
    Daemon.run sample_inputs s = Some (passes, Some (NodeDown 600 e), s') /\
    length (Wallet.sent (Keeper.purse (Daemon.keeper s'))) = 1%nat.
Proof.
  destruct x as [[[s| |]|e] r]; [|done..]. unfold acted_then_down. cbn [fst].
  intros [Hn%bool_decide_eq_true Hr]%andb_true_iff. exists s, r.
  destruct (Daemon.run sample_inputs s) as [[[passes v] s']|]; [|done]. repeat case_match; try done.
  apply bool_decide_eq_true in Hr. by eexists _, _, _.
Qed.

Lemma sample_ran :
  exists s r passes e s', sample_start = (Ok (Daemon.Up s), r) /\ Daemon.node_down_since s = None /\
    Daemon.run sample_inputs s = Some (passes, Some (NodeDown 600 e), s') /\
    length (Wallet.sent (Keeper.purse (Daemon.keeper s'))) = 1%nat.
Proof. apply acted_inv. vm_compute. reflexivity. Qed.



(** ** A command *)

#[export] Instance host_wallet : WalletRpc HostNode bytes := {
  text_value b := b;
  getnewaddress n := (Ok (Some []), n);
  generatetoaddress _ _ n := (Ok tt, n);
  getblockchaininfo_chain n := (Ok None, n);
  listunspent n := (Ok None, n);
  gettransaction_hex _ n := (Ok None, n);
  signrawtransaction_hex _ n := (Ok None, n);
  gettxout_null _ n := (Ok false, n);
  createrawtransaction _ _ n := (Ok [], n);
  rawissueasset _ _ n := (Ok None, n)
}.
#[export] Instance host_clock : Clock HostNode := { instant _ := 0; sleep _ n := n }.

Definition run_command (cmd : Cmd) : result CliError Printed * option (Wallet.t HostNode ToyDisk * ToyRelay) :=
  Cli.run (F := option bytes) (J := bytes) (A := Script) (mkCli (Some []) cmd)
    (be_bytes 32 91, be_bytes 32 92, be_bytes 32 90) sample_fs (sample_host 9) sample_disk (heard 60000 997).


(** ** The public page *)

#[export] Instance sample_explorer_toml : Toml ExplorerConfig := {
  parse_toml _ := Some (mkExplorerConfig [] [] None None (Some []) [] default_explorer_listen
                          default_explorer_poll_ms None);
  show_toml _ := None
}.

Abbreviation sample_site :=
  (PublicSite.start (F := option bytes) [] sample_fs sample_disk (sample_host 9)) (only parsing).

(** Steps of the quote loop, each with what arrived. *)
Fixpoint page_run (site : Site) (l : list (list Relay.Event)) (p : Public HostNode) (r : ToyRelay)
    : option (Public HostNode * ToyRelay) :=
  match l with
  | [] => Some (p, r)
  | events :: l =>
      '(p, r) ← PublicSite.quote_step (si_net site) (be_bytes 32 90) 7
                  ((fun e => Ok (NEvent e)) <$> events) p r;
      page_run site l p r
  end.

Lemma page_run_publishes site l (p p' : Public HostNode) (r r' : ToyRelay) :
  page_run site l p r = Some (p', r') -> publishes (D := ToyDisk) site p p'.
Proof.
  revert p r. induction l as [|events l IH]; intros p r; cbn [page_run].
  { intros [= <- _]. apply publishes_none. }
  intros ([p1 r1] & Hq & Hr)%bind_Some. eapply publishes_quote; [exact Hq|]. by eapply IH.
Qed.

(** A subscription, the three quotes, and the first once more under the label of another
    oracle's author. *)
Definition page_inputs : list (list Relay.Event) := [] :: ((fun e => [e]) <$> heard 60000 997).
Definition other_label : bytes := ascii_bytes "not this oracle".
Definition first_quote : WireQuote.t := oracle_quote 0 11 60000 997.

Definition page_facts (site : Site) (p : Public HostNode) : bool :=
  bool_decide (PublicSite.loop_on (R := ToyRelay) (si_net site) = true) &&
  bool_decide (is_Some (Explorer.tick 8 (pb_shown p))) &&
  match pb_sub p with
  | Some sub => bool_decide (NostrQuotes.notifications sub = []) &&
      bool_decide (be_bytes 32 12 ∈ NostrQuotes.authors sub)
  | None => false
  end &&
  match QuoteBook.insert (pb_book p) first_quote (BlockHeight.new (ix_height (Explorer.index (pb_shown p)))) with
  | Some (Ok _) => true | _ => false
  end &&
  bool_decide (is_Some (Explorer.slot_name (pb_shown p) !! 0%nat)).

Lemma page_vouched_witness :
  exists site n p r tick p', sample_site = (Ok site, n) /\
    page_run site page_inputs (PublicSite.boot (sample_host 9) site) [] = Some (p, r) /\
    Explorer.tick 8 (pb_shown p) = Some tick /\ tick_signed (oracle_pks (ctx_params (si_ctx site))) tick /\
    publishes (D := ToyDisk) (R := ToyRelay) site p p' /\
    Explorer.slot_name (pb_shown p') !! 0%nat = Some (Some other_label).
Proof.
  assert (Hb : match sample_site with
    | (Ok site, _) => match page_run site page_inputs (PublicSite.boot (sample_host 9) site) [] with
        | Some (p, _) => page_facts site p | None => false end
    | _ => false end = true) by (vm_compute; reflexivity).
  destruct sample_site as [[site|e] n] eqn:Es; [|discriminate Hb].
  destruct (page_run site page_inputs (PublicSite.boot (sample_host 9) site) []) as [[p r]|] eqn:Er; [|discriminate Hb].
  unfold page_facts in Hb. repeat (apply andb_true_iff in Hb as [Hb ?]). apply bool_decide_eq_true in Hb.
  destruct (Explorer.tick 8 (pb_shown p)) as [tick|] eqn:Et; [|by apply bool_decide_eq_true in H2 as [? ?]].
  destruct (pb_sub p) as [sub|] eqn:Esub; [|discriminate H1]. apply andb_true_iff in H1 as [Hn%bool_decide_eq_true Ha%bool_decide_eq_true].
  destruct (QuoteBook.insert (pb_book p) first_quote _) as [[b|]|] eqn:Ei; [|discriminate H0..].
  apply bool_decide_eq_true in H.
  destruct (page_vouched (N := HostNode) (D := ToyDisk) (F := option bytes) (R := ToyRelay) [] sample_fs sample_disk (sample_host 9) n (sample_host 9) site p toy_serde_typed Es
    (page_run_publishes _ _ _ _ _ _ Er)) as (_ & Ht & _ & Hl).
  destruct (Hl sub first_quote b other_label (be_bytes 32 12) 51 7 (be_bytes 32 90) [] Hb Esub Hn Ei H Ha
    ltac:(discriminate) ltac:(vm_compute; reflexivity)) as (p' & Hq & Hname).
  exists site, n, p, r, tick, p'. split; [reflexivity|]. split; [exact Er|]. split; [exact Et|].
  split; [exact (proj1 (Ht 8 tick Et))|]. split; [|exact Hname].
  eapply publishes_quote; [exact Hq|apply publishes_none].
Defined.

(** ** The canonical scenarios *)

Lemma scenarios_accept_witness :
  exists d s, Testkit.get = Some d /\ Testkit.redeem_underbacked d = Some s /\ accepted d (Testkit.sc_plan s).
Proof.
  assert (Hg : bool_decide (is_Some Testkit.get) = true) by (vm_compute; reflexivity).
  apply bool_decide_eq_true in Hg as [d Hd]. exists d.
  assert (H32 : keys_are_32) by (intros kp Hk; exact Hk).
  destruct (scenarios_accept d H32 Hd) as (Ha & _ & _).
  destruct (Ha Testkit.redeem_underbacked) as (s & Hs & Hacc); [rewrite !elem_of_cons; tauto|].
  exists s. split; [exact Hd|]. split; [exact Hs|exact Hacc].
Defined.
